(** * F1 25 telemetry backend: decoder and reconciliation engine

    A shallow embedding of [src/backend/server.js].  The program keeps its
    state in module-level variables and mutates them from one UDP callback;
    here the variables are the fields of one [State] record and every handler
    is a function from the datagram and the state to the next state.

    Conventions of the embedding.
    - A JavaScript number that the program only ever uses as an integer is a
      [Z].  Every value read from a datagram is below 2^64 and the program
      adds or subtracts a handful of them, so no computation leaves the range
      in which JavaScript numbers are exact.
    - [null] and [undefined] are both [None]: the program tells them apart
      nowhere ([== null], [!= null], [??] and [?.] treat them alike, and the
      two [=== null] tests are on variables initialised to [null]).
    - A 32-bit float read from a datagram is kept as its bit pattern
      ([float32]); the handlers only store and forward these values.
    - A [Map] is an association list in insertion order ([JSMap]).
    - A [Buffer] read past the end throws [RangeError] in Node.js; the readers
      return a [result], and an uncaught throw ends the handler.
    - [broadcastState] sends [lapsState] to every viewer; a handler returns
      the documents it sent next to the state.

    Left out: the HTTP file server, the WebSocket transport, the timers and
    random numbers of the demo feed (its recomputation of the personal bests
    is embedded) and the wall-clock timer that clears [isConnected]; none of
    them writes the variables the handlers work on, the timer's flag apart. *)

From Stdlib Require Import ZArith List Bool Lia.
From Stdlib Require Import Strings.Byte.
From Stdlib Require Import Sorted Permutation.
Import ListNotations.
Open Scope Z_scope.

Set Implicit Arguments.

(** ** Exceptions *)

Inductive result (A : Type) : Type :=
| Ok (a : A)
| RangeError.

Arguments Ok {A} a.
Arguments RangeError {A}.

Definition bind {A B : Type} (r : result A) (k : A -> result B) : result B :=
  match r with
  | Ok a => k a
  | RangeError => RangeError
  end.

Notation "x <- e ;; k" := (bind e (fun x => k))
  (at level 61, e at next level, right associativity).

(** ** Buffers *)

Definition Buffer := list byte.
Definition float32 := Z.

Definition buf_length (buf : Buffer) : Z := Z.of_nat (length buf).

(** [buf[o]] for an index inside the buffer. *)
Definition byteAt (buf : Buffer) (o : Z) : Z :=
  Z.of_N (Byte.to_N (nth (Z.to_nat o) buf x00)).

Definition inBounds (buf : Buffer) (o n : Z) : bool :=
  (0 <=? o) && (o + n <=? buf_length buf).

Definition u16At (buf : Buffer) (o : Z) : Z :=
  byteAt buf o + 256 * byteAt buf (o + 1).

Definition u32At (buf : Buffer) (o : Z) : Z :=
  byteAt buf o + 256 * byteAt buf (o + 1) + 65536 * byteAt buf (o + 2)
  + 16777216 * byteAt buf (o + 3).

Definition u64At (buf : Buffer) (o : Z) : Z :=
  u32At buf o + 4294967296 * u32At buf (o + 4).

Definition readUInt8 (buf : Buffer) (o : Z) : result Z :=
  if inBounds buf o 1 then Ok (byteAt buf o) else RangeError.

Definition readInt8 (buf : Buffer) (o : Z) : result Z :=
  if inBounds buf o 1
  then Ok (if byteAt buf o <? 128 then byteAt buf o else byteAt buf o - 256)
  else RangeError.

Definition readUInt16LE (buf : Buffer) (o : Z) : result Z :=
  if inBounds buf o 2 then Ok (u16At buf o) else RangeError.

Definition readUInt32LE (buf : Buffer) (o : Z) : result Z :=
  if inBounds buf o 4 then Ok (u32At buf o) else RangeError.

Definition readBigUInt64LE (buf : Buffer) (o : Z) : result Z :=
  if inBounds buf o 8 then Ok (u64At buf o) else RangeError.

Definition readFloatLE (buf : Buffer) (o : Z) : result float32 :=
  if inBounds buf o 4 then Ok (u32At buf o) else RangeError.

(** [buf.subarray(a, b)] for [0 <= a <= b]: clamped to the buffer, never throws. *)
Definition subarray (buf : Buffer) (a b : Z) : Buffer :=
  firstn (Z.to_nat (b - a)) (skipn (Z.to_nat a) buf).

(** ** Maps

    A JavaScript [Map] with number keys.  Iteration follows insertion order;
    [set] on a present key keeps its place. *)

Definition JSMap (V : Type) : Type := list (Z * V).

Section JSMapOps.
Variable V : Type.

Fixpoint map_get (k : Z) (m : JSMap V) : option V :=
  match m with
  | [] => None
  | (k', v) :: m' => if k' =? k then Some v else map_get k m'
  end.

Definition map_has (k : Z) (m : JSMap V) : bool :=
  match map_get k m with Some _ => true | None => false end.

Fixpoint map_set (k : Z) (v : V) (m : JSMap V) : JSMap V :=
  match m with
  | [] => [(k, v)]
  | (k', v') :: m' =>
      if k' =? k then (k', v) :: m' else (k', v') :: map_set k v m'
  end.

Definition map_delete (k : Z) (m : JSMap V) : JSMap V :=
  filter (fun kv => negb (fst kv =? k)) m.

Definition map_keys (m : JSMap V) : list Z := map fst m.
Definition map_values (m : JSMap V) : list V := map snd m.
Definition map_clear (m : JSMap V) : JSMap V := [].

(** [new Map(pairs)]: later pairs win. *)
Definition map_of_pairs (l : list (Z * V)) : JSMap V :=
  fold_left (fun m kv => map_set (fst kv) (snd kv) m) l [].
End JSMapOps.

(** [Array.prototype.sort(cmp)]: stable; [cmp a b <= 0] keeps [a] before [b]. *)
Section Sort.
Variable A : Type.
Variable cmp : A -> A -> Z.

Fixpoint sort_insert (x : A) (l : list A) : list A :=
  match l with
  | [] => [x]
  | y :: l' => if cmp x y <=? 0 then x :: y :: l' else y :: sort_insert x l'
  end.

Definition js_sort (l : list A) : list A := fold_right sort_insert [] l.
End Sort.

(** A participant name: the UTF-8 bytes of the string. *)
Definition Name := list byte.

Inductive SessionKind : Type := time_trial | race | time_attack.

Definition SessionKind_eqb (a b : SessionKind) : bool :=
  match a, b with
  | time_trial, time_trial | race, race | time_attack, time_attack => true
  | _, _ => false
  end.

(** ** Protocol constants *)

Definition PACKET_ID_SESSION : Z := 1.
Definition PACKET_ID_LAP_DATA : Z := 2.
Definition PACKET_ID_PARTICIPANTS : Z := 4.
Definition PACKET_ID_CAR_TELEMETRY : Z := 6.
Definition PACKET_ID_SESSION_HISTORY : Z := 11.
Definition PACKET_ID_CAR_STATUS : Z := 7.
Definition PACKET_ID_CAR_DAMAGE : Z := 10.
Definition HEADER_SIZE : Z := 29.
Definition NUM_CARS : Z := 22.
Definition LAP_DATA_SIZE : Z := 57.
Definition CAR_STATUS_DATA_SIZE : Z := 55.
Definition CAR_TELEMETRY_DATA_SIZE : Z := 60.
Definition PARTICIPANT_DATA_SIZE : Z := 57.
Definition LAP_HISTORY_DATA_SIZE : Z := 14.
Definition CAR_DAMAGE_DATA_SIZE : Z := 46.

(** ** Records *)

(** PacketHeader as [parseHeader] returns it. *)
Module Header.
Record t : Type := mk {
  packetFormat : Z;
  gameYear : Z;
  gameMajorVersion : Z;
  gameMinorVersion : Z;
  packetVersion : Z;
  packetId : Z;
  sessionUID : Z;
  sessionTime : float32;
  frameIdentifier : Z;
  overallFrameIdentifier : Z;
  playerCarIndex : Z;
  secondaryPlayerCarIndex : Z
}.
End Header.

(** The record [parseLapDataForCar] returns for one car slot. *)
Module LapData.
Record t : Type := mk {
  lastLapTimeInMS : Z;
  currentLapTimeInMS : Z;
  sector1TimeMs : option Z;
  sector2TimeMs : option Z;
  sector3TimeMs : option Z;
  deltaToRaceLeaderMs : option Z;
  deltaToCarInFrontMs : option Z;
  lapDistance : float32;
  totalDistance : float32;
  safetyCarDelta : float32;
  carPosition : Z;
  currentLapNum : Z;
  pitStatus : Z;
  numPitStops : Z;
  sector : Z;
  currentLapInvalid : Z;
  penaltiesSec : Z;
  totalWarnings : Z;
  cornerCuttingWarnings : Z;
  numUnservedDriveThroughPens : Z;
  numUnservedStopGoPens : Z;
  gridPosition : Z;
  driverStatus : Z;
  resultStatus : Z;
  pitLaneTimerActive : Z;
  pitLaneTimeInLaneInMS : Z;
  pitStopTimerInMS : Z;
  pitStopShouldServePen : Z;
  speedTrapFastestSpeed : float32;
  speedTrapFastestLap : Z
}.

Definition set_sector1TimeMs (v : option Z) (r : t) : t :=
  mk (lastLapTimeInMS r) (currentLapTimeInMS r) v (sector2TimeMs r)
    (sector3TimeMs r) (deltaToRaceLeaderMs r) (deltaToCarInFrontMs r)
    (lapDistance r) (totalDistance r) (safetyCarDelta r) (carPosition r)
    (currentLapNum r) (pitStatus r) (numPitStops r) (sector r)
    (currentLapInvalid r) (penaltiesSec r) (totalWarnings r)
    (cornerCuttingWarnings r) (numUnservedDriveThroughPens r)
    (numUnservedStopGoPens r) (gridPosition r) (driverStatus r)
    (resultStatus r) (pitLaneTimerActive r) (pitLaneTimeInLaneInMS r)
    (pitStopTimerInMS r) (pitStopShouldServePen r) (speedTrapFastestSpeed r)
    (speedTrapFastestLap r).

Definition set_sector2TimeMs (v : option Z) (r : t) : t :=
  mk (lastLapTimeInMS r) (currentLapTimeInMS r) (sector1TimeMs r) v
    (sector3TimeMs r) (deltaToRaceLeaderMs r) (deltaToCarInFrontMs r)
    (lapDistance r) (totalDistance r) (safetyCarDelta r) (carPosition r)
    (currentLapNum r) (pitStatus r) (numPitStops r) (sector r)
    (currentLapInvalid r) (penaltiesSec r) (totalWarnings r)
    (cornerCuttingWarnings r) (numUnservedDriveThroughPens r)
    (numUnservedStopGoPens r) (gridPosition r) (driverStatus r)
    (resultStatus r) (pitLaneTimerActive r) (pitLaneTimeInLaneInMS r)
    (pitStopTimerInMS r) (pitStopShouldServePen r) (speedTrapFastestSpeed r)
    (speedTrapFastestLap r).

Definition set_sector3TimeMs (v : option Z) (r : t) : t :=
  mk (lastLapTimeInMS r) (currentLapTimeInMS r) (sector1TimeMs r)
    (sector2TimeMs r) v (deltaToRaceLeaderMs r) (deltaToCarInFrontMs r)
    (lapDistance r) (totalDistance r) (safetyCarDelta r) (carPosition r)
    (currentLapNum r) (pitStatus r) (numPitStops r) (sector r)
    (currentLapInvalid r) (penaltiesSec r) (totalWarnings r)
    (cornerCuttingWarnings r) (numUnservedDriveThroughPens r)
    (numUnservedStopGoPens r) (gridPosition r) (driverStatus r)
    (resultStatus r) (pitLaneTimerActive r) (pitLaneTimeInLaneInMS r)
    (pitStopTimerInMS r) (pitStopShouldServePen r) (speedTrapFastestSpeed r)
    (speedTrapFastestLap r).
End LapData.

(** One lap of the session history, as [parseLapHistoryEntry] returns it. *)
Module HistEntry.
Record t : Type := mk {
  lapTimeMs : option Z;
  sector1TimeMs : option Z;
  sector2TimeMs : option Z;
  sector3TimeMs : option Z;
  validFlags : Z
}.
End HistEntry.

(** CarStatusData of one car, as [parseCarStatusForCar] returns it. *)
Module CarStatus.
Record t : Type := mk {
  tractionControl : Z;
  antiLockBrakes : Z;
  fuelMix : Z;
  frontBrakeBias : Z;
  pitLimiterStatus : Z;
  fuelInTank : float32;
  fuelCapacity : float32;
  fuelRemainingLaps : float32;
  maxRPM : Z;
  idleRPM : Z;
  maxGears : Z;
  drsAllowed : Z;
  drsActivationDistance : Z;
  actualTyreCompound : Z;
  visualTyreCompound : Z;
  tyresAgeLaps : Z;
  vehicleFIAFlags : Z;
  enginePowerICE : float32;
  enginePowerMGUK : float32;
  ersStoreEnergy : float32;
  ersDeployMode : Z;
  ersHarvestedThisLapMGUK : float32;
  ersHarvestedThisLapMGUH : float32;
  ersDeployedThisLap : float32;
  networkPaused : Z
}.
End CarStatus.

(** CarTelemetryData of one car, as [parseCarTelemetryForCar] returns it. *)
Module CarTelemetry.
Record t : Type := mk {
  speedKph : Z;
  throttle : float32;
  steer : float32;
  brake : float32;
  clutch : Z;
  gear : Z;
  engineRPM : Z;
  drs : Z;
  revLightsPercent : Z;
  revLightsBitValue : Z;
  brakesTemperature : list Z;
  tyresSurfaceTemperature : list Z;
  tyresInnerTemperature : list Z;
  engineTemperature : Z;
  tyresPressure : list float32;
  surfaceType : list Z
}.
End CarTelemetry.

(** CarDamageData of one car, as [parseCarDamageForCar] returns it. *)
Module CarDamage.
Record t : Type := mk {
  tyresWear : list float32;
  tyresDamage : list Z;
  brakesDamage : list Z;
  tyreBlisters : list Z;
  frontLeftWingDamage : Z;
  frontRightWingDamage : Z;
  rearWingDamage : Z;
  floorDamage : Z;
  diffuserDamage : Z;
  sidepodDamage : Z;
  drsFault : Z;
  ersFault : Z;
  gearBoxDamage : Z;
  engineDamage : Z;
  engineMGUHWear : Z;
  engineESWear : Z;
  engineCEWear : Z;
  engineICEWear : Z;
  engineMGUKWear : Z;
  engineTCWear : Z;
  engineBlown : Z;
  engineSeized : Z
}.
End CarDamage.

(** liveryColours[0] of a participant. *)
Module Colour.
Record t : Type := mk {
  r : Z;
  g : Z;
  b : Z
}.
End Colour.

(** What [parseParticipantMeta] returns. *)
Module ParticipantMeta.
Record t : Type := mk {
  teamId : Z;
  numColours : Z;
  colour : Colour.t
}.
End ParticipantMeta.

(** A value of [tyreByLapStart]: the tyres seen when a lap number was first observed. *)
Module TyreSnap.
Record t : Type := mk {
  tyreActualCompound : option Z;
  tyreVisualCompound : option Z;
  tyresAgeLaps : option Z
}.
End TyreSnap.

(** A value of [sectorCacheByIndex]. *)
Module SectorCache.
Record t : Type := mk {
  sector1TimeMs : option Z;
  sector2TimeMs : option Z;
  sector3TimeMs : option Z
}.
End SectorCache.

(** A value of [pitLaneStintByIndex]: the pit-lane stint of one car. *)
Module PitStint.
Record t : Type := mk {
  active : bool;
  startLapNum : option Z;
  maxTimeMs : Z;
  statusMax : Z;
  lastTimeMs : option Z;
  lastStatusMax : Z;
  lastLapNum : option Z
}.

Definition set_active (v : bool) (r : t) : t :=
  mk v (startLapNum r) (maxTimeMs r) (statusMax r) (lastTimeMs r)
    (lastStatusMax r) (lastLapNum r).

Definition set_startLapNum (v : option Z) (r : t) : t :=
  mk (active r) v (maxTimeMs r) (statusMax r) (lastTimeMs r) (lastStatusMax r)
    (lastLapNum r).

Definition set_maxTimeMs (v : Z) (r : t) : t :=
  mk (active r) (startLapNum r) v (statusMax r) (lastTimeMs r)
    (lastStatusMax r) (lastLapNum r).

Definition set_statusMax (v : Z) (r : t) : t :=
  mk (active r) (startLapNum r) (maxTimeMs r) v (lastTimeMs r)
    (lastStatusMax r) (lastLapNum r).

Definition set_lastTimeMs (v : option Z) (r : t) : t :=
  mk (active r) (startLapNum r) (maxTimeMs r) (statusMax r) v
    (lastStatusMax r) (lastLapNum r).

Definition set_lastStatusMax (v : Z) (r : t) : t :=
  mk (active r) (startLapNum r) (maxTimeMs r) (statusMax r) (lastTimeMs r) v
    (lastLapNum r).

Definition set_lastLapNum (v : option Z) (r : t) : t :=
  mk (active r) (startLapNum r) (maxTimeMs r) (statusMax r) (lastTimeMs r)
    (lastStatusMax r) v.
End PitStint.

(** A row of the personal lap table: a value of [lapsByNumber], and the shape of
    [lapsState.currentLap]. *)
Module LapEntry.
Record t : Type := mk {
  lapNumber : Z;
  lapTimeMs : option Z;
  deltaMs : option Z;
  valid : bool;
  isBest : bool;
  sector1TimeMs : option Z;
  sector2TimeMs : option Z;
  sector3TimeMs : option Z;
  tyreActualCompound : option Z;
  tyreVisualCompound : option Z;
  tyresAgeLaps : option Z;
  pitStatus : Z;
  pitLaneTimeMs : option Z;
  numPitStops : Z
}.

Definition set_lapTimeMs (v : option Z) (r : t) : t :=
  mk (lapNumber r) v (deltaMs r) (valid r) (isBest r) (sector1TimeMs r)
    (sector2TimeMs r) (sector3TimeMs r) (tyreActualCompound r)
    (tyreVisualCompound r) (tyresAgeLaps r) (pitStatus r) (pitLaneTimeMs r)
    (numPitStops r).

Definition set_deltaMs (v : option Z) (r : t) : t :=
  mk (lapNumber r) (lapTimeMs r) v (valid r) (isBest r) (sector1TimeMs r)
    (sector2TimeMs r) (sector3TimeMs r) (tyreActualCompound r)
    (tyreVisualCompound r) (tyresAgeLaps r) (pitStatus r) (pitLaneTimeMs r)
    (numPitStops r).

Definition set_isBest (v : bool) (r : t) : t :=
  mk (lapNumber r) (lapTimeMs r) (deltaMs r) (valid r) v (sector1TimeMs r)
    (sector2TimeMs r) (sector3TimeMs r) (tyreActualCompound r)
    (tyreVisualCompound r) (tyresAgeLaps r) (pitStatus r) (pitLaneTimeMs r)
    (numPitStops r).

Definition set_sector1TimeMs (v : option Z) (r : t) : t :=
  mk (lapNumber r) (lapTimeMs r) (deltaMs r) (valid r) (isBest r) v
    (sector2TimeMs r) (sector3TimeMs r) (tyreActualCompound r)
    (tyreVisualCompound r) (tyresAgeLaps r) (pitStatus r) (pitLaneTimeMs r)
    (numPitStops r).

Definition set_sector2TimeMs (v : option Z) (r : t) : t :=
  mk (lapNumber r) (lapTimeMs r) (deltaMs r) (valid r) (isBest r)
    (sector1TimeMs r) v (sector3TimeMs r) (tyreActualCompound r)
    (tyreVisualCompound r) (tyresAgeLaps r) (pitStatus r) (pitLaneTimeMs r)
    (numPitStops r).

Definition set_sector3TimeMs (v : option Z) (r : t) : t :=
  mk (lapNumber r) (lapTimeMs r) (deltaMs r) (valid r) (isBest r)
    (sector1TimeMs r) (sector2TimeMs r) v (tyreActualCompound r)
    (tyreVisualCompound r) (tyresAgeLaps r) (pitStatus r) (pitLaneTimeMs r)
    (numPitStops r).

Definition set_pitStatus (v : Z) (r : t) : t :=
  mk (lapNumber r) (lapTimeMs r) (deltaMs r) (valid r) (isBest r)
    (sector1TimeMs r) (sector2TimeMs r) (sector3TimeMs r)
    (tyreActualCompound r) (tyreVisualCompound r) (tyresAgeLaps r) v
    (pitLaneTimeMs r) (numPitStops r).

Definition set_pitLaneTimeMs (v : option Z) (r : t) : t :=
  mk (lapNumber r) (lapTimeMs r) (deltaMs r) (valid r) (isBest r)
    (sector1TimeMs r) (sector2TimeMs r) (sector3TimeMs r)
    (tyreActualCompound r) (tyreVisualCompound r) (tyresAgeLaps r)
    (pitStatus r) v (numPitStops r).
End LapEntry.

(** [lapsState.currentPenalties]. *)
Module Penalties.
Record t : Type := mk {
  penaltiesSec : Z;
  totalWarnings : Z;
  cornerCuttingWarnings : Z;
  numUnservedDriveThroughPens : Z;
  numUnservedStopGoPens : Z;
  pitStopShouldServePen : Z
}.
End Penalties.

(** A row of the leaderboard [lapsState.raceCars]. *)
Module RaceCar.
Record t : Type := mk {
  carIndex : Z;
  name : option Name;
  teamId : option Z;
  teamColour : option Colour.t;
  position : Z;
  lapNumber : Z;
  lapTimeMs : option Z;
  bestLapTimeMs : option Z;
  bestLapNum : option Z;
  gapToLeaderMs : option Z;
  gapToCarAheadMs : option Z;
  sector1TimeMs : option Z;
  sector2TimeMs : option Z;
  sector3TimeMs : option Z;
  tyreActualCompound : option Z;
  tyreVisualCompound : option Z;
  tyresAgeLaps : option Z;
  pitStatus : Z;
  pitLaneTimeMs : option Z;
  stops : Z;
  lapDistance : float32
}.

Definition set_gapToCarAheadMs (v : option Z) (r : t) : t :=
  mk (carIndex r) (name r) (teamId r) (teamColour r) (position r)
    (lapNumber r) (lapTimeMs r) (bestLapTimeMs r) (bestLapNum r)
    (gapToLeaderMs r) v (sector1TimeMs r) (sector2TimeMs r) (sector3TimeMs r)
    (tyreActualCompound r) (tyreVisualCompound r) (tyresAgeLaps r)
    (pitStatus r) (pitLaneTimeMs r) (stops r) (lapDistance r).
End RaceCar.

(** The global [playerState]. *)
Module PlayerState.
Record t : Type := mk {
  sessionUID : option Z;
  currentLapNum : option Z;
  currentLapInvalid : Z;
  currentSector1TimeMs : option Z;
  currentSector2TimeMs : option Z;
  currentTyreActualCompound : option Z;
  currentTyreVisualCompound : option Z;
  currentTyresAgeLaps : option Z;
  pitLaneActive : bool;
  pitLaneStartLapNum : option Z;
  pitLaneMaxTimeMs : Z;
  pitLanePitStatusMax : Z
}.

Definition set_sessionUID (v : option Z) (r : t) : t :=
  mk v (currentLapNum r) (currentLapInvalid r) (currentSector1TimeMs r)
    (currentSector2TimeMs r) (currentTyreActualCompound r)
    (currentTyreVisualCompound r) (currentTyresAgeLaps r) (pitLaneActive r)
    (pitLaneStartLapNum r) (pitLaneMaxTimeMs r) (pitLanePitStatusMax r).

Definition set_currentLapNum (v : option Z) (r : t) : t :=
  mk (sessionUID r) v (currentLapInvalid r) (currentSector1TimeMs r)
    (currentSector2TimeMs r) (currentTyreActualCompound r)
    (currentTyreVisualCompound r) (currentTyresAgeLaps r) (pitLaneActive r)
    (pitLaneStartLapNum r) (pitLaneMaxTimeMs r) (pitLanePitStatusMax r).

Definition set_currentLapInvalid (v : Z) (r : t) : t :=
  mk (sessionUID r) (currentLapNum r) v (currentSector1TimeMs r)
    (currentSector2TimeMs r) (currentTyreActualCompound r)
    (currentTyreVisualCompound r) (currentTyresAgeLaps r) (pitLaneActive r)
    (pitLaneStartLapNum r) (pitLaneMaxTimeMs r) (pitLanePitStatusMax r).

Definition set_currentSector1TimeMs (v : option Z) (r : t) : t :=
  mk (sessionUID r) (currentLapNum r) (currentLapInvalid r) v
    (currentSector2TimeMs r) (currentTyreActualCompound r)
    (currentTyreVisualCompound r) (currentTyresAgeLaps r) (pitLaneActive r)
    (pitLaneStartLapNum r) (pitLaneMaxTimeMs r) (pitLanePitStatusMax r).

Definition set_currentSector2TimeMs (v : option Z) (r : t) : t :=
  mk (sessionUID r) (currentLapNum r) (currentLapInvalid r)
    (currentSector1TimeMs r) v (currentTyreActualCompound r)
    (currentTyreVisualCompound r) (currentTyresAgeLaps r) (pitLaneActive r)
    (pitLaneStartLapNum r) (pitLaneMaxTimeMs r) (pitLanePitStatusMax r).

Definition set_currentTyreActualCompound (v : option Z) (r : t) : t :=
  mk (sessionUID r) (currentLapNum r) (currentLapInvalid r)
    (currentSector1TimeMs r) (currentSector2TimeMs r) v
    (currentTyreVisualCompound r) (currentTyresAgeLaps r) (pitLaneActive r)
    (pitLaneStartLapNum r) (pitLaneMaxTimeMs r) (pitLanePitStatusMax r).

Definition set_currentTyreVisualCompound (v : option Z) (r : t) : t :=
  mk (sessionUID r) (currentLapNum r) (currentLapInvalid r)
    (currentSector1TimeMs r) (currentSector2TimeMs r)
    (currentTyreActualCompound r) v (currentTyresAgeLaps r) (pitLaneActive r)
    (pitLaneStartLapNum r) (pitLaneMaxTimeMs r) (pitLanePitStatusMax r).

Definition set_currentTyresAgeLaps (v : option Z) (r : t) : t :=
  mk (sessionUID r) (currentLapNum r) (currentLapInvalid r)
    (currentSector1TimeMs r) (currentSector2TimeMs r)
    (currentTyreActualCompound r) (currentTyreVisualCompound r) v
    (pitLaneActive r) (pitLaneStartLapNum r) (pitLaneMaxTimeMs r)
    (pitLanePitStatusMax r).

Definition set_pitLaneActive (v : bool) (r : t) : t :=
  mk (sessionUID r) (currentLapNum r) (currentLapInvalid r)
    (currentSector1TimeMs r) (currentSector2TimeMs r)
    (currentTyreActualCompound r) (currentTyreVisualCompound r)
    (currentTyresAgeLaps r) v (pitLaneStartLapNum r) (pitLaneMaxTimeMs r)
    (pitLanePitStatusMax r).

Definition set_pitLaneStartLapNum (v : option Z) (r : t) : t :=
  mk (sessionUID r) (currentLapNum r) (currentLapInvalid r)
    (currentSector1TimeMs r) (currentSector2TimeMs r)
    (currentTyreActualCompound r) (currentTyreVisualCompound r)
    (currentTyresAgeLaps r) (pitLaneActive r) v (pitLaneMaxTimeMs r)
    (pitLanePitStatusMax r).

Definition set_pitLaneMaxTimeMs (v : Z) (r : t) : t :=
  mk (sessionUID r) (currentLapNum r) (currentLapInvalid r)
    (currentSector1TimeMs r) (currentSector2TimeMs r)
    (currentTyreActualCompound r) (currentTyreVisualCompound r)
    (currentTyresAgeLaps r) (pitLaneActive r) (pitLaneStartLapNum r) v
    (pitLanePitStatusMax r).

Definition set_pitLanePitStatusMax (v : Z) (r : t) : t :=
  mk (sessionUID r) (currentLapNum r) (currentLapInvalid r)
    (currentSector1TimeMs r) (currentSector2TimeMs r)
    (currentTyreActualCompound r) (currentTyreVisualCompound r)
    (currentTyresAgeLaps r) (pitLaneActive r) (pitLaneStartLapNum r)
    (pitLaneMaxTimeMs r) v.
End PlayerState.

(** The global [lapsState]: the document sent to every viewer.  A field the
    source leaves undefined is [None], like one it sets to null. *)
Module LapsState.
Record t : Type := mk {
  liveLapTimeMs : Z;
  liveDeltaToBestMs : option Z;
  bestLapTimeMs : option Z;
  bestLapNumber : option Z;
  bestSector1TimeMs : option Z;
  bestSector2TimeMs : option Z;
  bestSector3TimeMs : option Z;
  isConnected : bool;
  sessionKind : option SessionKind;
  sessionType : option Z;
  totalLaps : option Z;
  trackId : option Z;
  trackLengthM : option Z;
  formula : option Z;
  weather : option Z;
  trackTemperatureC : option Z;
  airTemperatureC : option Z;
  sessionTimeLeftSec : option Z;
  sessionDurationSec : option Z;
  pitSpeedLimitKph : option Z;
  currentLap : option LapEntry.t;
  laps : list LapEntry.t;
  raceCars : list RaceCar.t;
  playerCarIndex : option Z;
  raceBestSector1TimeMs : option Z;
  raceBestSector2TimeMs : option Z;
  raceBestSector3TimeMs : option Z;
  raceBestSector1CarIndex : option Z;
  raceBestSector2CarIndex : option Z;
  raceBestSector3CarIndex : option Z;
  raceBestLapTimeMs : option Z;
  raceBestLapCarIndex : option Z;
  raceBestLapNum : option Z;
  currentCarStatus : option CarStatus.t;
  currentCarTelemetry : option CarTelemetry.t;
  currentPenalties : option Penalties.t;
  currentCarDamage : option CarDamage.t
}.

Definition set_liveLapTimeMs (v : Z) (r : t) : t :=
  mk v (liveDeltaToBestMs r) (bestLapTimeMs r) (bestLapNumber r)
    (bestSector1TimeMs r) (bestSector2TimeMs r) (bestSector3TimeMs r)
    (isConnected r) (sessionKind r) (sessionType r) (totalLaps r) (trackId r)
    (trackLengthM r) (formula r) (weather r) (trackTemperatureC r)
    (airTemperatureC r) (sessionTimeLeftSec r) (sessionDurationSec r)
    (pitSpeedLimitKph r) (currentLap r) (laps r) (raceCars r)
    (playerCarIndex r) (raceBestSector1TimeMs r) (raceBestSector2TimeMs r)
    (raceBestSector3TimeMs r) (raceBestSector1CarIndex r)
    (raceBestSector2CarIndex r) (raceBestSector3CarIndex r)
    (raceBestLapTimeMs r) (raceBestLapCarIndex r) (raceBestLapNum r)
    (currentCarStatus r) (currentCarTelemetry r) (currentPenalties r)
    (currentCarDamage r).

Definition set_liveDeltaToBestMs (v : option Z) (r : t) : t :=
  mk (liveLapTimeMs r) v (bestLapTimeMs r) (bestLapNumber r)
    (bestSector1TimeMs r) (bestSector2TimeMs r) (bestSector3TimeMs r)
    (isConnected r) (sessionKind r) (sessionType r) (totalLaps r) (trackId r)
    (trackLengthM r) (formula r) (weather r) (trackTemperatureC r)
    (airTemperatureC r) (sessionTimeLeftSec r) (sessionDurationSec r)
    (pitSpeedLimitKph r) (currentLap r) (laps r) (raceCars r)
    (playerCarIndex r) (raceBestSector1TimeMs r) (raceBestSector2TimeMs r)
    (raceBestSector3TimeMs r) (raceBestSector1CarIndex r)
    (raceBestSector2CarIndex r) (raceBestSector3CarIndex r)
    (raceBestLapTimeMs r) (raceBestLapCarIndex r) (raceBestLapNum r)
    (currentCarStatus r) (currentCarTelemetry r) (currentPenalties r)
    (currentCarDamage r).

Definition set_bestLapTimeMs (v : option Z) (r : t) : t :=
  mk (liveLapTimeMs r) (liveDeltaToBestMs r) v (bestLapNumber r)
    (bestSector1TimeMs r) (bestSector2TimeMs r) (bestSector3TimeMs r)
    (isConnected r) (sessionKind r) (sessionType r) (totalLaps r) (trackId r)
    (trackLengthM r) (formula r) (weather r) (trackTemperatureC r)
    (airTemperatureC r) (sessionTimeLeftSec r) (sessionDurationSec r)
    (pitSpeedLimitKph r) (currentLap r) (laps r) (raceCars r)
    (playerCarIndex r) (raceBestSector1TimeMs r) (raceBestSector2TimeMs r)
    (raceBestSector3TimeMs r) (raceBestSector1CarIndex r)
    (raceBestSector2CarIndex r) (raceBestSector3CarIndex r)
    (raceBestLapTimeMs r) (raceBestLapCarIndex r) (raceBestLapNum r)
    (currentCarStatus r) (currentCarTelemetry r) (currentPenalties r)
    (currentCarDamage r).

Definition set_bestLapNumber (v : option Z) (r : t) : t :=
  mk (liveLapTimeMs r) (liveDeltaToBestMs r) (bestLapTimeMs r) v
    (bestSector1TimeMs r) (bestSector2TimeMs r) (bestSector3TimeMs r)
    (isConnected r) (sessionKind r) (sessionType r) (totalLaps r) (trackId r)
    (trackLengthM r) (formula r) (weather r) (trackTemperatureC r)
    (airTemperatureC r) (sessionTimeLeftSec r) (sessionDurationSec r)
    (pitSpeedLimitKph r) (currentLap r) (laps r) (raceCars r)
    (playerCarIndex r) (raceBestSector1TimeMs r) (raceBestSector2TimeMs r)
    (raceBestSector3TimeMs r) (raceBestSector1CarIndex r)
    (raceBestSector2CarIndex r) (raceBestSector3CarIndex r)
    (raceBestLapTimeMs r) (raceBestLapCarIndex r) (raceBestLapNum r)
    (currentCarStatus r) (currentCarTelemetry r) (currentPenalties r)
    (currentCarDamage r).

Definition set_bestSector1TimeMs (v : option Z) (r : t) : t :=
  mk (liveLapTimeMs r) (liveDeltaToBestMs r) (bestLapTimeMs r)
    (bestLapNumber r) v (bestSector2TimeMs r) (bestSector3TimeMs r)
    (isConnected r) (sessionKind r) (sessionType r) (totalLaps r) (trackId r)
    (trackLengthM r) (formula r) (weather r) (trackTemperatureC r)
    (airTemperatureC r) (sessionTimeLeftSec r) (sessionDurationSec r)
    (pitSpeedLimitKph r) (currentLap r) (laps r) (raceCars r)
    (playerCarIndex r) (raceBestSector1TimeMs r) (raceBestSector2TimeMs r)
    (raceBestSector3TimeMs r) (raceBestSector1CarIndex r)
    (raceBestSector2CarIndex r) (raceBestSector3CarIndex r)
    (raceBestLapTimeMs r) (raceBestLapCarIndex r) (raceBestLapNum r)
    (currentCarStatus r) (currentCarTelemetry r) (currentPenalties r)
    (currentCarDamage r).

Definition set_bestSector2TimeMs (v : option Z) (r : t) : t :=
  mk (liveLapTimeMs r) (liveDeltaToBestMs r) (bestLapTimeMs r)
    (bestLapNumber r) (bestSector1TimeMs r) v (bestSector3TimeMs r)
    (isConnected r) (sessionKind r) (sessionType r) (totalLaps r) (trackId r)
    (trackLengthM r) (formula r) (weather r) (trackTemperatureC r)
    (airTemperatureC r) (sessionTimeLeftSec r) (sessionDurationSec r)
    (pitSpeedLimitKph r) (currentLap r) (laps r) (raceCars r)
    (playerCarIndex r) (raceBestSector1TimeMs r) (raceBestSector2TimeMs r)
    (raceBestSector3TimeMs r) (raceBestSector1CarIndex r)
    (raceBestSector2CarIndex r) (raceBestSector3CarIndex r)
    (raceBestLapTimeMs r) (raceBestLapCarIndex r) (raceBestLapNum r)
    (currentCarStatus r) (currentCarTelemetry r) (currentPenalties r)
    (currentCarDamage r).

Definition set_bestSector3TimeMs (v : option Z) (r : t) : t :=
  mk (liveLapTimeMs r) (liveDeltaToBestMs r) (bestLapTimeMs r)
    (bestLapNumber r) (bestSector1TimeMs r) (bestSector2TimeMs r) v
    (isConnected r) (sessionKind r) (sessionType r) (totalLaps r) (trackId r)
    (trackLengthM r) (formula r) (weather r) (trackTemperatureC r)
    (airTemperatureC r) (sessionTimeLeftSec r) (sessionDurationSec r)
    (pitSpeedLimitKph r) (currentLap r) (laps r) (raceCars r)
    (playerCarIndex r) (raceBestSector1TimeMs r) (raceBestSector2TimeMs r)
    (raceBestSector3TimeMs r) (raceBestSector1CarIndex r)
    (raceBestSector2CarIndex r) (raceBestSector3CarIndex r)
    (raceBestLapTimeMs r) (raceBestLapCarIndex r) (raceBestLapNum r)
    (currentCarStatus r) (currentCarTelemetry r) (currentPenalties r)
    (currentCarDamage r).

Definition set_isConnected (v : bool) (r : t) : t :=
  mk (liveLapTimeMs r) (liveDeltaToBestMs r) (bestLapTimeMs r)
    (bestLapNumber r) (bestSector1TimeMs r) (bestSector2TimeMs r)
    (bestSector3TimeMs r) v (sessionKind r) (sessionType r) (totalLaps r)
    (trackId r) (trackLengthM r) (formula r) (weather r) (trackTemperatureC r)
    (airTemperatureC r) (sessionTimeLeftSec r) (sessionDurationSec r)
    (pitSpeedLimitKph r) (currentLap r) (laps r) (raceCars r)
    (playerCarIndex r) (raceBestSector1TimeMs r) (raceBestSector2TimeMs r)
    (raceBestSector3TimeMs r) (raceBestSector1CarIndex r)
    (raceBestSector2CarIndex r) (raceBestSector3CarIndex r)
    (raceBestLapTimeMs r) (raceBestLapCarIndex r) (raceBestLapNum r)
    (currentCarStatus r) (currentCarTelemetry r) (currentPenalties r)
    (currentCarDamage r).

Definition set_sessionKind (v : option SessionKind) (r : t) : t :=
  mk (liveLapTimeMs r) (liveDeltaToBestMs r) (bestLapTimeMs r)
    (bestLapNumber r) (bestSector1TimeMs r) (bestSector2TimeMs r)
    (bestSector3TimeMs r) (isConnected r) v (sessionType r) (totalLaps r)
    (trackId r) (trackLengthM r) (formula r) (weather r) (trackTemperatureC r)
    (airTemperatureC r) (sessionTimeLeftSec r) (sessionDurationSec r)
    (pitSpeedLimitKph r) (currentLap r) (laps r) (raceCars r)
    (playerCarIndex r) (raceBestSector1TimeMs r) (raceBestSector2TimeMs r)
    (raceBestSector3TimeMs r) (raceBestSector1CarIndex r)
    (raceBestSector2CarIndex r) (raceBestSector3CarIndex r)
    (raceBestLapTimeMs r) (raceBestLapCarIndex r) (raceBestLapNum r)
    (currentCarStatus r) (currentCarTelemetry r) (currentPenalties r)
    (currentCarDamage r).

Definition set_sessionType (v : option Z) (r : t) : t :=
  mk (liveLapTimeMs r) (liveDeltaToBestMs r) (bestLapTimeMs r)
    (bestLapNumber r) (bestSector1TimeMs r) (bestSector2TimeMs r)
    (bestSector3TimeMs r) (isConnected r) (sessionKind r) v (totalLaps r)
    (trackId r) (trackLengthM r) (formula r) (weather r) (trackTemperatureC r)
    (airTemperatureC r) (sessionTimeLeftSec r) (sessionDurationSec r)
    (pitSpeedLimitKph r) (currentLap r) (laps r) (raceCars r)
    (playerCarIndex r) (raceBestSector1TimeMs r) (raceBestSector2TimeMs r)
    (raceBestSector3TimeMs r) (raceBestSector1CarIndex r)
    (raceBestSector2CarIndex r) (raceBestSector3CarIndex r)
    (raceBestLapTimeMs r) (raceBestLapCarIndex r) (raceBestLapNum r)
    (currentCarStatus r) (currentCarTelemetry r) (currentPenalties r)
    (currentCarDamage r).

Definition set_totalLaps (v : option Z) (r : t) : t :=
  mk (liveLapTimeMs r) (liveDeltaToBestMs r) (bestLapTimeMs r)
    (bestLapNumber r) (bestSector1TimeMs r) (bestSector2TimeMs r)
    (bestSector3TimeMs r) (isConnected r) (sessionKind r) (sessionType r) v
    (trackId r) (trackLengthM r) (formula r) (weather r) (trackTemperatureC r)
    (airTemperatureC r) (sessionTimeLeftSec r) (sessionDurationSec r)
    (pitSpeedLimitKph r) (currentLap r) (laps r) (raceCars r)
    (playerCarIndex r) (raceBestSector1TimeMs r) (raceBestSector2TimeMs r)
    (raceBestSector3TimeMs r) (raceBestSector1CarIndex r)
    (raceBestSector2CarIndex r) (raceBestSector3CarIndex r)
    (raceBestLapTimeMs r) (raceBestLapCarIndex r) (raceBestLapNum r)
    (currentCarStatus r) (currentCarTelemetry r) (currentPenalties r)
    (currentCarDamage r).

Definition set_trackId (v : option Z) (r : t) : t :=
  mk (liveLapTimeMs r) (liveDeltaToBestMs r) (bestLapTimeMs r)
    (bestLapNumber r) (bestSector1TimeMs r) (bestSector2TimeMs r)
    (bestSector3TimeMs r) (isConnected r) (sessionKind r) (sessionType r)
    (totalLaps r) v (trackLengthM r) (formula r) (weather r)
    (trackTemperatureC r) (airTemperatureC r) (sessionTimeLeftSec r)
    (sessionDurationSec r) (pitSpeedLimitKph r) (currentLap r) (laps r)
    (raceCars r) (playerCarIndex r) (raceBestSector1TimeMs r)
    (raceBestSector2TimeMs r) (raceBestSector3TimeMs r)
    (raceBestSector1CarIndex r) (raceBestSector2CarIndex r)
    (raceBestSector3CarIndex r) (raceBestLapTimeMs r) (raceBestLapCarIndex r)
    (raceBestLapNum r) (currentCarStatus r) (currentCarTelemetry r)
    (currentPenalties r) (currentCarDamage r).

Definition set_trackLengthM (v : option Z) (r : t) : t :=
  mk (liveLapTimeMs r) (liveDeltaToBestMs r) (bestLapTimeMs r)
    (bestLapNumber r) (bestSector1TimeMs r) (bestSector2TimeMs r)
    (bestSector3TimeMs r) (isConnected r) (sessionKind r) (sessionType r)
    (totalLaps r) (trackId r) v (formula r) (weather r) (trackTemperatureC r)
    (airTemperatureC r) (sessionTimeLeftSec r) (sessionDurationSec r)
    (pitSpeedLimitKph r) (currentLap r) (laps r) (raceCars r)
    (playerCarIndex r) (raceBestSector1TimeMs r) (raceBestSector2TimeMs r)
    (raceBestSector3TimeMs r) (raceBestSector1CarIndex r)
    (raceBestSector2CarIndex r) (raceBestSector3CarIndex r)
    (raceBestLapTimeMs r) (raceBestLapCarIndex r) (raceBestLapNum r)
    (currentCarStatus r) (currentCarTelemetry r) (currentPenalties r)
    (currentCarDamage r).

Definition set_formula (v : option Z) (r : t) : t :=
  mk (liveLapTimeMs r) (liveDeltaToBestMs r) (bestLapTimeMs r)
    (bestLapNumber r) (bestSector1TimeMs r) (bestSector2TimeMs r)
    (bestSector3TimeMs r) (isConnected r) (sessionKind r) (sessionType r)
    (totalLaps r) (trackId r) (trackLengthM r) v (weather r)
    (trackTemperatureC r) (airTemperatureC r) (sessionTimeLeftSec r)
    (sessionDurationSec r) (pitSpeedLimitKph r) (currentLap r) (laps r)
    (raceCars r) (playerCarIndex r) (raceBestSector1TimeMs r)
    (raceBestSector2TimeMs r) (raceBestSector3TimeMs r)
    (raceBestSector1CarIndex r) (raceBestSector2CarIndex r)
    (raceBestSector3CarIndex r) (raceBestLapTimeMs r) (raceBestLapCarIndex r)
    (raceBestLapNum r) (currentCarStatus r) (currentCarTelemetry r)
    (currentPenalties r) (currentCarDamage r).

Definition set_weather (v : option Z) (r : t) : t :=
  mk (liveLapTimeMs r) (liveDeltaToBestMs r) (bestLapTimeMs r)
    (bestLapNumber r) (bestSector1TimeMs r) (bestSector2TimeMs r)
    (bestSector3TimeMs r) (isConnected r) (sessionKind r) (sessionType r)
    (totalLaps r) (trackId r) (trackLengthM r) (formula r) v
    (trackTemperatureC r) (airTemperatureC r) (sessionTimeLeftSec r)
    (sessionDurationSec r) (pitSpeedLimitKph r) (currentLap r) (laps r)
    (raceCars r) (playerCarIndex r) (raceBestSector1TimeMs r)
    (raceBestSector2TimeMs r) (raceBestSector3TimeMs r)
    (raceBestSector1CarIndex r) (raceBestSector2CarIndex r)
    (raceBestSector3CarIndex r) (raceBestLapTimeMs r) (raceBestLapCarIndex r)
    (raceBestLapNum r) (currentCarStatus r) (currentCarTelemetry r)
    (currentPenalties r) (currentCarDamage r).

Definition set_trackTemperatureC (v : option Z) (r : t) : t :=
  mk (liveLapTimeMs r) (liveDeltaToBestMs r) (bestLapTimeMs r)
    (bestLapNumber r) (bestSector1TimeMs r) (bestSector2TimeMs r)
    (bestSector3TimeMs r) (isConnected r) (sessionKind r) (sessionType r)
    (totalLaps r) (trackId r) (trackLengthM r) (formula r) (weather r) v
    (airTemperatureC r) (sessionTimeLeftSec r) (sessionDurationSec r)
    (pitSpeedLimitKph r) (currentLap r) (laps r) (raceCars r)
    (playerCarIndex r) (raceBestSector1TimeMs r) (raceBestSector2TimeMs r)
    (raceBestSector3TimeMs r) (raceBestSector1CarIndex r)
    (raceBestSector2CarIndex r) (raceBestSector3CarIndex r)
    (raceBestLapTimeMs r) (raceBestLapCarIndex r) (raceBestLapNum r)
    (currentCarStatus r) (currentCarTelemetry r) (currentPenalties r)
    (currentCarDamage r).

Definition set_airTemperatureC (v : option Z) (r : t) : t :=
  mk (liveLapTimeMs r) (liveDeltaToBestMs r) (bestLapTimeMs r)
    (bestLapNumber r) (bestSector1TimeMs r) (bestSector2TimeMs r)
    (bestSector3TimeMs r) (isConnected r) (sessionKind r) (sessionType r)
    (totalLaps r) (trackId r) (trackLengthM r) (formula r) (weather r)
    (trackTemperatureC r) v (sessionTimeLeftSec r) (sessionDurationSec r)
    (pitSpeedLimitKph r) (currentLap r) (laps r) (raceCars r)
    (playerCarIndex r) (raceBestSector1TimeMs r) (raceBestSector2TimeMs r)
    (raceBestSector3TimeMs r) (raceBestSector1CarIndex r)
    (raceBestSector2CarIndex r) (raceBestSector3CarIndex r)
    (raceBestLapTimeMs r) (raceBestLapCarIndex r) (raceBestLapNum r)
    (currentCarStatus r) (currentCarTelemetry r) (currentPenalties r)
    (currentCarDamage r).

Definition set_sessionTimeLeftSec (v : option Z) (r : t) : t :=
  mk (liveLapTimeMs r) (liveDeltaToBestMs r) (bestLapTimeMs r)
    (bestLapNumber r) (bestSector1TimeMs r) (bestSector2TimeMs r)
    (bestSector3TimeMs r) (isConnected r) (sessionKind r) (sessionType r)
    (totalLaps r) (trackId r) (trackLengthM r) (formula r) (weather r)
    (trackTemperatureC r) (airTemperatureC r) v (sessionDurationSec r)
    (pitSpeedLimitKph r) (currentLap r) (laps r) (raceCars r)
    (playerCarIndex r) (raceBestSector1TimeMs r) (raceBestSector2TimeMs r)
    (raceBestSector3TimeMs r) (raceBestSector1CarIndex r)
    (raceBestSector2CarIndex r) (raceBestSector3CarIndex r)
    (raceBestLapTimeMs r) (raceBestLapCarIndex r) (raceBestLapNum r)
    (currentCarStatus r) (currentCarTelemetry r) (currentPenalties r)
    (currentCarDamage r).

Definition set_sessionDurationSec (v : option Z) (r : t) : t :=
  mk (liveLapTimeMs r) (liveDeltaToBestMs r) (bestLapTimeMs r)
    (bestLapNumber r) (bestSector1TimeMs r) (bestSector2TimeMs r)
    (bestSector3TimeMs r) (isConnected r) (sessionKind r) (sessionType r)
    (totalLaps r) (trackId r) (trackLengthM r) (formula r) (weather r)
    (trackTemperatureC r) (airTemperatureC r) (sessionTimeLeftSec r) v
    (pitSpeedLimitKph r) (currentLap r) (laps r) (raceCars r)
    (playerCarIndex r) (raceBestSector1TimeMs r) (raceBestSector2TimeMs r)
    (raceBestSector3TimeMs r) (raceBestSector1CarIndex r)
    (raceBestSector2CarIndex r) (raceBestSector3CarIndex r)
    (raceBestLapTimeMs r) (raceBestLapCarIndex r) (raceBestLapNum r)
    (currentCarStatus r) (currentCarTelemetry r) (currentPenalties r)
    (currentCarDamage r).

Definition set_pitSpeedLimitKph (v : option Z) (r : t) : t :=
  mk (liveLapTimeMs r) (liveDeltaToBestMs r) (bestLapTimeMs r)
    (bestLapNumber r) (bestSector1TimeMs r) (bestSector2TimeMs r)
    (bestSector3TimeMs r) (isConnected r) (sessionKind r) (sessionType r)
    (totalLaps r) (trackId r) (trackLengthM r) (formula r) (weather r)
    (trackTemperatureC r) (airTemperatureC r) (sessionTimeLeftSec r)
    (sessionDurationSec r) v (currentLap r) (laps r) (raceCars r)
    (playerCarIndex r) (raceBestSector1TimeMs r) (raceBestSector2TimeMs r)
    (raceBestSector3TimeMs r) (raceBestSector1CarIndex r)
    (raceBestSector2CarIndex r) (raceBestSector3CarIndex r)
    (raceBestLapTimeMs r) (raceBestLapCarIndex r) (raceBestLapNum r)
    (currentCarStatus r) (currentCarTelemetry r) (currentPenalties r)
    (currentCarDamage r).

Definition set_currentLap (v : option LapEntry.t) (r : t) : t :=
  mk (liveLapTimeMs r) (liveDeltaToBestMs r) (bestLapTimeMs r)
    (bestLapNumber r) (bestSector1TimeMs r) (bestSector2TimeMs r)
    (bestSector3TimeMs r) (isConnected r) (sessionKind r) (sessionType r)
    (totalLaps r) (trackId r) (trackLengthM r) (formula r) (weather r)
    (trackTemperatureC r) (airTemperatureC r) (sessionTimeLeftSec r)
    (sessionDurationSec r) (pitSpeedLimitKph r) v (laps r) (raceCars r)
    (playerCarIndex r) (raceBestSector1TimeMs r) (raceBestSector2TimeMs r)
    (raceBestSector3TimeMs r) (raceBestSector1CarIndex r)
    (raceBestSector2CarIndex r) (raceBestSector3CarIndex r)
    (raceBestLapTimeMs r) (raceBestLapCarIndex r) (raceBestLapNum r)
    (currentCarStatus r) (currentCarTelemetry r) (currentPenalties r)
    (currentCarDamage r).

Definition set_laps (v : list LapEntry.t) (r : t) : t :=
  mk (liveLapTimeMs r) (liveDeltaToBestMs r) (bestLapTimeMs r)
    (bestLapNumber r) (bestSector1TimeMs r) (bestSector2TimeMs r)
    (bestSector3TimeMs r) (isConnected r) (sessionKind r) (sessionType r)
    (totalLaps r) (trackId r) (trackLengthM r) (formula r) (weather r)
    (trackTemperatureC r) (airTemperatureC r) (sessionTimeLeftSec r)
    (sessionDurationSec r) (pitSpeedLimitKph r) (currentLap r) v (raceCars r)
    (playerCarIndex r) (raceBestSector1TimeMs r) (raceBestSector2TimeMs r)
    (raceBestSector3TimeMs r) (raceBestSector1CarIndex r)
    (raceBestSector2CarIndex r) (raceBestSector3CarIndex r)
    (raceBestLapTimeMs r) (raceBestLapCarIndex r) (raceBestLapNum r)
    (currentCarStatus r) (currentCarTelemetry r) (currentPenalties r)
    (currentCarDamage r).

Definition set_raceCars (v : list RaceCar.t) (r : t) : t :=
  mk (liveLapTimeMs r) (liveDeltaToBestMs r) (bestLapTimeMs r)
    (bestLapNumber r) (bestSector1TimeMs r) (bestSector2TimeMs r)
    (bestSector3TimeMs r) (isConnected r) (sessionKind r) (sessionType r)
    (totalLaps r) (trackId r) (trackLengthM r) (formula r) (weather r)
    (trackTemperatureC r) (airTemperatureC r) (sessionTimeLeftSec r)
    (sessionDurationSec r) (pitSpeedLimitKph r) (currentLap r) (laps r) v
    (playerCarIndex r) (raceBestSector1TimeMs r) (raceBestSector2TimeMs r)
    (raceBestSector3TimeMs r) (raceBestSector1CarIndex r)
    (raceBestSector2CarIndex r) (raceBestSector3CarIndex r)
    (raceBestLapTimeMs r) (raceBestLapCarIndex r) (raceBestLapNum r)
    (currentCarStatus r) (currentCarTelemetry r) (currentPenalties r)
    (currentCarDamage r).

Definition set_playerCarIndex (v : option Z) (r : t) : t :=
  mk (liveLapTimeMs r) (liveDeltaToBestMs r) (bestLapTimeMs r)
    (bestLapNumber r) (bestSector1TimeMs r) (bestSector2TimeMs r)
    (bestSector3TimeMs r) (isConnected r) (sessionKind r) (sessionType r)
    (totalLaps r) (trackId r) (trackLengthM r) (formula r) (weather r)
    (trackTemperatureC r) (airTemperatureC r) (sessionTimeLeftSec r)
    (sessionDurationSec r) (pitSpeedLimitKph r) (currentLap r) (laps r)
    (raceCars r) v (raceBestSector1TimeMs r) (raceBestSector2TimeMs r)
    (raceBestSector3TimeMs r) (raceBestSector1CarIndex r)
    (raceBestSector2CarIndex r) (raceBestSector3CarIndex r)
    (raceBestLapTimeMs r) (raceBestLapCarIndex r) (raceBestLapNum r)
    (currentCarStatus r) (currentCarTelemetry r) (currentPenalties r)
    (currentCarDamage r).

Definition set_raceBestSector1TimeMs (v : option Z) (r : t) : t :=
  mk (liveLapTimeMs r) (liveDeltaToBestMs r) (bestLapTimeMs r)
    (bestLapNumber r) (bestSector1TimeMs r) (bestSector2TimeMs r)
    (bestSector3TimeMs r) (isConnected r) (sessionKind r) (sessionType r)
    (totalLaps r) (trackId r) (trackLengthM r) (formula r) (weather r)
    (trackTemperatureC r) (airTemperatureC r) (sessionTimeLeftSec r)
    (sessionDurationSec r) (pitSpeedLimitKph r) (currentLap r) (laps r)
    (raceCars r) (playerCarIndex r) v (raceBestSector2TimeMs r)
    (raceBestSector3TimeMs r) (raceBestSector1CarIndex r)
    (raceBestSector2CarIndex r) (raceBestSector3CarIndex r)
    (raceBestLapTimeMs r) (raceBestLapCarIndex r) (raceBestLapNum r)
    (currentCarStatus r) (currentCarTelemetry r) (currentPenalties r)
    (currentCarDamage r).

Definition set_raceBestSector2TimeMs (v : option Z) (r : t) : t :=
  mk (liveLapTimeMs r) (liveDeltaToBestMs r) (bestLapTimeMs r)
    (bestLapNumber r) (bestSector1TimeMs r) (bestSector2TimeMs r)
    (bestSector3TimeMs r) (isConnected r) (sessionKind r) (sessionType r)
    (totalLaps r) (trackId r) (trackLengthM r) (formula r) (weather r)
    (trackTemperatureC r) (airTemperatureC r) (sessionTimeLeftSec r)
    (sessionDurationSec r) (pitSpeedLimitKph r) (currentLap r) (laps r)
    (raceCars r) (playerCarIndex r) (raceBestSector1TimeMs r) v
    (raceBestSector3TimeMs r) (raceBestSector1CarIndex r)
    (raceBestSector2CarIndex r) (raceBestSector3CarIndex r)
    (raceBestLapTimeMs r) (raceBestLapCarIndex r) (raceBestLapNum r)
    (currentCarStatus r) (currentCarTelemetry r) (currentPenalties r)
    (currentCarDamage r).

Definition set_raceBestSector3TimeMs (v : option Z) (r : t) : t :=
  mk (liveLapTimeMs r) (liveDeltaToBestMs r) (bestLapTimeMs r)
    (bestLapNumber r) (bestSector1TimeMs r) (bestSector2TimeMs r)
    (bestSector3TimeMs r) (isConnected r) (sessionKind r) (sessionType r)
    (totalLaps r) (trackId r) (trackLengthM r) (formula r) (weather r)
    (trackTemperatureC r) (airTemperatureC r) (sessionTimeLeftSec r)
    (sessionDurationSec r) (pitSpeedLimitKph r) (currentLap r) (laps r)
    (raceCars r) (playerCarIndex r) (raceBestSector1TimeMs r)
    (raceBestSector2TimeMs r) v (raceBestSector1CarIndex r)
    (raceBestSector2CarIndex r) (raceBestSector3CarIndex r)
    (raceBestLapTimeMs r) (raceBestLapCarIndex r) (raceBestLapNum r)
    (currentCarStatus r) (currentCarTelemetry r) (currentPenalties r)
    (currentCarDamage r).

Definition set_raceBestSector1CarIndex (v : option Z) (r : t) : t :=
  mk (liveLapTimeMs r) (liveDeltaToBestMs r) (bestLapTimeMs r)
    (bestLapNumber r) (bestSector1TimeMs r) (bestSector2TimeMs r)
    (bestSector3TimeMs r) (isConnected r) (sessionKind r) (sessionType r)
    (totalLaps r) (trackId r) (trackLengthM r) (formula r) (weather r)
    (trackTemperatureC r) (airTemperatureC r) (sessionTimeLeftSec r)
    (sessionDurationSec r) (pitSpeedLimitKph r) (currentLap r) (laps r)
    (raceCars r) (playerCarIndex r) (raceBestSector1TimeMs r)
    (raceBestSector2TimeMs r) (raceBestSector3TimeMs r) v
    (raceBestSector2CarIndex r) (raceBestSector3CarIndex r)
    (raceBestLapTimeMs r) (raceBestLapCarIndex r) (raceBestLapNum r)
    (currentCarStatus r) (currentCarTelemetry r) (currentPenalties r)
    (currentCarDamage r).

Definition set_raceBestSector2CarIndex (v : option Z) (r : t) : t :=
  mk (liveLapTimeMs r) (liveDeltaToBestMs r) (bestLapTimeMs r)
    (bestLapNumber r) (bestSector1TimeMs r) (bestSector2TimeMs r)
    (bestSector3TimeMs r) (isConnected r) (sessionKind r) (sessionType r)
    (totalLaps r) (trackId r) (trackLengthM r) (formula r) (weather r)
    (trackTemperatureC r) (airTemperatureC r) (sessionTimeLeftSec r)
    (sessionDurationSec r) (pitSpeedLimitKph r) (currentLap r) (laps r)
    (raceCars r) (playerCarIndex r) (raceBestSector1TimeMs r)
    (raceBestSector2TimeMs r) (raceBestSector3TimeMs r)
    (raceBestSector1CarIndex r) v (raceBestSector3CarIndex r)
    (raceBestLapTimeMs r) (raceBestLapCarIndex r) (raceBestLapNum r)
    (currentCarStatus r) (currentCarTelemetry r) (currentPenalties r)
    (currentCarDamage r).

Definition set_raceBestSector3CarIndex (v : option Z) (r : t) : t :=
  mk (liveLapTimeMs r) (liveDeltaToBestMs r) (bestLapTimeMs r)
    (bestLapNumber r) (bestSector1TimeMs r) (bestSector2TimeMs r)
    (bestSector3TimeMs r) (isConnected r) (sessionKind r) (sessionType r)
    (totalLaps r) (trackId r) (trackLengthM r) (formula r) (weather r)
    (trackTemperatureC r) (airTemperatureC r) (sessionTimeLeftSec r)
    (sessionDurationSec r) (pitSpeedLimitKph r) (currentLap r) (laps r)
    (raceCars r) (playerCarIndex r) (raceBestSector1TimeMs r)
    (raceBestSector2TimeMs r) (raceBestSector3TimeMs r)
    (raceBestSector1CarIndex r) (raceBestSector2CarIndex r) v
    (raceBestLapTimeMs r) (raceBestLapCarIndex r) (raceBestLapNum r)
    (currentCarStatus r) (currentCarTelemetry r) (currentPenalties r)
    (currentCarDamage r).

Definition set_raceBestLapTimeMs (v : option Z) (r : t) : t :=
  mk (liveLapTimeMs r) (liveDeltaToBestMs r) (bestLapTimeMs r)
    (bestLapNumber r) (bestSector1TimeMs r) (bestSector2TimeMs r)
    (bestSector3TimeMs r) (isConnected r) (sessionKind r) (sessionType r)
    (totalLaps r) (trackId r) (trackLengthM r) (formula r) (weather r)
    (trackTemperatureC r) (airTemperatureC r) (sessionTimeLeftSec r)
    (sessionDurationSec r) (pitSpeedLimitKph r) (currentLap r) (laps r)
    (raceCars r) (playerCarIndex r) (raceBestSector1TimeMs r)
    (raceBestSector2TimeMs r) (raceBestSector3TimeMs r)
    (raceBestSector1CarIndex r) (raceBestSector2CarIndex r)
    (raceBestSector3CarIndex r) v (raceBestLapCarIndex r) (raceBestLapNum r)
    (currentCarStatus r) (currentCarTelemetry r) (currentPenalties r)
    (currentCarDamage r).

Definition set_raceBestLapCarIndex (v : option Z) (r : t) : t :=
  mk (liveLapTimeMs r) (liveDeltaToBestMs r) (bestLapTimeMs r)
    (bestLapNumber r) (bestSector1TimeMs r) (bestSector2TimeMs r)
    (bestSector3TimeMs r) (isConnected r) (sessionKind r) (sessionType r)
    (totalLaps r) (trackId r) (trackLengthM r) (formula r) (weather r)
    (trackTemperatureC r) (airTemperatureC r) (sessionTimeLeftSec r)
    (sessionDurationSec r) (pitSpeedLimitKph r) (currentLap r) (laps r)
    (raceCars r) (playerCarIndex r) (raceBestSector1TimeMs r)
    (raceBestSector2TimeMs r) (raceBestSector3TimeMs r)
    (raceBestSector1CarIndex r) (raceBestSector2CarIndex r)
    (raceBestSector3CarIndex r) (raceBestLapTimeMs r) v (raceBestLapNum r)
    (currentCarStatus r) (currentCarTelemetry r) (currentPenalties r)
    (currentCarDamage r).

Definition set_raceBestLapNum (v : option Z) (r : t) : t :=
  mk (liveLapTimeMs r) (liveDeltaToBestMs r) (bestLapTimeMs r)
    (bestLapNumber r) (bestSector1TimeMs r) (bestSector2TimeMs r)
    (bestSector3TimeMs r) (isConnected r) (sessionKind r) (sessionType r)
    (totalLaps r) (trackId r) (trackLengthM r) (formula r) (weather r)
    (trackTemperatureC r) (airTemperatureC r) (sessionTimeLeftSec r)
    (sessionDurationSec r) (pitSpeedLimitKph r) (currentLap r) (laps r)
    (raceCars r) (playerCarIndex r) (raceBestSector1TimeMs r)
    (raceBestSector2TimeMs r) (raceBestSector3TimeMs r)
    (raceBestSector1CarIndex r) (raceBestSector2CarIndex r)
    (raceBestSector3CarIndex r) (raceBestLapTimeMs r) (raceBestLapCarIndex r)
    v (currentCarStatus r) (currentCarTelemetry r) (currentPenalties r)
    (currentCarDamage r).

Definition set_currentCarStatus (v : option CarStatus.t) (r : t) : t :=
  mk (liveLapTimeMs r) (liveDeltaToBestMs r) (bestLapTimeMs r)
    (bestLapNumber r) (bestSector1TimeMs r) (bestSector2TimeMs r)
    (bestSector3TimeMs r) (isConnected r) (sessionKind r) (sessionType r)
    (totalLaps r) (trackId r) (trackLengthM r) (formula r) (weather r)
    (trackTemperatureC r) (airTemperatureC r) (sessionTimeLeftSec r)
    (sessionDurationSec r) (pitSpeedLimitKph r) (currentLap r) (laps r)
    (raceCars r) (playerCarIndex r) (raceBestSector1TimeMs r)
    (raceBestSector2TimeMs r) (raceBestSector3TimeMs r)
    (raceBestSector1CarIndex r) (raceBestSector2CarIndex r)
    (raceBestSector3CarIndex r) (raceBestLapTimeMs r) (raceBestLapCarIndex r)
    (raceBestLapNum r) v (currentCarTelemetry r) (currentPenalties r)
    (currentCarDamage r).

Definition set_currentCarTelemetry (v : option CarTelemetry.t) (r : t) : t :=
  mk (liveLapTimeMs r) (liveDeltaToBestMs r) (bestLapTimeMs r)
    (bestLapNumber r) (bestSector1TimeMs r) (bestSector2TimeMs r)
    (bestSector3TimeMs r) (isConnected r) (sessionKind r) (sessionType r)
    (totalLaps r) (trackId r) (trackLengthM r) (formula r) (weather r)
    (trackTemperatureC r) (airTemperatureC r) (sessionTimeLeftSec r)
    (sessionDurationSec r) (pitSpeedLimitKph r) (currentLap r) (laps r)
    (raceCars r) (playerCarIndex r) (raceBestSector1TimeMs r)
    (raceBestSector2TimeMs r) (raceBestSector3TimeMs r)
    (raceBestSector1CarIndex r) (raceBestSector2CarIndex r)
    (raceBestSector3CarIndex r) (raceBestLapTimeMs r) (raceBestLapCarIndex r)
    (raceBestLapNum r) (currentCarStatus r) v (currentPenalties r)
    (currentCarDamage r).

Definition set_currentPenalties (v : option Penalties.t) (r : t) : t :=
  mk (liveLapTimeMs r) (liveDeltaToBestMs r) (bestLapTimeMs r)
    (bestLapNumber r) (bestSector1TimeMs r) (bestSector2TimeMs r)
    (bestSector3TimeMs r) (isConnected r) (sessionKind r) (sessionType r)
    (totalLaps r) (trackId r) (trackLengthM r) (formula r) (weather r)
    (trackTemperatureC r) (airTemperatureC r) (sessionTimeLeftSec r)
    (sessionDurationSec r) (pitSpeedLimitKph r) (currentLap r) (laps r)
    (raceCars r) (playerCarIndex r) (raceBestSector1TimeMs r)
    (raceBestSector2TimeMs r) (raceBestSector3TimeMs r)
    (raceBestSector1CarIndex r) (raceBestSector2CarIndex r)
    (raceBestSector3CarIndex r) (raceBestLapTimeMs r) (raceBestLapCarIndex r)
    (raceBestLapNum r) (currentCarStatus r) (currentCarTelemetry r) v
    (currentCarDamage r).

Definition set_currentCarDamage (v : option CarDamage.t) (r : t) : t :=
  mk (liveLapTimeMs r) (liveDeltaToBestMs r) (bestLapTimeMs r)
    (bestLapNumber r) (bestSector1TimeMs r) (bestSector2TimeMs r)
    (bestSector3TimeMs r) (isConnected r) (sessionKind r) (sessionType r)
    (totalLaps r) (trackId r) (trackLengthM r) (formula r) (weather r)
    (trackTemperatureC r) (airTemperatureC r) (sessionTimeLeftSec r)
    (sessionDurationSec r) (pitSpeedLimitKph r) (currentLap r) (laps r)
    (raceCars r) (playerCarIndex r) (raceBestSector1TimeMs r)
    (raceBestSector2TimeMs r) (raceBestSector3TimeMs r)
    (raceBestSector1CarIndex r) (raceBestSector2CarIndex r)
    (raceBestSector3CarIndex r) (raceBestLapTimeMs r) (raceBestLapCarIndex r)
    (raceBestLapNum r) (currentCarStatus r) (currentCarTelemetry r)
    (currentPenalties r) v.
End LapsState.

(** The module-level variables of server.js, gathered in one record that every
    handler takes and returns. *)
Record State : Type := mkState {
  lapsState : LapsState.t;
  playerState : PlayerState.t;
  numActiveCars : option Z;
  raceBestSector1TimeMs : option Z;
  raceBestSector2TimeMs : option Z;
  raceBestSector3TimeMs : option Z;
  raceBestSector1CarIndex : option Z;
  raceBestSector2CarIndex : option Z;
  raceBestSector3CarIndex : option Z;
  raceBestLapTimeMs : option Z;
  raceBestLapCarIndex : option Z;
  raceBestLapNum : option Z;
  pitLaneTimeByLap : JSMap Z;
  pitLaneStatusByLap : JSMap Z;
  lapsByNumber : JSMap LapEntry.t;
  tyreByLapStart : JSMap TyreSnap.t;
  participantsNameByIndex : JSMap Name;
  participantsTeamIdByIndex : JSMap Z;
  participantsColorByIndex : JSMap Colour.t;
  carStatusByIndex : JSMap CarStatus.t;
  carTelemetryByIndex : JSMap CarTelemetry.t;
  carDamageByIndex : JSMap CarDamage.t;
  lapDataByIndex : JSMap LapData.t;
  sectorCacheByIndex : JSMap SectorCache.t;
  pitLaneStintByIndex : JSMap PitStint.t;
  sessionHistoryByCarIndex : JSMap (JSMap HistEntry.t)
}.

Definition set_lapsState (v : LapsState.t) (s : State) : State :=
  mkState v (playerState s) (numActiveCars s) (raceBestSector1TimeMs s)
    (raceBestSector2TimeMs s) (raceBestSector3TimeMs s)
    (raceBestSector1CarIndex s) (raceBestSector2CarIndex s)
    (raceBestSector3CarIndex s) (raceBestLapTimeMs s) (raceBestLapCarIndex s)
    (raceBestLapNum s) (pitLaneTimeByLap s) (pitLaneStatusByLap s)
    (lapsByNumber s) (tyreByLapStart s) (participantsNameByIndex s)
    (participantsTeamIdByIndex s) (participantsColorByIndex s)
    (carStatusByIndex s) (carTelemetryByIndex s) (carDamageByIndex s)
    (lapDataByIndex s) (sectorCacheByIndex s) (pitLaneStintByIndex s)
    (sessionHistoryByCarIndex s).

Definition set_playerState (v : PlayerState.t) (s : State) : State :=
  mkState (lapsState s) v (numActiveCars s) (raceBestSector1TimeMs s)
    (raceBestSector2TimeMs s) (raceBestSector3TimeMs s)
    (raceBestSector1CarIndex s) (raceBestSector2CarIndex s)
    (raceBestSector3CarIndex s) (raceBestLapTimeMs s) (raceBestLapCarIndex s)
    (raceBestLapNum s) (pitLaneTimeByLap s) (pitLaneStatusByLap s)
    (lapsByNumber s) (tyreByLapStart s) (participantsNameByIndex s)
    (participantsTeamIdByIndex s) (participantsColorByIndex s)
    (carStatusByIndex s) (carTelemetryByIndex s) (carDamageByIndex s)
    (lapDataByIndex s) (sectorCacheByIndex s) (pitLaneStintByIndex s)
    (sessionHistoryByCarIndex s).

Definition set_numActiveCars (v : option Z) (s : State) : State :=
  mkState (lapsState s) (playerState s) v (raceBestSector1TimeMs s)
    (raceBestSector2TimeMs s) (raceBestSector3TimeMs s)
    (raceBestSector1CarIndex s) (raceBestSector2CarIndex s)
    (raceBestSector3CarIndex s) (raceBestLapTimeMs s) (raceBestLapCarIndex s)
    (raceBestLapNum s) (pitLaneTimeByLap s) (pitLaneStatusByLap s)
    (lapsByNumber s) (tyreByLapStart s) (participantsNameByIndex s)
    (participantsTeamIdByIndex s) (participantsColorByIndex s)
    (carStatusByIndex s) (carTelemetryByIndex s) (carDamageByIndex s)
    (lapDataByIndex s) (sectorCacheByIndex s) (pitLaneStintByIndex s)
    (sessionHistoryByCarIndex s).

Definition set_raceBestSector1TimeMs (v : option Z) (s : State) : State :=
  mkState (lapsState s) (playerState s) (numActiveCars s) v
    (raceBestSector2TimeMs s) (raceBestSector3TimeMs s)
    (raceBestSector1CarIndex s) (raceBestSector2CarIndex s)
    (raceBestSector3CarIndex s) (raceBestLapTimeMs s) (raceBestLapCarIndex s)
    (raceBestLapNum s) (pitLaneTimeByLap s) (pitLaneStatusByLap s)
    (lapsByNumber s) (tyreByLapStart s) (participantsNameByIndex s)
    (participantsTeamIdByIndex s) (participantsColorByIndex s)
    (carStatusByIndex s) (carTelemetryByIndex s) (carDamageByIndex s)
    (lapDataByIndex s) (sectorCacheByIndex s) (pitLaneStintByIndex s)
    (sessionHistoryByCarIndex s).

Definition set_raceBestSector2TimeMs (v : option Z) (s : State) : State :=
  mkState (lapsState s) (playerState s) (numActiveCars s)
    (raceBestSector1TimeMs s) v (raceBestSector3TimeMs s)
    (raceBestSector1CarIndex s) (raceBestSector2CarIndex s)
    (raceBestSector3CarIndex s) (raceBestLapTimeMs s) (raceBestLapCarIndex s)
    (raceBestLapNum s) (pitLaneTimeByLap s) (pitLaneStatusByLap s)
    (lapsByNumber s) (tyreByLapStart s) (participantsNameByIndex s)
    (participantsTeamIdByIndex s) (participantsColorByIndex s)
    (carStatusByIndex s) (carTelemetryByIndex s) (carDamageByIndex s)
    (lapDataByIndex s) (sectorCacheByIndex s) (pitLaneStintByIndex s)
    (sessionHistoryByCarIndex s).

Definition set_raceBestSector3TimeMs (v : option Z) (s : State) : State :=
  mkState (lapsState s) (playerState s) (numActiveCars s)
    (raceBestSector1TimeMs s) (raceBestSector2TimeMs s) v
    (raceBestSector1CarIndex s) (raceBestSector2CarIndex s)
    (raceBestSector3CarIndex s) (raceBestLapTimeMs s) (raceBestLapCarIndex s)
    (raceBestLapNum s) (pitLaneTimeByLap s) (pitLaneStatusByLap s)
    (lapsByNumber s) (tyreByLapStart s) (participantsNameByIndex s)
    (participantsTeamIdByIndex s) (participantsColorByIndex s)
    (carStatusByIndex s) (carTelemetryByIndex s) (carDamageByIndex s)
    (lapDataByIndex s) (sectorCacheByIndex s) (pitLaneStintByIndex s)
    (sessionHistoryByCarIndex s).

Definition set_raceBestSector1CarIndex (v : option Z) (s : State) : State :=
  mkState (lapsState s) (playerState s) (numActiveCars s)
    (raceBestSector1TimeMs s) (raceBestSector2TimeMs s)
    (raceBestSector3TimeMs s) v (raceBestSector2CarIndex s)
    (raceBestSector3CarIndex s) (raceBestLapTimeMs s) (raceBestLapCarIndex s)
    (raceBestLapNum s) (pitLaneTimeByLap s) (pitLaneStatusByLap s)
    (lapsByNumber s) (tyreByLapStart s) (participantsNameByIndex s)
    (participantsTeamIdByIndex s) (participantsColorByIndex s)
    (carStatusByIndex s) (carTelemetryByIndex s) (carDamageByIndex s)
    (lapDataByIndex s) (sectorCacheByIndex s) (pitLaneStintByIndex s)
    (sessionHistoryByCarIndex s).

Definition set_raceBestSector2CarIndex (v : option Z) (s : State) : State :=
  mkState (lapsState s) (playerState s) (numActiveCars s)
    (raceBestSector1TimeMs s) (raceBestSector2TimeMs s)
    (raceBestSector3TimeMs s) (raceBestSector1CarIndex s) v
    (raceBestSector3CarIndex s) (raceBestLapTimeMs s) (raceBestLapCarIndex s)
    (raceBestLapNum s) (pitLaneTimeByLap s) (pitLaneStatusByLap s)
    (lapsByNumber s) (tyreByLapStart s) (participantsNameByIndex s)
    (participantsTeamIdByIndex s) (participantsColorByIndex s)
    (carStatusByIndex s) (carTelemetryByIndex s) (carDamageByIndex s)
    (lapDataByIndex s) (sectorCacheByIndex s) (pitLaneStintByIndex s)
    (sessionHistoryByCarIndex s).

Definition set_raceBestSector3CarIndex (v : option Z) (s : State) : State :=
  mkState (lapsState s) (playerState s) (numActiveCars s)
    (raceBestSector1TimeMs s) (raceBestSector2TimeMs s)
    (raceBestSector3TimeMs s) (raceBestSector1CarIndex s)
    (raceBestSector2CarIndex s) v (raceBestLapTimeMs s)
    (raceBestLapCarIndex s) (raceBestLapNum s) (pitLaneTimeByLap s)
    (pitLaneStatusByLap s) (lapsByNumber s) (tyreByLapStart s)
    (participantsNameByIndex s) (participantsTeamIdByIndex s)
    (participantsColorByIndex s) (carStatusByIndex s) (carTelemetryByIndex s)
    (carDamageByIndex s) (lapDataByIndex s) (sectorCacheByIndex s)
    (pitLaneStintByIndex s) (sessionHistoryByCarIndex s).

Definition set_raceBestLapTimeMs (v : option Z) (s : State) : State :=
  mkState (lapsState s) (playerState s) (numActiveCars s)
    (raceBestSector1TimeMs s) (raceBestSector2TimeMs s)
    (raceBestSector3TimeMs s) (raceBestSector1CarIndex s)
    (raceBestSector2CarIndex s) (raceBestSector3CarIndex s) v
    (raceBestLapCarIndex s) (raceBestLapNum s) (pitLaneTimeByLap s)
    (pitLaneStatusByLap s) (lapsByNumber s) (tyreByLapStart s)
    (participantsNameByIndex s) (participantsTeamIdByIndex s)
    (participantsColorByIndex s) (carStatusByIndex s) (carTelemetryByIndex s)
    (carDamageByIndex s) (lapDataByIndex s) (sectorCacheByIndex s)
    (pitLaneStintByIndex s) (sessionHistoryByCarIndex s).

Definition set_raceBestLapCarIndex (v : option Z) (s : State) : State :=
  mkState (lapsState s) (playerState s) (numActiveCars s)
    (raceBestSector1TimeMs s) (raceBestSector2TimeMs s)
    (raceBestSector3TimeMs s) (raceBestSector1CarIndex s)
    (raceBestSector2CarIndex s) (raceBestSector3CarIndex s)
    (raceBestLapTimeMs s) v (raceBestLapNum s) (pitLaneTimeByLap s)
    (pitLaneStatusByLap s) (lapsByNumber s) (tyreByLapStart s)
    (participantsNameByIndex s) (participantsTeamIdByIndex s)
    (participantsColorByIndex s) (carStatusByIndex s) (carTelemetryByIndex s)
    (carDamageByIndex s) (lapDataByIndex s) (sectorCacheByIndex s)
    (pitLaneStintByIndex s) (sessionHistoryByCarIndex s).

Definition set_raceBestLapNum (v : option Z) (s : State) : State :=
  mkState (lapsState s) (playerState s) (numActiveCars s)
    (raceBestSector1TimeMs s) (raceBestSector2TimeMs s)
    (raceBestSector3TimeMs s) (raceBestSector1CarIndex s)
    (raceBestSector2CarIndex s) (raceBestSector3CarIndex s)
    (raceBestLapTimeMs s) (raceBestLapCarIndex s) v (pitLaneTimeByLap s)
    (pitLaneStatusByLap s) (lapsByNumber s) (tyreByLapStart s)
    (participantsNameByIndex s) (participantsTeamIdByIndex s)
    (participantsColorByIndex s) (carStatusByIndex s) (carTelemetryByIndex s)
    (carDamageByIndex s) (lapDataByIndex s) (sectorCacheByIndex s)
    (pitLaneStintByIndex s) (sessionHistoryByCarIndex s).

Definition set_pitLaneTimeByLap (v : JSMap Z) (s : State) : State :=
  mkState (lapsState s) (playerState s) (numActiveCars s)
    (raceBestSector1TimeMs s) (raceBestSector2TimeMs s)
    (raceBestSector3TimeMs s) (raceBestSector1CarIndex s)
    (raceBestSector2CarIndex s) (raceBestSector3CarIndex s)
    (raceBestLapTimeMs s) (raceBestLapCarIndex s) (raceBestLapNum s) v
    (pitLaneStatusByLap s) (lapsByNumber s) (tyreByLapStart s)
    (participantsNameByIndex s) (participantsTeamIdByIndex s)
    (participantsColorByIndex s) (carStatusByIndex s) (carTelemetryByIndex s)
    (carDamageByIndex s) (lapDataByIndex s) (sectorCacheByIndex s)
    (pitLaneStintByIndex s) (sessionHistoryByCarIndex s).

Definition set_pitLaneStatusByLap (v : JSMap Z) (s : State) : State :=
  mkState (lapsState s) (playerState s) (numActiveCars s)
    (raceBestSector1TimeMs s) (raceBestSector2TimeMs s)
    (raceBestSector3TimeMs s) (raceBestSector1CarIndex s)
    (raceBestSector2CarIndex s) (raceBestSector3CarIndex s)
    (raceBestLapTimeMs s) (raceBestLapCarIndex s) (raceBestLapNum s)
    (pitLaneTimeByLap s) v (lapsByNumber s) (tyreByLapStart s)
    (participantsNameByIndex s) (participantsTeamIdByIndex s)
    (participantsColorByIndex s) (carStatusByIndex s) (carTelemetryByIndex s)
    (carDamageByIndex s) (lapDataByIndex s) (sectorCacheByIndex s)
    (pitLaneStintByIndex s) (sessionHistoryByCarIndex s).

Definition set_lapsByNumber (v : JSMap LapEntry.t) (s : State) : State :=
  mkState (lapsState s) (playerState s) (numActiveCars s)
    (raceBestSector1TimeMs s) (raceBestSector2TimeMs s)
    (raceBestSector3TimeMs s) (raceBestSector1CarIndex s)
    (raceBestSector2CarIndex s) (raceBestSector3CarIndex s)
    (raceBestLapTimeMs s) (raceBestLapCarIndex s) (raceBestLapNum s)
    (pitLaneTimeByLap s) (pitLaneStatusByLap s) v (tyreByLapStart s)
    (participantsNameByIndex s) (participantsTeamIdByIndex s)
    (participantsColorByIndex s) (carStatusByIndex s) (carTelemetryByIndex s)
    (carDamageByIndex s) (lapDataByIndex s) (sectorCacheByIndex s)
    (pitLaneStintByIndex s) (sessionHistoryByCarIndex s).

Definition set_tyreByLapStart (v : JSMap TyreSnap.t) (s : State) : State :=
  mkState (lapsState s) (playerState s) (numActiveCars s)
    (raceBestSector1TimeMs s) (raceBestSector2TimeMs s)
    (raceBestSector3TimeMs s) (raceBestSector1CarIndex s)
    (raceBestSector2CarIndex s) (raceBestSector3CarIndex s)
    (raceBestLapTimeMs s) (raceBestLapCarIndex s) (raceBestLapNum s)
    (pitLaneTimeByLap s) (pitLaneStatusByLap s) (lapsByNumber s) v
    (participantsNameByIndex s) (participantsTeamIdByIndex s)
    (participantsColorByIndex s) (carStatusByIndex s) (carTelemetryByIndex s)
    (carDamageByIndex s) (lapDataByIndex s) (sectorCacheByIndex s)
    (pitLaneStintByIndex s) (sessionHistoryByCarIndex s).

Definition set_participantsNameByIndex (v : JSMap Name) (s : State) : State :=
  mkState (lapsState s) (playerState s) (numActiveCars s)
    (raceBestSector1TimeMs s) (raceBestSector2TimeMs s)
    (raceBestSector3TimeMs s) (raceBestSector1CarIndex s)
    (raceBestSector2CarIndex s) (raceBestSector3CarIndex s)
    (raceBestLapTimeMs s) (raceBestLapCarIndex s) (raceBestLapNum s)
    (pitLaneTimeByLap s) (pitLaneStatusByLap s) (lapsByNumber s)
    (tyreByLapStart s) v (participantsTeamIdByIndex s)
    (participantsColorByIndex s) (carStatusByIndex s) (carTelemetryByIndex s)
    (carDamageByIndex s) (lapDataByIndex s) (sectorCacheByIndex s)
    (pitLaneStintByIndex s) (sessionHistoryByCarIndex s).

Definition set_participantsTeamIdByIndex (v : JSMap Z) (s : State) : State :=
  mkState (lapsState s) (playerState s) (numActiveCars s)
    (raceBestSector1TimeMs s) (raceBestSector2TimeMs s)
    (raceBestSector3TimeMs s) (raceBestSector1CarIndex s)
    (raceBestSector2CarIndex s) (raceBestSector3CarIndex s)
    (raceBestLapTimeMs s) (raceBestLapCarIndex s) (raceBestLapNum s)
    (pitLaneTimeByLap s) (pitLaneStatusByLap s) (lapsByNumber s)
    (tyreByLapStart s) (participantsNameByIndex s) v
    (participantsColorByIndex s) (carStatusByIndex s) (carTelemetryByIndex s)
    (carDamageByIndex s) (lapDataByIndex s) (sectorCacheByIndex s)
    (pitLaneStintByIndex s) (sessionHistoryByCarIndex s).

Definition set_participantsColorByIndex (v : JSMap Colour.t) (s : State) : State :=
  mkState (lapsState s) (playerState s) (numActiveCars s)
    (raceBestSector1TimeMs s) (raceBestSector2TimeMs s)
    (raceBestSector3TimeMs s) (raceBestSector1CarIndex s)
    (raceBestSector2CarIndex s) (raceBestSector3CarIndex s)
    (raceBestLapTimeMs s) (raceBestLapCarIndex s) (raceBestLapNum s)
    (pitLaneTimeByLap s) (pitLaneStatusByLap s) (lapsByNumber s)
    (tyreByLapStart s) (participantsNameByIndex s)
    (participantsTeamIdByIndex s) v (carStatusByIndex s)
    (carTelemetryByIndex s) (carDamageByIndex s) (lapDataByIndex s)
    (sectorCacheByIndex s) (pitLaneStintByIndex s)
    (sessionHistoryByCarIndex s).

Definition set_carStatusByIndex (v : JSMap CarStatus.t) (s : State) : State :=
  mkState (lapsState s) (playerState s) (numActiveCars s)
    (raceBestSector1TimeMs s) (raceBestSector2TimeMs s)
    (raceBestSector3TimeMs s) (raceBestSector1CarIndex s)
    (raceBestSector2CarIndex s) (raceBestSector3CarIndex s)
    (raceBestLapTimeMs s) (raceBestLapCarIndex s) (raceBestLapNum s)
    (pitLaneTimeByLap s) (pitLaneStatusByLap s) (lapsByNumber s)
    (tyreByLapStart s) (participantsNameByIndex s)
    (participantsTeamIdByIndex s) (participantsColorByIndex s) v
    (carTelemetryByIndex s) (carDamageByIndex s) (lapDataByIndex s)
    (sectorCacheByIndex s) (pitLaneStintByIndex s)
    (sessionHistoryByCarIndex s).

Definition set_carTelemetryByIndex (v : JSMap CarTelemetry.t) (s : State) : State :=
  mkState (lapsState s) (playerState s) (numActiveCars s)
    (raceBestSector1TimeMs s) (raceBestSector2TimeMs s)
    (raceBestSector3TimeMs s) (raceBestSector1CarIndex s)
    (raceBestSector2CarIndex s) (raceBestSector3CarIndex s)
    (raceBestLapTimeMs s) (raceBestLapCarIndex s) (raceBestLapNum s)
    (pitLaneTimeByLap s) (pitLaneStatusByLap s) (lapsByNumber s)
    (tyreByLapStart s) (participantsNameByIndex s)
    (participantsTeamIdByIndex s) (participantsColorByIndex s)
    (carStatusByIndex s) v (carDamageByIndex s) (lapDataByIndex s)
    (sectorCacheByIndex s) (pitLaneStintByIndex s)
    (sessionHistoryByCarIndex s).

Definition set_carDamageByIndex (v : JSMap CarDamage.t) (s : State) : State :=
  mkState (lapsState s) (playerState s) (numActiveCars s)
    (raceBestSector1TimeMs s) (raceBestSector2TimeMs s)
    (raceBestSector3TimeMs s) (raceBestSector1CarIndex s)
    (raceBestSector2CarIndex s) (raceBestSector3CarIndex s)
    (raceBestLapTimeMs s) (raceBestLapCarIndex s) (raceBestLapNum s)
    (pitLaneTimeByLap s) (pitLaneStatusByLap s) (lapsByNumber s)
    (tyreByLapStart s) (participantsNameByIndex s)
    (participantsTeamIdByIndex s) (participantsColorByIndex s)
    (carStatusByIndex s) (carTelemetryByIndex s) v (lapDataByIndex s)
    (sectorCacheByIndex s) (pitLaneStintByIndex s)
    (sessionHistoryByCarIndex s).

Definition set_lapDataByIndex (v : JSMap LapData.t) (s : State) : State :=
  mkState (lapsState s) (playerState s) (numActiveCars s)
    (raceBestSector1TimeMs s) (raceBestSector2TimeMs s)
    (raceBestSector3TimeMs s) (raceBestSector1CarIndex s)
    (raceBestSector2CarIndex s) (raceBestSector3CarIndex s)
    (raceBestLapTimeMs s) (raceBestLapCarIndex s) (raceBestLapNum s)
    (pitLaneTimeByLap s) (pitLaneStatusByLap s) (lapsByNumber s)
    (tyreByLapStart s) (participantsNameByIndex s)
    (participantsTeamIdByIndex s) (participantsColorByIndex s)
    (carStatusByIndex s) (carTelemetryByIndex s) (carDamageByIndex s) v
    (sectorCacheByIndex s) (pitLaneStintByIndex s)
    (sessionHistoryByCarIndex s).

Definition set_sectorCacheByIndex (v : JSMap SectorCache.t) (s : State) : State :=
  mkState (lapsState s) (playerState s) (numActiveCars s)
    (raceBestSector1TimeMs s) (raceBestSector2TimeMs s)
    (raceBestSector3TimeMs s) (raceBestSector1CarIndex s)
    (raceBestSector2CarIndex s) (raceBestSector3CarIndex s)
    (raceBestLapTimeMs s) (raceBestLapCarIndex s) (raceBestLapNum s)
    (pitLaneTimeByLap s) (pitLaneStatusByLap s) (lapsByNumber s)
    (tyreByLapStart s) (participantsNameByIndex s)
    (participantsTeamIdByIndex s) (participantsColorByIndex s)
    (carStatusByIndex s) (carTelemetryByIndex s) (carDamageByIndex s)
    (lapDataByIndex s) v (pitLaneStintByIndex s) (sessionHistoryByCarIndex s).

Definition set_pitLaneStintByIndex (v : JSMap PitStint.t) (s : State) : State :=
  mkState (lapsState s) (playerState s) (numActiveCars s)
    (raceBestSector1TimeMs s) (raceBestSector2TimeMs s)
    (raceBestSector3TimeMs s) (raceBestSector1CarIndex s)
    (raceBestSector2CarIndex s) (raceBestSector3CarIndex s)
    (raceBestLapTimeMs s) (raceBestLapCarIndex s) (raceBestLapNum s)
    (pitLaneTimeByLap s) (pitLaneStatusByLap s) (lapsByNumber s)
    (tyreByLapStart s) (participantsNameByIndex s)
    (participantsTeamIdByIndex s) (participantsColorByIndex s)
    (carStatusByIndex s) (carTelemetryByIndex s) (carDamageByIndex s)
    (lapDataByIndex s) (sectorCacheByIndex s) v (sessionHistoryByCarIndex s).

Definition set_sessionHistoryByCarIndex (v : JSMap (JSMap HistEntry.t)) (s : State) : State :=
  mkState (lapsState s) (playerState s) (numActiveCars s)
    (raceBestSector1TimeMs s) (raceBestSector2TimeMs s)
    (raceBestSector3TimeMs s) (raceBestSector1CarIndex s)
    (raceBestSector2CarIndex s) (raceBestSector3CarIndex s)
    (raceBestLapTimeMs s) (raceBestLapCarIndex s) (raceBestLapNum s)
    (pitLaneTimeByLap s) (pitLaneStatusByLap s) (lapsByNumber s)
    (tyreByLapStart s) (participantsNameByIndex s)
    (participantsTeamIdByIndex s) (participantsColorByIndex s)
    (carStatusByIndex s) (carTelemetryByIndex s) (carDamageByIndex s)
    (lapDataByIndex s) (sectorCacheByIndex s) (pitLaneStintByIndex s) v.

(** ** Record decoder *)

(** [parseHeader]: [None] is the source's [null] for a datagram shorter than a
    header. *)
Definition parseHeader (buf : Buffer) : result (option Header.t) :=
  if buf_length buf <? HEADER_SIZE then Ok None else
  let offset := 0 in
  packetFormat <- readUInt16LE buf offset ;;
  let offset := offset + 2 in
  gameYear <- readUInt8 buf offset ;;
  let offset := offset + 1 in
  gameMajorVersion <- readUInt8 buf offset ;;
  let offset := offset + 1 in
  gameMinorVersion <- readUInt8 buf offset ;;
  let offset := offset + 1 in
  packetVersion <- readUInt8 buf offset ;;
  let offset := offset + 1 in
  packetId <- readUInt8 buf offset ;;
  let offset := offset + 1 in
  sessionUID <- readBigUInt64LE buf offset ;;
  let offset := offset + 8 in
  sessionTime <- readFloatLE buf offset ;;
  let offset := offset + 4 in
  frameIdentifier <- readUInt32LE buf offset ;;
  let offset := offset + 4 in
  overallFrameIdentifier <- readUInt32LE buf offset ;;
  let offset := offset + 4 in
  playerCarIndex <- readUInt8 buf offset ;;
  let offset := offset + 1 in
  secondaryPlayerCarIndex <- readUInt8 buf offset ;;
  Ok (Some (Header.mk packetFormat gameYear gameMajorVersion gameMinorVersion
              packetVersion packetId sessionUID sessionTime frameIdentifier
              overallFrameIdentifier playerCarIndex secondaryPlayerCarIndex)).

(** The closure [decodeMinutesMs] of [parseLapDataForCar]. *)
Definition decodeMinutesMs (msPart minutesPart : Z) : option Z :=
  if (msPart =? 65535) || (minutesPart =? 255) then None
  else if (msPart =? 0) && (minutesPart =? 0) then None
  else Some (msPart + minutesPart * 60 * 1000).

Definition parseLapDataForCar (buf : Buffer) (baseOffset : Z)
  : result (option LapData.t) :=
  if buf_length buf <? baseOffset + LAP_DATA_SIZE then Ok None else
  lastLapTimeInMS <- readUInt32LE buf (baseOffset + 0) ;;
  currentLapTimeInMS <- readUInt32LE buf (baseOffset + 4) ;;
  sector1TimeMSPart <- readUInt16LE buf (baseOffset + 8) ;;
  sector1TimeMinutesPart <- readUInt8 buf (baseOffset + 10) ;;
  sector2TimeMSPart <- readUInt16LE buf (baseOffset + 11) ;;
  sector2TimeMinutesPart <- readUInt8 buf (baseOffset + 13) ;;
  let sector1TimeMs := decodeMinutesMs sector1TimeMSPart sector1TimeMinutesPart in
  let sector2TimeMs := decodeMinutesMs sector2TimeMSPart sector2TimeMinutesPart in
  let sector3TimeMs :=
    match sector1TimeMs, sector2TimeMs with
    | Some s1, Some s2 =>
        if lastLapTimeInMS >? 0 then
          let s3 := lastLapTimeInMS - s1 - s2 in
          if s3 >=? 0 then Some s3 else None
        else None
    | _, _ => None
    end in
  deltaToRaceLeaderMSPart <- readUInt16LE buf (baseOffset + 17) ;;
  deltaToRaceLeaderMinutesPart <- readUInt8 buf (baseOffset + 19) ;;
  let deltaToRaceLeaderMs :=
    decodeMinutesMs deltaToRaceLeaderMSPart deltaToRaceLeaderMinutesPart in
  deltaToCarInFrontMSPart <- readUInt16LE buf (baseOffset + 14) ;;
  deltaToCarInFrontMinutesPart <- readUInt8 buf (baseOffset + 16) ;;
  let deltaToCarInFrontMs :=
    decodeMinutesMs deltaToCarInFrontMSPart deltaToCarInFrontMinutesPart in
  lapDistance <- readFloatLE buf (baseOffset + 20) ;;
  totalDistance <- readFloatLE buf (baseOffset + 24) ;;
  safetyCarDelta <- readFloatLE buf (baseOffset + 28) ;;
  carPosition <- readUInt8 buf (baseOffset + 32) ;;
  currentLapNum <- readUInt8 buf (baseOffset + 33) ;;
  pitStatus <- readUInt8 buf (baseOffset + 34) ;;
  numPitStops <- readUInt8 buf (baseOffset + 35) ;;
  sector <- readUInt8 buf (baseOffset + 36) ;;
  currentLapInvalid <- readUInt8 buf (baseOffset + 37) ;;
  penaltiesSec <- readUInt8 buf (baseOffset + 38) ;;
  totalWarnings <- readUInt8 buf (baseOffset + 39) ;;
  cornerCuttingWarnings <- readUInt8 buf (baseOffset + 40) ;;
  numUnservedDriveThroughPens <- readUInt8 buf (baseOffset + 41) ;;
  numUnservedStopGoPens <- readUInt8 buf (baseOffset + 42) ;;
  gridPosition <- readUInt8 buf (baseOffset + 43) ;;
  driverStatus <- readUInt8 buf (baseOffset + 44) ;;
  resultStatus <- readUInt8 buf (baseOffset + 45) ;;
  pitLaneTimerActive <- readUInt8 buf (baseOffset + 46) ;;
  pitLaneTimeInLaneInMS <- readUInt16LE buf (baseOffset + 47) ;;
  pitStopTimerInMS <- readUInt16LE buf (baseOffset + 49) ;;
  pitStopShouldServePen <- readUInt8 buf (baseOffset + 51) ;;
  speedTrapFastestSpeed <- readFloatLE buf (baseOffset + 52) ;;
  speedTrapFastestLap <- readUInt8 buf (baseOffset + 56) ;;
  Ok (Some (LapData.mk lastLapTimeInMS currentLapTimeInMS sector1TimeMs
              sector2TimeMs sector3TimeMs deltaToRaceLeaderMs deltaToCarInFrontMs
              lapDistance totalDistance safetyCarDelta carPosition currentLapNum
              pitStatus numPitStops sector currentLapInvalid penaltiesSec
              totalWarnings cornerCuttingWarnings numUnservedDriveThroughPens
              numUnservedStopGoPens gridPosition driverStatus resultStatus
              pitLaneTimerActive pitLaneTimeInLaneInMS pitStopTimerInMS
              pitStopShouldServePen speedTrapFastestSpeed speedTrapFastestLap)).

(** *** Participant names

    [String.prototype.trim] removes white space and line terminators from both
    ends.  The name is kept as UTF-8 bytes, so the characters to strip are
    listed by their encodings: U+0009..U+000D, U+0020, U+00A0, U+1680,
    U+2000..U+200A, U+2028, U+2029, U+202F, U+205F, U+3000, U+FEFF. *)

Definition stripLeadingSpace (s : list Z) : option (list Z) :=
  match s with
  | b :: r =>
      if ((9 <=? b) && (b <=? 13)) || (b =? 32) then Some r else
      match s with
      | 194 :: 160 :: r2 => Some r2
      | 225 :: 154 :: 128 :: r3 => Some r3
      | 226 :: 128 :: c :: r3 =>
          if ((128 <=? c) && (c <=? 138)) || (c =? 168) || (c =? 169) || (c =? 175)
          then Some r3 else None
      | 226 :: 129 :: 159 :: r3 => Some r3
      | 227 :: 128 :: 128 :: r3 => Some r3
      | 239 :: 187 :: 191 :: r3 => Some r3
      | _ => None
      end
  | [] => None
  end.

(** The same characters at the end of the string, on the reversed bytes. *)
Definition stripTrailingSpace (s : list Z) : option (list Z) :=
  match s with
  | b :: r =>
      if ((9 <=? b) && (b <=? 13)) || (b =? 32) then Some r else
      match s with
      | 160 :: 194 :: r2 => Some r2
      | 128 :: 154 :: 225 :: r3 => Some r3
      | c :: 128 :: 226 :: r3 =>
          if ((128 <=? c) && (c <=? 138)) || (c =? 168) || (c =? 169) || (c =? 175)
          then Some r3 else None
      | 159 :: 129 :: 226 :: r3 => Some r3
      | 128 :: 128 :: 227 :: r3 => Some r3
      | 191 :: 187 :: 239 :: r3 => Some r3
      | _ => None
      end
  | [] => None
  end.

Fixpoint stripAll (strip : list Z -> option (list Z)) (fuel : nat) (s : list Z)
  : list Z :=
  match fuel with
  | O => s
  | S fuel' =>
      match strip s with
      | Some r => stripAll strip fuel' r
      | None => s
      end
  end.

Definition byteZ (b : byte) : Z := Z.of_N (Byte.to_N b).

Definition zByte (z : Z) : byte :=
  match Byte.of_N (Z.to_N z) with Some b => b | None => x00 end.

Definition trim (s : list byte) : list byte :=
  let z := map byteZ s in
  let z := stripAll stripLeadingSpace (length z) z in
  let z := rev (stripAll stripTrailingSpace (length z) (rev z)) in
  map zByte z.

(** [nameBuf.indexOf(0)] and the slice up to it. *)
Fixpoint untilNul (s : list byte) : list byte :=
  match s with
  | [] => []
  | b :: r => if byteZ b =? 0 then [] else b :: untilNul r
  end.

(** [sliced.toString('utf8')]: the bytes are decoded as UTF-8, and what is not
    well formed comes out as U+FFFD, one for each maximal part of a sequence
    that cannot be continued (an overlong form, a surrogate, a value above
    U+10FFFF, a stray continuation byte, a sequence cut short).  A well-formed
    sequence encodes back to itself, so the string is given by these bytes
    with [EF BF BD] in the place of every such part. *)
Definition REPLACEMENT_CHARACTER : list Z := [239; 191; 189].

(** A byte met when no sequence is open: what it puts out, and the sequence it
    opens: the bytes read so far, last one first, the number of continuation
    bytes to come, and the bounds of the next one. *)
Definition utf8Lead (b : Z) : list Z * (list Z * nat * Z * Z) :=
  if b <=? 127 then ([b], ([], O, 128, 191))
  else if (194 <=? b) && (b <=? 223) then ([], ([b], 1%nat, 128, 191))
  else if (224 <=? b) && (b <=? 239) then
    ([], ([b], 2%nat, (if b =? 224 then 160 else 128), (if b =? 237 then 159 else 191)))
  else if (240 <=? b) && (b <=? 244) then
    ([], ([b], 3%nat, (if b =? 240 then 144 else 128), (if b =? 244 then 143 else 191)))
  else (REPLACEMENT_CHARACTER, ([], O, 128, 191)).

Fixpoint utf8Decode (seen : list Z) (needed : nat) (lower upper : Z) (s : list Z)
  : list Z :=
  match s with
  | [] => match needed with O => [] | S _ => REPLACEMENT_CHARACTER end
  | b :: r =>
      match needed with
      | O =>
          let '(out, (seen', needed', lower', upper')) := utf8Lead b in
          out ++ utf8Decode seen' needed' lower' upper' r
      | S n =>
          if (lower <=? b) && (b <=? upper) then
            match n with
            | O => rev (b :: seen) ++ utf8Decode [] O 128 191 r
            | S _ => utf8Decode (b :: seen) n 128 191 r
            end
          else
            let '(out, (seen', needed', lower', upper')) := utf8Lead b in
            REPLACEMENT_CHARACTER ++ out ++ utf8Decode seen' needed' lower' upper' r
      end
  end.

Definition toStringUtf8 (s : list byte) : list byte :=
  map zByte (utf8Decode [] O 128 191 (map byteZ s)).

Definition parseParticipantName (buf : Buffer) (baseOffset : Z) : Name :=
  let NAME_LEN := 32 in
  let nameOffset := baseOffset + 7 in
  let nameBuf := subarray buf nameOffset (nameOffset + NAME_LEN) in
  let sliced := untilNul nameBuf in
  let name := trim (toStringUtf8 sliced) in
  name.

Definition parseParticipantMeta (buf : Buffer) (baseOffset : Z)
  : result ParticipantMeta.t :=
  teamId <- readUInt8 buf (baseOffset + 3) ;;
  numColours <- readUInt8 buf (baseOffset + 44) ;;
  r <- readUInt8 buf (baseOffset + 45) ;;
  g <- readUInt8 buf (baseOffset + 46) ;;
  b <- readUInt8 buf (baseOffset + 47) ;;
  Ok (ParticipantMeta.mk teamId numColours (Colour.mk r g b)).

Definition parseLapHistoryEntry (buf : Buffer) (baseOffset : Z)
  : result HistEntry.t :=
  lapTimeMs <- readUInt32LE buf (baseOffset + 0) ;;
  s1ms <- readUInt16LE buf (baseOffset + 4) ;;
  s1min <- readUInt8 buf (baseOffset + 6) ;;
  s2ms <- readUInt16LE buf (baseOffset + 7) ;;
  s2min <- readUInt8 buf (baseOffset + 9) ;;
  s3ms <- readUInt16LE buf (baseOffset + 10) ;;
  s3min <- readUInt8 buf (baseOffset + 12) ;;
  validFlags <- readUInt8 buf (baseOffset + 13) ;;
  let sector1TimeMs :=
    if negb (s1ms =? 0) || negb (s1min =? 0)
    then Some (s1ms + s1min * 60 * 1000) else None in
  let sector2TimeMs :=
    if negb (s2ms =? 0) || negb (s2min =? 0)
    then Some (s2ms + s2min * 60 * 1000) else None in
  let sector3TimeMs :=
    if negb (s3ms =? 0) || negb (s3min =? 0)
    then Some (s3ms + s3min * 60 * 1000) else None in
  Ok (HistEntry.mk (if lapTimeMs >? 0 then Some lapTimeMs else None)
        sector1TimeMs sector2TimeMs sector3TimeMs validFlags).

Definition parseCarStatusForCar (buf : Buffer) (baseOffset : Z)
  : result (option CarStatus.t) :=
  if buf_length buf <? baseOffset + CAR_STATUS_DATA_SIZE then Ok None else
  let o := baseOffset in
  tractionControl <- readUInt8 buf o ;; let o := o + 1 in
  antiLockBrakes <- readUInt8 buf o ;; let o := o + 1 in
  fuelMix <- readUInt8 buf o ;; let o := o + 1 in
  frontBrakeBias <- readUInt8 buf o ;; let o := o + 1 in
  pitLimiterStatus <- readUInt8 buf o ;; let o := o + 1 in
  fuelInTank <- readFloatLE buf o ;; let o := o + 4 in
  fuelCapacity <- readFloatLE buf o ;; let o := o + 4 in
  fuelRemainingLaps <- readFloatLE buf o ;; let o := o + 4 in
  maxRPM <- readUInt16LE buf o ;; let o := o + 2 in
  idleRPM <- readUInt16LE buf o ;; let o := o + 2 in
  maxGears <- readUInt8 buf o ;; let o := o + 1 in
  drsAllowed <- readUInt8 buf o ;; let o := o + 1 in
  drsActivationDistance <- readUInt16LE buf o ;; let o := o + 2 in
  actualTyreCompound <- readUInt8 buf o ;; let o := o + 1 in
  visualTyreCompound <- readUInt8 buf o ;; let o := o + 1 in
  tyresAgeLaps <- readUInt8 buf o ;; let o := o + 1 in
  vehicleFIAFlags <- readInt8 buf o ;; let o := o + 1 in
  enginePowerICE <- readFloatLE buf o ;; let o := o + 4 in
  enginePowerMGUK <- readFloatLE buf o ;; let o := o + 4 in
  ersStoreEnergy <- readFloatLE buf o ;; let o := o + 4 in
  ersDeployMode <- readUInt8 buf o ;; let o := o + 1 in
  ersHarvestedThisLapMGUK <- readFloatLE buf o ;; let o := o + 4 in
  ersHarvestedThisLapMGUH <- readFloatLE buf o ;; let o := o + 4 in
  ersDeployedThisLap <- readFloatLE buf o ;; let o := o + 4 in
  networkPaused <- readUInt8 buf o ;;
  Ok (Some (CarStatus.mk tractionControl antiLockBrakes fuelMix frontBrakeBias
              pitLimiterStatus fuelInTank fuelCapacity fuelRemainingLaps maxRPM
              idleRPM maxGears drsAllowed drsActivationDistance actualTyreCompound
              visualTyreCompound tyresAgeLaps vehicleFIAFlags enginePowerICE
              enginePowerMGUK ersStoreEnergy ersDeployMode ersHarvestedThisLapMGUK
              ersHarvestedThisLapMGUH ersDeployedThisLap networkPaused)).

(** Four consecutive reads into an array literal. *)
Definition read4 (read : Buffer -> Z -> result Z) (buf : Buffer) (o step : Z)
  : result (list Z) :=
  a <- read buf o ;;
  b <- read buf (o + step) ;;
  c <- read buf (o + 2 * step) ;;
  d <- read buf (o + 3 * step) ;;
  Ok [a; b; c; d].

Definition parseCarTelemetryForCar (buf : Buffer) (baseOffset : Z)
  : result (option CarTelemetry.t) :=
  if buf_length buf <? baseOffset + CAR_TELEMETRY_DATA_SIZE then Ok None else
  let o := baseOffset in
  speedKph <- readUInt16LE buf o ;; let o := o + 2 in
  throttle <- readFloatLE buf o ;; let o := o + 4 in
  steer <- readFloatLE buf o ;; let o := o + 4 in
  brake <- readFloatLE buf o ;; let o := o + 4 in
  clutch <- readUInt8 buf o ;; let o := o + 1 in
  gear <- readInt8 buf o ;; let o := o + 1 in
  engineRPM <- readUInt16LE buf o ;; let o := o + 2 in
  drs <- readUInt8 buf o ;; let o := o + 1 in
  revLightsPercent <- readUInt8 buf o ;; let o := o + 1 in
  revLightsBitValue <- readUInt16LE buf o ;; let o := o + 2 in
  brakesTemperature <- read4 readUInt16LE buf o 2 ;;
  let o := o + 8 in
  tyresSurfaceTemperature <- read4 readUInt8 buf o 1 ;;
  let o := o + 4 in
  tyresInnerTemperature <- read4 readUInt8 buf o 1 ;;
  let o := o + 4 in
  engineTemperature <- readUInt16LE buf o ;; let o := o + 2 in
  tyresPressure <- read4 readFloatLE buf o 4 ;;
  let o := o + 16 in
  surfaceType <- read4 readUInt8 buf o 1 ;;
  Ok (Some (CarTelemetry.mk speedKph throttle steer brake clutch gear engineRPM
              drs revLightsPercent revLightsBitValue brakesTemperature
              tyresSurfaceTemperature tyresInnerTemperature engineTemperature
              tyresPressure surfaceType)).

(** [parseCarDamageForCar].  [Math.floor] of the quotient is [Z.div]; the
    [perCarSize || 0] of the source leaves an integer unchanged. *)
Definition parseCarDamageForCar (buf : Buffer) (baseOffset : Z)
  : result (option CarDamage.t) :=
  let perCarSize := (buf_length buf - HEADER_SIZE) / NUM_CARS in
  let needed := Z.min CAR_DAMAGE_DATA_SIZE perCarSize in
  if needed <=? 0 then Ok None else
  if buf_length buf <? baseOffset + needed then Ok None else
  let o := baseOffset in
  tyresWear <- read4 readFloatLE buf o 4 ;;
  let o := o + 16 in
  tyresDamage <- read4 readUInt8 buf o 1 ;;
  let o := o + 4 in
  brakesDamage <- read4 readUInt8 buf o 1 ;;
  let o := o + 4 in
  tyreBlisters <- read4 readUInt8 buf o 1 ;;
  let o := o + 4 in
  frontLeftWingDamage <- readUInt8 buf o ;; let o := o + 1 in
  frontRightWingDamage <- readUInt8 buf o ;; let o := o + 1 in
  rearWingDamage <- readUInt8 buf o ;; let o := o + 1 in
  floorDamage <- readUInt8 buf o ;; let o := o + 1 in
  diffuserDamage <- readUInt8 buf o ;; let o := o + 1 in
  sidepodDamage <- readUInt8 buf o ;; let o := o + 1 in
  drsFault <- readUInt8 buf o ;; let o := o + 1 in
  ersFault <- readUInt8 buf o ;; let o := o + 1 in
  gearBoxDamage <- readUInt8 buf o ;; let o := o + 1 in
  engineDamage <- readUInt8 buf o ;; let o := o + 1 in
  engineMGUHWear <- readUInt8 buf o ;; let o := o + 1 in
  engineESWear <- readUInt8 buf o ;; let o := o + 1 in
  engineCEWear <- readUInt8 buf o ;; let o := o + 1 in
  engineICEWear <- readUInt8 buf o ;; let o := o + 1 in
  engineMGUKWear <- readUInt8 buf o ;; let o := o + 1 in
  engineTCWear <- readUInt8 buf o ;; let o := o + 1 in
  engineBlown <- readUInt8 buf o ;; let o := o + 1 in
  engineSeized <- readUInt8 buf o ;;
  Ok (Some (CarDamage.mk tyresWear tyresDamage brakesDamage tyreBlisters
              frontLeftWingDamage frontRightWingDamage rearWingDamage floorDamage
              diffuserDamage sidepodDamage drsFault ersFault gearBoxDamage
              engineDamage engineMGUHWear engineESWear engineCEWear engineICEWear
              engineMGUKWear engineTCWear engineBlown engineSeized)).

(** ** Personal bests *)

(** [syncLapsArrayFromMap]: the values of [lapsByNumber], sorted by lap number. *)
Definition syncLapsArrayFromMap (st : State) : State :=
  set_lapsState
    (LapsState.set_laps
       (js_sort (fun a b => LapEntry.lapNumber a - LapEntry.lapNumber b)
          (map_values (lapsByNumber st)))
       (lapsState st))
    st.

(** The five local variables of the first loop of [recomputeFromLaps]. *)
Record Bests : Type := mkBests {
  b_bestLapTimeMs : option Z;
  b_bestLapNumber : option Z;
  b_bestS1 : option Z;
  b_bestS2 : option Z;
  b_bestS3 : option Z
}.

(** [cand != null && (best == null || cand < best) ? cand : best] *)
Definition minOpt (best cand : option Z) : option Z :=
  match cand with
  | None => best
  | Some c =>
      match best with
      | None => Some c
      | Some b => if c <? b then Some c else best
      end
  end.

(** The test [!l.valid || l.lapTimeMs == null || l.lapTimeMs <= 0] negated,
    with the lap time when it passes. *)
Definition countedTime (l : LapEntry.t) : option Z :=
  if LapEntry.valid l then
    match LapEntry.lapTimeMs l with
    | Some t => if t <=? 0 then None else Some t
    | None => None
    end
  else None.

Definition bestsStep (acc : Bests) (l : LapEntry.t) : Bests :=
  match countedTime l with
  | None => acc
  | Some t =>
      let better :=
        match b_bestLapTimeMs acc with
        | None => true
        | Some b => t <? b
        end in
      mkBests
        (if better then Some t else b_bestLapTimeMs acc)
        (if better then Some (LapEntry.lapNumber l) else b_bestLapNumber acc)
        (minOpt (b_bestS1 acc) (LapEntry.sector1TimeMs l))
        (minOpt (b_bestS2 acc) (LapEntry.sector2TimeMs l))
        (minOpt (b_bestS3 acc) (LapEntry.sector3TimeMs l))
  end.

Definition scanBests (ls : list LapEntry.t) : Bests :=
  fold_left bestsStep ls (mkBests None None None None None).

(** The body of the second loop: [isBest] and [deltaMs] of one row. *)
Definition markEntry (bestLapTimeMs : option Z) (l : LapEntry.t) : LapEntry.t :=
  let isBest :=
    match bestLapTimeMs, LapEntry.lapTimeMs l with
    | Some b, Some t => LapEntry.valid l && (t =? b)
    | _, _ => false
    end in
  let l := LapEntry.set_isBest isBest l in
  let deltaMs :=
    match bestLapTimeMs, LapEntry.lapTimeMs l with
    | Some b, Some t => if LapEntry.valid l && (t >? 0) then Some (t - b) else None
    | _, _ => None
    end in
  LapEntry.set_deltaMs deltaMs l.

Definition markEntries (bestLapTimeMs : option Z) (m : JSMap LapEntry.t)
  : JSMap LapEntry.t :=
  map (fun kv => (fst kv, markEntry bestLapTimeMs (snd kv))) m.

Definition recomputeFromLaps (st : State) : State :=
  let b := scanBests (map_values (lapsByNumber st)) in
  let ls := lapsState st in
  let ls := LapsState.set_bestLapTimeMs (b_bestLapTimeMs b) ls in
  let ls := LapsState.set_bestLapNumber (b_bestLapNumber b) ls in
  let ls := LapsState.set_bestSector1TimeMs (b_bestS1 b) ls in
  let ls := LapsState.set_bestSector2TimeMs (b_bestS2 b) ls in
  let ls := LapsState.set_bestSector3TimeMs (b_bestS3 b) ls in
  let st := set_lapsState ls st in
  let st := set_lapsByNumber (markEntries (b_bestLapTimeMs b) (lapsByNumber st)) st in
  syncLapsArrayFromMap st.

(** ** Session epoch *)

(** The values the module-level variables start with. *)
Definition initialLapsState : LapsState.t :=
  LapsState.mk 0 None None None None None None false
    None None None None None None None None None None None None
    None [] [] None
    None None None None None None None None None
    None None None None.

Definition initialPlayerState : PlayerState.t :=
  PlayerState.mk None None 0 None None None None None false None 0 0.

Definition initialState : State :=
  mkState initialLapsState initialPlayerState None
    None None None None None None None None None
    [] [] [] [] [] [] [] [] [] [] [] [] [] [].

Definition resetSessionState (sessionUID : Z) (st : State) : State :=
  let ps := playerState st in
  let ps := PlayerState.set_sessionUID (Some sessionUID) ps in
  let ps := PlayerState.set_currentLapNum None ps in
  let ps := PlayerState.set_currentLapInvalid 0 ps in
  let ps := PlayerState.set_currentSector1TimeMs None ps in
  let ps := PlayerState.set_currentSector2TimeMs None ps in
  let ps := PlayerState.set_currentTyreActualCompound None ps in
  let ps := PlayerState.set_currentTyreVisualCompound None ps in
  let ps := PlayerState.set_currentTyresAgeLaps None ps in
  let ps := PlayerState.set_pitLaneActive false ps in
  let ps := PlayerState.set_pitLaneStartLapNum None ps in
  let ps := PlayerState.set_pitLaneMaxTimeMs 0 ps in
  let ps := PlayerState.set_pitLanePitStatusMax 0 ps in
  let st := set_playerState ps st in
  let st := set_pitLaneTimeByLap (map_clear (pitLaneTimeByLap st)) st in
  let st := set_pitLaneStatusByLap (map_clear (pitLaneStatusByLap st)) st in
  let st := set_lapsByNumber (map_clear (lapsByNumber st)) st in
  let st := set_tyreByLapStart (map_clear (tyreByLapStart st)) st in
  let st := set_participantsNameByIndex (map_clear (participantsNameByIndex st)) st in
  let st := set_participantsTeamIdByIndex (map_clear (participantsTeamIdByIndex st)) st in
  let st := set_participantsColorByIndex (map_clear (participantsColorByIndex st)) st in
  let st := set_carStatusByIndex (map_clear (carStatusByIndex st)) st in
  let st := set_carTelemetryByIndex (map_clear (carTelemetryByIndex st)) st in
  let st := set_carDamageByIndex (map_clear (carDamageByIndex st)) st in
  let st := set_lapDataByIndex (map_clear (lapDataByIndex st)) st in
  let st := set_sectorCacheByIndex (map_clear (sectorCacheByIndex st)) st in
  let st := set_pitLaneStintByIndex (map_clear (pitLaneStintByIndex st)) st in
  let st := set_sessionHistoryByCarIndex (map_clear (sessionHistoryByCarIndex st)) st in
  let st := set_numActiveCars None st in
  let st := set_raceBestSector1TimeMs None st in
  let st := set_raceBestSector2TimeMs None st in
  let st := set_raceBestSector3TimeMs None st in
  let st := set_raceBestSector1CarIndex None st in
  let st := set_raceBestSector2CarIndex None st in
  let st := set_raceBestSector3CarIndex None st in
  let st := set_raceBestLapTimeMs None st in
  let st := set_raceBestLapCarIndex None st in
  let st := set_raceBestLapNum None st in
  set_lapsState
    (LapsState.mk 0 None None None None None None true
       None None None None None None None None None None None None
       None [] [] None
       None None None None None None None None None
       None None None None)
    st.

(** The test every handler makes on the header it parsed:
    [playerState.sessionUID === null || playerState.sessionUID !== header.sessionUID]. *)
Definition sessionIsNew (h : Header.t) (st : State) : bool :=
  match PlayerState.sessionUID (playerState st) with
  | None => true
  | Some u => negb (u =? Header.sessionUID h)
  end.

(** What a handler hands back: the next state and the documents it broadcast. *)
Definition Outcome : Type := result (State * list LapsState.t).

Definition broadcastState (st : State) : list LapsState.t := [lapsState st].

(** [for (let i = 0; i < NUM_CARS; i++)] *)
Definition carSlots : list Z := map Z.of_nat (seq 0 (Z.to_nat NUM_CARS)).

Fixpoint forEachSlot (body : Z -> State -> result State) (slots : list Z)
  (st : State) : result State :=
  match slots with
  | [] => Ok st
  | i :: rest => st' <- body i st ;; forEachSlot body rest st'
  end.

(** ** Packet handlers *)

Definition isEmptyName (n : Name) : bool :=
  match n with [] => true | _ => false end.

Definition participantsLoopBody (buf : Buffer) (base : Z) (i : Z) (st : State)
  : result State :=
  let off := base + i * PARTICIPANT_DATA_SIZE in
  let name := parseParticipantName buf off in
  if isEmptyName name then Ok st else
  let st := set_participantsNameByIndex (map_set i name (participantsNameByIndex st)) st in
  meta <- parseParticipantMeta buf off ;;
  let st :=
    set_participantsTeamIdByIndex
      (map_set i (ParticipantMeta.teamId meta) (participantsTeamIdByIndex st)) st in
  let st :=
    set_participantsColorByIndex
      (map_set i (ParticipantMeta.colour meta) (participantsColorByIndex st)) st in
  Ok st.

Definition handleParticipantsPacket (buf : Buffer) (st : State) : Outcome :=
  header <- parseHeader buf ;;
  match header with
  | None => Ok (st, [])
  | Some header =>
      let st :=
        if sessionIsNew header st
        then resetSessionState (Header.sessionUID header) st else st in
      n <- readUInt8 buf HEADER_SIZE ;;
      let st := set_numActiveCars (Some n) st in
      let base := HEADER_SIZE + 1 in
      if buf_length buf <? base + NUM_CARS * PARTICIPANT_DATA_SIZE then Ok (st, []) else
      st <- forEachSlot (participantsLoopBody buf base) carSlots st ;;
      Ok (st, [])
  end.

(** The reading loop of [handleSessionHistoryPacket]: [n] iterations are left,
    [i] is the loop variable; a lap that does not fit ends the loop. *)
Fixpoint readLapHistory (buf : Buffer) (lapHistoryBase : Z) (n : nat) (i : Z)
  (byLap : JSMap HistEntry.t) : result (JSMap HistEntry.t) :=
  match n with
  | O => Ok byLap
  | S n' =>
      let off := lapHistoryBase + i * LAP_HISTORY_DATA_SIZE in
      if off + LAP_HISTORY_DATA_SIZE >? buf_length buf then Ok byLap else
      entry <- parseLapHistoryEntry buf off ;;
      readLapHistory buf lapHistoryBase n' (i + 1) (map_set (i + 1) entry byLap)
  end.

(** One turn of the loop that rewrites recorded laps from the history. *)
Definition overrideLapFromHistory (m : JSMap LapEntry.t) (kv : Z * HistEntry.t)
  : JSMap LapEntry.t :=
  let lapNum := fst kv in
  let entry := snd kv in
  match map_get lapNum m with
  | Some l =>
      match HistEntry.lapTimeMs entry with
      | Some t =>
          let l := LapEntry.set_lapTimeMs (Some t) l in
          let l := LapEntry.set_sector1TimeMs (HistEntry.sector1TimeMs entry) l in
          let l := LapEntry.set_sector2TimeMs (HistEntry.sector2TimeMs entry) l in
          let l := LapEntry.set_sector3TimeMs (HistEntry.sector3TimeMs entry) l in
          map_set lapNum l m
      | None => m
      end
  | None => m
  end.

Definition handleSessionHistoryPacket (buf : Buffer) (st : State) : Outcome :=
  header <- parseHeader buf ;;
  match header with
  | None => Ok (st, [])
  | Some header =>
      let st :=
        if sessionIsNew header st
        then resetSessionState (Header.sessionUID header) st else st in
      if buf_length buf <? HEADER_SIZE + 7 then Ok (st, []) else
      carIdx <- readUInt8 buf (HEADER_SIZE + 0) ;;
      numLaps <- readUInt8 buf (HEADER_SIZE + 1) ;;
      let lapHistoryBase := HEADER_SIZE + 7 in
      if buf_length buf <? lapHistoryBase + LAP_HISTORY_DATA_SIZE then Ok (st, []) else
      let lapsToRead := Z.min numLaps 100 in
      byLap <- readLapHistory buf lapHistoryBase (Z.to_nat lapsToRead) 0 [] ;;
      let st :=
        set_sessionHistoryByCarIndex
          (map_set carIdx byLap (sessionHistoryByCarIndex st)) st in
      if carIdx =? Header.playerCarIndex header then
        let st :=
          set_lapsByNumber (fold_left overrideLapFromHistory byLap (lapsByNumber st)) st in
        Ok (recomputeFromLaps st, [])
      else Ok (st, [])
  end.

Definition carStatusLoopBody (buf : Buffer) (i : Z) (st : State) : result State :=
  let baseOffset := HEADER_SIZE + i * CAR_STATUS_DATA_SIZE in
  status <- parseCarStatusForCar buf baseOffset ;;
  match status with
  | None => Ok st
  | Some status => Ok (set_carStatusByIndex (map_set i status (carStatusByIndex st)) st)
  end.

(** The last block of [handleCarStatusPacket]: complete the tyre snapshot of
    the lap under way. *)
Definition backfillTyreSnapshot (st : State) : State :=
  match PlayerState.currentLapNum (playerState st) with
  | None => st
  | Some lapNum =>
      let ps := playerState st in
      let existing := map_get lapNum (tyreByLapStart st) in
      let isNone (o : option Z) := match o with None => true | Some _ => false end in
      let write :=
        match existing with
        | None => true
        | Some e =>
            (isNone (TyreSnap.tyreVisualCompound e)
             && negb (isNone (PlayerState.currentTyreVisualCompound ps)))
            || (isNone (TyreSnap.tyreActualCompound e)
                && negb (isNone (PlayerState.currentTyreActualCompound ps)))
        end in
      if write then
        set_tyreByLapStart
          (map_set lapNum
             (TyreSnap.mk (PlayerState.currentTyreActualCompound ps)
                (PlayerState.currentTyreVisualCompound ps)
                (PlayerState.currentTyresAgeLaps ps))
             (tyreByLapStart st)) st
      else st
  end.

Definition handleCarStatusPacket (buf : Buffer) (st : State) : Outcome :=
  header <- parseHeader buf ;;
  match header with
  | None => Ok (st, [])
  | Some header =>
      let st :=
        if sessionIsNew header st
        then resetSessionState (Header.sessionUID header) st else st in
      let playerCarIndex := Header.playerCarIndex header in
      st <- forEachSlot (carStatusLoopBody buf) carSlots st ;;
      let st :=
        if playerCarIndex <? NUM_CARS then
          match map_get playerCarIndex (carStatusByIndex st) with
          | Some ps =>
              let p := playerState st in
              let p := PlayerState.set_currentTyreActualCompound
                         (Some (CarStatus.actualTyreCompound ps)) p in
              let p := PlayerState.set_currentTyreVisualCompound
                         (Some (CarStatus.visualTyreCompound ps)) p in
              let p := PlayerState.set_currentTyresAgeLaps
                         (Some (CarStatus.tyresAgeLaps ps)) p in
              let st := set_playerState p st in
              set_lapsState (LapsState.set_currentCarStatus (Some ps) (lapsState st)) st
          | None => st
          end
        else st in
      Ok (backfillTyreSnapshot st, [])
  end.

Definition carTelemetryLoopBody (buf : Buffer) (i : Z) (st : State) : result State :=
  let baseOffset := HEADER_SIZE + i * CAR_TELEMETRY_DATA_SIZE in
  tel <- parseCarTelemetryForCar buf baseOffset ;;
  match tel with
  | None => Ok st
  | Some tel => Ok (set_carTelemetryByIndex (map_set i tel (carTelemetryByIndex st)) st)
  end.

Definition handleCarTelemetryPacket (buf : Buffer) (st : State) : Outcome :=
  header <- parseHeader buf ;;
  match header with
  | None => Ok (st, [])
  | Some header =>
      let st :=
        if sessionIsNew header st
        then resetSessionState (Header.sessionUID header) st else st in
      let playerCarIndex := Header.playerCarIndex header in
      st <- forEachSlot (carTelemetryLoopBody buf) carSlots st ;;
      let st :=
        if playerCarIndex <? NUM_CARS then
          match map_get playerCarIndex (carTelemetryByIndex st) with
          | Some t =>
              set_lapsState (LapsState.set_currentCarTelemetry (Some t) (lapsState st)) st
          | None => st
          end
        else st in
      Ok (st, [])
  end.

Definition carDamageLoopBody (buf : Buffer) (i : Z) (st : State) : result State :=
  let baseOffset := HEADER_SIZE + i * CAR_DAMAGE_DATA_SIZE in
  dmg <- parseCarDamageForCar buf baseOffset ;;
  match dmg with
  | None => Ok st
  | Some dmg => Ok (set_carDamageByIndex (map_set i dmg (carDamageByIndex st)) st)
  end.

Definition handleCarDamagePacket (buf : Buffer) (st : State) : Outcome :=
  header <- parseHeader buf ;;
  match header with
  | None => Ok (st, [])
  | Some header =>
      let st :=
        if sessionIsNew header st
        then resetSessionState (Header.sessionUID header) st else st in
      let playerCarIndex := Header.playerCarIndex header in
      st <- forEachSlot (carDamageLoopBody buf) carSlots st ;;
      let st :=
        if playerCarIndex <? NUM_CARS then
          match map_get playerCarIndex (carDamageByIndex st) with
          | Some d =>
              set_lapsState (LapsState.set_currentCarDamage (Some d) (lapsState st)) st
          | None => st
          end
        else st in
      Ok (st, broadcastState st)
  end.

(** The classification at the end of [handleSessionPacket]. *)
Definition classifySession (sessionType totalLaps : Z) : SessionKind :=
  let isPractice := (sessionType >=? 1) && (sessionType <=? 4) in
  let isQuali := (sessionType >=? 5) && (sessionType <=? 9) in
  let isTimeTrial := sessionType =? 12 in
  let isRaceLike :=
    (sessionType =? 10) || (sessionType =? 11) || (sessionType =? 13)
    || (sessionType =? 14) || (sessionType =? 15) in
  if isTimeTrial then time_trial
  else if isRaceLike then race
  else if isPractice || isQuali then time_attack
  else if totalLaps >? 0 then race else time_attack.

Definition handleSessionPacket (buf : Buffer) (st : State) : Outcome :=
  header <- parseHeader buf ;;
  match header with
  | None => Ok (st, [])
  | Some header =>
      let st :=
        if sessionIsNew header st
        then resetSessionState (Header.sessionUID header) st else st in
      if buf_length buf <? HEADER_SIZE + 14 then Ok (st, []) else
      totalLaps <- readUInt8 buf (HEADER_SIZE + 3) ;;
      sessionType <- readUInt8 buf (HEADER_SIZE + 6) ;;
      trackLengthM <- readUInt16LE buf (HEADER_SIZE + 4) ;;
      trackId <- readInt8 buf (HEADER_SIZE + 7) ;;
      weather <- readUInt8 buf (HEADER_SIZE + 0) ;;
      trackTemperatureC <- readInt8 buf (HEADER_SIZE + 1) ;;
      airTemperatureC <- readInt8 buf (HEADER_SIZE + 2) ;;
      formula <- readUInt8 buf (HEADER_SIZE + 8) ;;
      sessionTimeLeftSec <- readUInt16LE buf (HEADER_SIZE + 9) ;;
      sessionDurationSec <- readUInt16LE buf (HEADER_SIZE + 11) ;;
      pitSpeedLimitKph <- readUInt8 buf (HEADER_SIZE + 13) ;;
      let ls := lapsState st in
      let ls := LapsState.set_totalLaps (Some totalLaps) ls in
      let ls := LapsState.set_sessionType (Some sessionType) ls in
      let ls := LapsState.set_trackLengthM (Some trackLengthM) ls in
      let ls := LapsState.set_trackId (Some trackId) ls in
      let ls := LapsState.set_weather (Some weather) ls in
      let ls := LapsState.set_trackTemperatureC (Some trackTemperatureC) ls in
      let ls := LapsState.set_airTemperatureC (Some airTemperatureC) ls in
      let ls := LapsState.set_formula (Some formula) ls in
      let ls := LapsState.set_sessionTimeLeftSec (Some sessionTimeLeftSec) ls in
      let ls := LapsState.set_sessionDurationSec (Some sessionDurationSec) ls in
      let ls := LapsState.set_pitSpeedLimitKph (Some pitSpeedLimitKph) ls in
      let ls := LapsState.set_sessionKind (Some (classifySession sessionType totalLaps)) ls in
      Ok (set_lapsState ls st, [])
  end.

(** ** The lap-data handler *)

(** *** 1. Per-car caches *)

Definition defaultPitStint : PitStint.t := PitStint.mk false None 0 0 None 0 None.

(** The stint of one car after one lap record. *)
Definition trackPitStint (lap : LapData.t) (pitPrev : PitStint.t) : PitStint.t :=
  if LapData.pitLaneTimerActive lap =? 1 then
    let p :=
      if negb (PitStint.active pitPrev) then
        let p := PitStint.set_active true pitPrev in
        let p := PitStint.set_startLapNum (Some (LapData.currentLapNum lap)) p in
        let p := PitStint.set_maxTimeMs 0 p in
        PitStint.set_statusMax 0 p
      else pitPrev in
    let p :=
      if LapData.pitLaneTimeInLaneInMS lap >? 0
      then PitStint.set_maxTimeMs
             (Z.max (PitStint.maxTimeMs p) (LapData.pitLaneTimeInLaneInMS lap)) p
      else p in
    if LapData.pitStatus lap >? 0
    then PitStint.set_statusMax (Z.max (PitStint.statusMax p) (LapData.pitStatus lap)) p
    else p
  else if PitStint.active pitPrev then
    let p := PitStint.set_active false pitPrev in
    let p := PitStint.set_lastTimeMs
               (if PitStint.maxTimeMs p >? 0 then Some (PitStint.maxTimeMs p) else None) p in
    let p := PitStint.set_lastStatusMax (PitStint.statusMax p) p in
    let p := PitStint.set_lastLapNum (PitStint.startLapNum p) p in
    let p := PitStint.set_startLapNum None p in
    let p := PitStint.set_maxTimeMs 0 p in
    PitStint.set_statusMax 0 p
  else pitPrev.

(** [x != null ? x : y] *)
Definition orElse {A : Type} (x y : option A) : option A :=
  match x with Some _ => x | None => y end.

(** The sector cache keeps a field the new record does not carry. *)
Definition mergeSectors (lap : LapData.t) (prev : SectorCache.t) : SectorCache.t :=
  SectorCache.mk
    (orElse (LapData.sector1TimeMs lap) (SectorCache.sector1TimeMs prev))
    (orElse (LapData.sector2TimeMs lap) (SectorCache.sector2TimeMs prev))
    (orElse (LapData.sector3TimeMs lap) (SectorCache.sector3TimeMs prev)).

Definition storeLapData (i : Z) (lap : LapData.t) (st : State) : State :=
  let pitPrev :=
    match map_get i (pitLaneStintByIndex st) with
    | Some p => p
    | None => defaultPitStint
    end in
  let st :=
    set_pitLaneStintByIndex
      (map_set i (trackPitStint lap pitPrev) (pitLaneStintByIndex st)) st in
  let prev :=
    match map_get i (sectorCacheByIndex st) with
    | Some c => c
    | None => SectorCache.mk None None None
    end in
  let next := mergeSectors lap prev in
  let st := set_sectorCacheByIndex (map_set i next (sectorCacheByIndex st)) st in
  let cached :=
    LapData.set_sector3TimeMs (SectorCache.sector3TimeMs next)
      (LapData.set_sector2TimeMs (SectorCache.sector2TimeMs next)
         (LapData.set_sector1TimeMs (SectorCache.sector1TimeMs next) lap)) in
  set_lapDataByIndex (map_set i cached (lapDataByIndex st)) st.

Definition lapDataLoopBody (buf : Buffer) (i : Z) (st : State) : result State :=
  let baseOffset := HEADER_SIZE + i * LAP_DATA_SIZE in
  lap <- parseLapDataForCar buf baseOffset ;;
  match lap with
  | None => Ok st
  | Some lap => Ok (storeLapData i lap st)
  end.

(** *** 2. Leaderboard *)

(** The [filter] callback that decides which cars are listed. *)
Definition onLeaderboard (st : State) (playerCarIndex : Z) (kv : Z * LapData.t) : bool :=
  let carIndex := fst kv in
  let lap := snd kv in
  match map_get carIndex (participantsNameByIndex st) with
  | None => false
  | Some name =>
      if isEmptyName name then false
      else if carIndex =? playerCarIndex then true
      else if match numActiveCars st with
              | Some n => (n >? 0) && (carIndex >=? n)
              | None => false
              end then false
      else if LapData.resultStatus lap =? 0 then false
      else true
  end.

(** The best valid lap of a car in its session history. *)
Definition historyBestStep (acc : Bests) (kv : Z * HistEntry.t) : Bests :=
  let lapNum := fst kv in
  let entry := snd kv in
  match HistEntry.lapTimeMs entry with
  | None => acc
  | Some t =>
      if t <=? 0 then acc
      else if Z.land (HistEntry.validFlags entry) 1 =? 0 then acc
      else if match b_bestLapTimeMs acc with
              | None => true
              | Some b => t <? b
              end
      then mkBests (Some t) (Some lapNum) (HistEntry.sector1TimeMs entry)
             (HistEntry.sector2TimeMs entry) (HistEntry.sector3TimeMs entry)
      else acc
  end.

(** The [map] callback that builds one row. *)
Definition toRaceCar (st : State) (kv : Z * LapData.t) : RaceCar.t :=
  let carIndex := fst kv in
  let lap := snd kv in
  let name := map_get carIndex (participantsNameByIndex st) in
  let cs := map_get carIndex (carStatusByIndex st) in
  let pcol := map_get carIndex (participantsColorByIndex st) in
  let teamId := map_get carIndex (participantsTeamIdByIndex st) in
  let pit := map_get carIndex (pitLaneStintByIndex st) in
  let pitLaneTimeMs :=
    match pit with
    | Some p =>
        if PitStint.active p
        then (if PitStint.maxTimeMs p >? 0 then Some (PitStint.maxTimeMs p) else None)
        else PitStint.lastTimeMs p
    | None => None
    end in
  let pitStatusMax :=
    match pit with
    | Some p => if PitStint.active p then PitStint.statusMax p else PitStint.lastStatusMax p
    | None => 0
    end in
  let sh := map_get carIndex (sessionHistoryByCarIndex st) in
  let lastLapNum :=
    if LapData.currentLapNum lap >? 0 then Some (LapData.currentLapNum lap - 1) else None in
  let shLast :=
    match lastLapNum, sh with
    | Some n, Some h => map_get n h
    | _, _ => None
    end in
  let best :=
    match sh with
    | Some h => fold_left historyBestStep h (mkBests None None None None None)
    | None => mkBests None None None None None
    end in
  let isTimeAttack :=
    match LapsState.sessionKind (lapsState st) with
    | Some k => SessionKind_eqb k time_attack
    | None => false
    end in
  let fromLast (f : HistEntry.t -> option Z) : option Z :=
    match shLast with Some e => f e | None => None end in
  let displayLapTimeMs :=
    if isTimeAttack then b_bestLapTimeMs best
    else orElse (fromLast HistEntry.lapTimeMs)
           (if LapData.lastLapTimeInMS lap >? 0
            then Some (LapData.lastLapTimeInMS lap) else None) in
  let displayS1 :=
    if isTimeAttack then b_bestS1 best
    else orElse (fromLast HistEntry.sector1TimeMs) (LapData.sector1TimeMs lap) in
  let displayS2 :=
    if isTimeAttack then b_bestS2 best
    else orElse (fromLast HistEntry.sector2TimeMs) (LapData.sector2TimeMs lap) in
  let displayS3 :=
    if isTimeAttack then b_bestS3 best
    else orElse (fromLast HistEntry.sector3TimeMs) (LapData.sector3TimeMs lap) in
  RaceCar.mk carIndex name teamId pcol (LapData.carPosition lap)
    (LapData.currentLapNum lap) displayLapTimeMs (b_bestLapTimeMs best)
    (b_bestLapNumber best) (LapData.deltaToRaceLeaderMs lap)
    (LapData.deltaToCarInFrontMs lap) displayS1 displayS2 displayS3
    (option_map CarStatus.actualTyreCompound cs)
    (option_map CarStatus.visualTyreCompound cs)
    (option_map CarStatus.tyresAgeLaps cs)
    pitStatusMax pitLaneTimeMs (LapData.numPitStops lap) (LapData.lapDistance lap).

(** The comparator of the practice and qualifying order: displayed lap time,
    an absent one last, then position.  The result is the sign the source's
    comparator has. *)
Definition cmpByLapTime (a b : RaceCar.t) : Z :=
  match RaceCar.lapTimeMs a, RaceCar.lapTimeMs b with
  | Some at_, Some bt =>
      if negb (at_ =? bt) then at_ - bt else RaceCar.position a - RaceCar.position b
  | Some _, None => -1
  | None, Some _ => 1
  | None, None => RaceCar.position a - RaceCar.position b
  end.

Definition cmpByPosition (a b : RaceCar.t) : Z :=
  RaceCar.position a - RaceCar.position b.

(** The gap loop of the practice and qualifying branch; [prev] is [sorted[i - 1]]. *)
Fixpoint gapsByLapTime (prev : option RaceCar.t) (sorted : list RaceCar.t)
  : list RaceCar.t :=
  match sorted with
  | [] => []
  | cur :: rest =>
      let cur' :=
        match prev with
        | None => RaceCar.set_gapToCarAheadMs None cur
        | Some p =>
            match RaceCar.lapTimeMs cur, RaceCar.lapTimeMs p with
            | Some c, Some pt => RaceCar.set_gapToCarAheadMs (Some (c - pt)) cur
            | _, _ => RaceCar.set_gapToCarAheadMs None cur
            end
        end in
      cur' :: gapsByLapTime (Some cur') rest
  end.

(** The gap loop of the race branch. *)
Fixpoint gapsByPosition (prev : option RaceCar.t) (sorted : list RaceCar.t)
  : list RaceCar.t :=
  match sorted with
  | [] => []
  | cur :: rest =>
      let cur' :=
        if RaceCar.position cur =? 1 then RaceCar.set_gapToCarAheadMs None cur
        else
          match RaceCar.gapToCarAheadMs cur, RaceCar.gapToLeaderMs cur,
                match prev with Some p => RaceCar.gapToLeaderMs p | None => None end with
          | None, Some cl, Some pl =>
              let d := cl - pl in
              RaceCar.set_gapToCarAheadMs (if d >=? 0 then Some d else None) cur
          | _, _, _ => cur
          end in
      cur' :: gapsByPosition (Some cur') rest
  end.

(** [raceCarsRaw.map((c) => byCarIndex.get(c.carIndex) || c)] *)
Definition reorderLike (raw sorted : list RaceCar.t) : list RaceCar.t :=
  let byCarIndex := map_of_pairs (map (fun c => (RaceCar.carIndex c, c)) sorted) in
  map (fun c =>
         match map_get (RaceCar.carIndex c) byCarIndex with
         | Some c' => c'
         | None => c
         end) raw.

Definition buildRaceCars (st : State) (playerCarIndex : Z) : list RaceCar.t :=
  let raceCarsRaw :=
    map (toRaceCar st) (filter (onLeaderboard st playerCarIndex) (lapDataByIndex st)) in
  match LapsState.sessionKind (lapsState st) with
  | Some time_attack =>
      reorderLike raceCarsRaw (gapsByLapTime None (js_sort cmpByLapTime raceCarsRaw))
  | _ =>
      reorderLike raceCarsRaw (gapsByPosition None (js_sort cmpByPosition raceCarsRaw))
  end.

(** One turn of the loop that moves the session-wide bests. *)
Definition raceBestsStep (st : State) (c : RaceCar.t) : State :=
  let lower (cand best : option Z) : bool :=
    match cand, best with
    | Some x, None => true
    | Some x, Some y => x <? y
    | None, _ => false
    end in
  let st :=
    match RaceCar.lapTimeMs c with
    | Some t =>
        if (t >? 0) && lower (Some t) (raceBestLapTimeMs st) then
          let st := set_raceBestLapTimeMs (Some t) st in
          let st := set_raceBestLapCarIndex (Some (RaceCar.carIndex c)) st in
          set_raceBestLapNum
            (orElse (RaceCar.bestLapNum c) (Some (RaceCar.lapNumber c - 1))) st
        else st
    | None => st
    end in
  let st :=
    if lower (RaceCar.sector1TimeMs c) (raceBestSector1TimeMs st) then
      set_raceBestSector1CarIndex (Some (RaceCar.carIndex c))
        (set_raceBestSector1TimeMs (RaceCar.sector1TimeMs c) st)
    else st in
  let st :=
    if lower (RaceCar.sector2TimeMs c) (raceBestSector2TimeMs st) then
      set_raceBestSector2CarIndex (Some (RaceCar.carIndex c))
        (set_raceBestSector2TimeMs (RaceCar.sector2TimeMs c) st)
    else st in
  if lower (RaceCar.sector3TimeMs c) (raceBestSector3TimeMs st) then
    set_raceBestSector3CarIndex (Some (RaceCar.carIndex c))
      (set_raceBestSector3TimeMs (RaceCar.sector3TimeMs c) st)
  else st.

(** The leaderboard and the session-wide bests, stored in [lapsState].  The
    source keeps the best lap number in a local until the loop is over; the
    variable [raceBestLapNum] has that value when the block ends. *)
Definition publishLeaderboard (playerCarIndex : Z) (st : State) : State :=
  let raceCars := buildRaceCars st playerCarIndex in
  let st := fold_left raceBestsStep raceCars st in
  let ls := lapsState st in
  let ls := LapsState.set_raceCars raceCars ls in
  let ls := LapsState.set_raceBestSector1TimeMs (raceBestSector1TimeMs st) ls in
  let ls := LapsState.set_raceBestSector2TimeMs (raceBestSector2TimeMs st) ls in
  let ls := LapsState.set_raceBestSector3TimeMs (raceBestSector3TimeMs st) ls in
  let ls := LapsState.set_raceBestSector1CarIndex (raceBestSector1CarIndex st) ls in
  let ls := LapsState.set_raceBestSector2CarIndex (raceBestSector2CarIndex st) ls in
  let ls := LapsState.set_raceBestSector3CarIndex (raceBestSector3CarIndex st) ls in
  let ls := LapsState.set_raceBestLapTimeMs (raceBestLapTimeMs st) ls in
  let ls := LapsState.set_raceBestLapCarIndex (raceBestLapCarIndex st) ls in
  let ls := LapsState.set_raceBestLapNum (raceBestLapNum st) ls in
  set_lapsState ls st.

(** *** 3. The local player *)

Definition setCurrentPenalties (lap : LapData.t) (st : State) : State :=
  set_lapsState
    (LapsState.set_currentPenalties
       (Some (Penalties.mk (LapData.penaltiesSec lap) (LapData.totalWarnings lap)
                (LapData.cornerCuttingWarnings lap)
                (LapData.numUnservedDriveThroughPens lap)
                (LapData.numUnservedStopGoPens lap)
                (LapData.pitStopShouldServePen lap)))
       (lapsState st))
    st.

(** [for (const lapNum of Array.from(m.keys())) if (lapNum >= currentLapNum) m.delete(lapNum)] *)
Definition deleteFrom (V : Type) (currentLapNum : Z) (m : JSMap V) : JSMap V :=
  fold_left
    (fun acc lapNum => if lapNum >=? currentLapNum then map_delete lapNum acc else acc)
    (map_keys m) m.

(** Flashback: the lap counter went back. *)
Definition truncateOnFlashback (lap : LapData.t) (st : State) : State :=
  let currentLapNum := LapData.currentLapNum lap in
  match PlayerState.currentLapNum (playerState st) with
  | Some prevLapNum =>
      if currentLapNum <? prevLapNum then
        let st := set_lapsByNumber (deleteFrom currentLapNum (lapsByNumber st)) st in
        let st := set_tyreByLapStart (deleteFrom currentLapNum (tyreByLapStart st)) st in
        let st := set_pitLaneTimeByLap (deleteFrom currentLapNum (pitLaneTimeByLap st)) st in
        let st := set_pitLaneStatusByLap (deleteFrom currentLapNum (pitLaneStatusByLap st)) st in
        let ps := playerState st in
        let ps := PlayerState.set_pitLaneActive false ps in
        let ps := PlayerState.set_pitLaneStartLapNum None ps in
        let ps := PlayerState.set_pitLaneMaxTimeMs 0 ps in
        let ps := PlayerState.set_pitLanePitStatusMax 0 ps in
        recomputeFromLaps (set_playerState ps st)
      else st
  | None => st
  end.

Definition currentTyres (st : State) : TyreSnap.t :=
  TyreSnap.mk (PlayerState.currentTyreActualCompound (playerState st))
    (PlayerState.currentTyreVisualCompound (playerState st))
    (PlayerState.currentTyresAgeLaps (playerState st)).

(** The tyres are recorded the first time a lap number is seen. *)
Definition snapshotTyresAtLapStart (lap : LapData.t) (st : State) : State :=
  let currentLapNum := LapData.currentLapNum lap in
  if negb (map_has currentLapNum (tyreByLapStart st)) then
    set_tyreByLapStart (map_set currentLapNum (currentTyres st) (tyreByLapStart st)) st
  else st.

(** The pit-lane stint of the player, which may cross the start/finish line. *)
Definition trackPlayerPitLane (lap : LapData.t) (st : State) : State :=
  let currentLapNum := LapData.currentLapNum lap in
  let ps := playerState st in
  if LapData.pitLaneTimerActive lap =? 1 then
    let ps :=
      if negb (PlayerState.pitLaneActive ps) then
        let ps := PlayerState.set_pitLaneActive true ps in
        let ps := PlayerState.set_pitLaneStartLapNum (Some currentLapNum) ps in
        let ps := PlayerState.set_pitLaneMaxTimeMs 0 ps in
        PlayerState.set_pitLanePitStatusMax 0 ps
      else ps in
    let ps :=
      if LapData.pitLaneTimeInLaneInMS lap >? 0
      then PlayerState.set_pitLaneMaxTimeMs
             (Z.max (PlayerState.pitLaneMaxTimeMs ps) (LapData.pitLaneTimeInLaneInMS lap)) ps
      else ps in
    let ps :=
      if LapData.pitStatus lap >? 0
      then PlayerState.set_pitLanePitStatusMax
             (Z.max (PlayerState.pitLanePitStatusMax ps) (LapData.pitStatus lap)) ps
      else ps in
    set_playerState ps st
  else if PlayerState.pitLaneActive ps then
    let lapNum := PlayerState.pitLaneStartLapNum ps in
    let timeMs := PlayerState.pitLaneMaxTimeMs ps in
    let statusMax := PlayerState.pitLanePitStatusMax ps in
    let ps := PlayerState.set_pitLaneActive false ps in
    let ps := PlayerState.set_pitLaneStartLapNum None ps in
    let ps := PlayerState.set_pitLaneMaxTimeMs 0 ps in
    let ps := PlayerState.set_pitLanePitStatusMax 0 ps in
    let st := set_playerState ps st in
    match lapNum with
    | Some lapNum =>
        if timeMs >? 0 then
          let st := set_pitLaneTimeByLap (map_set lapNum timeMs (pitLaneTimeByLap st)) st in
          let st := set_pitLaneStatusByLap (map_set lapNum statusMax (pitLaneStatusByLap st)) st in
          match map_get lapNum (lapsByNumber st) with
          | Some entry =>
              let entry := LapEntry.set_pitLaneTimeMs (Some timeMs) entry in
              let entry := LapEntry.set_pitStatus statusMax entry in
              let st := set_lapsByNumber (map_set lapNum entry (lapsByNumber st)) st in
              recomputeFromLaps st
          | None => st
          end
        else st
    | None => st
    end
  else st.

Definition cachePlayerSectors (lap : LapData.t) (st : State) : State :=
  let ps := playerState st in
  let ps :=
    match LapData.sector1TimeMs lap with
    | Some s => PlayerState.set_currentSector1TimeMs (Some s) ps
    | None => ps
    end in
  let ps :=
    match LapData.sector2TimeMs lap with
    | Some s => PlayerState.set_currentSector2TimeMs (Some s) ps
    | None => ps
    end in
  set_playerState ps st.

Definition setLiveLapTime (lap : LapData.t) (st : State) : State :=
  set_lapsState
    (LapsState.set_liveLapTimeMs (LapData.currentLapTimeInMS lap) (lapsState st)) st.

Definition lapIsValid (isRaceSession : bool) (currentLapInvalid : Z) : bool :=
  if isRaceSession then true else currentLapInvalid =? 0.

(** Best sectors move as soon as a sector of a valid lap is in; an invalid lap
    puts them back to what the finished laps give. *)
Definition liveSectorBests (isRaceSession : bool) (lap : LapData.t) (st : State) : State :=
  let currentLapIsValid := lapIsValid isRaceSession (LapData.currentLapInvalid lap) in
  if currentLapIsValid then
    let beats (s best : option Z) : bool :=
      match s, best with
      | Some x, None => true
      | Some x, Some y => x <? y
      | None, _ => false
      end in
    let ls := lapsState st in
    let ls :=
      if (LapData.sector lap >=? 1)
         && beats (LapData.sector1TimeMs lap) (LapsState.bestSector1TimeMs ls)
      then LapsState.set_bestSector1TimeMs (LapData.sector1TimeMs lap) ls
      else ls in
    let ls :=
      if (LapData.sector lap >=? 2)
         && beats (LapData.sector2TimeMs lap) (LapsState.bestSector2TimeMs ls)
      then LapsState.set_bestSector2TimeMs (LapData.sector2TimeMs lap) ls
      else ls in
    set_lapsState ls st
  else recomputeFromLaps st.

Definition setCurrentLap (isRaceSession : bool) (liveTyre : TyreSnap.t)
  (lap : LapData.t) (st : State) : State :=
  let currentLapTimeInMS := LapData.currentLapTimeInMS lap in
  let row :=
    LapEntry.mk (LapData.currentLapNum lap) (Some currentLapTimeInMS)
      (match LapsState.bestLapTimeMs (lapsState st) with
       | Some b => Some (currentLapTimeInMS - b)
       | None => None
       end)
      (lapIsValid isRaceSession (LapData.currentLapInvalid lap))
      false
      (if LapData.sector lap >=? 1 then LapData.sector1TimeMs lap else None)
      (if LapData.sector lap >=? 2 then LapData.sector2TimeMs lap else None)
      None
      (TyreSnap.tyreActualCompound liveTyre)
      (TyreSnap.tyreVisualCompound liveTyre)
      (TyreSnap.tyresAgeLaps liveTyre)
      (LapData.pitStatus lap)
      (if LapData.pitLaneTimerActive lap =? 1
       then Some (LapData.pitLaneTimeInLaneInMS lap) else None)
      (LapData.numPitStops lap) in
  set_lapsState (LapsState.set_currentLap (Some row) (lapsState st)) st.

(** The lap counter went up: the lap before is finished and enters the table. *)
Definition finalizeLap (isRaceSession : bool) (playerCarIndex : Z)
  (lap : LapData.t) (st : State) : State :=
  let currentLapNum := LapData.currentLapNum lap in
  let lastLapTimeInMS := LapData.lastLapTimeInMS lap in
  match PlayerState.currentLapNum (playerState st) with
  | Some finishedLapNum =>
      if (currentLapNum >? finishedLapNum) && (lastLapTimeInMS >? 0) then
        let valid :=
          lapIsValid isRaceSession (PlayerState.currentLapInvalid (playerState st)) in
        let finishedTyre :=
          match map_get finishedLapNum (tyreByLapStart st) with
          | Some t => t
          | None => currentTyres st
          end in
        let playerHistory := map_get playerCarIndex (sessionHistoryByCarIndex st) in
        let historyEntry :=
          match playerHistory with
          | Some h => map_get finishedLapNum h
          | None => None
          end in
        let fromHistory (f : HistEntry.t -> option Z) : option Z :=
          match historyEntry with Some e => f e | None => None end in
        let lapTimeMs :=
          match fromHistory HistEntry.lapTimeMs with
          | Some t => t
          | None => lastLapTimeInMS
          end in
        let s1 := orElse (fromHistory HistEntry.sector1TimeMs)
                    (PlayerState.currentSector1TimeMs (playerState st)) in
        let s2 := orElse (fromHistory HistEntry.sector2TimeMs)
                    (PlayerState.currentSector2TimeMs (playerState st)) in
        let s3 :=
          match fromHistory HistEntry.sector3TimeMs with
          | Some h3 => Some h3
          | None =>
              match s1, s2 with
              | Some a, Some b =>
                  if lapTimeMs >? 0 then
                    let candidate := lapTimeMs - a - b in
                    if candidate >=? 0 then Some candidate else None
                  else None
              | _, _ => None
              end
          end in
        let lapEntry :=
          LapEntry.mk finishedLapNum (Some lapTimeMs) None valid false s1 s2 s3
            (TyreSnap.tyreActualCompound finishedTyre)
            (TyreSnap.tyreVisualCompound finishedTyre)
            (TyreSnap.tyresAgeLaps finishedTyre)
            (match map_get finishedLapNum (pitLaneStatusByLap st) with
             | Some s => s
             | None => 0
             end)
            (map_get finishedLapNum (pitLaneTimeByLap st))
            (LapData.numPitStops lap) in
        let st := set_lapsByNumber (map_set finishedLapNum lapEntry (lapsByNumber st)) st in
        let st := recomputeFromLaps st in
        let ps := playerState st in
        let ps := PlayerState.set_currentSector1TimeMs None ps in
        let ps := PlayerState.set_currentSector2TimeMs None ps in
        set_playerState ps st
      else st
  | None => st
  end.

Definition rememberLap (lap : LapData.t) (st : State) : State :=
  let ps := playerState st in
  let ps := PlayerState.set_currentLapNum (Some (LapData.currentLapNum lap)) ps in
  let ps := PlayerState.set_currentLapInvalid (LapData.currentLapInvalid lap) ps in
  set_playerState ps st.

(** The live delta counts down to the best lap. *)
Definition updateLiveDelta (st : State) : State :=
  let ls := lapsState st in
  let d :=
    match LapsState.bestLapTimeMs ls with
    | Some best =>
        if LapsState.liveLapTimeMs ls >? 0
        then Some (best - LapsState.liveLapTimeMs ls) else None
    | None => None
    end in
  set_lapsState (LapsState.set_liveDeltaToBestMs d ls) st.

(** Everything [handleLapDataPacket] does once it holds the player's cached
    record [lap], in the order of the source. *)
Definition playerSection (playerCarIndex : Z) (lap : LapData.t) (st : State) : State :=
  let isRaceSession :=
    match LapsState.sessionKind (lapsState st) with
    | Some race => true
    | _ => false
    end in
  let st := setCurrentPenalties lap st in
  let st := truncateOnFlashback lap st in
  let st := snapshotTyresAtLapStart lap st in
  let st := trackPlayerPitLane lap st in
  let st := cachePlayerSectors lap st in
  let st := setLiveLapTime lap st in
  let liveTyre :=
    match map_get (LapData.currentLapNum lap) (tyreByLapStart st) with
    | Some t => t
    | None => currentTyres st
    end in
  let st := liveSectorBests isRaceSession lap st in
  let st := setCurrentLap isRaceSession liveTyre lap st in
  let st := finalizeLap isRaceSession playerCarIndex lap st in
  let st := rememberLap lap st in
  updateLiveDelta st.

Definition handleLapDataPacket (buf : Buffer) (st : State) : Outcome :=
  header <- parseHeader buf ;;
  match header with
  | None => Ok (st, [])
  | Some header =>
      let st :=
        if sessionIsNew header st
        then resetSessionState (Header.sessionUID header) st else st in
      let st := set_lapsState (LapsState.set_isConnected true (lapsState st)) st in
      let playerCarIndex := Header.playerCarIndex header in
      let st :=
        set_lapsState (LapsState.set_playerCarIndex (Some playerCarIndex) (lapsState st)) st in
      st <- forEachSlot (lapDataLoopBody buf) carSlots st ;;
      let st := publishLeaderboard playerCarIndex st in
      if playerCarIndex >=? NUM_CARS then Ok (st, []) else
      match map_get playerCarIndex (lapDataByIndex st) with
      | None => Ok (st, [])
      | Some lap =>
          let st := playerSection playerCarIndex lap st in
          Ok (st, broadcastState st)
      end
  end.

(** ** Dispatch

    The [message] callback of the UDP socket.  The packet ids are distinct, so
    at most one of the source's seven tests passes. *)
Definition onMessage (msg : Buffer) (st : State) : Outcome :=
  header <- parseHeader msg ;;
  match header with
  | None => Ok (st, [])
  | Some header =>
      let id := Header.packetId header in
      if id =? PACKET_ID_SESSION then handleSessionPacket msg st
      else if id =? PACKET_ID_PARTICIPANTS then handleParticipantsPacket msg st
      else if id =? PACKET_ID_SESSION_HISTORY then handleSessionHistoryPacket msg st
      else if id =? PACKET_ID_LAP_DATA then handleLapDataPacket msg st
      else if id =? PACKET_ID_CAR_TELEMETRY then handleCarTelemetryPacket msg st
      else if id =? PACKET_ID_CAR_STATUS then handleCarStatusPacket msg st
      else if id =? PACKET_ID_CAR_DAMAGE then handleCarDamagePacket msg st
      else Ok (st, [])
  end.

(** ** The demo feed

    [startDemoFeed] builds its documents from the wall clock and is not
    modelled.  Its closure [computePersonalBest] and the marking loop that
    follows it are pure; the laps of the demo carry the fields of a row of the
    lap table. *)

Definition demoBestsStep (acc : Bests) (l : LapEntry.t) : Bests :=
  let better :=
    match LapEntry.lapTimeMs l with
    | Some t =>
        match b_bestLapTimeMs acc with
        | None => true
        | Some b => t <? b
        end
    | None => false
    end in
  mkBests
    (if better then LapEntry.lapTimeMs l else b_bestLapTimeMs acc)
    (if better then Some (LapEntry.lapNumber l) else b_bestLapNumber acc)
    (minOpt (b_bestS1 acc) (LapEntry.sector1TimeMs l))
    (minOpt (b_bestS2 acc) (LapEntry.sector2TimeMs l))
    (minOpt (b_bestS3 acc) (LapEntry.sector3TimeMs l)).

Definition computePersonalBest (laps : list LapEntry.t) : Bests :=
  fold_left demoBestsStep laps (mkBests None None None None None).

(** The body of the marking loop, which runs under [pb.bestLapTimeMs != null]:
    [l.isBest = l.lapTimeMs === pb.bestLapTimeMs;
     l.deltaMs = l.isBest ? 0 : l.lapTimeMs - pb.bestLapTimeMs].
    A [null] lap time counts as 0 in the subtraction. *)
Definition demoMarkEntry (bestLapTimeMs : Z) (l : LapEntry.t) : LapEntry.t :=
  let isBest :=
    match LapEntry.lapTimeMs l with
    | Some t => t =? bestLapTimeMs
    | None => false
    end in
  let l := LapEntry.set_isBest isBest l in
  let t := match LapEntry.lapTimeMs l with Some t => t | None => 0 end in
  LapEntry.set_deltaMs (Some (if LapEntry.isBest l then 0 else t - bestLapTimeMs)) l.

(** ** Vocabulary of the statements *)

(** The state a handler works on once it has looked at the session identifier
    of the header. *)
Definition enterSession (h : Header.t) (st : State) : State :=
  if sessionIsNew h st then resetSessionState (Header.sessionUID h) st else st.

(** The states the program can be in: the initial one, and the one after any
    datagram that did not end in an uncaught exception. *)
Inductive reachable : State -> Prop :=
| reachable_initial : reachable initialState
| reachable_message (st st' : State) (msg : Buffer) (out : list LapsState.t) :
    reachable st -> onMessage msg st = Ok (st', out) -> reachable st'.

(** The session-wide bests set aside: two states that agree here differ at
    most in the nine [raceBest...] variables. *)
Definition withoutRaceBests (st : State) : State :=
  set_raceBestLapNum None
    (set_raceBestLapCarIndex None
       (set_raceBestLapTimeMs None
          (set_raceBestSector3CarIndex None
             (set_raceBestSector2CarIndex None
                (set_raceBestSector1CarIndex None
                   (set_raceBestSector3TimeMs None
                      (set_raceBestSector2TimeMs None
                         (set_raceBestSector1TimeMs None st)))))))).

(** What the leaderboard rule reads, and the leaderboard. *)
Definition boardView (st : State)
  : list RaceCar.t * JSMap LapData.t * JSMap Name * option Z :=
  (LapsState.raceCars (lapsState st), lapDataByIndex st,
   participantsNameByIndex st, numActiveCars st).

(** What the tyre snapshots and the leaderboard rule depend on and only the
    car-status and lap-data handlers write. *)
Definition coreView (st : State) : JSMap TyreSnap.t * PlayerState.t * JSMap LapData.t :=
  (tyreByLapStart st, playerState st, lapDataByIndex st).

(** What a new tyre snapshot is taken from, with the session it belongs to. *)
Definition tyreSource (st : State) : TyreSnap.t * option Z :=
  (currentTyres st, PlayerState.sessionUID (playerState st)).

(** The lap table with the best lap time and the copy of the table that is
    sent to the viewers. *)
Definition ledgerView (st : State) : JSMap LapEntry.t * option Z * list LapEntry.t :=
  (lapsByNumber st, LapsState.bestLapTimeMs (lapsState st),
   LapsState.laps (lapsState st)).

(** These three are as some run of [recomputeFromLaps] left them. *)
Definition bestsConsistent (st : State) : Prop :=
  exists s, ledgerView st = ledgerView (recomputeFromLaps s).

Definition sameViews (a b : State) : Prop :=
  coreView a = coreView b /\ ledgerView a = ledgerView b.

(** [st'] comes from [st0] by a handler that writes neither the tyre
    snapshots, nor the player's state, nor the lap records, and that leaves
    the lap table recomputed if it touches it. *)
Definition framed (st0 st' : State) : Prop :=
  coreView st' = coreView st0 /\ (bestsConsistent st0 -> bestsConsistent st').

(** A datagram without a header changes nothing; otherwise the handler is
    framed from the state it entered the session with. *)
Definition framedRun (buf : Buffer) (st st' : State) : Prop :=
  (parseHeader buf = Ok None /\ st' = st)
  \/ exists h, parseHeader buf = Ok (Some h) /\ framed (enterSession h st) st'.

(** The lap counter of the record is below the one seen last. *)
Definition isFlashback (lap : LapData.t) (st : State) : bool :=
  match PlayerState.currentLapNum (playerState st) with
  | Some prevLapNum => LapData.currentLapNum lap <? prevLapNum
  | None => false
  end.

(** A tyre snapshot, or the player's current tyres, has its three fields all
    present or all absent. *)
Definition allOrNone (a b c : option Z) : Prop :=
  (a = None /\ b = None /\ c = None)
  \/ (a <> None /\ b <> None /\ c <> None).

Definition tyresCoherent (st : State) : Prop :=
  allOrNone (PlayerState.currentTyreActualCompound (playerState st))
    (PlayerState.currentTyreVisualCompound (playerState st))
    (PlayerState.currentTyresAgeLaps (playerState st))
  /\ forall n t, In (n, t) (tyreByLapStart st) ->
       allOrNone (TyreSnap.tyreActualCompound t) (TyreSnap.tyreVisualCompound t)
         (TyreSnap.tyresAgeLaps t).

(** [b] has every field that is present in [a], with the same value. *)
Definition fillsOnly (a b : TyreSnap.t) : Prop :=
  (forall v, TyreSnap.tyreActualCompound a = Some v -> TyreSnap.tyreActualCompound b = Some v)
  /\ (forall v, TyreSnap.tyreVisualCompound a = Some v -> TyreSnap.tyreVisualCompound b = Some v)
  /\ (forall v, TyreSnap.tyresAgeLaps a = Some v -> TyreSnap.tyresAgeLaps b = Some v).

(** A row of the lap table with its two derived fields set aside. *)
Definition recordedFields (l : LapEntry.t) : LapEntry.t :=
  LapEntry.set_deltaMs None (LapEntry.set_isBest false l).

(** The four fields a history entry with a lap time writes into a row. *)
Definition overwrittenBy (entry : HistEntry.t) (l : LapEntry.t) : LapEntry.t :=
  match HistEntry.lapTimeMs entry with
  | Some t =>
      LapEntry.set_sector3TimeMs (HistEntry.sector3TimeMs entry)
        (LapEntry.set_sector2TimeMs (HistEntry.sector2TimeMs entry)
           (LapEntry.set_sector1TimeMs (HistEntry.sector1TimeMs entry)
              (LapEntry.set_lapTimeMs (Some t) l)))
  | None => l
  end.

(** The cache of lap records has one entry per car slot. *)
Definition lapDataKeysUnique (st : State) : Prop :=
  NoDup (map_keys (lapDataByIndex st)).

Definition stateInvariant (st : State) : Prop :=
  tyresCoherent st /\ lapDataKeysUnique st /\ bestsConsistent st.

(** What a datagram may do to a snapshot that exists: keep it, fill it, or
    delete it with its session or in a flashback. *)
Definition snapshotKept (st st' : State) (n : Z) (snap : TyreSnap.t) : Prop :=
  (exists snap', map_get n (tyreByLapStart st') = Some snap' /\ fillsOnly snap snap')
  \/ PlayerState.sessionUID (playerState st') <> PlayerState.sessionUID (playerState st)
  \/ (exists prev cur,
         PlayerState.currentLapNum (playerState st) = Some prev
         /\ PlayerState.currentLapNum (playerState st') = Some cur
         /\ cur < prev /\ cur <= n).

(** Every row of the lap table that is valid and has a positive lap time is
    measured against the least lap time [m] of such rows: a best time exists,
    it is the time of a valid row with a positive time and no such row is
    faster; the row is marked best exactly when its time is [m]; and its delta
    is its time minus [m], which is not negative. *)
Definition rowsMarkedAgainstBest (st : State) : Prop :=
  forall l t,
    In l (map_values (lapsByNumber st)) ->
    LapEntry.valid l = true ->
    LapEntry.lapTimeMs l = Some t ->
    t > 0 ->
    exists m,
      LapsState.bestLapTimeMs (lapsState st) = Some m
      /\ (exists l0, In l0 (map_values (lapsByNumber st))
                     /\ LapEntry.valid l0 = true
                     /\ LapEntry.lapTimeMs l0 = Some m /\ m > 0)
      /\ (forall l1 t1, In l1 (map_values (lapsByNumber st)) ->
                        LapEntry.valid l1 = true ->
                        LapEntry.lapTimeMs l1 = Some t1 -> t1 > 0 -> m <= t1)
      /\ (LapEntry.isBest l = true <-> t = m)
      /\ LapEntry.deltaMs l = Some (t - m)
      /\ 0 <= t - m.

(** The pit tables and the lap counter remembered from the record before. *)
Definition pitView (st : State) : JSMap Z * JSMap Z * option Z :=
  (pitLaneTimeByLap st, pitLaneStatusByLap st,
   PlayerState.currentLapNum (playerState st)).

(** Two lap tables with the same rows up to [isBest] and [deltaMs]. *)
Definition sameRecorded (a b : State) : Prop :=
  forall n,
    option_map recordedFields (map_get n (lapsByNumber a))
    = option_map recordedFields (map_get n (lapsByNumber b)).

(** *** What each handler may write

    A handler's footprint is stated by blanking the variables it may write:
    two states that agree after the blanking differ in those variables only. *)

(** The twelve fields [handleSessionPacket] writes. *)
Definition sessionFieldsOff (ls : LapsState.t) : LapsState.t :=
  LapsState.set_sessionKind None
    (LapsState.set_pitSpeedLimitKph None
       (LapsState.set_sessionDurationSec None
          (LapsState.set_sessionTimeLeftSec None
             (LapsState.set_formula None
                (LapsState.set_airTemperatureC None
                   (LapsState.set_trackTemperatureC None
                      (LapsState.set_weather None
                         (LapsState.set_trackId None
                            (LapsState.set_trackLengthM None
                               (LapsState.set_sessionType None
                                  (LapsState.set_totalLaps None ls))))))))))).

Definition exceptSession (st : State) : State :=
  set_lapsState (sessionFieldsOff (lapsState st)) st.

Definition exceptParticipants (st : State) : State :=
  set_participantsColorByIndex []
    (set_participantsTeamIdByIndex []
       (set_participantsNameByIndex [] (set_numActiveCars None st))).

(** The history table, the lap table and what [recomputeFromLaps] derives
    from it. *)
Definition exceptHistory (st : State) : State :=
  let ls := lapsState st in
  let ls := LapsState.set_bestLapTimeMs None ls in
  let ls := LapsState.set_bestLapNumber None ls in
  let ls := LapsState.set_bestSector1TimeMs None ls in
  let ls := LapsState.set_bestSector2TimeMs None ls in
  let ls := LapsState.set_bestSector3TimeMs None ls in
  let ls := LapsState.set_laps [] ls in
  set_sessionHistoryByCarIndex [] (set_lapsByNumber [] (set_lapsState ls st)).

Definition exceptTelemetry (st : State) : State :=
  set_carTelemetryByIndex []
    (set_lapsState (LapsState.set_currentCarTelemetry None (lapsState st)) st).

Definition exceptDamage (st : State) : State :=
  set_carDamageByIndex []
    (set_lapsState (LapsState.set_currentCarDamage None (lapsState st)) st).

Definition exceptStatus (st : State) : State :=
  let ps := playerState st in
  let ps := PlayerState.set_currentTyreActualCompound None ps in
  let ps := PlayerState.set_currentTyreVisualCompound None ps in
  let ps := PlayerState.set_currentTyresAgeLaps None ps in
  set_carStatusByIndex []
    (set_tyreByLapStart []
       (set_playerState ps
          (set_lapsState (LapsState.set_currentCarStatus None (lapsState st)) st))).

(** The lap-data handler writes most of the state; this is what it leaves:
    the participants, the three other per-car caches, the history, the
    session and the tyres of the player, and the fields of [lapsState] that
    the session, status, telemetry and damage handlers own. *)
Definition keptByLapData (st : State)
  : option Z * JSMap Name * JSMap Z * JSMap Colour.t
    * JSMap CarStatus.t * JSMap CarTelemetry.t * JSMap CarDamage.t
    * JSMap (JSMap HistEntry.t)
    * (TyreSnap.t * option Z)
    * (option SessionKind * list (option Z))
    * (option CarStatus.t * option CarTelemetry.t * option CarDamage.t) :=
  let ls := lapsState st in
  (numActiveCars st, participantsNameByIndex st, participantsTeamIdByIndex st,
   participantsColorByIndex st, carStatusByIndex st, carTelemetryByIndex st,
   carDamageByIndex st, sessionHistoryByCarIndex st, tyreSource st,
   (LapsState.sessionKind ls,
    [LapsState.sessionType ls; LapsState.totalLaps ls; LapsState.trackId ls;
     LapsState.trackLengthM ls; LapsState.formula ls; LapsState.weather ls;
     LapsState.trackTemperatureC ls; LapsState.airTemperatureC ls;
     LapsState.sessionTimeLeftSec ls; LapsState.sessionDurationSec ls;
     LapsState.pitSpeedLimitKph ls]),
   (LapsState.currentCarStatus ls, LapsState.currentCarTelemetry ls,
    LapsState.currentCarDamage ls)).

(** The handled packet ids. *)
Definition handledIds : list Z :=
  [PACKET_ID_SESSION; PACKET_ID_LAP_DATA; PACKET_ID_PARTICIPANTS;
   PACKET_ID_CAR_TELEMETRY; PACKET_ID_SESSION_HISTORY; PACKET_ID_CAR_STATUS;
   PACKET_ID_CAR_DAMAGE].

(** *** Bests *)

(** [best] is the least of the candidates that are present, and absent when
    none is. *)
Definition leastOf (best : option Z) (cands : list (option Z)) : Prop :=
  (forall m, best = Some m -> In (Some m) cands)
  /\ (forall s, In (Some s) cands -> exists m, best = Some m /\ m <= s).

(** A field of a row that counts for the bests: the row is valid and has a
    positive lap time. *)
Definition countedField (f : LapEntry.t -> option Z) (l : LapEntry.t) : option Z :=
  match countedTime l with
  | Some _ => f l
  | None => None
  end.

(** The laps of a car's history that count for its best: a positive lap time
    and the valid bit set. *)
Definition countedHistoryTime (e : HistEntry.t) : option Z :=
  match HistEntry.lapTimeMs e with
  | Some t =>
      if (t <=? 0) || (Z.land (HistEntry.validFlags e) 1 =? 0) then None else Some t
  | None => None
  end.

(** *** Pit stints *)

(** The tracker of one car after the lap records of a run of datagrams. *)
Definition trackPitStints (laps : list LapData.t) (p : PitStint.t) : PitStint.t :=
  fold_left (fun p lap => trackPitStint lap p) laps p.

(** The greatest value of a field over a run of records, 0 when none is
    positive. *)
Definition greatest (f : LapData.t -> Z) (laps : list LapData.t) : Z :=
  fold_left (fun m lap => Z.max m (f lap)) laps 0.

(** The history table of a car, empty when none has arrived. *)
Definition historyOf (st : State) (carIndex : Z) : JSMap HistEntry.t :=
  match map_get carIndex (sessionHistoryByCarIndex st) with
  | Some h => h
  | None => []
  end.

(** *** Invariants of the session tables *)

(** A car with a name has a name that is not empty, a slot below 22, a team
    and a colour. *)
Definition participantsAligned (st : State) : Prop :=
  forall i name,
    map_get i (participantsNameByIndex st) = Some name ->
    name <> [] /\ 0 <= i < NUM_CARS
    /\ map_get i (participantsTeamIdByIndex st) <> None
    /\ map_get i (participantsColorByIndex st) <> None.

(** The three sector times of a record or of a cache entry, when present,
    are not negative. *)
Definition sectorsNotNegative (s1 s2 s3 : option Z) : Prop :=
  forall s, s1 = Some s \/ s2 = Some s \/ s3 = Some s -> 0 <= s.

(** A cached lap record: its slot is below 22, its gaps are positive when
    present, its sectors are those of the sector cache of the slot, and the
    pit tracker of the slot is active exactly when the record is in the pit
    lane. *)
Definition lapRecordCached (st : State) (i : Z) (lap : LapData.t) : Prop :=
  0 <= i < NUM_CARS
  /\ (forall g, LapData.deltaToCarInFrontMs lap = Some g
                \/ LapData.deltaToRaceLeaderMs lap = Some g -> 0 < g)
  /\ map_get i (sectorCacheByIndex st)
     = Some (SectorCache.mk (LapData.sector1TimeMs lap) (LapData.sector2TimeMs lap)
               (LapData.sector3TimeMs lap))
  /\ exists p, map_get i (pitLaneStintByIndex st) = Some p
               /\ PitStint.active p = (LapData.pitLaneTimerActive lap =? 1).

Definition lapCachesAligned (st : State) : Prop :=
  (forall i lap, map_get i (lapDataByIndex st) = Some lap -> lapRecordCached st i lap)
  /\ (forall i c, map_get i (sectorCacheByIndex st) = Some c ->
        sectorsNotNegative (SectorCache.sector1TimeMs c) (SectorCache.sector2TimeMs c)
          (SectorCache.sector3TimeMs c)).

(** The three caches [handleLapDataPacket] fills for every car. *)
Definition perCarLapView (st : State)
  : JSMap LapData.t * JSMap SectorCache.t * JSMap PitStint.t :=
  (lapDataByIndex st, sectorCacheByIndex st, pitLaneStintByIndex st).

(** Every lap time of every history table is positive. *)
Definition historyDecoded (st : State) : Prop :=
  forall car h n e t,
    map_get car (sessionHistoryByCarIndex st) = Some h ->
    In (n, e) h -> HistEntry.lapTimeMs e = Some t -> 0 < t.

(** *** The per-lap tables of the player *)

(** A row of the lap table is stored under its own lap number and has a
    positive lap time. *)
Definition rowOK (n : Z) (l : LapEntry.t) : Prop :=
  LapEntry.lapNumber l = n /\ exists t, LapEntry.lapTimeMs l = Some t /\ 0 < t.

(** A lap table with one row per lap number, every row well formed and for a
    lap below [bl]. *)
Definition ledgerOK (bl : Z) (m : JSMap LapEntry.t) : Prop :=
  NoDup (map_keys m)
  /\ forall n l, map_get n m = Some l -> rowOK n l /\ n < bl.

Definition keysAtMost (V : Type) (b : Z) (m : JSMap V) : Prop :=
  forall n v, map_get n m = Some v -> n <= b.

(** The two pit tables have the same lap numbers, none above [b], and every
    recorded time in the pit lane is positive. *)
Definition pitTablesOK (b : Z) (times statuses : JSMap Z) : Prop :=
  forall n,
    (forall t, map_get n times = Some t -> n <= b /\ 0 < t)
    /\ (map_get n times = None <-> map_get n statuses = None).

(** A stint under way started on a lap that is not above [b]. *)
Definition stintOK (b : Z) (ps : PlayerState.t) : Prop :=
  PlayerState.pitLaneActive ps = true ->
  exists s, PlayerState.pitLaneStartLapNum ps = Some s /\ s <= b.

Definition tablesWithin (bl b : Z) (st : State) : Prop :=
  ledgerOK bl (lapsByNumber st)
  /\ keysAtMost b (tyreByLapStart st)
  /\ pitTablesOK b (pitLaneTimeByLap st) (pitLaneStatusByLap st)
  /\ stintOK b (playerState st).

(** No per-lap record of the player is ahead of the lap the player is on:
    the finished laps are below it, the tyre snapshots, the pit records and
    the start of a stint under way are not above it.  Before the first lap
    record of a session the tables are empty. *)
Definition perLapTablesBounded (st : State) : Prop :=
  match PlayerState.currentLapNum (playerState st) with
  | Some cur => tablesWithin cur cur st
  | None => forall b, tablesWithin b b st
  end.

(** What the per-lap tables are read from. *)
Definition perLapView (st : State)
  : JSMap LapEntry.t * JSMap TyreSnap.t * JSMap Z * JSMap Z * bool * option Z :=
  (lapsByNumber st, tyreByLapStart st, pitLaneTimeByLap st, pitLaneStatusByLap st,
   PlayerState.pitLaneActive (playerState st),
   PlayerState.pitLaneStartLapNum (playerState st)).

(** What [finalizeLap] reads besides the per-lap tables. *)
Definition finalizeInputs (st : State) : option Z * JSMap (JSMap HistEntry.t) :=
  (PlayerState.currentLapNum (playerState st), sessionHistoryByCarIndex st).

(** *** The published leaderboard *)

(** The displayed lap time of a row when it counts for the session-wide best
    lap: present and positive. *)
Definition countedRowTime (c : RaceCar.t) : option Z :=
  match RaceCar.lapTimeMs c with
  | Some t => if t >? 0 then Some t else None
  | None => None
  end.

(** The four session-wide best times the server tracks. *)
Definition trackedBests (st : State) : option Z * option Z * option Z * option Z :=
  (raceBestLapTimeMs st, raceBestSector1TimeMs st, raceBestSector2TimeMs st,
   raceBestSector3TimeMs st).

(** The same four as the viewers see them. *)
Definition publishedBests (st : State) : option Z * option Z * option Z * option Z :=
  let ls := lapsState st in
  (LapsState.raceBestLapTimeMs ls, LapsState.raceBestSector1TimeMs ls,
   LapsState.raceBestSector2TimeMs ls, LapsState.raceBestSector3TimeMs ls).

(** The leaderboard with the session-wide bests, tracked and published. *)
Definition boardAndBests (st : State)
  : list RaceCar.t * (option Z * option Z * option Z * option Z)
    * (option Z * option Z * option Z * option Z) :=
  (LapsState.raceCars (lapsState st), trackedBests st, publishedBests st).

(** [best] is present and not above [cand] when [cand] is present. *)
Definition notAbove (best cand : option Z) : Prop :=
  forall s, cand = Some s -> exists b, best = Some b /\ b <= s.

(** A best that is present stays present and does not get worse. *)
Definition notWorse (before after : option Z) : Prop :=
  forall b, before = Some b -> exists b', after = Some b' /\ b' <= b.

(** Every gap to the car ahead that is shown is not negative. *)
Definition gapsNotNegative (cars : list RaceCar.t) : Prop :=
  forall c g, In c cars -> RaceCar.gapToCarAheadMs c = Some g -> 0 <= g.

(** No row of the leaderboard beats a session-wide best. *)
Definition rowsWithinBests (st : State) : Prop :=
  forall c, In c (LapsState.raceCars (lapsState st)) ->
    notAbove (LapsState.raceBestLapTimeMs (lapsState st)) (countedRowTime c)
    /\ notAbove (LapsState.raceBestSector1TimeMs (lapsState st)) (RaceCar.sector1TimeMs c)
    /\ notAbove (LapsState.raceBestSector2TimeMs (lapsState st)) (RaceCar.sector2TimeMs c)
    /\ notAbove (LapsState.raceBestSector3TimeMs (lapsState st)) (RaceCar.sector3TimeMs c).

Definition boardOK (st : State) : Prop :=
  trackedBests st = publishedBests st
  /\ gapsNotNegative (LapsState.raceCars (lapsState st))
  /\ rowsWithinBests st.

(** The row ahead of the [i]-th row of an order of the leaderboard. *)
Definition rowAhead (order : list RaceCar.t) (i : nat) : option RaceCar.t :=
  match i with
  | O => None
  | S j => nth_error order j
  end.

(** The gap of practice and qualifying: the displayed lap time of the row
    minus that of the row ahead, absent for the first row and when one of the
    two has no lap time. *)
Definition lapTimeGap (ahead : option RaceCar.t) (c : RaceCar.t) : option Z :=
  match ahead with
  | Some p =>
      match RaceCar.lapTimeMs c, RaceCar.lapTimeMs p with
      | Some x, Some y => Some (x - y)
      | _, _ => None
      end
  | None => None
  end.

(** The gap of a race, for a row whose lap record reports the gap [reported]:
    none for the car in position 1; otherwise the reported gap when there is
    one; otherwise the gap to the leader minus that of the row ahead, when
    both are known and the difference is not negative. *)
Definition raceGap (reported : option Z) (ahead : option RaceCar.t) (c : RaceCar.t)
  : option Z :=
  if RaceCar.position c =? 1 then None
  else
    match reported with
    | Some g => Some g
    | None =>
        match RaceCar.gapToLeaderMs c, ahead with
        | Some cl, Some p =>
            match RaceCar.gapToLeaderMs p with
            | Some pl => if cl - pl >=? 0 then Some (cl - pl) else None
            | None => None
            end
        | _, _ => None
        end
    end.

(** *** The session *)

(** The session fields that decide the kind of the session, and the kind. *)
Definition sessionKindView (st : State) : option Z * option Z * option SessionKind :=
  (LapsState.sessionType (lapsState st), LapsState.totalLaps (lapsState st),
   LapsState.sessionKind (lapsState st)).

(** The kind is known exactly when the session type and the number of laps
    are, and is their classification. *)
Definition sessionKindClassified (st : State) : Prop :=
  match LapsState.sessionType (lapsState st), LapsState.totalLaps (lapsState st) with
  | Some ty, Some tl =>
      0 <= ty <= 255 /\ 0 <= tl <= 255
      /\ LapsState.sessionKind (lapsState st) = Some (classifySession ty tl)
  | None, None => LapsState.sessionKind (lapsState st) = None
  | _, _ => False
  end.

(** *** One car slot *)

(** What the three caches of [handleLapDataPacket] hold for slot [i]. *)
Definition slotView (i : Z) (st : State)
  : option LapData.t * option SectorCache.t * option PitStint.t :=
  (map_get i (lapDataByIndex st), map_get i (sectorCacheByIndex st),
   map_get i (pitLaneStintByIndex st)).

(** The sectors cached for a slot, absent when nothing is cached. *)
Definition cachedSectors (i : Z) (st : State) : SectorCache.t :=
  match map_get i (sectorCacheByIndex st) with
  | Some c => c
  | None => SectorCache.mk None None None
  end.

(** The pit tracker of a slot, idle when the slot has none. *)
Definition pitTracker (i : Z) (st : State) : PitStint.t :=
  match map_get i (pitLaneStintByIndex st) with
  | Some p => p
  | None => defaultPitStint
  end.

(** *** The player's pit stint *)

(** The tracker of the player's stint: whether one is open, the lap it opened
    on, and the greatest time in the pit lane and the greatest pit status seen
    since. *)
Definition stintView (st : State) : bool * option Z * Z * Z :=
  let ps := playerState st in
  (PlayerState.pitLaneActive ps, PlayerState.pitLaneStartLapNum ps,
   PlayerState.pitLaneMaxTimeMs ps, PlayerState.pitLanePitStatusMax ps).

(** The tracker with the two pit tables. *)
Definition pitLedger (st : State) : (bool * option Z * Z * Z) * JSMap Z * JSMap Z :=
  (stintView st, pitLaneTimeByLap st, pitLaneStatusByLap st).

(** What one update does to the pit stint of the player: [st] is the state
    the update starts with, [lap] the player's record, [st'] the state the
    update ends with.
    - Flag 1 and no stint open, or a flashback: a stint opens with the current
      lap number as its start lap, and time and status start from this record.
      A flashback drops a stint that was open, so with the flag at 1 the stint
      opens again on the new lap number and its accumulators start afresh.
    - Flag 1 with a stint open and no flashback: the start lap stays; time
      and status become the maximum of what was accumulated and a positive
      value of the record, and do not decrease.
    - Flag 1 and no flashback: the pit tables are not touched.
    - Flag other than 1 with a stint open on start lap [n] and no flashback:
      the stint is closed and its accumulators reset.  When the accumulated
      time is positive, the time and status are stored under [n] and under no
      other lap number; every row that the lap table has for [n] when the
      update is over has the two as its pit fields; and if the lap table had
      a row for [n], it still has one, which is in the published list of laps
      and, unless lap [n] is the lap the player was on, has kept its other
      recorded fields, and the rows are marked against the best lap and the
      published list has the rows of the table.  When no time was
      accumulated the pit tables stay as they were.
    - Flag other than 1 with no stint open and no flashback: the tracker and
      the pit tables stay as they were.
    - In a flashback nothing is attributed: the pit tables keep what they had
      below the new lap number and nothing else, and with a flag other than 1
      no stint is open afterwards. *)
Definition pitStintUpdate (lap : LapData.t) (st st' : State) : Prop :=
  let ps := playerState st in
  let cur := LapData.currentLapNum lap in
  let t := LapData.pitLaneTimeInLaneInMS lap in
  let s := LapData.pitStatus lap in
  (LapData.pitLaneTimerActive lap = 1 ->
   PlayerState.pitLaneActive ps = false \/ isFlashback lap st = true ->
   stintView st' = (true, Some cur, Z.max 0 t, Z.max 0 s))
  /\ (LapData.pitLaneTimerActive lap = 1 ->
      PlayerState.pitLaneActive ps = true ->
      isFlashback lap st = false ->
      stintView st'
      = (true, PlayerState.pitLaneStartLapNum ps,
         (if t >? 0 then Z.max (PlayerState.pitLaneMaxTimeMs ps) t
          else PlayerState.pitLaneMaxTimeMs ps),
         (if s >? 0 then Z.max (PlayerState.pitLanePitStatusMax ps) s
          else PlayerState.pitLanePitStatusMax ps))
      /\ PlayerState.pitLaneMaxTimeMs ps <= PlayerState.pitLaneMaxTimeMs (playerState st')
      /\ PlayerState.pitLanePitStatusMax ps
         <= PlayerState.pitLanePitStatusMax (playerState st'))
  /\ (LapData.pitLaneTimerActive lap = 1 ->
      isFlashback lap st = false ->
      pitLaneTimeByLap st' = pitLaneTimeByLap st
      /\ pitLaneStatusByLap st' = pitLaneStatusByLap st)
  /\ (LapData.pitLaneTimerActive lap <> 1 ->
      PlayerState.pitLaneActive ps = true ->
      isFlashback lap st = false ->
      forall n, PlayerState.pitLaneStartLapNum ps = Some n ->
      let timeMs := PlayerState.pitLaneMaxTimeMs ps in
      let statusMax := PlayerState.pitLanePitStatusMax ps in
      stintView st' = (false, None, 0, 0)
      /\ (timeMs > 0 ->
          map_get n (pitLaneTimeByLap st') = Some timeMs
          /\ map_get n (pitLaneStatusByLap st') = Some statusMax
          /\ (forall k, k <> n ->
                map_get k (pitLaneTimeByLap st') = map_get k (pitLaneTimeByLap st)
                /\ map_get k (pitLaneStatusByLap st') = map_get k (pitLaneStatusByLap st))
          /\ (forall e', map_get n (lapsByNumber st') = Some e' ->
                LapEntry.pitLaneTimeMs e' = Some timeMs
                /\ LapEntry.pitStatus e' = statusMax)
          /\ (forall e, map_get n (lapsByNumber st) = Some e ->
                (exists e',
                    map_get n (lapsByNumber st') = Some e'
                    /\ In e' (LapsState.laps (lapsState st'))
                    /\ (PlayerState.currentLapNum ps <> Some n ->
                        recordedFields e'
                        = recordedFields
                            (LapEntry.set_pitStatus statusMax
                               (LapEntry.set_pitLaneTimeMs (Some timeMs) e))))
                /\ rowsMarkedAgainstBest st'
                /\ (forall l, In l (LapsState.laps (lapsState st'))
                              <-> In l (map_values (lapsByNumber st')))))
      /\ (timeMs <= 0 ->
          pitLaneTimeByLap st' = pitLaneTimeByLap st
          /\ pitLaneStatusByLap st' = pitLaneStatusByLap st))
  /\ (LapData.pitLaneTimerActive lap <> 1 ->
      PlayerState.pitLaneActive ps = false ->
      isFlashback lap st = false ->
      pitLedger st' = pitLedger st)
  /\ (isFlashback lap st = true ->
      (LapData.pitLaneTimerActive lap <> 1 -> stintView st' = (false, None, 0, 0))
      /\ forall k,
           map_get k (pitLaneTimeByLap st')
           = (if k <? cur then map_get k (pitLaneTimeByLap st) else None)
           /\ map_get k (pitLaneStatusByLap st')
              = (if k <? cur then map_get k (pitLaneStatusByLap st) else None)).

(** *** The live lap *)

(** The best lap time, the live lap time and the live delta of a document. *)
Definition liveTimes (ls : LapsState.t) : option Z * Z * option Z :=
  (LapsState.bestLapTimeMs ls, LapsState.liveLapTimeMs ls,
   LapsState.liveDeltaToBestMs ls).

(** ** Sample datagrams and states *)

Definition bytes (l : list Z) : Buffer := map zByte l.
Definition zeros (n : nat) : Buffer := repeat x00 n.

(** A 29-byte header: format 2025, the packet id, a session identifier below
    256 and the player's slot. *)
Definition sampleHeader (packetId sessionUID playerCarIndex : Z) : Buffer :=
  bytes [233; 7; 25; 1; 0; 1; packetId;
         sessionUID; 0; 0; 0; 0; 0; 0; 0;
         0; 0; 0; 0;
         0; 0; 0; 0;
         0; 0; 0; 0;
         playerCarIndex; 255].

(** A session-history datagram of car 0 with one lap: 90000 ms, sector 1 with
    the millisecond part 65535, sector 2 of 30000 ms, sector 3 with the minutes
    part 255. *)
Definition historySentinelDatagram : Buffer :=
  sampleHeader PACKET_ID_SESSION_HISTORY 1 0
  ++ bytes [0; 1; 0; 0; 0; 0; 0]
  ++ bytes [144; 95; 1; 0; 255; 255; 0; 48; 117; 0; 244; 1; 255; 15].

(** A car-damage datagram cut after 44 bytes of payload. *)
Definition carDamageShortDatagram : Buffer :=
  sampleHeader PACKET_ID_CAR_DAMAGE 1 0 ++ zeros 44.

(** A participants datagram that ends with its header, and one that has the
    count byte and nothing else. *)
Definition participantsHeaderOnly : Buffer := sampleHeader PACKET_ID_PARTICIPANTS 1 0.
Definition participantsCountOnly : Buffer :=
  sampleHeader PACKET_ID_PARTICIPANTS 1 0 ++ bytes [20].

(** A session datagram of session 2: a race (type 10) of 50 laps. *)
Definition sessionDatagram2 : Buffer :=
  sampleHeader PACKET_ID_SESSION 2 0
  ++ bytes [0; 30; 25; 50; 180; 20; 10; 10; 0; 0; 0; 0; 0; 80].

Definition sessionHeader2 : Header.t := Header.mk 2025 25 1 0 1 1 2 0 0 0 0 255.

Definition sampleLap (lapNumber lapTimeMs : Z) (valid : bool) : LapEntry.t :=
  LapEntry.mk lapNumber (Some lapTimeMs) None valid false None None None
    (Some 16) (Some 16) (Some 3) 0 None 0.

(** A state in the middle of session 1: three laps in the table, a pit visit on
    lap 2, the player on lap 4. *)
Definition busyState : State :=
  let st := resetSessionState 1 initialState in
  let st :=
    set_lapsByNumber
      [(1, sampleLap 1 90000 true); (2, sampleLap 2 85000 true);
       (3, sampleLap 3 80000 true)] st in
  let st := set_pitLaneTimeByLap [(2, 23000)] st in
  let st := set_pitLaneStatusByLap [(2, 1)] st in
  let st :=
    set_tyreByLapStart
      [(1, TyreSnap.mk (Some 16) (Some 16) (Some 0));
       (2, TyreSnap.mk (Some 16) (Some 16) (Some 1));
       (3, TyreSnap.mk (Some 17) (Some 17) (Some 0));
       (4, TyreSnap.mk (Some 17) (Some 17) (Some 1))] st in
  let ps := playerState st in
  let ps := PlayerState.set_currentLapNum (Some 4) ps in
  let ps := PlayerState.set_currentTyreActualCompound (Some 17) ps in
  let ps := PlayerState.set_currentTyreVisualCompound (Some 17) ps in
  let ps := PlayerState.set_currentTyresAgeLaps (Some 1) ps in
  recomputeFromLaps (set_playerState ps st).

Definition u16bytes (z : Z) : list Z := [z mod 256; (z / 256) mod 256].
Definition u32bytes (z : Z) : list Z :=
  [z mod 256; (z / 256) mod 256; (z / 65536) mod 256; (z / 16777216) mod 256].

(** The 57 bytes of one LapData record: no sector or gap times, position 1,
    valid lap, sector 0. *)
Definition lapRecord (lastLapTimeInMS currentLapTimeInMS currentLapNum pitStatus
  resultStatus pitLaneTimerActive pitLaneTimeInLaneInMS : Z) : Buffer :=
  bytes (u32bytes lastLapTimeInMS ++ u32bytes currentLapTimeInMS
         ++ [0; 0; 0; 0; 0; 0; 0; 0; 0; 0; 0; 0]
         ++ [0; 0; 0; 0; 0; 0; 0; 0; 0; 0; 0; 0]
         ++ [1; currentLapNum; pitStatus; 0; 0; 0; 0; 0; 0; 0; 0; 1; 1;
             resultStatus; pitLaneTimerActive]
         ++ u16bytes pitLaneTimeInLaneInMS
         ++ [0; 0; 0; 0; 0; 0; 0; 0]).

(** A lap-data datagram of session 1 that carries the record of slot 0 only;
    the player is in slot 0. *)
Definition lapDatagram (lastLapTimeInMS currentLapTimeInMS currentLapNum pitStatus
  pitLaneTimerActive pitLaneTimeInLaneInMS : Z) : Buffer :=
  sampleHeader PACKET_ID_LAP_DATA 1 0
  ++ lapRecord lastLapTimeInMS currentLapTimeInMS currentLapNum pitStatus 2
       pitLaneTimerActive pitLaneTimeInLaneInMS.

(** Datagrams one after the other; the documents they broadcast are dropped. *)
Fixpoint feed (msgs : list Buffer) (st : State) : result State :=
  match msgs with
  | [] => Ok st
  | msg :: rest => r <- onMessage msg st ;; feed rest (fst r)
  end.

Definition stateAfter (msgs : list Buffer) : State :=
  match feed msgs initialState with
  | Ok st => st
  | RangeError => initialState
  end.

(** The 57 bytes of one ParticipantData record with the given name. *)
Definition participantRecord (name : list Z) : Buffer :=
  zeros 7 ++ bytes name ++ zeros (32 - length name) ++ zeros 18.

(** A participants datagram of session 1: three active cars, the names A, B,
    C and D in slots 0 to 3, the other slots empty. *)
Definition participantsDatagram : Buffer :=
  sampleHeader PACKET_ID_PARTICIPANTS 1 0 ++ bytes [3]
  ++ participantRecord [65] ++ participantRecord [66] ++ participantRecord [67]
  ++ participantRecord [68]
  ++ concat (repeat (participantRecord []) 18).

Definition lapHeader1 : Header.t := Header.mk 2025 25 1 0 1 2 1 0 0 0 0 255.

(** A complete lap-data datagram of session 1: 22 records, all on lap 1; slot 1
    has result status 0 (invalid), the others 2 (active). *)
Definition fullLapDatagram : Buffer :=
  sampleHeader PACKET_ID_LAP_DATA 1 0
  ++ lapRecord 0 1000 1 0 2 0 0 ++ lapRecord 0 1000 1 0 0 0 0
  ++ concat (repeat (lapRecord 0 1000 1 0 2 0 0) 20).

(** The laps of the rewind scenario: the player starts lap 1, finishes laps 1
    to 6 in 90000, 85000, 80000, 82000, 83000 and 84000 ms, and is on lap 7. *)
Definition sevenLaps : list Buffer :=
  [lapDatagram 0 1000 1 0 0 0; lapDatagram 90000 1000 2 0 0 0;
   lapDatagram 85000 1000 3 0 0 0; lapDatagram 80000 1000 4 0 0 0;
   lapDatagram 82000 1000 5 0 0 0; lapDatagram 83000 1000 6 0 0 0;
   lapDatagram 84000 1000 7 0 0 0].

(** The flashback: the next record is on lap 3. *)
Definition backToLap3 : Buffer := lapDatagram 84000 1000 3 0 0 0.

(** A pit visit that crosses the line: the player enters the pit lane on lap
    10, is still in it when lap 11 begins (lap 10 took 88000 ms), sees one
    record with time and status 0, and leaves the lane on lap 11. *)
Definition pitVisit : list Buffer :=
  [lapDatagram 0 1000 10 0 0 0; lapDatagram 0 2000 10 1 1 5000;
   lapDatagram 0 3000 10 2 1 15000; lapDatagram 88000 500 11 1 1 23000;
   lapDatagram 88000 900 11 0 1 0; lapDatagram 88000 1500 11 0 0 0].

(** Laps 1 and 2 finished in 90000 and 85000 ms, the player on lap 3. *)
Definition twoLaps : list Buffer :=
  [lapDatagram 0 1000 1 0 0 0; lapDatagram 90000 1000 2 0 0 0;
   lapDatagram 85000 1000 3 0 0 0].

(** A session-history datagram of the player's car with two laps: lap 1 with
    80000 ms and sectors of 25000, 30000 and 25000 ms; lap 2 with lap time 0 and
    a first sector of 26000 ms. *)
Definition historyTwoLaps : Buffer :=
  sampleHeader PACKET_ID_SESSION_HISTORY 1 0
  ++ bytes [0; 2; 0; 0; 0; 0; 0]
  ++ bytes [128; 56; 1; 0; 168; 97; 0; 48; 117; 0; 168; 97; 0; 15]
  ++ bytes [0; 0; 0; 0; 144; 101; 0; 0; 0; 0; 0; 0; 0; 0].

Definition historyHeader1 : Header.t := Header.mk 2025 25 1 0 1 11 1 0 0 0 0 255.

(** A car-status datagram of session 1 that carries the record of slot 0 only,
    with the given tyre compounds and tyre age. *)
Definition carStatusDatagram (actual visual age : Z) : Buffer :=
  sampleHeader PACKET_ID_CAR_STATUS 1 0
  ++ zeros 25 ++ bytes [actual; visual; age] ++ zeros 27.

(** Tyres of age 0 when lap 3 is first seen, of age 5 when lap 4 is. *)
Definition tyresThenLap4 : list Buffer :=
  [carStatusDatagram 16 16 0; lapDatagram 0 1000 3 0 0 0;
   carStatusDatagram 16 16 5; lapDatagram 0 1000 4 0 0 0].

(** The flashback from lap 4 to lap 3. *)
Definition lap4BackTo3 : Buffer := lapDatagram 0 500 3 0 0 0.

(** The row of lap 2 when laps 1 to 6 are in the table. *)
Definition rowOfLap2 : LapEntry.t :=
  LapEntry.mk 2 (Some 85000) (Some 5000) true false None None None
    None None None 0 None 0.

(** A parsed lap record on the given lap, out of the pit lane. *)
Definition recordOnLap (currentLapNum : Z) : LapData.t :=
  LapData.mk 88000 1500 None None None None None 0 0 0 1 currentLapNum 0 0 0 0 0 0 0 0
    0 1 1 2 0 0 0 0 0 0.

(** The player has been in the pit lane since lap 10 and is on lap 11. *)
Definition inPitOnLap11 : State := stateAfter (firstn 5 pitVisit).

(** *** More sample datagrams *)

(** The 57 bytes of a LapData record with a finished lap of 90000 ms, sectors
    of 28000 and 32000 ms, 1500 ms to the car in front and 60500 ms to the
    leader; position 3, lap 5, sector 2. *)
Definition sectorLapRecord : Buffer :=
  bytes (u32bytes 90000 ++ u32bytes 41000
         ++ u16bytes 28000 ++ [0] ++ u16bytes 32000 ++ [0]
         ++ u16bytes 1500 ++ [0] ++ u16bytes 500 ++ [1]
         ++ [0; 0; 0; 0; 0; 0; 0; 0; 0; 0; 0; 0]
         ++ [3; 5; 0; 1; 2; 0; 0; 0; 0; 0; 0; 4; 1; 2; 0]
         ++ u16bytes 0 ++ u16bytes 0
         ++ [0; 0; 0; 0; 0; 0]).

Definition sectorLapDatagram : Buffer :=
  sampleHeader PACKET_ID_LAP_DATA 1 0 ++ sectorLapRecord.

(** Lap records of one car: in the pit lane on lap 10 with the given time and
    status, and out of it on lap 11. *)
Definition recordInLane (timeInLane pitStatus : Z) : LapData.t :=
  LapData.mk 0 1500 None None None None None 0 0 0 1 10 pitStatus 0 0 0 0 0 0 0
    0 1 1 2 1 timeInLane 0 0 0 0.

(** The participants, then the lap record above for the player in slot 0. *)
Definition namedThenLap : list Buffer := [participantsDatagram; sectorLapDatagram].

(** The player's next record: lap 5 finished in 85000 ms. *)
Definition fasterLap : Buffer := lapDatagram 85000 1000 6 0 0 0.

(** A lap-data datagram of session 1 that ends after the record of slot 0,
    from a game whose player is in slot 1. *)
Definition lapDatagramOfPlayer1 : Buffer :=
  sampleHeader PACKET_ID_LAP_DATA 1 1 ++ lapRecord 0 1000 1 0 2 0 0.

(** A complete car-damage datagram of session 1: 22 records of 46 bytes, all
    zero. *)
Definition carDamageDatagram (playerCarIndex : Z) : Buffer :=
  sampleHeader PACKET_ID_CAR_DAMAGE 1 playerCarIndex ++ zeros 1012.

(** A flashback in the pit lane: the next record of the pit visit is on lap 9,
    with the flag still 1, 5000 ms in the lane and status 1. *)
Definition backToLap9InLane : Buffer := lapDatagram 0 500 9 1 1 5000.

(** A session datagram of session 1: qualifying (type 5), no lap count. *)
Definition qualifyingDatagram : Buffer :=
  sampleHeader PACKET_ID_SESSION 1 0
  ++ bytes [0; 30; 25; 0; 180; 20; 5; 10; 0; 0; 0; 0; 0; 80].

(** A session-history datagram of the car in slot 2 with one valid lap of
    78000 ms. *)
Definition historyOfSlot2 : Buffer :=
  sampleHeader PACKET_ID_SESSION_HISTORY 1 0
  ++ bytes [2; 1; 0; 0; 0; 0; 0]
  ++ bytes [176; 48; 1; 0; 168; 97; 0; 48; 117; 0; 216; 89; 0; 15].

(** Qualifying with the names of slots 0 to 3, a best lap of 80000 ms for the
    player in slot 0 and one of 78000 ms for the car in slot 2. *)
Definition qualifyingSoFar : list Buffer :=
  [qualifyingDatagram; participantsDatagram; historyTwoLaps; historyOfSlot2].

(** * Properties *)

(** ** Reads inside the buffer succeed *)

Lemma inBounds_intro (buf : Buffer) (o n : Z) :
  0 <= o -> o + n <= buf_length buf -> inBounds buf o n = true.
Proof.
  intros Ho Hn. unfold inBounds.
  apply andb_true_intro. split; apply Z.leb_le; assumption.
Qed.

Lemma readUInt8_ok (buf : Buffer) (o : Z) :
  0 <= o -> o + 1 <= buf_length buf -> readUInt8 buf o = Ok (byteAt buf o).
Proof. intros. unfold readUInt8. rewrite inBounds_intro by assumption. reflexivity. Qed.

Lemma readInt8_ok (buf : Buffer) (o : Z) :
  0 <= o -> o + 1 <= buf_length buf ->
  readInt8 buf o = Ok (if byteAt buf o <? 128 then byteAt buf o else byteAt buf o - 256).
Proof. intros. unfold readInt8. rewrite inBounds_intro by assumption. reflexivity. Qed.

Lemma readUInt16LE_ok (buf : Buffer) (o : Z) :
  0 <= o -> o + 2 <= buf_length buf -> readUInt16LE buf o = Ok (u16At buf o).
Proof. intros. unfold readUInt16LE. rewrite inBounds_intro by assumption. reflexivity. Qed.

Lemma readUInt32LE_ok (buf : Buffer) (o : Z) :
  0 <= o -> o + 4 <= buf_length buf -> readUInt32LE buf o = Ok (u32At buf o).
Proof. intros. unfold readUInt32LE. rewrite inBounds_intro by assumption. reflexivity. Qed.

Lemma readBigUInt64LE_ok (buf : Buffer) (o : Z) :
  0 <= o -> o + 8 <= buf_length buf -> readBigUInt64LE buf o = Ok (u64At buf o).
Proof. intros. unfold readBigUInt64LE. rewrite inBounds_intro by assumption. reflexivity. Qed.

Lemma readFloatLE_ok (buf : Buffer) (o : Z) :
  0 <= o -> o + 4 <= buf_length buf -> readFloatLE buf o = Ok (u32At buf o).
Proof. intros. unfold readFloatLE. rewrite inBounds_intro by assumption. reflexivity. Qed.

Lemma readUInt8_out (buf : Buffer) (o : Z) :
  buf_length buf <= o -> readUInt8 buf o = RangeError.
Proof.
  intros H. unfold readUInt8, inBounds.
  replace (o + 1 <=? buf_length buf) with false by (symmetry; apply Z.leb_gt; lia).
  rewrite andb_false_r. reflexivity.
Qed.

Lemma buf_length_nonneg (buf : Buffer) : 0 <= buf_length buf.
Proof. unfold buf_length. lia. Qed.

(** Rewrites every read of the goal whose bounds follow from the context. *)
Ltac reads_ok :=
  repeat first
    [ rewrite readUInt8_ok by lia
    | rewrite readInt8_ok by lia
    | rewrite readUInt16LE_ok by lia
    | rewrite readUInt32LE_ok by lia
    | rewrite readBigUInt64LE_ok by lia
    | rewrite readFloatLE_ok by lia ];
  cbn [bind].

Lemma parseHeader_total (buf : Buffer) : exists h, parseHeader buf = Ok h.
Proof.
  unfold parseHeader, HEADER_SIZE.
  destruct (buf_length buf <? 29) eqn:E; [eexists; reflexivity|].
  apply Z.ltb_ge in E. cbn zeta. reads_ok. eexists; reflexivity.
Qed.

Lemma parseHeader_short (buf : Buffer) :
  buf_length buf < HEADER_SIZE -> parseHeader buf = Ok None.
Proof.
  intros H. unfold parseHeader. apply Z.ltb_lt in H. rewrite H. reflexivity.
Qed.

Lemma parseHeader_some_length (buf : Buffer) (h : Header.t) :
  parseHeader buf = Ok (Some h) -> HEADER_SIZE <= buf_length buf.
Proof.
  unfold parseHeader. destruct (buf_length buf <? HEADER_SIZE) eqn:E.
  - discriminate.
  - intros _. apply Z.ltb_ge in E. exact E.
Qed.

Lemma parseLapDataForCar_total (buf : Buffer) (o : Z) :
  0 <= o -> exists r, parseLapDataForCar buf o = Ok r.
Proof.
  intros Ho. unfold parseLapDataForCar, LAP_DATA_SIZE.
  destruct (buf_length buf <? o + 57) eqn:E; [eexists; reflexivity|].
  apply Z.ltb_ge in E. cbn zeta. reads_ok. eexists; reflexivity.
Qed.

Lemma parseCarStatusForCar_total (buf : Buffer) (o : Z) :
  0 <= o -> exists r, parseCarStatusForCar buf o = Ok r.
Proof.
  intros Ho. unfold parseCarStatusForCar, CAR_STATUS_DATA_SIZE.
  destruct (buf_length buf <? o + 55) eqn:E; [eexists; reflexivity|].
  apply Z.ltb_ge in E. cbn zeta. reads_ok. eexists; reflexivity.
Qed.

Lemma parseCarTelemetryForCar_total (buf : Buffer) (o : Z) :
  0 <= o -> exists r, parseCarTelemetryForCar buf o = Ok r.
Proof.
  intros Ho. unfold parseCarTelemetryForCar, CAR_TELEMETRY_DATA_SIZE, read4.
  destruct (buf_length buf <? o + 60) eqn:E; [eexists; reflexivity|].
  apply Z.ltb_ge in E. cbn zeta. reads_ok. eexists; reflexivity.
Qed.

Lemma parseLapHistoryEntry_total (buf : Buffer) (o : Z) :
  0 <= o -> o + LAP_HISTORY_DATA_SIZE <= buf_length buf ->
  exists r, parseLapHistoryEntry buf o = Ok r.
Proof.
  unfold LAP_HISTORY_DATA_SIZE. intros Ho Hlen. unfold parseLapHistoryEntry.
  reads_ok. eexists; reflexivity.
Qed.

(** ** Maps *)

Section JSMapFacts.
Variable V : Type.
Implicit Types (m : JSMap V) (k : Z) (v : V).

Lemma map_get_set_eq k v m : map_get k (map_set k v m) = Some v.
Proof.
  induction m as [|[k' v'] m IH]; simpl.
  - rewrite Z.eqb_refl. reflexivity.
  - destruct (k' =? k) eqn:E; simpl; rewrite E; [reflexivity | exact IH].
Qed.

Lemma map_get_set_neq k k' v m :
  k <> k' -> map_get k' (map_set k v m) = map_get k' m.
Proof.
  intros Hne. induction m as [|[k0 v0] m IH]; simpl.
  - destruct (k =? k') eqn:E; [apply Z.eqb_eq in E; contradiction | reflexivity].
  - destruct (k0 =? k) eqn:E; simpl.
    + apply Z.eqb_eq in E. subst k0.
      destruct (k =? k') eqn:E'; [apply Z.eqb_eq in E'; contradiction | reflexivity].
    + destruct (k0 =? k'); [reflexivity | exact IH].
Qed.

Lemma map_get_set k k' v m :
  map_get k' (map_set k v m) = if k =? k' then Some v else map_get k' m.
Proof.
  destruct (k =? k') eqn:E.
  - apply Z.eqb_eq in E. subst. apply map_get_set_eq.
  - apply Z.eqb_neq in E. apply map_get_set_neq. exact E.
Qed.

Lemma map_get_filter (p : Z -> bool) k m :
  map_get k (filter (fun kv => p (fst kv)) m) = if p k then map_get k m else None.
Proof.
  induction m as [|[k0 v0] m IH]; simpl.
  - destruct (p k); reflexivity.
  - destruct (p k0) eqn:Ep; simpl.
    + destruct (k0 =? k) eqn:E.
      * apply Z.eqb_eq in E. subst. rewrite Ep. reflexivity.
      * exact IH.
    + destruct (k0 =? k) eqn:E.
      * apply Z.eqb_eq in E. subst. rewrite Ep in IH |- *. exact IH.
      * exact IH.
Qed.

Lemma map_get_delete k k' m :
  map_get k' (map_delete k m) = if k =? k' then None else map_get k' m.
Proof.
  unfold map_delete.
  rewrite (map_get_filter (fun x => negb (x =? k))).
  rewrite (Z.eqb_sym k' k). destruct (k =? k'); reflexivity.
Qed.

Lemma map_get_In k v m : map_get k m = Some v -> In (k, v) m.
Proof.
  induction m as [|[k0 v0] m IH]; simpl; [discriminate|].
  destruct (k0 =? k) eqn:E.
  - apply Z.eqb_eq in E. intros [= ->]. subst. left. reflexivity.
  - intros H. right. exact (IH H).
Qed.

Lemma map_get_None_keys k m : map_get k m = None <-> ~ In k (map_keys m).
Proof.
  induction m as [|[k0 v0] m IH]; simpl.
  - split; [intros _ [] | reflexivity].
  - destruct (k0 =? k) eqn:E.
    + apply Z.eqb_eq in E. split; [discriminate | intros H; exfalso; apply H; left; exact E].
    + apply Z.eqb_neq in E. rewrite IH. split.
      * intros H [H'|H']; [contradiction | exact (H H')].
      * intros H H'. apply H. right. exact H'.
Qed.

Lemma In_map_get k v m : NoDup (map_keys m) -> In (k, v) m -> map_get k m = Some v.
Proof.
  induction m as [|[k0 v0] m IH]; simpl; [intros _ []|].
  intros Hnd [Heq|Hin].
  - injection Heq as -> ->. rewrite Z.eqb_refl. reflexivity.
  - inversion Hnd as [|? ? Hnot Hnd']; subst.
    destruct (k0 =? k) eqn:E.
    + apply Z.eqb_eq in E. subst. exfalso. apply Hnot.
      change k with (fst (k, v)). apply in_map. exact Hin.
    + exact (IH Hnd' Hin).
Qed.

Lemma map_keys_set k v m :
  map_keys (map_set k v m)
  = if map_has k m then map_keys m else map_keys m ++ [k].
Proof.
  unfold map_has. induction m as [|[k0 v0] m IH]; simpl; [reflexivity|].
  destruct (k0 =? k) eqn:E; simpl; [reflexivity|].
  rewrite IH. destruct (map_get k m); reflexivity.
Qed.

Lemma map_set_NoDup k v m : NoDup (map_keys m) -> NoDup (map_keys (map_set k v m)).
Proof.
  intros Hnd. rewrite map_keys_set. unfold map_has.
  destruct (map_get k m) eqn:E; [exact Hnd|].
  apply map_get_None_keys in E.
  apply NoDup_rev in Hnd. rewrite <- (rev_involutive (map_keys m ++ [k])).
  apply NoDup_rev. rewrite rev_app_distr. simpl.
  constructor; [rewrite <- in_rev; exact E | exact Hnd].
Qed.

(** The deletion loop of the flashback keeps exactly the smaller keys. *)
Lemma deleteFrom_fold (c : Z) (ks : list Z) m :
  fold_left
    (fun acc lapNum => if lapNum >=? c then map_delete lapNum acc else acc) ks m
  = filter (fun kv => negb ((fst kv >=? c) && existsb (Z.eqb (fst kv)) ks)) m.
Proof.
  revert m. induction ks as [|k ks IH]; intros m; simpl.
  - rewrite <- (filter_ext (fun _ => true)).
    + induction m as [|x m IHm]; simpl; [reflexivity | f_equal; exact IHm].
    + intros a. rewrite andb_false_r. reflexivity.
  - rewrite IH. destruct (k >=? c) eqn:Ek.
    + unfold map_delete. induction m as [|[k0 v0] m IHm]; simpl; [reflexivity|].
      destruct (k0 =? k) eqn:E0; simpl.
      * apply Z.eqb_eq in E0. subst k0. rewrite Ek. simpl. exact IHm.
      * destruct (negb ((k0 >=? c) && existsb (Z.eqb k0) ks)); rewrite IHm; reflexivity.
    + apply filter_ext. intros [k0 v0]. simpl.
      destruct (k0 =? k) eqn:E0; [|reflexivity].
      apply Z.eqb_eq in E0. subst k0. rewrite Ek. reflexivity.
Qed.

Lemma deleteFrom_filter (c : Z) m :
  deleteFrom c m = filter (fun kv => fst kv <? c) m.
Proof.
  unfold deleteFrom. rewrite deleteFrom_fold.
  apply filter_ext_in. intros [k v] Hin. simpl.
  assert (Hk : existsb (Z.eqb k) (map_keys m) = true).
  { apply existsb_exists. exists k. split; [|apply Z.eqb_refl].
    change k with (fst (k, v)). apply in_map. exact Hin. }
  rewrite Hk, andb_true_r.
  destruct (k >=? c) eqn:E.
  - apply Z.geb_le in E. symmetry. apply Z.ltb_ge. lia.
  - rewrite Z.geb_leb in E. apply Z.leb_gt in E. symmetry. apply Z.ltb_lt. exact E.
Qed.

Lemma map_get_deleteFrom (c k : Z) m :
  map_get k (deleteFrom c m) = if k <? c then map_get k m else None.
Proof.
  rewrite deleteFrom_filter.
  apply (map_get_filter (fun x => x <? c)).
Qed.
End JSMapFacts.

(** ** The sort keeps the elements *)

Lemma sort_insert_In (A : Type) (cmp : A -> A -> Z) (x y : A) (l : list A) :
  In y (sort_insert cmp x l) <-> y = x \/ In y l.
Proof.
  induction l as [|z l IH]; simpl.
  - split; [intros [H|[]]; left; symmetry; exact H | intros [H|[]]; left; symmetry; exact H].
  - destruct (cmp x z <=? 0); simpl.
    + split; [intros [H|H]; [left; symmetry; exact H | right; exact H]
             | intros [H|H]; [left; symmetry; exact H | right; exact H]].
    + rewrite IH. split.
      * intros [H|[H|H]]; [right; left; exact H | left; exact H | right; right; exact H].
      * intros [H|[H|H]]; [right; left; exact H | left; exact H | right; right; exact H].
Qed.

Lemma js_sort_In (A : Type) (cmp : A -> A -> Z) (y : A) (l : list A) :
  In y (js_sort cmp l) <-> In y l.
Proof.
  induction l as [|x l IH]; simpl; [reflexivity|].
  rewrite sort_insert_In, IH. split; intros [H|H]; auto.
Qed.

(** ** Personal bests are the minimum over the counted laps *)

Lemma minOpt_fold_init (cs : list (option Z)) (i : Z) :
  exists m, fold_left minOpt cs (Some i) = Some m /\ m <= i.
Proof.
  revert i. induction cs as [|c cs IH]; intros i; simpl.
  - exists i. split; [reflexivity | lia].
  - destruct c as [c|]; simpl; [|apply IH].
    destruct (c <? i) eqn:E.
    + destruct (IH c) as [m [Hm Hle]]. exists m. split; [exact Hm|].
      apply Z.ltb_lt in E. lia.
    + apply IH.
Qed.

Lemma minOpt_fold_lower (cs : list (option Z)) (init : option Z) (c : Z) :
  In (Some c) cs -> exists m, fold_left minOpt cs init = Some m /\ m <= c.
Proof.
  revert init. induction cs as [|c0 cs IH]; intros init; simpl; [intros []|].
  intros [Heq|Hin]; [|apply IH; exact Hin].
  subst c0. destruct init as [i|]; simpl.
  - destruct (c <? i) eqn:E.
    + apply minOpt_fold_init.
    + destruct (minOpt_fold_init cs i) as [m [Hm Hle]]. exists m.
      split; [exact Hm|]. apply Z.ltb_ge in E. lia.
  - apply minOpt_fold_init.
Qed.

Lemma minOpt_fold_attained (cs : list (option Z)) (init : option Z) (m : Z) :
  fold_left minOpt cs init = Some m -> init = Some m \/ In (Some m) cs.
Proof.
  revert init. induction cs as [|c cs IH]; intros init; simpl.
  - intros H. left. exact H.
  - intros H. destruct (IH _ H) as [Hi|Hin]; [|right; right; exact Hin].
    destruct c as [c|]; simpl in Hi; [|left; exact Hi].
    destruct init as [i|].
    + destruct (c <? i); [right; left; exact Hi | left; exact Hi].
    + right. left. exact Hi.
Qed.

Lemma bestsStep_lapTime (acc : Bests) (l : LapEntry.t) :
  b_bestLapTimeMs (bestsStep acc l) = minOpt (b_bestLapTimeMs acc) (countedTime l).
Proof.
  unfold bestsStep. destruct (countedTime l) as [t|]; simpl; [|reflexivity].
  destruct (b_bestLapTimeMs acc) as [b|]; [|reflexivity].
  destruct (t <? b); reflexivity.
Qed.

Lemma scanBests_lapTime (ls : list LapEntry.t) (acc : Bests) :
  b_bestLapTimeMs (fold_left bestsStep ls acc)
  = fold_left minOpt (map countedTime ls) (b_bestLapTimeMs acc).
Proof.
  revert acc. induction ls as [|l ls IH]; intros acc; simpl; [reflexivity|].
  rewrite IH, bestsStep_lapTime. reflexivity.
Qed.

Lemma countedTime_Some (l : LapEntry.t) (t : Z) :
  countedTime l = Some t
  <-> LapEntry.valid l = true /\ LapEntry.lapTimeMs l = Some t /\ t > 0.
Proof.
  unfold countedTime. destruct (LapEntry.valid l).
  - destruct (LapEntry.lapTimeMs l) as [t0|].
    + destruct (t0 <=? 0) eqn:E.
      * apply Z.leb_le in E. split; [discriminate|].
        intros [_ [[= ->] Hpos]]. lia.
      * apply Z.leb_gt in E. split.
        -- intros [= ->]. repeat split. lia.
        -- intros [_ [[= ->] _]]. reflexivity.
    + split; [discriminate | intros [_ [H _]]; discriminate].
  - split; [discriminate | intros [H _]; discriminate].
Qed.

Lemma countedTime_markEntry (b : option Z) (l : LapEntry.t) :
  countedTime (markEntry b l) = countedTime l.
Proof. reflexivity. Qed.

Lemma map_values_markEntries (b : option Z) (m : JSMap LapEntry.t) :
  map_values (markEntries b m) = map (markEntry b) (map_values m).
Proof.
  unfold map_values, markEntries. rewrite !map_map. reflexivity.
Qed.

Lemma map_get_markEntries (b : option Z) (k : Z) (m : JSMap LapEntry.t) :
  map_get k (markEntries b m) = option_map (markEntry b) (map_get k m).
Proof.
  induction m as [|[k0 v0] m IH]; simpl; [reflexivity|].
  destruct (k0 =? k); [reflexivity | exact IH].
Qed.

Lemma map_keys_markEntries (b : option Z) (m : JSMap LapEntry.t) :
  map_keys (markEntries b m) = map_keys m.
Proof.
  unfold map_keys, markEntries. rewrite map_map. reflexivity.
Qed.

(** What [recomputeFromLaps] leaves behind, field by field. *)
Lemma recomputeFromLaps_lapsByNumber (st : State) :
  lapsByNumber (recomputeFromLaps st)
  = markEntries (b_bestLapTimeMs (scanBests (map_values (lapsByNumber st))))
      (lapsByNumber st).
Proof. reflexivity. Qed.

Lemma recomputeFromLaps_bestLapTimeMs (st : State) :
  LapsState.bestLapTimeMs (lapsState (recomputeFromLaps st))
  = b_bestLapTimeMs (scanBests (map_values (lapsByNumber st))).
Proof. reflexivity. Qed.

Lemma recomputeFromLaps_laps (st : State) (l : LapEntry.t) :
  In l (LapsState.laps (lapsState (recomputeFromLaps st)))
  <-> In l (map_values (lapsByNumber (recomputeFromLaps st))).
Proof.
  unfold recomputeFromLaps, syncLapsArrayFromMap. cbn. apply js_sort_In.
Qed.

(** The best lap time is the least counted time of the table after the
    recompute, and some counted row has it. *)
Lemma recompute_best_is_minimum (st : State) (m : Z) :
  LapsState.bestLapTimeMs (lapsState (recomputeFromLaps st)) = Some m ->
  (exists l, In l (map_values (lapsByNumber (recomputeFromLaps st)))
             /\ countedTime l = Some m)
  /\ (forall l t, In l (map_values (lapsByNumber (recomputeFromLaps st))) ->
                  countedTime l = Some t -> m <= t).
Proof.
  rewrite recomputeFromLaps_bestLapTimeMs, recomputeFromLaps_lapsByNumber.
  rewrite map_values_markEntries. unfold scanBests. rewrite scanBests_lapTime.
  simpl. intros Hm. split.
  - destruct (minOpt_fold_attained _ _ Hm) as [Hi|Hin]; [discriminate|].
    apply in_map_iff in Hin. destruct Hin as [l [Hc Hin]].
    exists (markEntry (Some m) l). split.
    + rewrite Hm. apply in_map. exact Hin.
    + exact Hc.
  - intros l t Hin Hc. apply in_map_iff in Hin. destruct Hin as [l0 [<- Hin]].
    rewrite countedTime_markEntry in Hc.
    destruct (minOpt_fold_lower (map countedTime (map_values (lapsByNumber st))) None t)
      as [m' [Hm' Hle]].
    + rewrite <- Hc. apply in_map. exact Hin.
    + rewrite Hm in Hm'. injection Hm' as <-. exact Hle.
Qed.

(** The rows of the table after [recomputeFromLaps] are marked against the
    least counted time. *)
Lemma recompute_marks_rows (st : State) : rowsMarkedAgainstBest (recomputeFromLaps st).
Proof.
  unfold rowsMarkedAgainstBest. intros l t.
  intros Hin Hvalid Htime Hpos.
  assert (Hc : countedTime l = Some t) by (apply countedTime_Some; auto).
  assert (Hbest : exists m,
             LapsState.bestLapTimeMs (lapsState (recomputeFromLaps st)) = Some m).
  { rewrite recomputeFromLaps_bestLapTimeMs. unfold scanBests.
    rewrite scanBests_lapTime. simpl.
    rewrite recomputeFromLaps_lapsByNumber, map_values_markEntries in Hin.
    apply in_map_iff in Hin. destruct Hin as [l0 [Hl0 Hin0]].
    destruct (minOpt_fold_lower (map countedTime (map_values (lapsByNumber st))) None t)
      as [m [Hm _]].
    - rewrite <- Hc, <- Hl0, countedTime_markEntry. apply in_map. exact Hin0.
    - exists m. exact Hm. }
  destruct Hbest as [m Hm]. exists m.
  destruct (recompute_best_is_minimum st Hm) as [[l0 [Hin0 Hc0]] Hlow].
  split; [exact Hm|]. split.
  { exists l0. apply countedTime_Some in Hc0. tauto. }
  split.
  { intros l1 t1 Hin1 Hv1 Ht1 Hp1. apply (Hlow l1 t1 Hin1).
    apply countedTime_Some. auto. }
  assert (Hle : m <= t) by exact (Hlow l t Hin Hc).
  rewrite recomputeFromLaps_lapsByNumber, map_values_markEntries in Hin.
  rewrite recomputeFromLaps_bestLapTimeMs in Hm.
  apply in_map_iff in Hin. destruct Hin as [l' [Hl' _]].
  rewrite Hm in Hl'. subst l.
  unfold markEntry in *. cbn in Hvalid, Htime |- *.
  rewrite Htime, Hvalid. cbn.
  replace (t >? 0) with true by (symmetry; apply Z.gtb_lt; lia).
  split; [|split; [reflexivity | lia]].
  split; [intros H; apply Z.eqb_eq; exact H | intros H; apply Z.eqb_eq; exact H].
Qed.


(** ** Two-part time fields *)

(** The decoder of the live lap record follows the rule for every input. *)
Lemma decodeMinutesMs_spec (msPart minutesPart : Z) :
  decodeMinutesMs msPart minutesPart
  = if (msPart =? 65535) || (minutesPart =? 255) then None
    else if (msPart =? 0) && (minutesPart =? 0) then None
    else Some (minutesPart * 60000 + msPart).
Proof.
  unfold decodeMinutesMs.
  destruct ((msPart =? 65535) || (minutesPart =? 255)); [reflexivity|].
  destruct ((msPart =? 0) && (minutesPart =? 0)); [reflexivity|].
  f_equal. lia.
Qed.

Example decodeMinutesMs_one_minute : decodeMinutesMs 500 1 = Some 60500.
Proof. reflexivity. Qed.

Lemma decodeMinutesMs_sentinel_ms (minutesPart : Z) :
  decodeMinutesMs 65535 minutesPart = None.
Proof. reflexivity. Qed.

Example decodeMinutesMs_zero : decodeMinutesMs 0 0 = None.
Proof. reflexivity. Qed.

(** C2.  The session-history decoder does not treat the reserved values as
    absent.  On a history datagram whose only lap carries the millisecond part
    65535 in sector 1 and the minutes part 255 in sector 3, the stored lap has
    sector 1 = 65535 ms and sector 3 = 15300500 ms, where the decoder of the
    live lap record gives absent for the same two parts. *)
Theorem history_sentinel_decoded_as_time :
  (exists st',
      handleSessionHistoryPacket historySentinelDatagram initialState = Ok (st', [])
      /\ map_get 0 (sessionHistoryByCarIndex st')
         = Some [(1, HistEntry.mk (Some 90000) (Some 65535) (Some 30000)
                       (Some 15300500) 15)])
  /\ decodeMinutesMs 65535 0 = None
  /\ decodeMinutesMs 500 255 = None.
Proof.
  split; [|split; reflexivity].
  eexists. split; vm_compute; reflexivity.
Qed.

(** ** Short datagrams *)

(** C3.  Two decoders read before they have checked the length.  A car-damage
    datagram of 73 bytes passes the length test of [parseCarDamageForCar] for
    slot 0, which then reads its 46 bytes and throws at offset 73; a participants
    datagram of 29 bytes throws at the read of the count byte; and a
    participants datagram of 30 bytes, skipped as too short, has already
    overwritten [numActiveCars]. *)
Theorem short_datagram_throws_or_mutates :
  parseCarDamageForCar carDamageShortDatagram HEADER_SIZE = RangeError
  /\ onMessage carDamageShortDatagram initialState = RangeError
  /\ onMessage participantsHeaderOnly initialState = RangeError
  /\ (exists st',
         onMessage participantsCountOnly (resetSessionState 1 initialState) = Ok (st', [])
         /\ numActiveCars (resetSessionState 1 initialState) = None
         /\ numActiveCars st' = Some 20
         /\ participantsNameByIndex st' = []).
Proof.
  split; [vm_compute; reflexivity|].
  split; [vm_compute; reflexivity|].
  split; [vm_compute; reflexivity|].
  eexists. split; [vm_compute; reflexivity|].
  repeat split.
Qed.

(** ** Session epoch *)

Lemma resetSessionState_constant (uid : Z) (st : State) :
  resetSessionState uid st = resetSessionState uid initialState.
Proof. reflexivity. Qed.

Lemma sessionIsNew_after_reset (h : Header.t) (st : State) :
  sessionIsNew h (resetSessionState (Header.sessionUID h) st) = false.
Proof.
  unfold sessionIsNew. cbn. rewrite Z.eqb_refl. reflexivity.
Qed.

(** Puts a handler in front of its payload when the header is known. *)
Ltac enter_handler Hh :=
  rewrite Hh; cbn [bind].

(** C4.  When the session identifier of the header is not the tracked one, or
    none is tracked, every handler works on the cleared state: the state after
    [resetSessionState] has every per-car cache, the lap table, the
    tyre-at-lap-start and pit-by-lap tables, the pit stint trackers, the
    session history and the session-wide bests empty, and handling the
    datagram from the old state is handling it from that cleared state. *)
Theorem new_session_clears_before_payload (buf : Buffer) (h : Header.t) (st : State) :
  parseHeader buf = Ok (Some h) ->
  sessionIsNew h st = true ->
  let fresh := resetSessionState (Header.sessionUID h) st in
  (lapsByNumber fresh = [] /\ tyreByLapStart fresh = []
   /\ pitLaneTimeByLap fresh = [] /\ pitLaneStatusByLap fresh = []
   /\ participantsNameByIndex fresh = [] /\ participantsTeamIdByIndex fresh = []
   /\ participantsColorByIndex fresh = []
   /\ carStatusByIndex fresh = [] /\ carTelemetryByIndex fresh = []
   /\ carDamageByIndex fresh = [] /\ lapDataByIndex fresh = []
   /\ sectorCacheByIndex fresh = [] /\ pitLaneStintByIndex fresh = []
   /\ sessionHistoryByCarIndex fresh = [] /\ numActiveCars fresh = None
   /\ raceBestSector1TimeMs fresh = None /\ raceBestSector2TimeMs fresh = None
   /\ raceBestSector3TimeMs fresh = None /\ raceBestSector1CarIndex fresh = None
   /\ raceBestSector2CarIndex fresh = None /\ raceBestSector3CarIndex fresh = None
   /\ raceBestLapTimeMs fresh = None /\ raceBestLapCarIndex fresh = None
   /\ raceBestLapNum fresh = None
   /\ playerState fresh
      = PlayerState.mk (Some (Header.sessionUID h)) None 0 None None None None None
          false None 0 0
   /\ lapsState fresh = LapsState.set_isConnected true initialLapsState)
  /\ handleSessionPacket buf st = handleSessionPacket buf fresh
  /\ handleParticipantsPacket buf st = handleParticipantsPacket buf fresh
  /\ handleSessionHistoryPacket buf st = handleSessionHistoryPacket buf fresh
  /\ handleLapDataPacket buf st = handleLapDataPacket buf fresh
  /\ handleCarTelemetryPacket buf st = handleCarTelemetryPacket buf fresh
  /\ handleCarStatusPacket buf st = handleCarStatusPacket buf fresh
  /\ handleCarDamagePacket buf st = handleCarDamagePacket buf fresh
  /\ (In (Header.packetId h)
         [PACKET_ID_SESSION; PACKET_ID_PARTICIPANTS; PACKET_ID_SESSION_HISTORY;
          PACKET_ID_LAP_DATA; PACKET_ID_CAR_TELEMETRY; PACKET_ID_CAR_STATUS;
          PACKET_ID_CAR_DAMAGE] ->
      onMessage buf st = onMessage buf fresh).
Proof.
  intros Hh Hnew fresh.
  assert (Hold : sessionIsNew h fresh = false) by apply sessionIsNew_after_reset.
  split; [repeat split|].
  assert (H1 : handleSessionPacket buf st = handleSessionPacket buf fresh).
  { unfold handleSessionPacket. enter_handler Hh. rewrite Hnew, Hold. reflexivity. }
  assert (H2 : handleParticipantsPacket buf st = handleParticipantsPacket buf fresh).
  { unfold handleParticipantsPacket. enter_handler Hh. rewrite Hnew, Hold. reflexivity. }
  assert (H3 : handleSessionHistoryPacket buf st = handleSessionHistoryPacket buf fresh).
  { unfold handleSessionHistoryPacket. enter_handler Hh. rewrite Hnew, Hold. reflexivity. }
  assert (H4 : handleLapDataPacket buf st = handleLapDataPacket buf fresh).
  { unfold handleLapDataPacket. enter_handler Hh. rewrite Hnew, Hold. reflexivity. }
  assert (H5 : handleCarTelemetryPacket buf st = handleCarTelemetryPacket buf fresh).
  { unfold handleCarTelemetryPacket. enter_handler Hh. rewrite Hnew, Hold. reflexivity. }
  assert (H6 : handleCarStatusPacket buf st = handleCarStatusPacket buf fresh).
  { unfold handleCarStatusPacket. enter_handler Hh. rewrite Hnew, Hold. reflexivity. }
  assert (H7 : handleCarDamagePacket buf st = handleCarDamagePacket buf fresh).
  { unfold handleCarDamagePacket. enter_handler Hh. rewrite Hnew, Hold. reflexivity. }
  repeat (split; [assumption|]).
  intros Hid. unfold onMessage. rewrite Hh. cbn [bind].
  rewrite H1, H2, H3, H4, H5, H6, H7.
  simpl in Hid.
  destruct Hid as [<-|[<-|[<-|[<-|[<-|[<-|[<-|[]]]]]]]]; reflexivity.
Qed.

(** The theorem at a session datagram of session 2 that arrives in the middle
    of session 1. *)
Lemma new_session_clears_before_payload_witness :
  parseHeader sessionDatagram2 = Ok (Some sessionHeader2)
  /\ sessionIsNew sessionHeader2 busyState = true
  /\ lapsByNumber (resetSessionState 2 busyState) = []
  /\ handleSessionPacket sessionDatagram2 busyState
     = handleSessionPacket sessionDatagram2 (resetSessionState 2 busyState).
Proof.
  assert (Hh : parseHeader sessionDatagram2 = Ok (Some sessionHeader2))
    by (vm_compute; reflexivity).
  assert (Hnew : sessionIsNew sessionHeader2 busyState = true)
    by (vm_compute; reflexivity).
  split; [exact Hh|]. split; [exact Hnew|].
  pose proof (new_session_clears_before_payload sessionDatagram2 busyState Hh Hnew)
    as [Hclear [Hsession _]].
  split; [exact (proj1 Hclear) | exact Hsession].
Defined.

(** The lap table and the pit tables, which were not empty, are empty after
    the session datagram, and the session fields of the datagram are in place. *)
Example new_session_datagram_run :
  lapsByNumber busyState <> [] /\ pitLaneTimeByLap busyState <> []
  /\ exists st',
       handleSessionPacket sessionDatagram2 busyState = Ok (st', [])
       /\ lapsByNumber st' = [] /\ pitLaneTimeByLap st' = []
       /\ pitLaneStatusByLap st' = []
       /\ PlayerState.sessionUID (playerState st') = Some 2
       /\ LapsState.sessionKind (lapsState st') = Some race
       /\ LapsState.totalLaps (lapsState st') = Some 50.
Proof.
  split; [discriminate|]. split; [discriminate|].
  eexists. split; [vm_compute; reflexivity|]. repeat split.
Qed.

(** ** The lap-data handler: structure *)

Lemma forEachSlot_preserves (P : State -> Prop) (body : Z -> State -> result State)
  (slots : list Z) (st st' : State) :
  (forall i s s', In i slots -> body i s = Ok s' -> P s -> P s') ->
  P st -> forEachSlot body slots st = Ok st' -> P st'.
Proof.
  revert st. induction slots as [|i slots IH]; intros st Hbody HP; simpl.
  - intros [= <-]. exact HP.
  - destruct (body i st) as [s1|] eqn:E; simpl; [|discriminate].
    intros H. apply (IH s1).
    + intros j s s' Hj. apply Hbody. right. exact Hj.
    + apply (Hbody i st s1); [left; reflexivity | exact E | exact HP].
    + exact H.
Qed.

Lemma forEachSlot_total (body : Z -> State -> result State) (slots : list Z) (st : State) :
  (forall i s, In i slots -> exists s', body i s = Ok s') ->
  exists st', forEachSlot body slots st = Ok st'.
Proof.
  revert st. induction slots as [|i slots IH]; intros st Hbody; simpl.
  - eexists; reflexivity.
  - destruct (Hbody i st) as [s1 E]; [left; reflexivity|].
    rewrite E. simpl. apply IH. intros j s Hj. apply Hbody. right. exact Hj.
Qed.

Lemma carSlots_range (i : Z) : In i carSlots -> 0 <= i < NUM_CARS.
Proof.
  unfold carSlots. intros H. apply in_map_iff in H. destruct H as [n [<- Hn]].
  apply in_seq in Hn. unfold NUM_CARS in *. simpl in Hn. lia.
Qed.

Lemma lapDataLoopBody_total (buf : Buffer) (i : Z) (st : State) :
  In i carSlots -> exists st', lapDataLoopBody buf i st = Ok st'.
Proof.
  intros Hi. apply carSlots_range in Hi. unfold lapDataLoopBody.
  destruct (@parseLapDataForCar_total buf (HEADER_SIZE + i * LAP_DATA_SIZE)) as [r Hr].
  - unfold HEADER_SIZE, LAP_DATA_SIZE, NUM_CARS in *. lia.
  - rewrite Hr. simpl. destruct r; eexists; reflexivity.
Qed.

(** The lap-data handler never throws. *)
Lemma handleLapDataPacket_total (buf : Buffer) (st : State) :
  exists st' out, handleLapDataPacket buf st = Ok (st', out).
Proof.
  unfold handleLapDataPacket.
  destruct (parseHeader_total buf) as [[h|] Hh]; rewrite Hh; cbn [bind].
  2: { eexists; eexists; reflexivity. }
  match goal with
  | |- context [forEachSlot ?b ?l ?s] =>
      destruct (@forEachSlot_total b l s) as [s1 Hs1]
  end.
  { intros i s Hi. apply lapDataLoopBody_total. exact Hi. }
  rewrite Hs1. cbn [bind].
  destruct (Header.playerCarIndex h >=? NUM_CARS); [eexists; eexists; reflexivity|].
  match goal with
  | |- context [match ?x with Some _ => _ | None => _ end] => destruct x
  end; eexists; eexists; reflexivity.
Qed.

Ltac break_match :=
  match goal with
  | |- context [match ?x with _ => _ end] => destruct x eqn:?
  end.

Lemma raceBestsStep_frame (st : State) (c : RaceCar.t) :
  withoutRaceBests (raceBestsStep st c) = withoutRaceBests st.
Proof.
  unfold raceBestsStep. repeat break_match; reflexivity.
Qed.

Lemma raceBests_fold_frame (cars : list RaceCar.t) (st : State) :
  withoutRaceBests (fold_left raceBestsStep cars st) = withoutRaceBests st.
Proof.
  revert st. induction cars as [|c cars IH]; intros st; simpl; [reflexivity|].
  rewrite IH. apply raceBestsStep_frame.
Qed.

(** Any field that is not a session-wide best can be read through
    [withoutRaceBests]. *)
Lemma publishLeaderboard_raceCars (p : Z) (st : State) :
  LapsState.raceCars (lapsState (publishLeaderboard p st)) = buildRaceCars st p.
Proof. reflexivity. Qed.

Lemma publishLeaderboard_frame (p : Z) (st : State) :
  lapDataByIndex (publishLeaderboard p st) = lapDataByIndex st
  /\ participantsNameByIndex (publishLeaderboard p st) = participantsNameByIndex st
  /\ numActiveCars (publishLeaderboard p st) = numActiveCars st
  /\ tyreByLapStart (publishLeaderboard p st) = tyreByLapStart st
  /\ playerState (publishLeaderboard p st) = playerState st
  /\ ledgerView (publishLeaderboard p st) = ledgerView st.
Proof.
  unfold publishLeaderboard, ledgerView. cbn.
  pose proof (raceBests_fold_frame (buildRaceCars st p) st) as H.
  repeat split.
  - exact (f_equal lapDataByIndex H).
  - exact (f_equal participantsNameByIndex H).
  - exact (f_equal numActiveCars H).
  - exact (f_equal tyreByLapStart H).
  - exact (f_equal playerState H).
  - assert (H1 : lapsByNumber (fold_left raceBestsStep (buildRaceCars st p) st)
                 = lapsByNumber st) by exact (f_equal lapsByNumber H).
    assert (H2 : lapsState (fold_left raceBestsStep (buildRaceCars st p) st)
                 = lapsState st) by exact (f_equal lapsState H).
    rewrite H1, H2. reflexivity.
Qed.

(** The handler as the composition of its blocks. *)
Lemma handleLapDataPacket_blocks (buf : Buffer) (st st' : State) (out : list LapsState.t) :
  handleLapDataPacket buf st = Ok (st', out) ->
  (parseHeader buf = Ok None /\ st' = st /\ out = [])
  \/ exists h st0 st1,
       parseHeader buf = Ok (Some h)
       /\ st0 = set_lapsState
                  (LapsState.set_playerCarIndex (Some (Header.playerCarIndex h))
                     (LapsState.set_isConnected true
                        (lapsState (if sessionIsNew h st
                                    then resetSessionState (Header.sessionUID h) st
                                    else st))))
                  (if sessionIsNew h st
                   then resetSessionState (Header.sessionUID h) st else st)
       /\ forEachSlot (lapDataLoopBody buf) carSlots st0 = Ok st1
       /\ ((st' = publishLeaderboard (Header.playerCarIndex h) st1 /\ out = []
            /\ (Header.playerCarIndex h >= NUM_CARS
                \/ map_get (Header.playerCarIndex h) (lapDataByIndex st1) = None))
           \/ exists lap,
                Header.playerCarIndex h < NUM_CARS
                /\ map_get (Header.playerCarIndex h) (lapDataByIndex st1) = Some lap
                /\ st' = playerSection (Header.playerCarIndex h) lap
                           (publishLeaderboard (Header.playerCarIndex h) st1)
                /\ out = [lapsState st']).
Proof.
  unfold handleLapDataPacket.
  destruct (parseHeader buf) as [[h|]|] eqn:Hh; cbn [bind]; [| |discriminate].
  2: { intros [= <- <-]. left. auto. }
  match goal with
  | |- context [forEachSlot ?b ?l ?s] => destruct (forEachSlot b l s) as [s1|] eqn:Hs1
  end; cbn [bind]; [|discriminate].
  intros H. right. exists h. eexists. exists s1.
  split; [reflexivity|]. split; [reflexivity|]. split; [exact Hs1|].
  destruct (Header.playerCarIndex h >=? NUM_CARS) eqn:Ege.
  - injection H as <- <-. left. split; [reflexivity|]. split; [reflexivity|].
    left. apply Z.geb_le in Ege. lia.
  - rewrite Z.geb_leb in Ege. apply Z.leb_gt in Ege.
    rewrite (proj1 (publishLeaderboard_frame (Header.playerCarIndex h) s1)) in H.
    destruct (map_get (Header.playerCarIndex h) (lapDataByIndex s1)) as [lap|] eqn:Elap.
    + injection H as <- <-. right. exists lap.
      split; [lia|]. split; [reflexivity|]. split; reflexivity.
    + injection H as <- <-. left. split; [reflexivity|]. split; [reflexivity|].
      right. reflexivity.
Qed.

(** ** The player's blocks leave the leaderboard alone *)

Ltac phase_frame :=
  unfold recomputeFromLaps, syncLapsArrayFromMap;
  repeat break_match; reflexivity.

Lemma boardView_fields (a b : State) :
  boardView a = boardView b ->
  LapsState.raceCars (lapsState a) = LapsState.raceCars (lapsState b)
  /\ lapDataByIndex a = lapDataByIndex b
  /\ participantsNameByIndex a = participantsNameByIndex b
  /\ numActiveCars a = numActiveCars b.
Proof. unfold boardView. intros [= H1 H2 H3 H4]. auto. Qed.

Lemma recomputeFromLaps_boardView (st : State) :
  boardView (recomputeFromLaps st) = boardView st.
Proof. reflexivity. Qed.

Lemma setCurrentPenalties_boardView (lap : LapData.t) (st : State) :
  boardView (setCurrentPenalties lap st) = boardView st.
Proof. reflexivity. Qed.

Lemma truncateOnFlashback_boardView (lap : LapData.t) (st : State) :
  boardView (truncateOnFlashback lap st) = boardView st.
Proof. unfold truncateOnFlashback. phase_frame. Qed.

Lemma snapshotTyresAtLapStart_boardView (lap : LapData.t) (st : State) :
  boardView (snapshotTyresAtLapStart lap st) = boardView st.
Proof. unfold snapshotTyresAtLapStart. phase_frame. Qed.

Lemma trackPlayerPitLane_boardView (lap : LapData.t) (st : State) :
  boardView (trackPlayerPitLane lap st) = boardView st.
Proof. unfold trackPlayerPitLane. phase_frame. Qed.

Lemma cachePlayerSectors_boardView (lap : LapData.t) (st : State) :
  boardView (cachePlayerSectors lap st) = boardView st.
Proof. reflexivity. Qed.

Lemma setLiveLapTime_boardView (lap : LapData.t) (st : State) :
  boardView (setLiveLapTime lap st) = boardView st.
Proof. reflexivity. Qed.

Lemma liveSectorBests_boardView (r : bool) (lap : LapData.t) (st : State) :
  boardView (liveSectorBests r lap st) = boardView st.
Proof. unfold liveSectorBests. phase_frame. Qed.

Lemma setCurrentLap_boardView (r : bool) (t : TyreSnap.t) (lap : LapData.t) (st : State) :
  boardView (setCurrentLap r t lap st) = boardView st.
Proof. reflexivity. Qed.

Lemma finalizeLap_boardView (r : bool) (p : Z) (lap : LapData.t) (st : State) :
  boardView (finalizeLap r p lap st) = boardView st.
Proof.
  unfold finalizeLap.
  destruct (PlayerState.currentLapNum (playerState st)); [|reflexivity].
  match goal with |- context [if ?c then _ else _] => destruct c end; reflexivity.
Qed.

Lemma rememberLap_boardView (lap : LapData.t) (st : State) :
  boardView (rememberLap lap st) = boardView st.
Proof. reflexivity. Qed.

Lemma updateLiveDelta_boardView (st : State) :
  boardView (updateLiveDelta st) = boardView st.
Proof. reflexivity. Qed.

Lemma playerSection_boardView (p : Z) (lap : LapData.t) (st : State) :
  boardView (playerSection p lap st) = boardView st.
Proof.
  unfold playerSection. cbv zeta.
  rewrite updateLiveDelta_boardView, rememberLap_boardView, finalizeLap_boardView,
    setCurrentLap_boardView, liveSectorBests_boardView, setLiveLapTime_boardView,
    cachePlayerSectors_boardView, trackPlayerPitLane_boardView,
    snapshotTyresAtLapStart_boardView, truncateOnFlashback_boardView,
    setCurrentPenalties_boardView.
  reflexivity.
Qed.

Lemma playerSection_ends_with_delta (p : Z) (lap : LapData.t) (st : State) :
  exists st1, playerSection p lap st = updateLiveDelta st1.
Proof. unfold playerSection. eexists. reflexivity. Qed.

(** ** The player's blocks and the tyre snapshots *)

Lemma playerSection_tyreSource (p : Z) (lap : LapData.t) (st : State) :
  tyreSource (playerSection p lap st) = tyreSource st.
Proof.
  unfold playerSection. cbv zeta.
  assert (H1 : forall s, tyreSource (updateLiveDelta s) = tyreSource s) by reflexivity.
  assert (H2 : forall s, tyreSource (rememberLap lap s) = tyreSource s) by reflexivity.
  assert (H3 : forall r s, tyreSource (finalizeLap r p lap s) = tyreSource s).
  { intros r s. unfold finalizeLap.
    destruct (PlayerState.currentLapNum (playerState s)); [|reflexivity].
    match goal with |- context [if ?c then _ else _] => destruct c end; reflexivity. }
  assert (H4 : forall r t s, tyreSource (setCurrentLap r t lap s) = tyreSource s)
    by reflexivity.
  assert (H5 : forall r s, tyreSource (liveSectorBests r lap s) = tyreSource s).
  { intros r s. unfold liveSectorBests. phase_frame. }
  assert (H6 : forall s, tyreSource (setLiveLapTime lap s) = tyreSource s) by reflexivity.
  assert (H7 : forall s, tyreSource (cachePlayerSectors lap s) = tyreSource s).
  { intros s. unfold cachePlayerSectors. phase_frame. }
  assert (H8 : forall s, tyreSource (trackPlayerPitLane lap s) = tyreSource s).
  { intros s. unfold trackPlayerPitLane. phase_frame. }
  assert (H9 : forall s, tyreSource (snapshotTyresAtLapStart lap s) = tyreSource s).
  { intros s. unfold snapshotTyresAtLapStart. phase_frame. }
  assert (H10 : forall s, tyreSource (truncateOnFlashback lap s) = tyreSource s).
  { intros s. unfold truncateOnFlashback. phase_frame. }
  rewrite H1, H2, H3, H4, H5, H6, H7, H8, H9, H10. reflexivity.
Qed.

Lemma truncateOnFlashback_tyreByLapStart (lap : LapData.t) (st : State) :
  tyreByLapStart (truncateOnFlashback lap st)
  = if isFlashback lap st
    then deleteFrom (LapData.currentLapNum lap) (tyreByLapStart st)
    else tyreByLapStart st.
Proof.
  unfold truncateOnFlashback, isFlashback.
  destruct (PlayerState.currentLapNum (playerState st)); [|reflexivity].
  destruct (LapData.currentLapNum lap <? z); reflexivity.
Qed.

Lemma snapshotTyresAtLapStart_tyreByLapStart (lap : LapData.t) (st : State) :
  tyreByLapStart (snapshotTyresAtLapStart lap st)
  = if map_has (LapData.currentLapNum lap) (tyreByLapStart st)
    then tyreByLapStart st
    else map_set (LapData.currentLapNum lap) (currentTyres st) (tyreByLapStart st).
Proof.
  unfold snapshotTyresAtLapStart.
  destruct (map_has (LapData.currentLapNum lap) (tyreByLapStart st)); reflexivity.
Qed.

Lemma truncateOnFlashback_tyreSource (lap : LapData.t) (st : State) :
  tyreSource (truncateOnFlashback lap st) = tyreSource st.
Proof. unfold truncateOnFlashback. phase_frame. Qed.

(** The tyre table after the player's blocks: the flashback deletion, then the
    snapshot of the current lap if it has none. *)
Lemma playerSection_tyreByLapStart (p : Z) (lap : LapData.t) (st : State) :
  tyreByLapStart (playerSection p lap st)
  = let m :=
      if isFlashback lap st
      then deleteFrom (LapData.currentLapNum lap) (tyreByLapStart st)
      else tyreByLapStart st in
    if map_has (LapData.currentLapNum lap) m then m
    else map_set (LapData.currentLapNum lap) (currentTyres st) m.
Proof.
  unfold playerSection. cbv zeta.
  assert (H1 : forall s, tyreByLapStart (updateLiveDelta s) = tyreByLapStart s)
    by reflexivity.
  assert (H2 : forall s, tyreByLapStart (rememberLap lap s) = tyreByLapStart s)
    by reflexivity.
  assert (H3 : forall r s, tyreByLapStart (finalizeLap r p lap s) = tyreByLapStart s).
  { intros r s. unfold finalizeLap.
    destruct (PlayerState.currentLapNum (playerState s)); [|reflexivity].
    match goal with |- context [if ?c then _ else _] => destruct c end; reflexivity. }
  assert (H4 : forall r t s, tyreByLapStart (setCurrentLap r t lap s) = tyreByLapStart s)
    by reflexivity.
  assert (H5 : forall r s, tyreByLapStart (liveSectorBests r lap s) = tyreByLapStart s).
  { intros r s. unfold liveSectorBests. phase_frame. }
  assert (H6 : forall s, tyreByLapStart (setLiveLapTime lap s) = tyreByLapStart s)
    by reflexivity.
  assert (H7 : forall s, tyreByLapStart (cachePlayerSectors lap s) = tyreByLapStart s)
    by reflexivity.
  assert (H8 : forall s, tyreByLapStart (trackPlayerPitLane lap s) = tyreByLapStart s).
  { intros s. unfold trackPlayerPitLane. phase_frame. }
  rewrite H1, H2, H3, H4, H5, H6, H7, H8.
  rewrite snapshotTyresAtLapStart_tyreByLapStart, truncateOnFlashback_tyreByLapStart.
  pose proof (truncateOnFlashback_tyreSource lap (setCurrentPenalties lap st)) as Hsrc.
  apply (f_equal fst) in Hsrc. cbn [fst tyreSource] in Hsrc. rewrite Hsrc.
  reflexivity.
Qed.

Lemma playerSection_currentLapNum (p : Z) (lap : LapData.t) (st : State) :
  PlayerState.currentLapNum (playerState (playerSection p lap st))
  = Some (LapData.currentLapNum lap).
Proof. reflexivity. Qed.

(** ** The live delta *)

Lemma updateLiveDelta_spec (st : State) :
  let doc := lapsState (updateLiveDelta st) in
  LapsState.liveDeltaToBestMs doc
  = match LapsState.bestLapTimeMs doc with
    | Some best =>
        if LapsState.liveLapTimeMs doc >? 0
        then Some (best - LapsState.liveLapTimeMs doc) else None
    | None => None
    end.
Proof. reflexivity. Qed.

(** Every document the lap-data handler broadcasts is the [lapsState] it
    leaves, with the live delta computed from the best lap time and the live
    lap time it carries. *)
Lemma handleLapDataPacket_delta (buf : Buffer) (st st' : State) (out : list LapsState.t)
  (doc : LapsState.t) :
  handleLapDataPacket buf st = Ok (st', out) ->
  In doc out ->
  doc = lapsState st'
  /\ LapsState.liveDeltaToBestMs doc
     = match LapsState.bestLapTimeMs doc with
       | Some best =>
           if LapsState.liveLapTimeMs doc >? 0
           then Some (best - LapsState.liveLapTimeMs doc) else None
       | None => None
       end.
Proof.
  intros H Hin.
  apply handleLapDataPacket_blocks in H.
  destruct H as [[_ [_ ->]] | [h [st0 [st1 [_ [_ [_ H]]]]]]]; [destruct Hin|].
  destruct H as [[_ [-> _]] | [lap [_ [_ [Hst' ->]]]]]; [destruct Hin|].
  destruct Hin as [<-|[]]. split; [reflexivity|].
  destruct (playerSection_ends_with_delta (Header.playerCarIndex h) lap
              (publishLeaderboard (Header.playerCarIndex h) st1)) as [s Hs].
  rewrite Hst', Hs. apply updateLiveDelta_spec.
Qed.

(** ** What the other handlers leave alone *)

(** Splits the hypothesis [H] on a handler's run at its reads and guards. *)
Ltac split_run H :=
  repeat match type of H with
    | context [bind ?r _] =>
        let E := fresh "E" in
        destruct r eqn:E; cbn [bind] in H; [|discriminate H]
    | context [if ?c then _ else _] =>
        let E := fresh "E" in destruct c eqn:E
    end.

Ltac enter_run h st H :=
  change (if sessionIsNew h st then resetSessionState (Header.sessionUID h) st else st)
    with (enterSession h st) in H.

Lemma sameViews_refl (a : State) : sameViews a a.
Proof. split; reflexivity. Qed.

Lemma sameViews_trans (a b c : State) : sameViews a b -> sameViews b c -> sameViews a c.
Proof. intros [H1 H2] [H3 H4]. split; congruence. Qed.

Lemma bestsConsistent_same (a b : State) :
  ledgerView a = ledgerView b -> bestsConsistent b -> bestsConsistent a.
Proof. intros H [s Hs]. exists s. rewrite H. exact Hs. Qed.

Lemma bestsConsistent_recompute (s : State) : bestsConsistent (recomputeFromLaps s).
Proof. exists s. reflexivity. Qed.

Lemma sameViews_framed (st0 st' : State) : sameViews st' st0 -> framed st0 st'.
Proof.
  intros [Hc Hl]. split; [exact Hc|]. apply bestsConsistent_same. exact Hl.
Qed.

Lemma slots_sameViews (body : Z -> State -> result State) (slots : list Z)
  (st st' : State) :
  (forall i s s', body i s = Ok s' -> sameViews s' s) ->
  forEachSlot body slots st = Ok st' -> sameViews st' st.
Proof.
  intros Hbody H.
  apply (forEachSlot_preserves (fun s => sameViews s st)) in H; [exact H| |].
  - intros i s s' _ Hb Hs. exact (sameViews_trans (Hbody i s s' Hb) Hs).
  - apply sameViews_refl.
Qed.

Lemma handleSessionPacket_framed (buf : Buffer) (st st' : State) (out : list LapsState.t) :
  handleSessionPacket buf st = Ok (st', out) -> framedRun buf st st'.
Proof.
  unfold handleSessionPacket, framedRun.
  destruct (parseHeader buf) as [[h|]|]; cbn [bind]; [| |discriminate].
  2: { intros [= <- <-]. left. auto. }
  intros H. right. exists h. split; [reflexivity|].
  enter_run h st H. revert H. generalize (enterSession h st). intros st0 H.
  split_run H; injection H as <- <-; apply sameViews_framed; split; reflexivity.
Qed.

Lemma participantsLoopBody_sameViews (buf : Buffer) (base i : Z) (s s' : State) :
  participantsLoopBody buf base i s = Ok s' -> sameViews s' s.
Proof.
  unfold participantsLoopBody. intros H.
  split_run H; injection H as <-; split; reflexivity.
Qed.

Lemma handleParticipantsPacket_framed (buf : Buffer) (st st' : State)
  (out : list LapsState.t) :
  handleParticipantsPacket buf st = Ok (st', out) -> framedRun buf st st'.
Proof.
  unfold handleParticipantsPacket, framedRun.
  destruct (parseHeader buf) as [[h|]|]; cbn [bind]; [| |discriminate].
  2: { intros [= <- <-]. left. auto. }
  intros H. right. exists h. split; [reflexivity|].
  enter_run h st H. revert H. generalize (enterSession h st). intros st0 H.
  destruct (readUInt8 buf HEADER_SIZE) as [n|]; cbn [bind] in H; [|discriminate].
  apply sameViews_framed.
  destruct (buf_length buf <? HEADER_SIZE + 1 + NUM_CARS * PARTICIPANT_DATA_SIZE).
  - injection H as <- <-. split; reflexivity.
  - match type of H with
    | context [forEachSlot ?b ?l ?s] => destruct (forEachSlot b l s) as [s1|] eqn:E
    end; cbn [bind] in H; [|discriminate].
    injection H as <- <-.
    apply slots_sameViews in E.
    + apply (sameViews_trans E). split; reflexivity.
    + intros i s s'. apply participantsLoopBody_sameViews.
Qed.

Lemma handleSessionHistoryPacket_framed (buf : Buffer) (st st' : State)
  (out : list LapsState.t) :
  handleSessionHistoryPacket buf st = Ok (st', out) -> framedRun buf st st'.
Proof.
  unfold handleSessionHistoryPacket, framedRun.
  destruct (parseHeader buf) as [[h|]|]; cbn [bind]; [| |discriminate].
  2: { intros [= <- <-]. left. auto. }
  intros H. right. exists h. split; [reflexivity|].
  enter_run h st H. revert H. generalize (enterSession h st). intros st0 H.
  split_run H; injection H as <- <-;
    first [ apply sameViews_framed; split; reflexivity
          | split; [reflexivity | intros _; apply bestsConsistent_recompute] ].
Qed.

Lemma carTelemetryLoopBody_sameViews (buf : Buffer) (i : Z) (s s' : State) :
  carTelemetryLoopBody buf i s = Ok s' -> sameViews s' s.
Proof.
  unfold carTelemetryLoopBody. intros H.
  destruct (parseCarTelemetryForCar buf _) as [[t|]|]; cbn [bind] in H;
    [| |discriminate]; injection H as <-; split; reflexivity.
Qed.

Lemma handleCarTelemetryPacket_framed (buf : Buffer) (st st' : State)
  (out : list LapsState.t) :
  handleCarTelemetryPacket buf st = Ok (st', out) -> framedRun buf st st'.
Proof.
  unfold handleCarTelemetryPacket, framedRun.
  destruct (parseHeader buf) as [[h|]|]; cbn [bind]; [| |discriminate].
  2: { intros [= <- <-]. left. auto. }
  intros H. right. exists h. split; [reflexivity|].
  enter_run h st H. revert H. generalize (enterSession h st). intros st0 H.
  match type of H with
  | context [forEachSlot ?b ?l ?s] => destruct (forEachSlot b l s) as [s1|] eqn:E
  end; cbn [bind] in H; [|discriminate].
  apply slots_sameViews in E.
  2: { intros i s s'. apply carTelemetryLoopBody_sameViews. }
  apply sameViews_framed. refine (sameViews_trans _ E).
  injection H as <- <-. repeat break_match; split; reflexivity.
Qed.

Lemma carDamageLoopBody_sameViews (buf : Buffer) (i : Z) (s s' : State) :
  carDamageLoopBody buf i s = Ok s' -> sameViews s' s.
Proof.
  unfold carDamageLoopBody. intros H.
  destruct (parseCarDamageForCar buf _) as [[t|]|]; cbn [bind] in H;
    [| |discriminate]; injection H as <-; split; reflexivity.
Qed.

Lemma handleCarDamagePacket_framed (buf : Buffer) (st st' : State)
  (out : list LapsState.t) :
  handleCarDamagePacket buf st = Ok (st', out) -> framedRun buf st st'.
Proof.
  unfold handleCarDamagePacket, framedRun.
  destruct (parseHeader buf) as [[h|]|]; cbn [bind]; [| |discriminate].
  2: { intros [= <- <-]. left. auto. }
  intros H. right. exists h. split; [reflexivity|].
  enter_run h st H. revert H. generalize (enterSession h st). intros st0 H.
  match type of H with
  | context [forEachSlot ?b ?l ?s] => destruct (forEachSlot b l s) as [s1|] eqn:E
  end; cbn [bind] in H; [|discriminate].
  apply slots_sameViews in E.
  2: { intros i s s'. apply carDamageLoopBody_sameViews. }
  apply sameViews_framed. refine (sameViews_trans _ E).
  injection H as <- _. repeat break_match; split; reflexivity.
Qed.

(** ** The car-status and lap-data handlers on the tyre snapshots *)

Lemma carStatusLoopBody_sameViews (buf : Buffer) (i : Z) (s s' : State) :
  carStatusLoopBody buf i s = Ok s' -> sameViews s' s.
Proof.
  unfold carStatusLoopBody. intros H.
  destruct (parseCarStatusForCar buf _) as [[t|]|]; cbn [bind] in H;
    [| |discriminate]; injection H as <-; split; reflexivity.
Qed.

(** The car-status handler: the caches are filled, the player's three tyre
    fields are either left or all set, and the snapshot of the lap under way
    is completed. *)
Lemma handleCarStatusPacket_blocks (buf : Buffer) (st st' : State) (out : list LapsState.t) :
  handleCarStatusPacket buf st = Ok (st', out) ->
  (parseHeader buf = Ok None /\ st' = st)
  \/ exists h st1,
       parseHeader buf = Ok (Some h)
       /\ st' = backfillTyreSnapshot st1
       /\ tyreByLapStart st1 = tyreByLapStart (enterSession h st)
       /\ lapDataByIndex st1 = lapDataByIndex (enterSession h st)
       /\ ledgerView st1 = ledgerView (enterSession h st)
       /\ (playerState st1 = playerState (enterSession h st)
           \/ exists a v g,
                playerState st1
                = PlayerState.set_currentTyresAgeLaps (Some g)
                    (PlayerState.set_currentTyreVisualCompound (Some v)
                       (PlayerState.set_currentTyreActualCompound (Some a)
                          (playerState (enterSession h st))))).
Proof.
  unfold handleCarStatusPacket.
  destruct (parseHeader buf) as [[h|]|]; cbn [bind]; [| |discriminate].
  2: { intros [= <- <-]. left. auto. }
  intros H. right. exists h.
  enter_run h st H. revert H. generalize (enterSession h st). intros st0 H.
  match type of H with
  | context [forEachSlot ?b ?l ?s] => destruct (forEachSlot b l s) as [s1|] eqn:E
  end; cbn [bind] in H; [|discriminate].
  apply slots_sameViews in E.
  2: { intros i s s'. apply carStatusLoopBody_sameViews. }
  injection H as <- <-. eexists. split; [reflexivity|]. split; [reflexivity|].
  destruct E as [E Eledger]. unfold coreView in E. injection E as Et Ep El.
  destruct (Header.playerCarIndex h <? NUM_CARS).
  - destruct (map_get (Header.playerCarIndex h) (carStatusByIndex s1)) as [ps|].
    + cbn. split; [exact Et|]. split; [exact El|]. split; [exact Eledger|]. right.
      exists (CarStatus.actualTyreCompound ps), (CarStatus.visualTyreCompound ps),
        (CarStatus.tyresAgeLaps ps).
      rewrite Ep. reflexivity.
    + split; [exact Et|]. split; [exact El|]. split; [exact Eledger|]. left. exact Ep.
  - split; [exact Et|]. split; [exact El|]. split; [exact Eledger|]. left. exact Ep.
Qed.

Lemma backfillTyreSnapshot_frame (st : State) :
  playerState (backfillTyreSnapshot st) = playerState st
  /\ lapDataByIndex (backfillTyreSnapshot st) = lapDataByIndex st
  /\ ledgerView (backfillTyreSnapshot st) = ledgerView st.
Proof.
  unfold backfillTyreSnapshot. repeat break_match; repeat split.
Qed.

Lemma lapDataLoopBody_frame (buf : Buffer) (i : Z) (s s' : State) :
  lapDataLoopBody buf i s = Ok s' ->
  tyreByLapStart s' = tyreByLapStart s /\ playerState s' = playerState s
  /\ participantsNameByIndex s' = participantsNameByIndex s
  /\ numActiveCars s' = numActiveCars s
  /\ ledgerView s' = ledgerView s
  /\ (NoDup (map_keys (lapDataByIndex s)) -> NoDup (map_keys (lapDataByIndex s'))).
Proof.
  unfold lapDataLoopBody. intros H.
  destruct (parseLapDataForCar buf _) as [[t|]|]; cbn [bind] in H;
    [| |discriminate]; injection H as <-.
  - repeat split. cbn. apply map_set_NoDup.
  - repeat split. auto.
Qed.

Lemma lapDataLoop_frame (buf : Buffer) (slots : list Z) (st st' : State) :
  forEachSlot (lapDataLoopBody buf) slots st = Ok st' ->
  tyreByLapStart st' = tyreByLapStart st /\ playerState st' = playerState st
  /\ participantsNameByIndex st' = participantsNameByIndex st
  /\ numActiveCars st' = numActiveCars st
  /\ ledgerView st' = ledgerView st
  /\ (NoDup (map_keys (lapDataByIndex st)) -> NoDup (map_keys (lapDataByIndex st'))).
Proof.
  intros H.
  apply (forEachSlot_preserves
           (fun s => tyreByLapStart s = tyreByLapStart st
                     /\ playerState s = playerState st
                     /\ participantsNameByIndex s = participantsNameByIndex st
                     /\ numActiveCars s = numActiveCars st
                     /\ ledgerView s = ledgerView st
                     /\ (NoDup (map_keys (lapDataByIndex st)) ->
                         NoDup (map_keys (lapDataByIndex s))))) in H.
  - exact H.
  - intros i s s' _ Hb [H1 [H2 [H3 [H4 [H5 H6]]]]].
    destruct (lapDataLoopBody_frame _ _ _ Hb) as [F1 [F2 [F3 [F4 [F5 F6]]]]].
    rewrite F1, F2, F3, F4, F5. repeat split; auto.
  - repeat split. auto.
Qed.

(** ** Dispatch *)

Lemma onMessage_cases (msg : Buffer) (st st' : State) (out : list LapsState.t) :
  onMessage msg st = Ok (st', out) ->
  (st' = st /\ out = [])
  \/ handleSessionPacket msg st = Ok (st', out)
  \/ handleParticipantsPacket msg st = Ok (st', out)
  \/ handleSessionHistoryPacket msg st = Ok (st', out)
  \/ handleLapDataPacket msg st = Ok (st', out)
  \/ handleCarTelemetryPacket msg st = Ok (st', out)
  \/ handleCarStatusPacket msg st = Ok (st', out)
  \/ handleCarDamagePacket msg st = Ok (st', out).
Proof.
  unfold onMessage.
  destruct (parseHeader msg) as [[h|]|]; cbn [bind]; [| |discriminate].
  2: { intros [= <- <-]. left. auto. }
  intros H.
  repeat match type of H with
    | context [if ?c then _ else _] => destruct c
    end; try (injection H as <- <-); tauto.
Qed.

(** ** Invariants of the reachable states *)

Lemma enterSession_cases (h : Header.t) (st : State) :
  (sessionIsNew h st = false /\ enterSession h st = st)
  \/ (sessionIsNew h st = true
      /\ enterSession h st = resetSessionState (Header.sessionUID h) st).
Proof.
  unfold enterSession. destruct (sessionIsNew h st); [right | left]; auto.
Qed.

Lemma sessionIsNew_uid (h : Header.t) (st : State) :
  sessionIsNew h st = true ->
  PlayerState.sessionUID (playerState st) <> Some (Header.sessionUID h).
Proof.
  unfold sessionIsNew.
  destruct (PlayerState.sessionUID (playerState st)) as [u|]; [|discriminate].
  intros H [= ->]. rewrite Z.eqb_refl in H. discriminate.
Qed.

Lemma allOrNone_None : allOrNone None None None.
Proof. left. auto. Qed.

Lemma allOrNone_Some (a b c : Z) : allOrNone (Some a) (Some b) (Some c).
Proof. right. repeat split; discriminate. Qed.

Lemma enterSession_invariants (h : Header.t) (st : State) :
  stateInvariant st -> stateInvariant (enterSession h st).
Proof.
  intros Hinv. destruct (enterSession_cases h st) as [[_ ->]|[_ ->]]; [exact Hinv|].
  split; [|split].
  - split; [apply allOrNone_None | intros n t []].
  - constructor.
  - exists initialState. reflexivity.
Qed.

Lemma framed_invariants (st0 st' : State) :
  framed st0 st' -> stateInvariant st0 -> stateInvariant st'.
Proof.
  unfold framed, coreView, stateInvariant, tyresCoherent, lapDataKeysUnique.
  intros [[= -> -> ->] Hb] [Ht [Hl Hc]]. auto.
Qed.

Lemma framedRun_invariants (buf : Buffer) (st st' : State) :
  framedRun buf st st' -> stateInvariant st -> stateInvariant st'.
Proof.
  intros [[_ ->]|[h [_ Hf]]] Hinv; [exact Hinv|].
  exact (framed_invariants Hf (enterSession_invariants h Hinv)).
Qed.

Lemma In_map_set (V : Type) (k k0 : Z) (v v0 : V) (m : JSMap V) :
  In (k0, v0) (map_set k v m) -> (k0, v0) = (k, v) \/ In (k0, v0) m.
Proof.
  induction m as [|[k1 v1] m IH]; simpl.
  - intros [H|[]]. left. symmetry. exact H.
  - destruct (k1 =? k) eqn:E; simpl.
    + apply Z.eqb_eq in E. subst k1.
      intros [H|H]; [left; symmetry; exact H | right; right; exact H].
    + intros [H|H]; [right; left; exact H|].
      destruct (IH H) as [H'|H']; [left; exact H' | right; right; exact H'].
Qed.

Lemma backfillTyreSnapshot_coherent (st : State) :
  tyresCoherent st -> tyresCoherent (backfillTyreSnapshot st).
Proof.
  intros [Hp Ht]. split.
  - rewrite (proj1 (backfillTyreSnapshot_frame st)). exact Hp.
  - unfold backfillTyreSnapshot.
    destruct (PlayerState.currentLapNum (playerState st)) as [lapNum|]; [|exact Ht].
    match goal with |- context [if ?c then _ else _] => destruct c end; [|exact Ht].
    cbn. intros n t Hin. apply In_map_set in Hin. destruct Hin as [[= -> ->]|Hin].
    + exact Hp.
    + exact (Ht n t Hin).
Qed.

Lemma playerSection_coherent (p : Z) (lap : LapData.t) (st : State) :
  tyresCoherent st -> tyresCoherent (playerSection p lap st).
Proof.
  intros [Hp Ht].
  pose proof (playerSection_tyreSource p lap st) as Hsrc.
  unfold tyresCoherent. rewrite playerSection_tyreByLapStart.
  revert Hsrc. generalize (playerSection p lap st). intros st' Hsrc.
  unfold tyreSource, currentTyres in Hsrc. injection Hsrc as Ha Hv Hg _.
  split; [rewrite Ha, Hv, Hg; exact Hp|].
  cbv zeta.
  assert (Hm : forall n t,
             In (n, t) (if isFlashback lap st
                        then deleteFrom (LapData.currentLapNum lap) (tyreByLapStart st)
                        else tyreByLapStart st) ->
             In (n, t) (tyreByLapStart st)).
  { intros n t. destruct (isFlashback lap st); [|auto].
    rewrite deleteFrom_filter. intros H. apply filter_In in H. exact (proj1 H). }
  match goal with |- context [if map_has ?k ?m then _ else _] => destruct (map_has k m) end.
  - intros n t Hin. exact (Ht n t (Hm n t Hin)).
  - intros n t Hin. apply In_map_set in Hin. destruct Hin as [[= -> ->]|Hin].
    + exact Hp.
    + exact (Ht n t (Hm n t Hin)).
Qed.

(** Every block of the player writes the lap table through
    [recomputeFromLaps] or not at all. *)
Ltac ledger_step H :=
  repeat break_match;
  first [ exact H
        | apply bestsConsistent_recompute
        | refine (bestsConsistent_same _ H); reflexivity
        | refine (bestsConsistent_same _ (bestsConsistent_recompute _)); reflexivity ].

Lemma truncateOnFlashback_consistent (lap : LapData.t) (st : State) :
  bestsConsistent st -> bestsConsistent (truncateOnFlashback lap st).
Proof. intros H. unfold truncateOnFlashback. ledger_step H. Qed.

Lemma trackPlayerPitLane_consistent (lap : LapData.t) (st : State) :
  bestsConsistent st -> bestsConsistent (trackPlayerPitLane lap st).
Proof. intros H. unfold trackPlayerPitLane. ledger_step H. Qed.

Lemma liveSectorBests_consistent (r : bool) (lap : LapData.t) (st : State) :
  bestsConsistent st -> bestsConsistent (liveSectorBests r lap st).
Proof. intros H. unfold liveSectorBests. ledger_step H. Qed.

Lemma ledgerView_set_playerState (ps : PlayerState.t) (s : State) :
  ledgerView (set_playerState ps s) = ledgerView s.
Proof. reflexivity. Qed.

Lemma finalizeLap_consistent (r : bool) (p : Z) (lap : LapData.t) (st : State) :
  bestsConsistent st -> bestsConsistent (finalizeLap r p lap st).
Proof.
  intros H. unfold finalizeLap.
  destruct (PlayerState.currentLapNum (playerState st)); [|exact H].
  match goal with |- context [if ?c then _ else _] => destruct c end; [|exact H].
  cbv zeta.
  apply (bestsConsistent_same (ledgerView_set_playerState _ _)).
  apply bestsConsistent_recompute.
Qed.

Lemma playerSection_consistent (p : Z) (lap : LapData.t) (st : State) :
  bestsConsistent st -> bestsConsistent (playerSection p lap st).
Proof.
  intros H. unfold playerSection. cbv zeta.
  assert (Hsame : forall a b, ledgerView a = ledgerView b ->
                              bestsConsistent b -> bestsConsistent a)
    by exact bestsConsistent_same.
  match goal with |- bestsConsistent (updateLiveDelta ?s) =>
    apply (Hsame _ s); [reflexivity|] end.
  match goal with |- bestsConsistent (rememberLap lap ?s) =>
    apply (Hsame _ s); [reflexivity|] end.
  apply finalizeLap_consistent.
  match goal with |- bestsConsistent (setCurrentLap ?r ?t lap ?s) =>
    apply (Hsame _ s); [reflexivity|] end.
  apply liveSectorBests_consistent.
  match goal with |- bestsConsistent (setLiveLapTime lap ?s) =>
    apply (Hsame _ s); [reflexivity|] end.
  match goal with |- bestsConsistent (cachePlayerSectors lap ?s) =>
    apply (Hsame _ s); [unfold cachePlayerSectors; repeat break_match; reflexivity|] end.
  apply trackPlayerPitLane_consistent.
  match goal with |- bestsConsistent (snapshotTyresAtLapStart lap ?s) =>
    apply (Hsame _ s); [unfold snapshotTyresAtLapStart; repeat break_match; reflexivity|]
  end.
  apply truncateOnFlashback_consistent.
  refine (Hsame _ st _ H). reflexivity.
Qed.

Lemma handleLapDataPacket_invariants (buf : Buffer) (st st' : State)
  (out : list LapsState.t) :
  handleLapDataPacket buf st = Ok (st', out) ->
  stateInvariant st -> stateInvariant st'.
Proof.
  intros H Hinv.
  apply handleLapDataPacket_blocks in H.
  destruct H as [[_ [-> _]]|[h [st0 [st1 [_ [Hst0 [Hloop H]]]]]]]; [exact Hinv|].
  destruct (enterSession_invariants h Hinv) as [Ht0 [Hl0 Hc0]].
  fold (enterSession h st) in Hst0.
  destruct (lapDataLoop_frame _ _ _ Hloop) as [F1 [F2 [_ [_ [F5 F6]]]]].
  assert (Ht1 : tyresCoherent st1).
  { unfold tyresCoherent. rewrite F1, F2, Hst0. exact Ht0. }
  assert (Hl1 : lapDataKeysUnique st1).
  { apply F6. rewrite Hst0. exact Hl0. }
  assert (Hc1 : bestsConsistent st1).
  { refine (bestsConsistent_same _ Hc0). rewrite F5, Hst0. reflexivity. }
  destruct (publishLeaderboard_frame (Header.playerCarIndex h) st1)
    as [P1 [_ [_ [P4 [P5 P6]]]]].
  assert (Ht2 : tyresCoherent (publishLeaderboard (Header.playerCarIndex h) st1)).
  { unfold tyresCoherent. rewrite P4, P5. exact Ht1. }
  assert (Hl2 : lapDataKeysUnique (publishLeaderboard (Header.playerCarIndex h) st1)).
  { unfold lapDataKeysUnique. rewrite P1. exact Hl1. }
  assert (Hc2 : bestsConsistent (publishLeaderboard (Header.playerCarIndex h) st1))
    by exact (bestsConsistent_same P6 Hc1).
  destruct H as [[-> _]|[lap [_ [_ [-> _]]]]]; [exact (conj Ht2 (conj Hl2 Hc2))|].
  split; [apply playerSection_coherent; exact Ht2|].
  split; [|apply playerSection_consistent; exact Hc2].
  unfold lapDataKeysUnique.
  destruct (boardView_fields
              (playerSection_boardView (Header.playerCarIndex h) lap
                 (publishLeaderboard (Header.playerCarIndex h) st1)))
    as [_ [Hb _]].
  rewrite Hb. exact Hl2.
Qed.

Lemma handleCarStatusPacket_invariants (buf : Buffer) (st st' : State)
  (out : list LapsState.t) :
  handleCarStatusPacket buf st = Ok (st', out) ->
  stateInvariant st -> stateInvariant st'.
Proof.
  intros H Hinv.
  apply handleCarStatusPacket_blocks in H.
  destruct H as [[_ ->]|[h [st1 [_ [-> [Et [El [Eledger Ep]]]]]]]]; [exact Hinv|].
  destruct (enterSession_invariants h Hinv) as [[Hp0 Ht0] [Hl0 Hc0]].
  destruct (backfillTyreSnapshot_frame st1) as [_ [B2 B3]].
  split; [|split].
  - apply backfillTyreSnapshot_coherent. split.
    + destruct Ep as [->|[a [v [g ->]]]]; [exact Hp0 | cbn; apply allOrNone_Some].
    + rewrite Et. exact Ht0.
  - unfold lapDataKeysUnique. rewrite B2, El. exact Hl0.
  - refine (bestsConsistent_same _ Hc0). rewrite B3. exact Eledger.
Qed.

Lemma onMessage_invariants (msg : Buffer) (st st' : State) (out : list LapsState.t) :
  onMessage msg st = Ok (st', out) -> stateInvariant st -> stateInvariant st'.
Proof.
  intros H Hinv.
  apply onMessage_cases in H.
  destruct H as [[-> _]|[H|[H|[H|[H|[H|[H|H]]]]]]]; [exact Hinv| | | | | | |].
  - eapply framedRun_invariants; [eapply handleSessionPacket_framed; exact H | exact Hinv].
  - eapply framedRun_invariants;
      [eapply handleParticipantsPacket_framed; exact H | exact Hinv].
  - eapply framedRun_invariants;
      [eapply handleSessionHistoryPacket_framed; exact H | exact Hinv].
  - eapply handleLapDataPacket_invariants; eassumption.
  - eapply framedRun_invariants;
      [eapply handleCarTelemetryPacket_framed; exact H | exact Hinv].
  - eapply handleCarStatusPacket_invariants; eassumption.
  - eapply framedRun_invariants;
      [eapply handleCarDamagePacket_framed; exact H | exact Hinv].
Qed.

Lemma reachable_invariants (st : State) : reachable st -> stateInvariant st.
Proof.
  induction 1 as [|st st' msg out _ IH Hstep].
  - split; [split; [apply allOrNone_None | intros n t []] |].
    split; [constructor | exists initialState; reflexivity].
  - exact (@onMessage_invariants msg st st' out Hstep IH).
Qed.

(** ** Who is on the leaderboard *)

Lemma toRaceCar_carIndex (st : State) (kv : Z * LapData.t) :
  RaceCar.carIndex (toRaceCar st kv) = fst kv.
Proof. reflexivity. Qed.

Lemma map_of_pairs_fold_get (V : Type) (l : list (Z * V)) (acc : JSMap V) (k : Z) (v : V) :
  map_get k (fold_left (fun m kv => map_set (fst kv) (snd kv) m) l acc) = Some v ->
  In (k, v) l \/ map_get k acc = Some v.
Proof.
  revert acc. induction l as [|[k0 v0] l IH]; intros acc; simpl; [auto|].
  intros H. destruct (IH _ H) as [Hin|Hget]; [left; right; exact Hin|].
  rewrite map_get_set in Hget. destruct (k0 =? k) eqn:E.
  - apply Z.eqb_eq in E. injection Hget as ->. subst. left. left. reflexivity.
  - right. exact Hget.
Qed.

Lemma map_of_pairs_get (V : Type) (l : list (Z * V)) (k : Z) (v : V) :
  map_get k (map_of_pairs l) = Some v -> In (k, v) l.
Proof.
  unfold map_of_pairs. intros H.
  destruct (map_of_pairs_fold_get _ _ _ H) as [Hin|Hget]; [exact Hin | discriminate].
Qed.

Lemma reorderLike_carIndex (raw sorted : list RaceCar.t) :
  map RaceCar.carIndex (reorderLike raw sorted) = map RaceCar.carIndex raw.
Proof.
  unfold reorderLike. rewrite map_map. apply map_ext. intros c.
  match goal with |- context [map_get ?k ?m] => destruct (map_get k m) as [c'|] eqn:E end;
    [|reflexivity].
  apply map_of_pairs_get in E. apply in_map_iff in E.
  destruct E as [c0 [[= Hk ->] _]]. exact Hk.
Qed.

Lemma buildRaceCars_carIndex (st : State) (p : Z) :
  map RaceCar.carIndex (buildRaceCars st p)
  = map fst (filter (onLeaderboard st p) (lapDataByIndex st)).
Proof.
  unfold buildRaceCars.
  assert (H : forall sorted,
             map RaceCar.carIndex
               (reorderLike
                  (map (toRaceCar st) (filter (onLeaderboard st p) (lapDataByIndex st)))
                  sorted)
             = map fst (filter (onLeaderboard st p) (lapDataByIndex st))).
  { intros sorted. rewrite reorderLike_carIndex, map_map. reflexivity. }
  destruct (LapsState.sessionKind (lapsState st)) as [[| |]|]; apply H.
Qed.

(** The filter of the leaderboard as the rule it implements. *)
Lemma onLeaderboard_spec (st : State) (p i : Z) (lap : LapData.t) :
  onLeaderboard st p (i, lap) = true
  <-> exists name,
        map_get i (participantsNameByIndex st) = Some name
        /\ name <> []
        /\ (i = p
            \/ ((forall n, numActiveCars st = Some n -> n > 0 -> i < n)
                /\ LapData.resultStatus lap <> 0)).
Proof.
  unfold onLeaderboard. cbn [fst snd].
  destruct (map_get i (participantsNameByIndex st)) as [name|].
  2: { split; [discriminate | intros [name [H _]]; discriminate]. }
  destruct name as [|b name]; cbn [isEmptyName].
  { split; [discriminate | intros [name [[= <-] [H _]]]; contradiction]. }
  destruct (i =? p) eqn:Ep.
  { apply Z.eqb_eq in Ep. split; [|reflexivity].
    intros _. exists (b :: name). split; [reflexivity|]. split; [discriminate|].
    left. exact Ep. }
  apply Z.eqb_neq in Ep.
  destruct (numActiveCars st) as [n|].
  - destruct ((n >? 0) && (i >=? n)) eqn:En.
    + apply andb_true_iff in En. destruct En as [Hn Hi].
      apply Z.gtb_lt in Hn. apply Z.geb_le in Hi.
      split; [discriminate|].
      intros [nm [_ [_ [Hp|[Hact _]]]]]; [contradiction|].
      specialize (Hact n eq_refl). lia.
    + destruct (LapData.resultStatus lap =? 0) eqn:Er.
      * apply Z.eqb_eq in Er. split; [discriminate|].
        intros [nm [_ [_ [Hp|[_ Hr]]]]]; contradiction.
      * apply Z.eqb_neq in Er. split; [|reflexivity].
        intros _. exists (b :: name). split; [reflexivity|]. split; [discriminate|].
        right. split; [|exact Er].
        intros n0 [= <-] Hpos. apply andb_false_iff in En.
        destruct En as [En|En].
        -- rewrite Z.gtb_ltb in En. apply Z.ltb_ge in En. lia.
        -- rewrite Z.geb_leb in En. apply Z.leb_gt in En. exact En.
  - destruct (LapData.resultStatus lap =? 0) eqn:Er.
    + apply Z.eqb_eq in Er. split; [discriminate|].
      intros [nm [_ [_ [Hp|[_ Hr]]]]]; contradiction.
    + apply Z.eqb_neq in Er. split; [|reflexivity].
      intros _. exists (b :: name). split; [reflexivity|]. split; [discriminate|].
      right. split; [intros n0 H0; discriminate | exact Er].
Qed.

Lemma filter_keys_In (V : Type) (f : Z * V -> bool) (m : JSMap V) (i : Z) :
  NoDup (map_keys m) ->
  (In i (map fst (filter f m))
   <-> exists v, map_get i m = Some v /\ f (i, v) = true).
Proof.
  intros Hnd. split.
  - intros H. apply in_map_iff in H. destruct H as [[k v] [Hk Hin]].
    simpl in Hk. subst k. apply filter_In in Hin. destruct Hin as [Hin Hf].
    exists v. split; [apply In_map_get; assumption | exact Hf].
  - intros [v [Hget Hf]]. apply in_map_iff. exists (i, v). split; [reflexivity|].
    apply filter_In. split; [apply map_get_In; exact Hget | exact Hf].
Qed.

Lemma parseLapDataForCar_some (buf : Buffer) (o : Z) :
  0 <= o -> o + LAP_DATA_SIZE <= buf_length buf ->
  exists lap, parseLapDataForCar buf o = Ok (Some lap).
Proof.
  intros Ho Hlen. unfold parseLapDataForCar. unfold LAP_DATA_SIZE in *.
  replace (buf_length buf <? o + 57) with false by (symmetry; apply Z.ltb_ge; lia).
  cbn zeta. reads_ok. eexists; reflexivity.
Qed.

(** A complete datagram leaves a lap record in the cache for every slot the
    loop went through. *)
Lemma lapDataLoop_present (buf : Buffer) (slots : list Z) (st st' : State) (i : Z) :
  (forall j, In j slots ->
     0 <= j /\ HEADER_SIZE + j * LAP_DATA_SIZE + LAP_DATA_SIZE <= buf_length buf) ->
  forEachSlot (lapDataLoopBody buf) slots st = Ok st' ->
  In i slots \/ map_get i (lapDataByIndex st) <> None ->
  map_get i (lapDataByIndex st') <> None.
Proof.
  revert st. induction slots as [|j slots IH]; intros st Hfit; simpl.
  - intros [= <-] [[]|H]. exact H.
  - unfold lapDataLoopBody at 1.
    destruct (Hfit j (or_introl eq_refl)) as [Hj Hlen].
    destruct (@parseLapDataForCar_some buf (HEADER_SIZE + j * LAP_DATA_SIZE))
      as [lap Hlap]; [unfold HEADER_SIZE, LAP_DATA_SIZE; lia | exact Hlen |].
    rewrite Hlap. cbn [bind]. intros Hrun Hi.
    apply (IH (storeLapData j lap st)); [intros k Hk; apply Hfit; right; exact Hk | exact Hrun |].
    destruct (Z.eq_dec j i) as [->|Hne].
    + right. unfold storeLapData. cbn. rewrite map_get_set_eq. discriminate.
    + destruct Hi as [[Heq|Hin]|Hget]; [contradiction | left; exact Hin |].
      right. unfold storeLapData. cbn. rewrite map_get_set_neq by exact Hne. exact Hget.
Qed.

(** C9.  After a lap-data datagram with a full header, which the handler
    always processes to the end of the leaderboard block, a car slot is on the
    leaderboard exactly when it has a cached lap record, a participant name
    that is not empty, and is the local player or else is below the number of
    active cars (when that number is known and positive) with a result status
    other than 0.  The local player is listed whatever the number of active
    cars and its result status are.  When the datagram is complete, with the
    records of all 22 slots, every slot has a cached lap record, and a slot is
    listed exactly when it has a name and is the local player or passes the
    two tests. *)
Theorem leaderboard_membership (buf : Buffer) (st : State) (h : Header.t) :
  reachable st ->
  parseHeader buf = Ok (Some h) ->
  exists st' out,
    handleLapDataPacket buf st = Ok (st', out)
    /\ (forall i,
          In i (map RaceCar.carIndex (LapsState.raceCars (lapsState st')))
          <-> exists lap name,
                map_get i (lapDataByIndex st') = Some lap
                /\ map_get i (participantsNameByIndex st') = Some name
                /\ name <> []
                /\ (i = Header.playerCarIndex h
                    \/ ((forall n, numActiveCars st' = Some n -> n > 0 -> i < n)
                        /\ LapData.resultStatus lap <> 0)))
    /\ (HEADER_SIZE + NUM_CARS * LAP_DATA_SIZE <= buf_length buf ->
        forall i, 0 <= i < NUM_CARS ->
          (exists lap, map_get i (lapDataByIndex st') = Some lap)
          /\ (In i (map RaceCar.carIndex (LapsState.raceCars (lapsState st')))
              <-> exists name,
                    map_get i (participantsNameByIndex st') = Some name
                    /\ name <> []
                    /\ (i = Header.playerCarIndex h
                        \/ ((forall n, numActiveCars st' = Some n -> n > 0 -> i < n)
                            /\ forall lap, map_get i (lapDataByIndex st') = Some lap ->
                                           LapData.resultStatus lap <> 0)))).
Proof.
  intros Hreach Hh.
  destruct (handleLapDataPacket_total buf st) as [st' [out Hrun]].
  exists st', out. split; [exact Hrun|].
  destruct (@handleLapDataPacket_invariants buf st st' out Hrun
              (reachable_invariants Hreach)) as [_ [Hinv _]].
  apply handleLapDataPacket_blocks in Hrun.
  destruct Hrun as [[Hnone _]|[h' [st0 [st1 [Hh' [_ [Hloop Hrest]]]]]]].
  { rewrite Hh in Hnone. discriminate. }
  rewrite Hh in Hh'. injection Hh' as <-.
  set (p := Header.playerCarIndex h) in *.
  assert (Hboard : boardView st' = boardView (publishLeaderboard p st1)).
  { destruct Hrest as [[-> _]|[lap [_ [_ [-> _]]]]];
      [reflexivity | apply playerSection_boardView]. }
  apply boardView_fields in Hboard. destruct Hboard as [Hcars [Hlap [Hname Hact]]].
  destruct (publishLeaderboard_frame p st1) as [P1 [P2 [P3 _]]].
  rewrite P1 in Hlap. rewrite P2 in Hname. rewrite P3 in Hact.
  rewrite publishLeaderboard_raceCars in Hcars.
  unfold lapDataKeysUnique in Hinv. rewrite Hlap in Hinv.
  assert (Hiff : forall i,
             In i (map RaceCar.carIndex (LapsState.raceCars (lapsState st')))
             <-> exists lap name,
                   map_get i (lapDataByIndex st') = Some lap
                   /\ map_get i (participantsNameByIndex st') = Some name
                   /\ name <> []
                   /\ (i = p
                       \/ ((forall n, numActiveCars st' = Some n -> n > 0 -> i < n)
                           /\ LapData.resultStatus lap <> 0))).
  { intros i. rewrite Hcars, buildRaceCars_carIndex, Hlap, Hname, Hact.
    rewrite (@filter_keys_In _ (onLeaderboard st1 p) _ i Hinv). split.
    - intros [lap [Hget Hf]]. apply onLeaderboard_spec in Hf.
      destruct Hf as [name Hf]. exists lap, name. tauto.
    - intros [lap [name [Hget Hf]]]. exists lap. split; [exact Hget|].
      apply onLeaderboard_spec. exists name. exact Hf. }
  split; [exact Hiff|].
  intros Hfull i Hi.
  assert (Hpresent : exists lap, map_get i (lapDataByIndex st') = Some lap).
  { rewrite Hlap.
    destruct (map_get i (lapDataByIndex st1)) as [lap|] eqn:E; [exists lap; reflexivity|].
    exfalso. revert E.
    apply (@lapDataLoop_present buf carSlots st0 st1 i); [|exact Hloop|].
    - intros j Hj. apply carSlots_range in Hj.
      unfold HEADER_SIZE, NUM_CARS, LAP_DATA_SIZE in *. lia.
    - left. unfold carSlots. apply in_map_iff. exists (Z.to_nat i).
      split; [lia|]. apply in_seq. unfold NUM_CARS in *. lia. }
  split; [exact Hpresent|].
  rewrite Hiff. destruct Hpresent as [lap0 Hlap0]. split.
  - intros [lap [name [Hget [Hn [Hne Hrule]]]]]. exists name.
    split; [exact Hn|]. split; [exact Hne|].
    destruct Hrule as [Hp|[Hc Hr]]; [left; exact Hp|].
    right. split; [exact Hc|]. intros lap1 Hget1. rewrite Hget in Hget1.
    injection Hget1 as <-. exact Hr.
  - intros [name [Hn [Hne Hrule]]]. exists lap0, name.
    split; [exact Hlap0|]. split; [exact Hn|]. split; [exact Hne|].
    destruct Hrule as [Hp|[Hc Hr]]; [left; exact Hp|].
    right. split; [exact Hc | exact (Hr lap0 Hlap0)].
Qed.

Lemma reachable_feed (msgs : list Buffer) (st st' : State) :
  reachable st -> feed msgs st = Ok st' -> reachable st'.
Proof.
  revert st. induction msgs as [|msg msgs IH]; intros st Hr; simpl.
  - intros [= <-]. exact Hr.
  - destruct (onMessage msg st) as [[s1 out]|] eqn:E; cbn [bind]; [|discriminate].
    apply IH. exact (@reachable_message st s1 msg out Hr E).
Qed.

(** The theorem on a complete lap-data datagram, after a participants
    datagram that names slots 0 to 3 and reports three active cars: the player
    in slot 0 and the car in slot 2 are listed; slot 1 has result status 0,
    slot 3 is not below the number of active cars, and the other slots have no
    name. *)
Lemma leaderboard_membership_witness :
  reachable (stateAfter [participantsDatagram])
  /\ parseHeader fullLapDatagram = Ok (Some lapHeader1)
  /\ HEADER_SIZE + NUM_CARS * LAP_DATA_SIZE <= buf_length fullLapDatagram
  /\ exists st' out,
       handleLapDataPacket fullLapDatagram (stateAfter [participantsDatagram])
       = Ok (st', out)
       /\ map RaceCar.carIndex (LapsState.raceCars (lapsState st')) = [0; 2]
       /\ (In 2 (map RaceCar.carIndex (LapsState.raceCars (lapsState st')))
           <-> exists name,
                 map_get 2 (participantsNameByIndex st') = Some name
                 /\ name <> []
                 /\ (2 = Header.playerCarIndex lapHeader1
                     \/ ((forall n, numActiveCars st' = Some n -> n > 0 -> 2 < n)
                         /\ forall lap, map_get 2 (lapDataByIndex st') = Some lap ->
                                        LapData.resultStatus lap <> 0))).
Proof.
  assert (Hreach : reachable (stateAfter [participantsDatagram])).
  { apply (@reachable_feed [participantsDatagram] initialState);
      [apply reachable_initial | vm_compute; reflexivity]. }
  assert (Hh : parseHeader fullLapDatagram = Ok (Some lapHeader1))
    by (vm_compute; reflexivity).
  assert (Hfull : HEADER_SIZE + NUM_CARS * LAP_DATA_SIZE <= buf_length fullLapDatagram)
    by (vm_compute; discriminate).
  split; [exact Hreach|]. split; [exact Hh|]. split; [exact Hfull|].
  destruct (leaderboard_membership fullLapDatagram Hreach Hh)
    as [st' [out [Hrun [_ Hcomplete]]]].
  exists st', out. split; [exact Hrun|]. split.
  - vm_compute in Hrun. injection Hrun as <- _. vm_compute. reflexivity.
  - apply (Hcomplete Hfull 2). unfold NUM_CARS. lia.
Defined.

(** ** Flashback *)


Lemma recordedFields_markEntry (b : option Z) (l : LapEntry.t) :
  recordedFields (markEntry b l) = recordedFields l.
Proof. reflexivity. Qed.

Lemma sameRecorded_refl (a : State) : sameRecorded a a.
Proof. intros n. reflexivity. Qed.

Lemma sameRecorded_trans (a b c : State) :
  sameRecorded a b -> sameRecorded b c -> sameRecorded a c.
Proof. intros H1 H2 n. rewrite H1. apply H2. Qed.

Lemma sameRecorded_eq (a b : State) : lapsByNumber a = lapsByNumber b -> sameRecorded a b.
Proof. intros H n. rewrite H. reflexivity. Qed.

Lemma sameRecorded_recompute (s : State) : sameRecorded (recomputeFromLaps s) s.
Proof.
  intros n. rewrite recomputeFromLaps_lapsByNumber, map_get_markEntries.
  destruct (map_get n (lapsByNumber s)); reflexivity.
Qed.

(** The blocks that follow the flashback block, in a flashback. *)
Lemma trackPlayerPitLane_idle (lap : LapData.t) (s : State) :
  PlayerState.pitLaneActive (playerState s) = false ->
  pitView (trackPlayerPitLane lap s) = pitView s
  /\ lapsByNumber (trackPlayerPitLane lap s) = lapsByNumber s.
Proof.
  intros H. unfold trackPlayerPitLane. rewrite H.
  repeat break_match; split; reflexivity.
Qed.

Lemma liveSectorBests_tables (r : bool) (lap : LapData.t) (s : State) :
  pitView (liveSectorBests r lap s) = pitView s
  /\ sameRecorded (liveSectorBests r lap s) s.
Proof.
  unfold liveSectorBests.
  destruct (lapIsValid r (LapData.currentLapInvalid lap)).
  - split; [repeat break_match; reflexivity|].
    apply sameRecorded_eq. repeat break_match; reflexivity.
  - split; [reflexivity | apply sameRecorded_recompute].
Qed.


Lemma pitView_fields (a b : State) :
  pitView a = pitView b ->
  pitLaneTimeByLap a = pitLaneTimeByLap b
  /\ pitLaneStatusByLap a = pitLaneStatusByLap b
  /\ PlayerState.currentLapNum (playerState a) = PlayerState.currentLapNum (playerState b).
Proof. unfold pitView. intros [= H1 H2 H3]. auto. Qed.





(** The scenario of the specification: after laps 1 to 7 and then lap 3 the
    lap table holds laps 1 and 2, with the times they had. *)
Example flashback_scenario :
  map_keys (lapsByNumber (stateAfter sevenLaps)) = [1; 2; 3; 4; 5; 6]
  /\ map_keys (lapsByNumber (stateAfter (sevenLaps ++ [backToLap3]))) = [1; 2]
  /\ map LapEntry.lapTimeMs (map_values (lapsByNumber (stateAfter (sevenLaps ++ [backToLap3]))))
     = [Some 90000; Some 85000]
  /\ map_keys (tyreByLapStart (stateAfter (sevenLaps ++ [backToLap3]))) = [1; 2; 3].
Proof. vm_compute. repeat split. Qed.

(** ** The pit-lane block of the player *)

(** The pit-lane block of the player, case by case.
    - Flag 1 with no stint open: a stint opens with the current lap number as
      its start lap, and time and status start from this record.
    - Flag 1 with a stint open: the start lap stays; time and status become
      the maximum of what was accumulated and a positive value of the record,
      and do not decrease.
    - In both cases the pit tables and the lap table are not touched.
    - Flag other than 1 with a stint open on start lap [n]: the stint is
      closed and its accumulators reset; when the accumulated time is
      positive, the time and status are stored under [n] and no other lap
      number, and if the lap table has a row for [n] that row gets the two pit
      fields and [recomputeFromLaps] runs; when no time was accumulated the
      tables stay as they were.
    - Flag other than 1 with no stint open: nothing changes. *)
Lemma trackPlayerPitLane_cases (lap : LapData.t) (st : State) :
  let ps := playerState st in
  let st' := trackPlayerPitLane lap st in
  let ps' := playerState st' in
  let t := LapData.pitLaneTimeInLaneInMS lap in
  let s := LapData.pitStatus lap in
  (LapData.pitLaneTimerActive lap = 1 -> PlayerState.pitLaneActive ps = false ->
   PlayerState.pitLaneActive ps' = true
   /\ PlayerState.pitLaneStartLapNum ps' = Some (LapData.currentLapNum lap)
   /\ PlayerState.pitLaneMaxTimeMs ps' = Z.max 0 t
   /\ PlayerState.pitLanePitStatusMax ps' = Z.max 0 s)
  /\ (LapData.pitLaneTimerActive lap = 1 -> PlayerState.pitLaneActive ps = true ->
      PlayerState.pitLaneActive ps' = true
      /\ PlayerState.pitLaneStartLapNum ps' = PlayerState.pitLaneStartLapNum ps
      /\ PlayerState.pitLaneMaxTimeMs ps'
         = (if t >? 0 then Z.max (PlayerState.pitLaneMaxTimeMs ps) t
            else PlayerState.pitLaneMaxTimeMs ps)
      /\ PlayerState.pitLaneMaxTimeMs ps <= PlayerState.pitLaneMaxTimeMs ps'
      /\ PlayerState.pitLanePitStatusMax ps'
         = (if s >? 0 then Z.max (PlayerState.pitLanePitStatusMax ps) s
            else PlayerState.pitLanePitStatusMax ps)
      /\ PlayerState.pitLanePitStatusMax ps <= PlayerState.pitLanePitStatusMax ps')
  /\ (LapData.pitLaneTimerActive lap = 1 ->
      pitLaneTimeByLap st' = pitLaneTimeByLap st
      /\ pitLaneStatusByLap st' = pitLaneStatusByLap st
      /\ lapsByNumber st' = lapsByNumber st
      /\ lapsState st' = lapsState st)
  /\ (LapData.pitLaneTimerActive lap <> 1 -> PlayerState.pitLaneActive ps = true ->
      forall n, PlayerState.pitLaneStartLapNum ps = Some n ->
      let timeMs := PlayerState.pitLaneMaxTimeMs ps in
      let statusMax := PlayerState.pitLanePitStatusMax ps in
      PlayerState.pitLaneActive ps' = false
      /\ PlayerState.pitLaneStartLapNum ps' = None
      /\ PlayerState.pitLaneMaxTimeMs ps' = 0
      /\ PlayerState.pitLanePitStatusMax ps' = 0
      /\ (timeMs > 0 ->
          map_get n (pitLaneTimeByLap st') = Some timeMs
          /\ map_get n (pitLaneStatusByLap st') = Some statusMax
          /\ (forall k, k <> n ->
                map_get k (pitLaneTimeByLap st') = map_get k (pitLaneTimeByLap st)
                /\ map_get k (pitLaneStatusByLap st') = map_get k (pitLaneStatusByLap st))
          /\ (forall e, map_get n (lapsByNumber st) = Some e ->
                exists st0,
                  st' = recomputeFromLaps st0
                  /\ map_get n (lapsByNumber st0)
                     = Some (LapEntry.set_pitStatus statusMax
                               (LapEntry.set_pitLaneTimeMs (Some timeMs) e))
                  /\ (forall k, k <> n ->
                        map_get k (lapsByNumber st0) = map_get k (lapsByNumber st)))
          /\ (map_get n (lapsByNumber st) = None ->
              lapsByNumber st' = lapsByNumber st /\ lapsState st' = lapsState st))
      /\ (timeMs <= 0 ->
          pitLaneTimeByLap st' = pitLaneTimeByLap st
          /\ pitLaneStatusByLap st' = pitLaneStatusByLap st
          /\ lapsByNumber st' = lapsByNumber st
          /\ lapsState st' = lapsState st))
  /\ (LapData.pitLaneTimerActive lap <> 1 -> PlayerState.pitLaneActive ps = false ->
      st' = st).
Proof.
  cbv zeta. unfold trackPlayerPitLane.
  destruct (LapData.pitLaneTimerActive lap =? 1) eqn:Eflag.
  - apply Z.eqb_eq in Eflag.
    split; [|split; [|split; [|split]]]; try (intros Hne; contradiction).
    + intros _ Hact. rewrite Hact. cbn [negb].
      destruct (LapData.pitLaneTimeInLaneInMS lap >? 0) eqn:Et;
        destruct (LapData.pitStatus lap >? 0) eqn:Es; cbn;
        rewrite ?Z.gtb_ltb in *;
        try apply Z.ltb_lt in Et; try apply Z.ltb_ge in Et;
        try apply Z.ltb_lt in Es; try apply Z.ltb_ge in Es;
        repeat split; lia.
    + intros _ Hact. rewrite Hact. cbn [negb].
      destruct (LapData.pitLaneTimeInLaneInMS lap >? 0) eqn:Et;
        destruct (LapData.pitStatus lap >? 0) eqn:Es; cbn;
        repeat split; try exact Hact; lia.
    + intros _. repeat break_match; repeat split.
  - apply Z.eqb_neq in Eflag.
    split; [|split; [|split; [|split]]]; try (intros Heq; contradiction).
    + intros _ Hact n Hstart. rewrite Hact, Hstart.
      destruct (PlayerState.pitLaneMaxTimeMs (playerState st) >? 0) eqn:Et.
      * apply Z.gtb_lt in Et. cbn.
        destruct (map_get n (lapsByNumber st)) as [e|] eqn:Ee; cbn.
        -- repeat split; try lia; try apply map_get_set_eq.
           ++ apply map_get_set_neq. auto.
           ++ apply map_get_set_neq. auto.
           ++ intros e0 [= <-]. eexists. split; [reflexivity|]. cbn. split.
              ** apply map_get_set_eq.
              ** intros k Hk. apply map_get_set_neq. auto.
           ++ discriminate.
           ++ discriminate.
        -- repeat split; try lia; try apply map_get_set_eq.
           ++ apply map_get_set_neq. auto.
           ++ apply map_get_set_neq. auto.
           ++ intros e0 H0. discriminate.
      * rewrite Z.gtb_ltb in Et. apply Z.ltb_ge in Et. cbn.
        repeat split; lia.
    + intros _ Hact. rewrite Hact. reflexivity.
Qed.

(** The scenario of the specification: the stint that opened on lap 10 and
    closed on lap 11 is stored under lap 10 with the largest time and status
    seen, the row of lap 10, finished in between, has the two pit fields, and
    nothing is stored under lap 11. *)
Example pit_visit_scenario :
  pitLaneTimeByLap (stateAfter pitVisit) = [(10, 23000)]
  /\ pitLaneStatusByLap (stateAfter pitVisit) = [(10, 2)]
  /\ option_map LapEntry.pitLaneTimeMs (map_get 10 (lapsByNumber (stateAfter pitVisit)))
     = Some (Some 23000)
  /\ option_map LapEntry.pitStatus (map_get 10 (lapsByNumber (stateAfter pitVisit)))
     = Some 2
  /\ option_map LapEntry.pitLaneTimeMs
       (map_get 10 (lapsByNumber (stateAfter (firstn 5 pitVisit))))
     = Some None
  /\ PlayerState.pitLaneActive (playerState (stateAfter pitVisit)) = false.
Proof. vm_compute. repeat split. Qed.

(** ** Authoritative history *)

Lemma overrideLapFromHistory_get (m : JSMap LapEntry.t) (kv : Z * HistEntry.t) (k : Z) :
  map_get k (overrideLapFromHistory m kv)
  = if fst kv =? k then option_map (overwrittenBy (snd kv)) (map_get k m)
    else map_get k m.
Proof.
  unfold overrideLapFromHistory, overwrittenBy. destruct kv as [k0 e]. cbn [fst snd].
  destruct (k0 =? k) eqn:E.
  - apply Z.eqb_eq in E. subst k0.
    destruct (map_get k m) as [l|] eqn:El; [|rewrite El; reflexivity].
    destruct (HistEntry.lapTimeMs e); [|rewrite El; reflexivity].
    rewrite map_get_set_eq. reflexivity.
  - apply Z.eqb_neq in E.
    destruct (map_get k0 m) as [l|]; [|reflexivity].
    destruct (HistEntry.lapTimeMs e); [|reflexivity].
    apply map_get_set_neq. exact E.
Qed.

Lemma overrideLaps_get_other (byLap : JSMap HistEntry.t) (m : JSMap LapEntry.t) (k : Z) :
  ~ In k (map_keys byLap) ->
  map_get k (fold_left overrideLapFromHistory byLap m) = map_get k m.
Proof.
  revert m. induction byLap as [|[k0 e0] byLap IH]; intros m Hk; simpl; [reflexivity|].
  rewrite IH.
  - rewrite overrideLapFromHistory_get. cbn [fst].
    destruct (k0 =? k) eqn:E; [|reflexivity].
    apply Z.eqb_eq in E. exfalso. apply Hk. left. exact E.
  - intros H. apply Hk. right. exact H.
Qed.

(** With one entry per lap number, the loop rewrites the row of a lap number
    from the entry of that lap number and from nothing else. *)
Lemma overrideLaps_get (byLap : JSMap HistEntry.t) (m : JSMap LapEntry.t)
  (k : Z) (e : HistEntry.t) :
  NoDup (map_keys byLap) ->
  map_get k byLap = Some e ->
  map_get k (fold_left overrideLapFromHistory byLap m)
  = option_map (overwrittenBy e) (map_get k m).
Proof.
  revert m. induction byLap as [|[k0 e0] byLap IH]; intros m Hnd; simpl; [discriminate|].
  inversion Hnd as [|? ? Hnot Hnd']; subst.
  destruct (k0 =? k) eqn:E.
  - apply Z.eqb_eq in E. subst k0. intros [= ->].
    rewrite overrideLaps_get_other by exact Hnot.
    rewrite overrideLapFromHistory_get. cbn [fst snd]. rewrite Z.eqb_refl. reflexivity.
  - intros Hget. rewrite (IH _ Hnd' Hget).
    rewrite overrideLapFromHistory_get. cbn [fst]. rewrite E. reflexivity.
Qed.

Lemma readLapHistory_keys (buf : Buffer) (base : Z) (n : nat) (i : Z)
  (acc byLap : JSMap HistEntry.t) :
  NoDup (map_keys acc) ->
  readLapHistory buf base n i acc = Ok byLap -> NoDup (map_keys byLap).
Proof.
  revert i acc. induction n as [|n IH]; intros i acc Hnd; simpl.
  - intros [= <-]. exact Hnd.
  - destruct (base + i * LAP_HISTORY_DATA_SIZE + LAP_HISTORY_DATA_SIZE >? buf_length buf).
    + intros [= <-]. exact Hnd.
    + destruct (parseLapHistoryEntry buf _) as [e|]; cbn [bind]; [|discriminate].
      apply IH. apply map_set_NoDup. exact Hnd.
Qed.

(** The history handler never throws. *)
Lemma readLapHistory_total (buf : Buffer) (base : Z) (n : nat) (i : Z)
  (acc : JSMap HistEntry.t) :
  0 <= base -> 0 <= i ->
  exists byLap, readLapHistory buf base n i acc = Ok byLap.
Proof.
  intros Hb. revert i acc. induction n as [|n IH]; intros i acc Hi; simpl.
  - eexists; reflexivity.
  - destruct (base + i * LAP_HISTORY_DATA_SIZE + LAP_HISTORY_DATA_SIZE >? buf_length buf)
      eqn:E; [eexists; reflexivity|].
    rewrite Z.gtb_ltb in E. apply Z.ltb_ge in E.
    destruct (@parseLapHistoryEntry_total buf (base + i * LAP_HISTORY_DATA_SIZE))
      as [e He]; [unfold LAP_HISTORY_DATA_SIZE; lia | exact E |].
    rewrite He. cbn [bind]. apply IH. lia.
Qed.

Lemma handleSessionHistoryPacket_total (buf : Buffer) (st : State) :
  exists st' out, handleSessionHistoryPacket buf st = Ok (st', out).
Proof.
  unfold handleSessionHistoryPacket.
  destruct (parseHeader_total buf) as [[h|] Hh]; rewrite Hh; cbn [bind].
  2: { eexists; eexists; reflexivity. }
  destruct (buf_length buf <? HEADER_SIZE + 7) eqn:E7; [eexists; eexists; reflexivity|].
  apply Z.ltb_ge in E7. unfold HEADER_SIZE in *.
  reads_ok.
  destruct (buf_length buf <? 29 + 7 + LAP_HISTORY_DATA_SIZE);
    [eexists; eexists; reflexivity|].
  match goal with
  | |- context [readLapHistory ?b ?base ?n ?i ?acc] =>
      destruct (@readLapHistory_total b base n i acc) as [byLap Hr]; [lia | lia |]
  end.
  rewrite Hr. cbn [bind].
  match goal with |- context [if ?c then _ else _] => destruct c end;
    eexists; eexists; reflexivity.
Qed.

(** C7, as the code has it.  A session-history datagram of the running session
    for the player's own car is always processed; the laps it carries are
    stored as the history of the car; and for every lap number that has both
    an entry in the datagram and a row in the lap table, the row afterwards is
    the old row with lap time and the three sectors taken from the entry when
    the entry has a lap time, and the old row when it has none, in both cases
    with [isBest] and [deltaMs] derived again by the recompute that closes the
    handler. *)
Theorem history_overrides_finished_laps (buf : Buffer) (st : State) (h : Header.t) :
  parseHeader buf = Ok (Some h) ->
  sessionIsNew h st = false ->
  HEADER_SIZE + 7 + LAP_HISTORY_DATA_SIZE <= buf_length buf ->
  byteAt buf HEADER_SIZE = Header.playerCarIndex h ->
  exists st' byLap,
    handleSessionHistoryPacket buf st = Ok (st', [])
    /\ map_get (Header.playerCarIndex h) (sessionHistoryByCarIndex st') = Some byLap
    /\ (exists st0, st' = recomputeFromLaps st0)
    /\ forall lapNum entry l,
         map_get lapNum byLap = Some entry ->
         map_get lapNum (lapsByNumber st) = Some l ->
         map_get lapNum (lapsByNumber st')
         = Some (markEntry (LapsState.bestLapTimeMs (lapsState st'))
                   (overwrittenBy entry l))
         /\ (HistEntry.lapTimeMs entry = None ->
             recordedFields (overwrittenBy entry l) = recordedFields l)
         /\ (forall t, HistEntry.lapTimeMs entry = Some t ->
             LapEntry.lapTimeMs (overwrittenBy entry l) = Some t
             /\ LapEntry.sector1TimeMs (overwrittenBy entry l) = HistEntry.sector1TimeMs entry
             /\ LapEntry.sector2TimeMs (overwrittenBy entry l) = HistEntry.sector2TimeMs entry
             /\ LapEntry.sector3TimeMs (overwrittenBy entry l) = HistEntry.sector3TimeMs entry).
Proof.
  intros Hh Hold Hlen Hcar.
  unfold handleSessionHistoryPacket. rewrite Hh. cbn [bind]. rewrite Hold.
  unfold HEADER_SIZE, LAP_HISTORY_DATA_SIZE in *.
  replace (buf_length buf <? 29 + 7) with false by (symmetry; apply Z.ltb_ge; lia).
  reads_ok.
  replace (buf_length buf <? 29 + 7 + 14) with false by (symmetry; apply Z.ltb_ge; lia).
  match goal with
  | |- context [readLapHistory ?b ?base ?n ?i ?acc] =>
      destruct (@readLapHistory_total b base n i acc) as [byLap Hr]; [lia | lia |]
  end.
  rewrite Hr. cbn [bind].
  replace (29 + 0) with 29 by lia. rewrite Hcar, Z.eqb_refl.
  eexists. exists byLap. split; [reflexivity|].
  split; [cbn; apply map_get_set_eq|].
  split; [eexists; reflexivity|].
  intros lapNum entry l Hentry Hrow.
  assert (Hnd : NoDup (map_keys byLap)).
  { eapply readLapHistory_keys; [|exact Hr]. constructor. }
  split.
  - rewrite recomputeFromLaps_lapsByNumber, recomputeFromLaps_bestLapTimeMs.
    rewrite map_get_markEntries. cbn [lapsByNumber set_lapsByNumber].
    rewrite (@overrideLaps_get byLap _ lapNum entry Hnd Hentry).
    cbn [lapsByNumber set_sessionHistoryByCarIndex]. rewrite Hrow. reflexivity.
  - unfold overwrittenBy. split.
    + intros ->. reflexivity.
    + intros t ->. repeat split.
Qed.

(** The theorem on the history datagram with laps 1 and 2, after the player
    has finished laps 1 and 2 in 90000 and 85000 ms. *)
Lemma history_overrides_finished_laps_witness :
  parseHeader historyTwoLaps = Ok (Some historyHeader1)
  /\ sessionIsNew historyHeader1 (stateAfter twoLaps) = false
  /\ exists st' byLap,
       handleSessionHistoryPacket historyTwoLaps (stateAfter twoLaps) = Ok (st', [])
       /\ map_get 0 (sessionHistoryByCarIndex st') = Some byLap
       /\ (forall entry l,
             map_get 1 byLap = Some entry ->
             map_get 1 (lapsByNumber (stateAfter twoLaps)) = Some l ->
             map_get 1 (lapsByNumber st')
             = Some (markEntry (LapsState.bestLapTimeMs (lapsState st'))
                       (overwrittenBy entry l))).
Proof.
  assert (Hh : parseHeader historyTwoLaps = Ok (Some historyHeader1))
    by (vm_compute; reflexivity).
  assert (Hold : sessionIsNew historyHeader1 (stateAfter twoLaps) = false)
    by (vm_compute; reflexivity).
  assert (Hlen : HEADER_SIZE + 7 + LAP_HISTORY_DATA_SIZE <= buf_length historyTwoLaps)
    by (vm_compute; discriminate).
  assert (Hcar : byteAt historyTwoLaps HEADER_SIZE = Header.playerCarIndex historyHeader1)
    by (vm_compute; reflexivity).
  split; [exact Hh|]. split; [exact Hold|].
  destruct (@history_overrides_finished_laps historyTwoLaps (stateAfter twoLaps)
              historyHeader1 Hh Hold Hlen Hcar)
    as [st' [byLap [Hrun [Hstored [_ Hrows]]]]].
  exists st', byLap. split; [exact Hrun|]. split; [exact Hstored|].
  intros entry l He Hl. exact (proj1 (Hrows 1 entry l He Hl)).
Defined.

(** A history entry with lap time 0 does not leave its row as it was.  The
    datagram gives lap 1 a time of 80000 ms and lap 2 a time of 0; lap 2, with
    85000 ms, was the best lap and is not any more, so its row goes from best
    with delta 0 to a delta of 5000 ms. *)
Lemma history_zero_time_changes_row :
  option_map (map_get 2)
    (map_get 0 (sessionHistoryByCarIndex (stateAfter (twoLaps ++ [historyTwoLaps]))))
  = Some (Some (HistEntry.mk None (Some 26000) None None 0))
  /\ map_get 2 (lapsByNumber (stateAfter twoLaps))
     = Some (LapEntry.mk 2 (Some 85000) (Some 0) true true None None None
               None None None 0 None 0)
  /\ map_get 2 (lapsByNumber (stateAfter (twoLaps ++ [historyTwoLaps])))
     = Some (LapEntry.mk 2 (Some 85000) (Some 5000) true false None None None
               None None None 0 None 0)
  /\ map_get 2 (lapsByNumber (stateAfter (twoLaps ++ [historyTwoLaps])))
     <> map_get 2 (lapsByNumber (stateAfter twoLaps)).
Proof.
  assert (H1 : map_get 2 (lapsByNumber (stateAfter twoLaps))
               = Some (LapEntry.mk 2 (Some 85000) (Some 0) true true None None None
                         None None None 0 None 0)) by (vm_compute; reflexivity).
  assert (H2 : map_get 2 (lapsByNumber (stateAfter (twoLaps ++ [historyTwoLaps])))
               = Some (LapEntry.mk 2 (Some 85000) (Some 5000) true false None None None
                         None None None 0 None 0)) by (vm_compute; reflexivity).
  split; [vm_compute; reflexivity|]. split; [exact H1|]. split; [exact H2|].
  rewrite H1, H2. discriminate.
Qed.

(** The scenario of the specification: the entry of lap 1, with a lap time,
    replaces time and sectors of the row of lap 1; the entry of lap 2, without
    one, leaves time and sectors of the row of lap 2, first sector included. *)
Example history_override_scenario :
  option_map recordedFields
    (map_get 1 (lapsByNumber (stateAfter (twoLaps ++ [historyTwoLaps]))))
  = Some (LapEntry.mk 1 (Some 80000) None true false (Some 25000) (Some 30000)
            (Some 25000) None None None 0 None 0)
  /\ option_map recordedFields
       (map_get 2 (lapsByNumber (stateAfter (twoLaps ++ [historyTwoLaps]))))
     = option_map recordedFields (map_get 2 (lapsByNumber (stateAfter twoLaps))).
Proof. vm_compute. split; reflexivity. Qed.

(** ** Tyre snapshots *)

Lemma fillsOnly_refl (a : TyreSnap.t) : fillsOnly a a.
Proof. repeat split; auto. Qed.

Lemma fillsOnly_from_empty (a b : TyreSnap.t) :
  TyreSnap.tyreActualCompound a = None ->
  TyreSnap.tyreVisualCompound a = None ->
  TyreSnap.tyresAgeLaps a = None ->
  fillsOnly a b.
Proof.
  intros Ha Hv Hg. unfold fillsOnly. rewrite Ha, Hv, Hg.
  repeat split; intros v H; discriminate.
Qed.

Lemma backfillTyreSnapshot_fills (st : State) (n : Z) (snap : TyreSnap.t) :
  (forall k t, In (k, t) (tyreByLapStart st) ->
     allOrNone (TyreSnap.tyreActualCompound t) (TyreSnap.tyreVisualCompound t)
       (TyreSnap.tyresAgeLaps t)) ->
  map_get n (tyreByLapStart st) = Some snap ->
  exists snap',
    map_get n (tyreByLapStart (backfillTyreSnapshot st)) = Some snap'
    /\ fillsOnly snap snap'.
Proof.
  intros Hco Hget. unfold backfillTyreSnapshot.
  destruct (PlayerState.currentLapNum (playerState st)) as [lapNum|].
  2: { exists snap. split; [exact Hget | apply fillsOnly_refl]. }
  destruct (lapNum =? n) eqn:E.
  - apply Z.eqb_eq in E. subst lapNum. rewrite Hget.
    pose proof (Hco n snap (map_get_In _ _ Hget)) as Hsnap.
    match goal with |- context [if ?c then _ else _] => destruct c eqn:Ew end.
    + eexists. split; [cbn; apply map_get_set_eq|].
      destruct Hsnap as [[Ha [Hv Hg]]|[Ha [Hv Hg]]].
      * apply fillsOnly_from_empty; assumption.
      * exfalso.
        destruct (TyreSnap.tyreVisualCompound snap); [|contradiction].
        destruct (TyreSnap.tyreActualCompound snap); [|contradiction].
        cbn in Ew. discriminate.
    + exists snap. split; [exact Hget | apply fillsOnly_refl].
  - apply Z.eqb_neq in E.
    match goal with |- context [if ?c then _ else _] => destruct c end.
    + exists snap. split; [cbn; rewrite map_get_set_neq by exact E; exact Hget|].
      apply fillsOnly_refl.
    + exists snap. split; [exact Hget | apply fillsOnly_refl].
Qed.

Lemma tyreSource_fields (a b : State) :
  tyreSource a = tyreSource b ->
  PlayerState.sessionUID (playerState a) = PlayerState.sessionUID (playerState b).
Proof. unfold tyreSource. intros [= _ _ _ H]. exact H. Qed.

Lemma snapshotKept_same (st st' : State) (n : Z) (snap : TyreSnap.t) :
  tyreByLapStart st' = tyreByLapStart st ->
  map_get n (tyreByLapStart st) = Some snap -> snapshotKept st st' n snap.
Proof.
  intros Ht Hget. left. exists snap. rewrite Ht. split; [exact Hget | apply fillsOnly_refl].
Qed.

Lemma snapshotKept_new_session (st st' : State) (h : Header.t) (n : Z) (snap : TyreSnap.t) :
  sessionIsNew h st = true ->
  PlayerState.sessionUID (playerState st') = Some (Header.sessionUID h) ->
  snapshotKept st st' n snap.
Proof.
  intros Hnew Huid. right. left. rewrite Huid. intros H.
  apply (sessionIsNew_uid h st Hnew). symmetry. exact H.
Qed.

Lemma coreView_fields (a b : State) :
  coreView a = coreView b ->
  tyreByLapStart a = tyreByLapStart b /\ playerState a = playerState b.
Proof. unfold coreView. intros [= H1 H2 _]. auto. Qed.

Lemma snapshotKept_simple (msg : Buffer) (st st' : State) (n : Z) (snap : TyreSnap.t) :
  framedRun msg st st' ->
  map_get n (tyreByLapStart st) = Some snap -> snapshotKept st st' n snap.
Proof.
  intros [[_ ->]|[h [_ [Hv _]]]] Hget; [apply snapshotKept_same; auto|].
  apply coreView_fields in Hv. destruct Hv as [Ht Hp].
  destruct (enterSession_cases h st) as [[_ E]|[Hnew E]]; rewrite E in Ht, Hp.
  - apply snapshotKept_same; assumption.
  - apply (snapshotKept_new_session st st' h n snap Hnew). rewrite Hp. reflexivity.
Qed.

Lemma snapshotKept_carStatus (buf : Buffer) (st st' : State) (out : list LapsState.t)
  (n : Z) (snap : TyreSnap.t) :
  tyresCoherent st ->
  handleCarStatusPacket buf st = Ok (st', out) ->
  map_get n (tyreByLapStart st) = Some snap -> snapshotKept st st' n snap.
Proof.
  intros [_ Hco] H Hget.
  apply handleCarStatusPacket_blocks in H.
  destruct H as [[_ ->]|[h [st1 [_ [-> [Et [_ [_ Ep]]]]]]]]; [apply snapshotKept_same; auto|].
  destruct (enterSession_cases h st) as [[_ E]|[Hnew E]]; rewrite E in Et, Ep.
  - left. apply backfillTyreSnapshot_fills.
    + rewrite Et. exact Hco.
    + rewrite Et. exact Hget.
  - apply (snapshotKept_new_session st _ h n snap Hnew).
    rewrite (proj1 (backfillTyreSnapshot_frame st1)).
    destruct Ep as [->|[a [v [g ->]]]]; reflexivity.
Qed.

Lemma snapshotKept_lapData (buf : Buffer) (st st' : State) (out : list LapsState.t)
  (n : Z) (snap : TyreSnap.t) :
  handleLapDataPacket buf st = Ok (st', out) ->
  map_get n (tyreByLapStart st) = Some snap -> snapshotKept st st' n snap.
Proof.
  intros H Hget.
  apply handleLapDataPacket_blocks in H.
  destruct H as [[_ [-> _]]|[h [st0 [st1 [_ [Hst0 [Hloop H]]]]]]];
    [apply snapshotKept_same; auto|].
  fold (enterSession h st) in Hst0.
  destruct (lapDataLoop_frame _ _ _ Hloop) as [F1 [F2 _]].
  assert (G1 : tyreByLapStart st1 = tyreByLapStart (enterSession h st))
    by (rewrite F1, Hst0; reflexivity).
  assert (G2 : playerState st1 = playerState (enterSession h st))
    by (rewrite F2, Hst0; reflexivity).
  set (p := Header.playerCarIndex h) in *.
  destruct (publishLeaderboard_frame p st1) as [_ [_ [_ [P4 [P5 _]]]]].
  rewrite <- P4 in G1. rewrite <- P5 in G2.
  revert G1 G2 H. generalize (publishLeaderboard p st1). intros st2 G1 G2 H.
  destruct (enterSession_cases h st) as [[_ E]|[Hnew E]]; rewrite E in G1, G2.
  - destruct H as [[-> _]|[lap [_ [_ [-> _]]]]]; [apply snapshotKept_same; auto|].
    unfold snapshotKept.
    rewrite playerSection_tyreByLapStart, playerSection_currentLapNum. cbv zeta.
    rewrite G1. unfold isFlashback. rewrite G2.
    set (c := LapData.currentLapNum lap).
    destruct (PlayerState.currentLapNum (playerState st)) as [prev|] eqn:Eprev.
    + destruct (c <? prev) eqn:Efb.
      * apply Z.ltb_lt in Efb. destruct (Z_lt_le_dec n c) as [Hlt|Hge].
        -- left. exists snap. split; [|apply fillsOnly_refl].
           assert (Hn : map_get n (deleteFrom c (tyreByLapStart st)) = Some snap).
           { rewrite map_get_deleteFrom.
             replace (n <? c) with true by (symmetry; apply Z.ltb_lt; lia). exact Hget. }
           destruct (map_has c (deleteFrom c (tyreByLapStart st))); [exact Hn|].
           rewrite map_get_set_neq by lia. exact Hn.
        -- right. right. exists prev, c. repeat split; lia.
      * left. exists snap. split; [|apply fillsOnly_refl].
        unfold map_has. destruct (map_get c (tyreByLapStart st)) eqn:Ec; [exact Hget|].
        rewrite map_get_set_neq; [exact Hget|]. intros ->. rewrite Hget in Ec. discriminate.
    + left. exists snap. split; [|apply fillsOnly_refl].
      unfold map_has. destruct (map_get c (tyreByLapStart st)) eqn:Ec; [exact Hget|].
      rewrite map_get_set_neq; [exact Hget|]. intros ->. rewrite Hget in Ec. discriminate.
  - apply (snapshotKept_new_session st st' h n snap Hnew).
    destruct H as [[-> _]|[lap [_ [_ [-> _]]]]].
    + rewrite G2. reflexivity.
    + rewrite (tyreSource_fields (playerSection_tyreSource p lap st2)), G2. reflexivity.
Qed.

(** C8, as the code has it.  The lap-data handler records the snapshot of a
    lap number that has none from the player's current tyres and leaves one
    that exists.  And for any datagram handled in a reachable state and any
    snapshot that existed before it: afterwards the snapshot of that lap
    number has every field that was present, unchanged, so that only absent
    fields were filled; or the datagram began a new session; or it was a
    flashback to a lap number at or below that of the snapshot, which is
    deleted and, for the lap under way, recorded afresh. *)
Theorem tyre_snapshot_only_filled :
  (forall (lap : LapData.t) (st : State),
      (map_get (LapData.currentLapNum lap) (tyreByLapStart st) = None ->
       map_get (LapData.currentLapNum lap)
         (tyreByLapStart (snapshotTyresAtLapStart lap st))
       = Some (currentTyres st))
      /\ (map_get (LapData.currentLapNum lap) (tyreByLapStart st) <> None ->
          snapshotTyresAtLapStart lap st = st))
  /\ (forall (st st' : State) (msg : Buffer) (out : list LapsState.t)
             (n : Z) (snap : TyreSnap.t),
        reachable st ->
        onMessage msg st = Ok (st', out) ->
        map_get n (tyreByLapStart st) = Some snap ->
        (exists snap',
            map_get n (tyreByLapStart st') = Some snap' /\ fillsOnly snap snap')
        \/ PlayerState.sessionUID (playerState st')
           <> PlayerState.sessionUID (playerState st)
        \/ (exists prev cur,
               PlayerState.currentLapNum (playerState st) = Some prev
               /\ PlayerState.currentLapNum (playerState st') = Some cur
               /\ cur < prev /\ cur <= n)).
Proof.
  split.
  - intros lap st. unfold snapshotTyresAtLapStart, map_has. split.
    + intros ->. cbn. apply map_get_set_eq.
    + intros H. destruct (map_get _ _); [reflexivity | contradiction].
  - intros st st' msg out n snap Hreach Hstep Hget.
    change (snapshotKept st st' n snap).
    destruct (reachable_invariants Hreach) as [Hco _].
    apply onMessage_cases in Hstep.
    destruct Hstep as [[-> _]|[H|[H|[H|[H|[H|[H|H]]]]]]].
    + apply snapshotKept_same; auto.
    + eapply snapshotKept_simple; [eapply handleSessionPacket_framed; exact H | exact Hget].
    + eapply snapshotKept_simple;
        [eapply handleParticipantsPacket_framed; exact H | exact Hget].
    + eapply snapshotKept_simple;
        [eapply handleSessionHistoryPacket_framed; exact H | exact Hget].
    + eapply snapshotKept_lapData; eassumption.
    + eapply snapshotKept_simple;
        [eapply handleCarTelemetryPacket_framed; exact H | exact Hget].
    + eapply snapshotKept_carStatus; eassumption.
    + eapply snapshotKept_simple;
        [eapply handleCarDamagePacket_framed; exact H | exact Hget].
Qed.

(** The second part of the theorem on the flashback from lap 4 to lap 3, for
    the snapshot of lap 3. *)
Lemma tyre_snapshot_only_filled_witness :
  reachable (stateAfter tyresThenLap4)
  /\ map_get 3 (tyreByLapStart (stateAfter tyresThenLap4))
     = Some (TyreSnap.mk (Some 16) (Some 16) (Some 0))
  /\ exists st' out,
       onMessage lap4BackTo3 (stateAfter tyresThenLap4) = Ok (st', out)
       /\ ((exists snap',
               map_get 3 (tyreByLapStart st') = Some snap'
               /\ fillsOnly (TyreSnap.mk (Some 16) (Some 16) (Some 0)) snap')
           \/ PlayerState.sessionUID (playerState st')
              <> PlayerState.sessionUID (playerState (stateAfter tyresThenLap4))
           \/ (exists prev cur,
                  PlayerState.currentLapNum (playerState (stateAfter tyresThenLap4))
                  = Some prev
                  /\ PlayerState.currentLapNum (playerState st') = Some cur
                  /\ cur < prev /\ cur <= 3)).
Proof.
  assert (Hreach : reachable (stateAfter tyresThenLap4)).
  { apply (@reachable_feed tyresThenLap4 initialState);
      [apply reachable_initial | vm_compute; reflexivity]. }
  assert (Hget : map_get 3 (tyreByLapStart (stateAfter tyresThenLap4))
                 = Some (TyreSnap.mk (Some 16) (Some 16) (Some 0)))
    by (vm_compute; reflexivity).
  split; [exact Hreach|]. split; [exact Hget|].
  destruct (onMessage lap4BackTo3 (stateAfter tyresThenLap4)) as [[st' out]|] eqn:E;
    [|vm_compute in E; discriminate].
  exists st', out. split; [reflexivity|].
  exact (proj2 tyre_snapshot_only_filled _ _ _ _ 3 _ Hreach E Hget).
Defined.

(** A snapshot does change after it was recorded.  Lap 3 is first seen with
    tyres of age 0; the tyres are of age 5 when the player, on lap 4, goes
    back to lap 3; the snapshot of lap 3 then has age 5. *)
Lemma flashback_rewrites_tyre_snapshot :
  map_get 3 (tyreByLapStart (stateAfter tyresThenLap4))
  = Some (TyreSnap.mk (Some 16) (Some 16) (Some 0))
  /\ map_get 3 (tyreByLapStart (stateAfter (tyresThenLap4 ++ [lap4BackTo3])))
     = Some (TyreSnap.mk (Some 16) (Some 16) (Some 5))
  /\ ~ fillsOnly (TyreSnap.mk (Some 16) (Some 16) (Some 0))
        (TyreSnap.mk (Some 16) (Some 16) (Some 5)).
Proof.
  split; [vm_compute; reflexivity|]. split; [vm_compute; reflexivity|].
  intros [_ [_ H]]. specialize (H 0 eq_refl). discriminate.
Qed.

(** ** Personal bests after every update *)

Lemma ledgerView_fields (a b : State) :
  ledgerView a = ledgerView b ->
  lapsByNumber a = lapsByNumber b
  /\ LapsState.bestLapTimeMs (lapsState a) = LapsState.bestLapTimeMs (lapsState b)
  /\ LapsState.laps (lapsState a) = LapsState.laps (lapsState b).
Proof. unfold ledgerView. intros [= H1 H2 H3]. auto. Qed.

(** C1.  [recomputeFromLaps] leaves every valid row with a positive lap time
    marked against the least lap time of such rows ([isBest] exactly when the
    row has that time, [deltaMs] the row's time minus it, not negative; rows
    that are invalid or without a positive time take no part in the minimum),
    and so is the lap table of every reachable state, that is after every
    datagram; the table sent to the viewers has the same rows. *)
Theorem personal_best_marks :
  (forall s, rowsMarkedAgainstBest (recomputeFromLaps s))
  /\ (forall st,
        reachable st ->
        rowsMarkedAgainstBest st
        /\ forall l,
             In l (LapsState.laps (lapsState st))
             <-> In l (map_values (lapsByNumber st))).
Proof.
  split; [exact recompute_marks_rows|].
  intros st Hreach.
  destruct (reachable_invariants Hreach) as [_ [_ [s Hs]]].
  apply ledgerView_fields in Hs. destruct Hs as [H1 [H2 H3]].
  split.
  - unfold rowsMarkedAgainstBest. rewrite H1, H2. apply recompute_marks_rows.
  - intros l. rewrite H1, H3. apply recomputeFromLaps_laps.
Qed.

(** The theorem on the state after laps 1 to 6, at the row of lap 2. *)
Lemma personal_best_marks_witness :
  reachable (stateAfter sevenLaps)
  /\ In rowOfLap2 (map_values (lapsByNumber (stateAfter sevenLaps)))
  /\ exists m,
       LapsState.bestLapTimeMs (lapsState (stateAfter sevenLaps)) = Some m
       /\ (LapEntry.isBest rowOfLap2 = true <-> 85000 = m)
       /\ LapEntry.deltaMs rowOfLap2 = Some (85000 - m).
Proof.
  assert (Hreach : reachable (stateAfter sevenLaps)).
  { apply (@reachable_feed sevenLaps initialState);
      [apply reachable_initial | vm_compute; reflexivity]. }
  assert (Hin : In rowOfLap2 (map_values (lapsByNumber (stateAfter sevenLaps))))
    by (vm_compute; right; left; reflexivity).
  split; [exact Hreach|]. split; [exact Hin|].
  destruct (proj1 (proj2 personal_best_marks (stateAfter sevenLaps) Hreach)
              rowOfLap2 85000 Hin eq_refl eq_refl)
    as [m [Hm [_ [_ [Hbest [Hdelta _]]]]]]; [lia|].
  exists m. split; [exact Hm|]. split; [exact Hbest | exact Hdelta].
Defined.

(** * Further properties of the decoder *)

(** ** Values read from a buffer *)

Lemma byteAt_range (buf : Buffer) (o : Z) : 0 <= byteAt buf o < 256.
Proof.
  unfold byteAt. pose proof (Byte.to_N_bounded (nth (Z.to_nat o) buf x00)). lia.
Qed.

Lemma u16At_range (buf : Buffer) (o : Z) : 0 <= u16At buf o < 65536.
Proof.
  unfold u16At. pose proof (byteAt_range buf o). pose proof (byteAt_range buf (o + 1)). lia.
Qed.

Lemma u32At_range (buf : Buffer) (o : Z) : 0 <= u32At buf o < 4294967296.
Proof.
  unfold u32At.
  pose proof (byteAt_range buf o). pose proof (byteAt_range buf (o + 1)).
  pose proof (byteAt_range buf (o + 2)). pose proof (byteAt_range buf (o + 3)). lia.
Qed.

Lemma u64At_range (buf : Buffer) (o : Z) : 0 <= u64At buf o < 18446744073709551616.
Proof.
  unfold u64At. pose proof (u32At_range buf o). pose proof (u32At_range buf (o + 4)). lia.
Qed.

Lemma inBounds_negative (buf : Buffer) (o n : Z) : o < 0 -> inBounds buf o n = false.
Proof.
  intros H. unfold inBounds.
  replace (0 <=? o) with false by (symmetry; apply Z.leb_gt; exact H). reflexivity.
Qed.

Lemma inBounds_elim (buf : Buffer) (o n : Z) :
  inBounds buf o n = true -> 0 <= o /\ o + n <= buf_length buf.
Proof.
  unfold inBounds. intros H. apply andb_prop in H. destruct H as [H1 H2].
  apply Z.leb_le in H1. apply Z.leb_le in H2. auto.
Qed.

Lemma readUInt8_inv (buf : Buffer) (o v : Z) :
  readUInt8 buf o = Ok v -> 0 <= o /\ o + 1 <= buf_length buf.
Proof.
  unfold readUInt8. destruct (inBounds buf o 1) eqn:E; [|discriminate].
  intros _. apply inBounds_elim. exact E.
Qed.

Lemma readUInt32LE_inv (buf : Buffer) (o v : Z) :
  readUInt32LE buf o = Ok v -> 0 <= o /\ o + 4 <= buf_length buf.
Proof.
  unfold readUInt32LE. destruct (inBounds buf o 4) eqn:E; [|discriminate].
  intros _. apply inBounds_elim. exact E.
Qed.

(** ** The header *)

(** X1.  [parseHeader] never throws.  It returns [null] exactly for a datagram
    of fewer than 29 bytes; otherwise the packet id is byte 6, the session
    identifier the little-endian value of bytes 7 to 14 and the player's slot
    byte 27, each within the range of its unsigned type. *)
Theorem parseHeader_guard (buf : Buffer) :
  (buf_length buf < HEADER_SIZE <-> parseHeader buf = Ok None)
  /\ (HEADER_SIZE <= buf_length buf <->
      exists h, parseHeader buf = Ok (Some h)
                /\ Header.packetId h = byteAt buf 6
                /\ Header.sessionUID h = u64At buf 7
                /\ Header.playerCarIndex h = byteAt buf 27
                /\ 0 <= Header.packetId h < 256
                /\ 0 <= Header.sessionUID h < 2 ^ 64
                /\ 0 <= Header.playerCarIndex h < 256).
Proof.
  assert (Hlong : HEADER_SIZE <= buf_length buf ->
            exists h, parseHeader buf = Ok (Some h)
                /\ Header.packetId h = byteAt buf 6
                /\ Header.sessionUID h = u64At buf 7
                /\ Header.playerCarIndex h = byteAt buf 27
                /\ 0 <= Header.packetId h < 256
                /\ 0 <= Header.sessionUID h < 2 ^ 64
                /\ 0 <= Header.playerCarIndex h < 256).
  { intros H. unfold parseHeader, HEADER_SIZE in *.
    replace (buf_length buf <? 29) with false by (symmetry; apply Z.ltb_ge; exact H).
    cbn zeta. reads_ok. eexists. split; [reflexivity|]. cbn.
    split; [reflexivity|]. split; [reflexivity|]. split; [reflexivity|].
    split; [apply byteAt_range|]. split; [apply u64At_range | apply byteAt_range]. }
  split; split.
  - apply parseHeader_short.
  - intros H. destruct (Z.lt_ge_cases (buf_length buf) HEADER_SIZE) as [Hlt|Hge];
      [exact Hlt|]. destruct (Hlong Hge) as [h [Hh _]]. congruence.
  - exact Hlong.
  - intros [h [Hh _]]. apply (parseHeader_some_length _ Hh).
Qed.

(** ** Two-part times *)

Lemma decodeMinutesMs_range (msPart minutesPart t : Z) :
  0 <= msPart < 65536 -> 0 <= minutesPart < 256 ->
  decodeMinutesMs msPart minutesPart = Some t ->
  0 < t <= 15305534 /\ t = minutesPart * 60000 + msPart.
Proof.
  intros Hms Hmin. unfold decodeMinutesMs.
  destruct (msPart =? 65535) eqn:E1; [discriminate|].
  destruct (minutesPart =? 255) eqn:E2; [discriminate|].
  apply Z.eqb_neq in E1. apply Z.eqb_neq in E2. cbn [orb].
  destruct (msPart =? 0) eqn:E3; destruct (minutesPart =? 0) eqn:E4; cbn [andb];
    try discriminate; intros [= <-];
    try apply Z.eqb_neq in E3; try apply Z.eqb_neq in E4; lia.
Qed.

(** X2.  A time below 255 minutes, split into whole minutes and the
    milliseconds within the minute, decodes to itself. *)
Theorem decodeMinutesMs_round_trip (t : Z) :
  0 < t < 255 * 60000 ->
  decodeMinutesMs (t mod 60000) (t / 60000) = Some t.
Proof.
  intros Ht. unfold decodeMinutesMs.
  assert (Hm : 0 <= t mod 60000 < 60000) by (apply Z.mod_pos_bound; lia).
  assert (Hq : 0 <= t / 60000 < 255).
  { split; [apply Z.div_pos; lia | apply Z.div_lt_upper_bound; lia]. }
  pose proof (Z.div_mod t 60000 ltac:(lia)) as Hdm.
  replace (t mod 60000 =? 65535) with false by (symmetry; apply Z.eqb_neq; lia).
  replace (t / 60000 =? 255) with false by (symmetry; apply Z.eqb_neq; lia).
  cbn [orb].
  destruct (t mod 60000 =? 0) eqn:E1; destruct (t / 60000 =? 0) eqn:E2; cbn [andb].
  - apply Z.eqb_eq in E1. apply Z.eqb_eq in E2. lia.
  - f_equal. lia.
  - f_equal. lia.
  - f_equal. lia.
Qed.

Lemma decodeMinutesMs_round_trip_witness :
  decodeMinutesMs (90500 mod 60000) (90500 / 60000) = Some 90500.
Proof. apply (@decodeMinutesMs_round_trip 90500). lia. Defined.

(** ** The lap record *)

Lemma parseLapDataForCar_negative (buf : Buffer) (o : Z) :
  o < 0 -> parseLapDataForCar buf o = Ok None \/ parseLapDataForCar buf o = RangeError.
Proof.
  intros Ho. unfold parseLapDataForCar.
  destruct (buf_length buf <? o + LAP_DATA_SIZE); [left; reflexivity|].
  right. unfold readUInt32LE at 1. rewrite inBounds_negative by lia. reflexivity.
Qed.

Lemma parseLapDataForCar_decoded (buf : Buffer) (o : Z) (lap : LapData.t) :
  parseLapDataForCar buf o = Ok (Some lap) ->
  (forall t,
      LapData.sector1TimeMs lap = Some t \/ LapData.sector2TimeMs lap = Some t
      \/ LapData.deltaToRaceLeaderMs lap = Some t
      \/ LapData.deltaToCarInFrontMs lap = Some t ->
      0 < t <= 15305534)
  /\ (forall s3,
        LapData.sector3TimeMs lap = Some s3 ->
        0 <= s3 /\ 0 < LapData.lastLapTimeInMS lap
        /\ exists s1 s2,
             LapData.sector1TimeMs lap = Some s1
             /\ LapData.sector2TimeMs lap = Some s2
             /\ s1 + s2 + s3 = LapData.lastLapTimeInMS lap).
Proof.
  intros H.
  destruct (Z.lt_ge_cases o 0) as [Hneg|Ho].
  { destruct (parseLapDataForCar_negative buf Hneg) as [E|E]; rewrite E in H; discriminate. }
  unfold parseLapDataForCar, LAP_DATA_SIZE in H.
  destruct (buf_length buf <? o + 57) eqn:E; [discriminate|].
  apply Z.ltb_ge in E. cbn zeta in H. revert H. reads_ok. intros [= <-]. cbn.
  split.
  - intros t Ht.
    destruct Ht as [Ht|[Ht|[Ht|Ht]]];
      (eapply decodeMinutesMs_range in Ht; [lia | apply u16At_range | apply byteAt_range]).
  - intros s3.
    destruct (decodeMinutesMs (u16At buf (o + 8)) (byteAt buf (o + 10))) as [s1|];
      [|discriminate].
    destruct (decodeMinutesMs (u16At buf (o + 11)) (byteAt buf (o + 13))) as [s2|];
      [|discriminate].
    destruct (u32At buf (o + 0) >? 0) eqn:E1; [|discriminate].
    destruct (u32At buf (o + 0) - s1 - s2 >=? 0) eqn:E2; [|discriminate].
    intros [= <-]. apply Z.gtb_lt in E1. apply Z.geb_le in E2.
    split; [lia|]. split; [lia|]. exists s1, s2. split; [reflexivity|].
    split; [reflexivity|]. lia.
Qed.

(** X3.  In a lap record that [parseLapDataForCar] returns, a sector or gap
    time that is present is positive and at most 254 min 65.534 s; the third
    sector is only present with the other two and a positive last lap time, is
    not negative, and the three sectors add up to the last lap time. *)
Theorem parseLapDataForCar_times (buf : Buffer) (o : Z) (lap : LapData.t) :
  parseLapDataForCar buf o = Ok (Some lap) ->
  (forall t,
      LapData.sector1TimeMs lap = Some t \/ LapData.sector2TimeMs lap = Some t
      \/ LapData.deltaToRaceLeaderMs lap = Some t
      \/ LapData.deltaToCarInFrontMs lap = Some t ->
      0 < t <= 15305534)
  /\ (forall s3,
        LapData.sector3TimeMs lap = Some s3 ->
        0 <= s3 /\ 0 < LapData.lastLapTimeInMS lap
        /\ exists s1 s2,
             LapData.sector1TimeMs lap = Some s1
             /\ LapData.sector2TimeMs lap = Some s2
             /\ s1 + s2 + s3 = LapData.lastLapTimeInMS lap).
Proof. apply parseLapDataForCar_decoded. Qed.

Lemma parseLapDataForCar_times_witness :
  exists lap,
    parseLapDataForCar sectorLapDatagram HEADER_SIZE = Ok (Some lap)
    /\ LapData.sector3TimeMs lap = Some 30000
    /\ (forall s3,
          LapData.sector3TimeMs lap = Some s3 ->
          0 <= s3 /\ 0 < LapData.lastLapTimeInMS lap
          /\ exists s1 s2,
               LapData.sector1TimeMs lap = Some s1
               /\ LapData.sector2TimeMs lap = Some s2
               /\ s1 + s2 + s3 = LapData.lastLapTimeInMS lap).
Proof.
  eexists. split; [vm_compute; reflexivity|]. split; [reflexivity|].
  apply (@parseLapDataForCar_times sectorLapDatagram HEADER_SIZE). vm_compute. reflexivity.
Defined.

(** X4.  The parsers of the lap, car-status and car-telemetry records check
    the length first: for an offset that is not negative they return [null]
    when the record does not fit in the buffer and the record when it does,
    and never throw. *)
Theorem record_parsers_length_guard (buf : Buffer) (o : Z) :
  0 <= o ->
  ((buf_length buf < o + LAP_DATA_SIZE -> parseLapDataForCar buf o = Ok None)
   /\ (o + LAP_DATA_SIZE <= buf_length buf ->
       exists lap, parseLapDataForCar buf o = Ok (Some lap)))
  /\ ((buf_length buf < o + CAR_STATUS_DATA_SIZE -> parseCarStatusForCar buf o = Ok None)
      /\ (o + CAR_STATUS_DATA_SIZE <= buf_length buf ->
          exists status, parseCarStatusForCar buf o = Ok (Some status)))
  /\ ((buf_length buf < o + CAR_TELEMETRY_DATA_SIZE ->
       parseCarTelemetryForCar buf o = Ok None)
      /\ (o + CAR_TELEMETRY_DATA_SIZE <= buf_length buf ->
          exists tel, parseCarTelemetryForCar buf o = Ok (Some tel))).
Proof.
  intros Ho. split; [|split].
  - unfold parseLapDataForCar, LAP_DATA_SIZE.
    destruct (buf_length buf <? o + 57) eqn:E;
      [apply Z.ltb_lt in E | apply Z.ltb_ge in E]; (split; intros H; [|]); try lia;
      try reflexivity.
    cbn zeta. reads_ok. eexists; reflexivity.
  - unfold parseCarStatusForCar, CAR_STATUS_DATA_SIZE.
    destruct (buf_length buf <? o + 55) eqn:E;
      [apply Z.ltb_lt in E | apply Z.ltb_ge in E]; (split; intros H; [|]); try lia;
      try reflexivity.
    cbn zeta. reads_ok. eexists; reflexivity.
  - unfold parseCarTelemetryForCar, CAR_TELEMETRY_DATA_SIZE, read4.
    destruct (buf_length buf <? o + 60) eqn:E;
      [apply Z.ltb_lt in E | apply Z.ltb_ge in E]; (split; intros H; [|]); try lia;
      try reflexivity.
    cbn zeta. reads_ok. eexists; reflexivity.
Qed.

Lemma record_parsers_length_guard_witness :
  (exists lap, parseLapDataForCar sectorLapDatagram 29 = Ok (Some lap))
  /\ parseCarStatusForCar sectorLapDatagram 32 = Ok None
  /\ parseCarTelemetryForCar sectorLapDatagram 29 = Ok None.
Proof.
  pose proof (@record_parsers_length_guard sectorLapDatagram 29 ltac:(lia))
    as [[_ H1] [_ [H3 _]]].
  pose proof (@record_parsers_length_guard sectorLapDatagram 32 ltac:(lia))
    as [_ [[H2 _] _]].
  split; [apply H1; vm_compute; discriminate|].
  split; [apply H2; vm_compute; reflexivity | apply H3; vm_compute; reflexivity].
Defined.

(** * Which datagrams make a handler throw *)

Lemma forEachSlot_throws (body : Z -> State -> result State) (E : Z -> Prop)
  (slots : list Z) (st : State) :
  (forall i s, In i slots -> (body i s = RangeError <-> E i)) ->
  (forEachSlot body slots st = RangeError <-> exists i, In i slots /\ E i).
Proof.
  revert st. induction slots as [|j slots IH]; intros st Hbody; simpl.
  - split; [discriminate | intros [i [[] _]]].
  - destruct (body j st) as [s1|] eqn:Ej; cbn [bind].
    + rewrite IH by (intros i s Hi; apply Hbody; right; exact Hi).
      split.
      * intros [i [Hi He]]. exists i. split; [right; exact Hi | exact He].
      * intros [i [[<-|Hi] He]].
        -- apply (Hbody j st (or_introl eq_refl)) in He. congruence.
        -- exists i. split; assumption.
    + split; [|reflexivity]. intros _. exists j. split; [left; reflexivity|].
      apply (Hbody j st (or_introl eq_refl)). exact Ej.
Qed.

(** ** Car damage *)

(** The three outcomes of [parseCarDamageForCar]: the test is on [needed]
    bytes, the reads are of 46. *)
Lemma parseCarDamageForCar_cases (buf : Buffer) (o : Z) :
  0 <= o ->
  (Z.min CAR_DAMAGE_DATA_SIZE ((buf_length buf - HEADER_SIZE) / NUM_CARS) <= 0
   \/ buf_length buf
      < o + Z.min CAR_DAMAGE_DATA_SIZE ((buf_length buf - HEADER_SIZE) / NUM_CARS) ->
   parseCarDamageForCar buf o = Ok None)
  /\ (0 < Z.min CAR_DAMAGE_DATA_SIZE ((buf_length buf - HEADER_SIZE) / NUM_CARS) ->
      o + Z.min CAR_DAMAGE_DATA_SIZE ((buf_length buf - HEADER_SIZE) / NUM_CARS)
      <= buf_length buf ->
      (buf_length buf < o + CAR_DAMAGE_DATA_SIZE ->
       parseCarDamageForCar buf o = RangeError)
      /\ (o + CAR_DAMAGE_DATA_SIZE <= buf_length buf ->
          exists d, parseCarDamageForCar buf o = Ok (Some d))).
Proof.
  intros Ho. unfold parseCarDamageForCar.
  set (needed := Z.min CAR_DAMAGE_DATA_SIZE ((buf_length buf - HEADER_SIZE) / NUM_CARS)).
  cbn zeta. split.
  - intros [H|H].
    + replace (needed <=? 0) with true by (symmetry; apply Z.leb_le; exact H). reflexivity.
    + destruct (needed <=? 0); [reflexivity|].
      replace (buf_length buf <? o + needed) with true
        by (symmetry; apply Z.ltb_lt; exact H).
      reflexivity.
  - intros Hpos Hfit.
    replace (needed <=? 0) with false by (symmetry; apply Z.leb_gt; exact Hpos).
    replace (buf_length buf <? o + needed) with false
      by (symmetry; apply Z.ltb_ge; exact Hfit).
    unfold CAR_DAMAGE_DATA_SIZE, read4. split.
    + intros Hshort.
      repeat match goal with
        | |- bind ?r _ = RangeError =>
            let E := fresh "E" in destruct r eqn:E; cbn [bind]; [|reflexivity]
        end.
      match goal with
      | E : readUInt8 buf ?x = Ok _ |- Ok _ = RangeError =>
          apply readUInt8_inv in E; lia
      end.
    + intros Hlong. reads_ok. eexists; reflexivity.
Qed.

Lemma carDamage_slot_arith (len : Z) :
  (exists i, In i carSlots
             /\ 0 < Z.min CAR_DAMAGE_DATA_SIZE ((len - HEADER_SIZE) / NUM_CARS)
             /\ HEADER_SIZE + i * CAR_DAMAGE_DATA_SIZE
                + Z.min CAR_DAMAGE_DATA_SIZE ((len - HEADER_SIZE) / NUM_CARS) <= len
             /\ len < HEADER_SIZE + i * CAR_DAMAGE_DATA_SIZE + CAR_DAMAGE_DATA_SIZE)
  <-> NUM_CARS <= len - HEADER_SIZE < NUM_CARS * CAR_DAMAGE_DATA_SIZE
      /\ (len - HEADER_SIZE) / NUM_CARS <= (len - HEADER_SIZE) mod CAR_DAMAGE_DATA_SIZE.
Proof.
  unfold CAR_DAMAGE_DATA_SIZE, HEADER_SIZE, NUM_CARS. split.
  - intros [i [Hi [Hpos [Hfit Hshort]]]]. apply carSlots_range in Hi.
    unfold NUM_CARS in Hi. Z.div_mod_to_equations. lia.
  - intros [Hrange Hmod]. exists ((len - 29) / 46). split.
    + unfold carSlots. apply in_map_iff.
      exists (Z.to_nat ((len - 29) / 46)). split.
      * apply Z2Nat.id. Z.div_mod_to_equations. lia.
      * apply in_seq. unfold NUM_CARS. simpl.
        assert (0 <= (len - 29) / 46 < 22) by (Z.div_mod_to_equations; lia). lia.
    + Z.div_mod_to_equations. lia.
Qed.

Lemma parseHeader_none_length (buf : Buffer) :
  parseHeader buf = Ok None -> buf_length buf < HEADER_SIZE.
Proof.
  intros H. destruct (Z.lt_ge_cases (buf_length buf) HEADER_SIZE) as [Hlt|Hge];
    [exact Hlt|].
  unfold parseHeader, HEADER_SIZE in *.
  replace (buf_length buf <? 29) with false in H by (symmetry; apply Z.ltb_ge; exact Hge).
  cbn zeta in H. revert H. reads_ok. discriminate.
Qed.

Lemma carDamageLoopBody_throws (buf : Buffer) (i : Z) (s : State) :
  In i carSlots ->
  carDamageLoopBody buf i s = RangeError
  <-> 0 < Z.min CAR_DAMAGE_DATA_SIZE ((buf_length buf - HEADER_SIZE) / NUM_CARS)
      /\ HEADER_SIZE + i * CAR_DAMAGE_DATA_SIZE
         + Z.min CAR_DAMAGE_DATA_SIZE ((buf_length buf - HEADER_SIZE) / NUM_CARS)
         <= buf_length buf
      /\ buf_length buf < HEADER_SIZE + i * CAR_DAMAGE_DATA_SIZE + CAR_DAMAGE_DATA_SIZE.
Proof.
  intros Hi. apply carSlots_range in Hi. unfold carDamageLoopBody.
  destruct (@parseCarDamageForCar_cases buf (HEADER_SIZE + i * CAR_DAMAGE_DATA_SIZE))
    as [Hnone Hrest].
  { unfold HEADER_SIZE, CAR_DAMAGE_DATA_SIZE, NUM_CARS in *. lia. }
  split.
  - intros Hthrow.
    destruct (Z_le_gt_dec
                (Z.min CAR_DAMAGE_DATA_SIZE ((buf_length buf - HEADER_SIZE) / NUM_CARS)) 0)
      as [Hle|Hgt].
    { rewrite Hnone in Hthrow by (left; exact Hle). discriminate. }
    destruct (Z_lt_ge_dec (buf_length buf)
                (HEADER_SIZE + i * CAR_DAMAGE_DATA_SIZE
                 + Z.min CAR_DAMAGE_DATA_SIZE
                     ((buf_length buf - HEADER_SIZE) / NUM_CARS))) as [Hlt|Hge].
    { rewrite Hnone in Hthrow by (right; exact Hlt). discriminate. }
    destruct (Hrest ltac:(lia) ltac:(lia)) as [_ Hsome].
    destruct (Z_lt_ge_dec (buf_length buf)
                (HEADER_SIZE + i * CAR_DAMAGE_DATA_SIZE + CAR_DAMAGE_DATA_SIZE))
      as [Hlt2|Hge2].
    { split; [lia|]. split; [lia | exact Hlt2]. }
    destruct (Hsome ltac:(lia)) as [d Hd]. rewrite Hd in Hthrow. discriminate.
  - intros [Hpos [Hfit Hshort]].
    destruct (Hrest Hpos Hfit) as [Hthrow _]. rewrite (Hthrow Hshort). reflexivity.
Qed.

Lemma handleCarDamagePacket_throws_iff (buf : Buffer) (st : State) :
  handleCarDamagePacket buf st = RangeError
  <-> NUM_CARS <= buf_length buf - HEADER_SIZE < NUM_CARS * CAR_DAMAGE_DATA_SIZE
      /\ (buf_length buf - HEADER_SIZE) / NUM_CARS
         <= (buf_length buf - HEADER_SIZE) mod CAR_DAMAGE_DATA_SIZE.
Proof.
  rewrite <- carDamage_slot_arith. unfold handleCarDamagePacket.
  destruct (parseHeader buf) as [[h|]|] eqn:Hh; cbn [bind].
  - match goal with
    | |- context [forEachSlot ?b ?l ?s] =>
        pose proof (@forEachSlot_throws b
          (fun i =>
             0 < Z.min CAR_DAMAGE_DATA_SIZE ((buf_length buf - HEADER_SIZE) / NUM_CARS)
             /\ HEADER_SIZE + i * CAR_DAMAGE_DATA_SIZE
                + Z.min CAR_DAMAGE_DATA_SIZE ((buf_length buf - HEADER_SIZE) / NUM_CARS)
                <= buf_length buf
             /\ buf_length buf
                < HEADER_SIZE + i * CAR_DAMAGE_DATA_SIZE + CAR_DAMAGE_DATA_SIZE)
          l s (fun j s0 Hj => @carDamageLoopBody_throws buf j s0 Hj)) as Hloop;
        destruct (forEachSlot b l s) as [s1|] eqn:Es
    end; cbn [bind].
    + split; [discriminate|]. intros Hex. apply Hloop in Hex. discriminate.
    + split; [|reflexivity]. intros _. apply Hloop. reflexivity.
  - split; [discriminate|]. intros [i [Hi [Hpos _]]].
    apply parseHeader_none_length in Hh.
    unfold CAR_DAMAGE_DATA_SIZE, HEADER_SIZE, NUM_CARS in *.
    Z.div_mod_to_equations. lia.
  - destruct (parseHeader_total buf) as [r Hr]. congruence.
Qed.

(** X5.  The car-damage handler throws exactly on the datagrams whose payload
    of [p] bytes after the header has at least 22 bytes, fewer than the 1012 of
    22 records, and leaves [p mod 46 >= floor(p / 22)] bytes in the record it
    cuts: the length test of [parseCarDamageForCar] is on [floor(p / 22)]
    bytes, and the parser then reads 46. *)
Theorem handleCarDamagePacket_throws (buf : Buffer) (st : State) :
  handleCarDamagePacket buf st = RangeError
  <-> NUM_CARS <= buf_length buf - HEADER_SIZE < NUM_CARS * CAR_DAMAGE_DATA_SIZE
      /\ (buf_length buf - HEADER_SIZE) / NUM_CARS
         <= (buf_length buf - HEADER_SIZE) mod CAR_DAMAGE_DATA_SIZE.
Proof. apply handleCarDamagePacket_throws_iff. Qed.

(** ** Participants *)

Lemma participantsLoopBody_total (buf : Buffer) (i : Z) (s : State) :
  HEADER_SIZE + 1 + NUM_CARS * PARTICIPANT_DATA_SIZE <= buf_length buf ->
  In i carSlots ->
  exists s', participantsLoopBody buf (HEADER_SIZE + 1) i s = Ok s'.
Proof.
  intros Hlen Hi. apply carSlots_range in Hi.
  unfold participantsLoopBody, parseParticipantMeta.
  unfold HEADER_SIZE, NUM_CARS, PARTICIPANT_DATA_SIZE in *.
  destruct (isEmptyName _); [eexists; reflexivity|].
  reads_ok. eexists; reflexivity.
Qed.

Lemma handleParticipantsPacket_throws_iff (buf : Buffer) (st : State) :
  handleParticipantsPacket buf st = RangeError <-> buf_length buf = HEADER_SIZE.
Proof.
  unfold handleParticipantsPacket.
  destruct (parseHeader buf) as [[h|]|] eqn:Hh; cbn [bind].
  - apply parseHeader_some_length in Hh.
    destruct (Z.eq_dec (buf_length buf) HEADER_SIZE) as [Heq|Hne].
    + rewrite readUInt8_out by lia. cbn [bind]. tauto.
    + rewrite readUInt8_ok by (unfold HEADER_SIZE in *; lia). cbn [bind].
      destruct (buf_length buf <? HEADER_SIZE + 1 + NUM_CARS * PARTICIPANT_DATA_SIZE) eqn:E.
      * split; [discriminate | contradiction].
      * apply Z.ltb_ge in E.
        match goal with
        | |- context [forEachSlot ?b ?l ?s] =>
            destruct (@forEachSlot_total b l s) as [s1 Hs1]
        end.
        { intros i s Hi. apply participantsLoopBody_total; assumption. }
        rewrite Hs1. cbn [bind]. split; [discriminate | contradiction].
  - apply parseHeader_none_length in Hh. split; [discriminate | lia].
  - destruct (parseHeader_total buf) as [r Hr]. congruence.
Qed.

(** X6.  The participants handler throws exactly on the datagrams of 29
    bytes: it reads the count byte at offset 29 before it looks at the
    length. *)
Theorem handleParticipantsPacket_throws (buf : Buffer) (st : State) :
  handleParticipantsPacket buf st = RangeError <-> buf_length buf = HEADER_SIZE.
Proof. apply handleParticipantsPacket_throws_iff. Qed.

(** ** The handlers that never throw *)

Lemma handleSessionPacket_total (buf : Buffer) (st : State) :
  exists st' out, handleSessionPacket buf st = Ok (st', out).
Proof.
  unfold handleSessionPacket.
  destruct (parseHeader_total buf) as [[h|] Hh]; rewrite Hh; cbn [bind].
  2: { eexists; eexists; reflexivity. }
  unfold HEADER_SIZE.
  destruct (buf_length buf <? 29 + 14) eqn:E; [eexists; eexists; reflexivity|].
  apply Z.ltb_ge in E. reads_ok. eexists; eexists; reflexivity.
Qed.

Lemma handleCarTelemetryPacket_total (buf : Buffer) (st : State) :
  exists st' out, handleCarTelemetryPacket buf st = Ok (st', out).
Proof.
  unfold handleCarTelemetryPacket.
  destruct (parseHeader_total buf) as [[h|] Hh]; rewrite Hh; cbn [bind].
  2: { eexists; eexists; reflexivity. }
  match goal with
  | |- context [forEachSlot ?b ?l ?s] =>
      destruct (@forEachSlot_total b l s) as [s1 Hs1]
  end.
  { intros i s Hi. apply carSlots_range in Hi. unfold carTelemetryLoopBody.
    destruct (@parseCarTelemetryForCar_total buf (HEADER_SIZE + i * CAR_TELEMETRY_DATA_SIZE))
      as [r Hr].
    - unfold HEADER_SIZE, CAR_TELEMETRY_DATA_SIZE, NUM_CARS in *. lia.
    - rewrite Hr. cbn [bind]. destruct r; eexists; reflexivity. }
  rewrite Hs1. cbn [bind]. eexists; eexists; reflexivity.
Qed.

Lemma handleCarStatusPacket_total (buf : Buffer) (st : State) :
  exists st' out, handleCarStatusPacket buf st = Ok (st', out).
Proof.
  unfold handleCarStatusPacket.
  destruct (parseHeader_total buf) as [[h|] Hh]; rewrite Hh; cbn [bind].
  2: { eexists; eexists; reflexivity. }
  match goal with
  | |- context [forEachSlot ?b ?l ?s] =>
      destruct (@forEachSlot_total b l s) as [s1 Hs1]
  end.
  { intros i s Hi. apply carSlots_range in Hi. unfold carStatusLoopBody.
    destruct (@parseCarStatusForCar_total buf (HEADER_SIZE + i * CAR_STATUS_DATA_SIZE))
      as [r Hr].
    - unfold HEADER_SIZE, CAR_STATUS_DATA_SIZE, NUM_CARS in *. lia.
    - rewrite Hr. cbn [bind]. destruct r; eexists; reflexivity. }
  rewrite Hs1. cbn [bind]. eexists; eexists; reflexivity.
Qed.

(** X7.  The UDP callback throws on two kinds of datagram and on no other: a
    participants datagram of 29 bytes, and a car-damage datagram whose payload
    of [p] bytes has at least 22 and fewer than 1012 bytes and leaves
    [p mod 46 >= floor(p / 22)] bytes in the record it cuts.  The session, session-history, lap-data, car-telemetry
    and car-status handlers return on every datagram. *)
Theorem onMessage_throws (msg : Buffer) (st : State) :
  onMessage msg st = RangeError
  <-> exists h,
        parseHeader msg = Ok (Some h)
        /\ ((Header.packetId h = PACKET_ID_PARTICIPANTS /\ buf_length msg = HEADER_SIZE)
            \/ (Header.packetId h = PACKET_ID_CAR_DAMAGE
                /\ NUM_CARS <= buf_length msg - HEADER_SIZE
                               < NUM_CARS * CAR_DAMAGE_DATA_SIZE
                /\ (buf_length msg - HEADER_SIZE) / NUM_CARS
                   <= (buf_length msg - HEADER_SIZE) mod CAR_DAMAGE_DATA_SIZE)).
Proof.
  unfold onMessage.
  destruct (parseHeader msg) as [[h|]|] eqn:Hh; cbn [bind].
  - destruct (Header.packetId h =? PACKET_ID_SESSION) eqn:E1.
    { apply Z.eqb_eq in E1. destruct (handleSessionPacket_total msg st) as [s [o Hs]].
      rewrite Hs. split; [discriminate|].
      intros [h' [[= <-] [[Hid _]|[Hid _]]]]; rewrite E1 in Hid; discriminate. }
    destruct (Header.packetId h =? PACKET_ID_PARTICIPANTS) eqn:E2.
    { apply Z.eqb_eq in E2. rewrite handleParticipantsPacket_throws_iff. split.
      - intros Hlen. exists h. split; [reflexivity|]. left. split; assumption.
      - intros [h' [[= <-] [[_ Hlen]|[Hid _]]]]; [exact Hlen|].
        rewrite E2 in Hid. discriminate. }
    destruct (Header.packetId h =? PACKET_ID_SESSION_HISTORY) eqn:E3.
    { apply Z.eqb_eq in E3.
      destruct (handleSessionHistoryPacket_total msg st) as [s [o Hs]].
      rewrite Hs. split; [discriminate|].
      intros [h' [[= <-] [[Hid _]|[Hid _]]]]; rewrite E3 in Hid; discriminate. }
    destruct (Header.packetId h =? PACKET_ID_LAP_DATA) eqn:E4.
    { apply Z.eqb_eq in E4. destruct (handleLapDataPacket_total msg st) as [s [o Hs]].
      rewrite Hs. split; [discriminate|].
      intros [h' [[= <-] [[Hid _]|[Hid _]]]]; rewrite E4 in Hid; discriminate. }
    destruct (Header.packetId h =? PACKET_ID_CAR_TELEMETRY) eqn:E5.
    { apply Z.eqb_eq in E5. destruct (handleCarTelemetryPacket_total msg st) as [s [o Hs]].
      rewrite Hs. split; [discriminate|].
      intros [h' [[= <-] [[Hid _]|[Hid _]]]]; rewrite E5 in Hid; discriminate. }
    destruct (Header.packetId h =? PACKET_ID_CAR_STATUS) eqn:E6.
    { apply Z.eqb_eq in E6. destruct (handleCarStatusPacket_total msg st) as [s [o Hs]].
      rewrite Hs. split; [discriminate|].
      intros [h' [[= <-] [[Hid _]|[Hid _]]]]; rewrite E6 in Hid; discriminate. }
    destruct (Header.packetId h =? PACKET_ID_CAR_DAMAGE) eqn:E7.
    { apply Z.eqb_eq in E7. rewrite handleCarDamagePacket_throws_iff. split.
      - intros Hc. exists h. split; [reflexivity|]. right. split; [exact E7 | exact Hc].
      - intros [h' [[= <-] [[Hid _]|[_ Hc]]]]; [|exact Hc].
        rewrite E7 in Hid. discriminate. }
    apply Z.eqb_neq in E2. apply Z.eqb_neq in E7.
    split; [discriminate|]. intros [h' [[= <-] [[Hid _]|[Hid _]]]]; contradiction.
  - split; [discriminate|]. intros [h' [[=] _]].
  - destruct (parseHeader_total msg) as [r Hr]. congruence.
Qed.

(** * What each handler writes *)

Lemma via_mask (V : Type) (view : State -> V) (mask : State -> State) (a b : State) :
  (forall s, view (mask s) = view s) -> mask a = mask b -> view a = view b.
Proof. intros Hv H. rewrite <- (Hv a), <- (Hv b), H. reflexivity. Qed.

Lemma forEachSlot_mask (mask : State -> State) (body : Z -> State -> result State)
  (slots : list Z) (st st' : State) :
  (forall i s s', body i s = Ok s' -> mask s' = mask s) ->
  forEachSlot body slots st = Ok st' -> mask st' = mask st.
Proof.
  intros Hbody H.
  apply (forEachSlot_preserves (fun s => mask s = mask st)) in H; [exact H| |reflexivity].
  intros i s s' _ Hb Hs. rewrite (Hbody i s s' Hb). exact Hs.
Qed.

Lemma handleSessionPacket_writes (buf : Buffer) (st st' : State) (out : list LapsState.t)
  (h : Header.t) :
  parseHeader buf = Ok (Some h) ->
  handleSessionPacket buf st = Ok (st', out) ->
  exceptSession st' = exceptSession (enterSession h st) /\ out = [].
Proof.
  unfold handleSessionPacket. intros Hh. rewrite Hh. cbn [bind]. intros H.
  enter_run h st H. revert H. generalize (enterSession h st). intros st0 H.
  split_run H; injection H as <- <-; split; reflexivity.
Qed.

Lemma handleParticipantsPacket_writes (buf : Buffer) (st st' : State)
  (out : list LapsState.t) (h : Header.t) :
  parseHeader buf = Ok (Some h) ->
  handleParticipantsPacket buf st = Ok (st', out) ->
  exceptParticipants st' = exceptParticipants (enterSession h st) /\ out = [].
Proof.
  unfold handleParticipantsPacket. intros Hh. rewrite Hh. cbn [bind]. intros H.
  enter_run h st H. revert H. generalize (enterSession h st). intros st0 H.
  destruct (readUInt8 buf HEADER_SIZE) as [n|]; cbn [bind] in H; [|discriminate].
  destruct (buf_length buf <? _) in H; [injection H as <- <-; split; reflexivity|].
  match type of H with
  | context [forEachSlot ?b ?l ?s] => destruct (forEachSlot b l s) as [s1|] eqn:E
  end; cbn [bind] in H; [|discriminate].
  injection H as <- <-. split; [|reflexivity].
  apply (forEachSlot_mask exceptParticipants) in E; [exact E|].
  intros i s s'. unfold participantsLoopBody.
  destruct (isEmptyName _); [intros [= <-]; reflexivity|].
  destruct (parseParticipantMeta buf _) as [m|]; cbn [bind]; [|discriminate].
  intros [= <-]. reflexivity.
Qed.

Lemma handleSessionHistoryPacket_writes (buf : Buffer) (st st' : State)
  (out : list LapsState.t) (h : Header.t) :
  parseHeader buf = Ok (Some h) ->
  handleSessionHistoryPacket buf st = Ok (st', out) ->
  exceptHistory st' = exceptHistory (enterSession h st) /\ out = [].
Proof.
  unfold handleSessionHistoryPacket. intros Hh. rewrite Hh. cbn [bind]. intros H.
  enter_run h st H. revert H. generalize (enterSession h st). intros st0 H.
  split_run H; injection H as <- <-; split; reflexivity.
Qed.

Lemma handleCarTelemetryPacket_writes (buf : Buffer) (st st' : State)
  (out : list LapsState.t) (h : Header.t) :
  parseHeader buf = Ok (Some h) ->
  handleCarTelemetryPacket buf st = Ok (st', out) ->
  exceptTelemetry st' = exceptTelemetry (enterSession h st) /\ out = [].
Proof.
  unfold handleCarTelemetryPacket. intros Hh. rewrite Hh. cbn [bind]. intros H.
  enter_run h st H. revert H. generalize (enterSession h st). intros st0 H.
  match type of H with
  | context [forEachSlot ?b ?l ?s] => destruct (forEachSlot b l s) as [s1|] eqn:E
  end; cbn [bind] in H; [|discriminate].
  apply (forEachSlot_mask exceptTelemetry) in E.
  2: { intros i s s'. unfold carTelemetryLoopBody.
       destruct (parseCarTelemetryForCar buf _) as [[t|]|]; cbn [bind];
         [| |discriminate]; intros [= <-]; reflexivity. }
  injection H as <- <-. split; [|reflexivity]. rewrite <- E.
  repeat break_match; reflexivity.
Qed.

Lemma handleCarDamagePacket_writes (buf : Buffer) (st st' : State)
  (out : list LapsState.t) (h : Header.t) :
  parseHeader buf = Ok (Some h) ->
  handleCarDamagePacket buf st = Ok (st', out) ->
  exceptDamage st' = exceptDamage (enterSession h st) /\ out = [lapsState st'].
Proof.
  unfold handleCarDamagePacket. intros Hh. rewrite Hh. cbn [bind]. intros H.
  enter_run h st H. revert H. generalize (enterSession h st). intros st0 H.
  match type of H with
  | context [forEachSlot ?b ?l ?s] => destruct (forEachSlot b l s) as [s1|] eqn:E
  end; cbn [bind] in H; [|discriminate].
  apply (forEachSlot_mask exceptDamage) in E.
  2: { intros i s s'. unfold carDamageLoopBody.
       destruct (parseCarDamageForCar buf _) as [[t|]|]; cbn [bind];
         [| |discriminate]; intros [= <-]; reflexivity. }
  injection H as <- <-. split; [|reflexivity]. rewrite <- E.
  repeat break_match; reflexivity.
Qed.

Lemma handleCarStatusPacket_writes (buf : Buffer) (st st' : State)
  (out : list LapsState.t) (h : Header.t) :
  parseHeader buf = Ok (Some h) ->
  handleCarStatusPacket buf st = Ok (st', out) ->
  exceptStatus st' = exceptStatus (enterSession h st) /\ out = [].
Proof.
  unfold handleCarStatusPacket. intros Hh. rewrite Hh. cbn [bind]. intros H.
  enter_run h st H. revert H. generalize (enterSession h st). intros st0 H.
  match type of H with
  | context [forEachSlot ?b ?l ?s] => destruct (forEachSlot b l s) as [s1|] eqn:E
  end; cbn [bind] in H; [|discriminate].
  apply (forEachSlot_mask exceptStatus) in E.
  2: { intros i s s'. unfold carStatusLoopBody.
       destruct (parseCarStatusForCar buf _) as [[t|]|]; cbn [bind];
         [| |discriminate]; intros [= <-]; reflexivity. }
  injection H as <- <-. split; [|reflexivity]. rewrite <- E.
  unfold backfillTyreSnapshot. repeat break_match; reflexivity.
Qed.

(** Proves [view (playerSection p lap st) = view st] for a [view] that every
    block of the player's section leaves alone. *)
Ltac player_view view p lap :=
  unfold playerSection; cbv zeta;
  let H1 := fresh "H" in
  assert (H1 : forall s, view (updateLiveDelta s) = view s) by reflexivity;
  let H2 := fresh "H" in
  assert (H2 : forall s, view (rememberLap lap s) = view s) by reflexivity;
  let H3 := fresh "H" in
  assert (H3 : forall r s, view (finalizeLap r p lap s) = view s)
    by (intros r s; unfold finalizeLap;
        destruct (PlayerState.currentLapNum (playerState s)); [|reflexivity];
        match goal with |- context [if ?c then _ else _] => destruct c end; reflexivity);
  let H4 := fresh "H" in
  assert (H4 : forall r t s, view (setCurrentLap r t lap s) = view s) by reflexivity;
  let H5 := fresh "H" in
  assert (H5 : forall r s, view (liveSectorBests r lap s) = view s)
    by (intros r s; unfold liveSectorBests; phase_frame);
  let H6 := fresh "H" in
  assert (H6 : forall s, view (setLiveLapTime lap s) = view s) by reflexivity;
  let H7 := fresh "H" in
  assert (H7 : forall s, view (cachePlayerSectors lap s) = view s)
    by (intros s; unfold cachePlayerSectors; phase_frame);
  let H8 := fresh "H" in
  assert (H8 : forall s, view (trackPlayerPitLane lap s) = view s)
    by (intros s; unfold trackPlayerPitLane; phase_frame);
  let H9 := fresh "H" in
  assert (H9 : forall s, view (snapshotTyresAtLapStart lap s) = view s)
    by (intros s; unfold snapshotTyresAtLapStart; phase_frame);
  let H10 := fresh "H" in
  assert (H10 : forall s, view (truncateOnFlashback lap s) = view s)
    by (intros s; unfold truncateOnFlashback; phase_frame);
  let H11 := fresh "H" in
  assert (H11 : forall s, view (setCurrentPenalties lap s) = view s) by reflexivity;
  rewrite H1, H2, H3, H4, H5, H6, H7, H8, H9, H10, H11; reflexivity.

Lemma playerSection_keptByLapData (p : Z) (lap : LapData.t) (st : State) :
  keptByLapData (playerSection p lap st) = keptByLapData st.
Proof. player_view keptByLapData p lap. Qed.

Lemma publishLeaderboard_keptByLapData (p : Z) (st : State) :
  keptByLapData (publishLeaderboard p st) = keptByLapData st.
Proof.
  unfold publishLeaderboard. cbv zeta.
  transitivity (keptByLapData (fold_left raceBestsStep (buildRaceCars st p) st));
    [reflexivity|].
  apply (via_mask keptByLapData withoutRaceBests); [reflexivity|].
  apply raceBests_fold_frame.
Qed.

Lemma handleLapDataPacket_writes (buf : Buffer) (st st' : State)
  (out : list LapsState.t) (h : Header.t) :
  parseHeader buf = Ok (Some h) ->
  handleLapDataPacket buf st = Ok (st', out) ->
  keptByLapData st' = keptByLapData (enterSession h st)
  /\ (out = [] \/ out = [lapsState st']).
Proof.
  intros Hh H. apply handleLapDataPacket_blocks in H.
  destruct H as [[Hn _]|[h' [st0 [st1 [Hh' [Hst0 [Hloop Hrest]]]]]]]; [congruence|].
  assert (h' = h) by congruence. subst h'.
  assert (E0 : keptByLapData st0 = keptByLapData (enterSession h st))
    by (rewrite Hst0; reflexivity).
  assert (E1 : keptByLapData st1 = keptByLapData st0).
  { apply (forEachSlot_preserves (fun s => keptByLapData s = keptByLapData st0)) in Hloop;
      [exact Hloop| |reflexivity].
    intros i s s' _ Hb Hs. rewrite <- Hs. revert Hb. unfold lapDataLoopBody.
    destruct (parseLapDataForCar buf _) as [[t|]|]; cbn [bind]; [| |discriminate];
      intros [= <-]; reflexivity. }
  destruct Hrest as [[-> [-> _]]|[lap [_ [_ [-> ->]]]]].
  - split; [|left; reflexivity].
    rewrite publishLeaderboard_keptByLapData. congruence.
  - split; [|right; reflexivity].
    rewrite playerSection_keptByLapData, publishLeaderboard_keptByLapData. congruence.
Qed.

(** X8.  The footprint of the handlers.  After the session test, which may
    reset the state, each handler writes only its own variables: the session
    handler twelve fields of [lapsState]; the participants handler the number
    of active cars and the three participant tables; the history handler the
    history table, the lap table and the bests and laps derived from it; the
    telemetry, damage and status handlers their cache and their field of
    [lapsState], the status handler also the player's tyres and the tyre
    snapshots; the lap-data handler leaves the participants, the other
    caches, the history, the player's session and tyres and the fields the
    other handlers own. *)
Theorem handlers_write_only_their_variables (msg : Buffer) (st st' : State)
  (out : list LapsState.t) (h : Header.t) :
  parseHeader msg = Ok (Some h) ->
  onMessage msg st = Ok (st', out) ->
  (Header.packetId h = PACKET_ID_SESSION ->
   exceptSession st' = exceptSession (enterSession h st))
  /\ (Header.packetId h = PACKET_ID_PARTICIPANTS ->
      exceptParticipants st' = exceptParticipants (enterSession h st))
  /\ (Header.packetId h = PACKET_ID_SESSION_HISTORY ->
      exceptHistory st' = exceptHistory (enterSession h st))
  /\ (Header.packetId h = PACKET_ID_LAP_DATA ->
      keptByLapData st' = keptByLapData (enterSession h st))
  /\ (Header.packetId h = PACKET_ID_CAR_TELEMETRY ->
      exceptTelemetry st' = exceptTelemetry (enterSession h st))
  /\ (Header.packetId h = PACKET_ID_CAR_STATUS ->
      exceptStatus st' = exceptStatus (enterSession h st))
  /\ (Header.packetId h = PACKET_ID_CAR_DAMAGE ->
      exceptDamage st' = exceptDamage (enterSession h st))
  /\ (~ In (Header.packetId h) handledIds -> st' = st).
Proof.
  intros Hh H. unfold onMessage in H. rewrite Hh in H. cbn [bind] in H.
  unfold handledIds.
  destruct (Header.packetId h =? PACKET_ID_SESSION) eqn:E1.
  { apply Z.eqb_eq in E1. rewrite E1.
    destruct (@handleSessionPacket_writes _ _ _ _ _ Hh H) as [Hw _].
    repeat split; intros Hid;
      first [ exact Hw | discriminate Hid
            | exfalso; apply Hid; cbn; tauto ]. }
  destruct (Header.packetId h =? PACKET_ID_PARTICIPANTS) eqn:E2.
  { apply Z.eqb_eq in E2. rewrite E2.
    destruct (@handleParticipantsPacket_writes _ _ _ _ _ Hh H) as [Hw _].
    repeat split; intros Hid;
      first [ exact Hw | discriminate Hid
            | exfalso; apply Hid; cbn; tauto ]. }
  destruct (Header.packetId h =? PACKET_ID_SESSION_HISTORY) eqn:E3.
  { apply Z.eqb_eq in E3. rewrite E3.
    destruct (@handleSessionHistoryPacket_writes _ _ _ _ _ Hh H) as [Hw _].
    repeat split; intros Hid;
      first [ exact Hw | discriminate Hid
            | exfalso; apply Hid; cbn; tauto ]. }
  destruct (Header.packetId h =? PACKET_ID_LAP_DATA) eqn:E4.
  { apply Z.eqb_eq in E4. rewrite E4.
    destruct (@handleLapDataPacket_writes _ _ _ _ _ Hh H) as [Hw _].
    repeat split; intros Hid;
      first [ exact Hw | discriminate Hid
            | exfalso; apply Hid; cbn; tauto ]. }
  destruct (Header.packetId h =? PACKET_ID_CAR_TELEMETRY) eqn:E5.
  { apply Z.eqb_eq in E5. rewrite E5.
    destruct (@handleCarTelemetryPacket_writes _ _ _ _ _ Hh H) as [Hw _].
    repeat split; intros Hid;
      first [ exact Hw | discriminate Hid
            | exfalso; apply Hid; cbn; tauto ]. }
  destruct (Header.packetId h =? PACKET_ID_CAR_STATUS) eqn:E6.
  { apply Z.eqb_eq in E6. rewrite E6.
    destruct (@handleCarStatusPacket_writes _ _ _ _ _ Hh H) as [Hw _].
    repeat split; intros Hid;
      first [ exact Hw | discriminate Hid
            | exfalso; apply Hid; cbn; tauto ]. }
  destruct (Header.packetId h =? PACKET_ID_CAR_DAMAGE) eqn:E7.
  { apply Z.eqb_eq in E7. rewrite E7.
    destruct (@handleCarDamagePacket_writes _ _ _ _ _ Hh H) as [Hw _].
    repeat split; intros Hid;
      first [ exact Hw | discriminate Hid
            | exfalso; apply Hid; cbn; tauto ]. }
  injection H as <- <-.
  apply Z.eqb_neq in E1, E2, E3, E4, E5, E6, E7.
  repeat split; intros Hid; first [ contradiction | reflexivity ].
Qed.

(** The theorem on the sample history datagram, received first: what the
    history handler does not own is as the session test left it. *)
Lemma handlers_write_only_their_variables_witness :
  parseHeader historyTwoLaps = Ok (Some historyHeader1)
  /\ onMessage historyTwoLaps initialState = Ok (stateAfter [historyTwoLaps], [])
  /\ exceptHistory (stateAfter [historyTwoLaps])
     = exceptHistory (enterSession historyHeader1 initialState).
Proof.
  assert (Hh : parseHeader historyTwoLaps = Ok (Some historyHeader1))
    by (vm_compute; reflexivity).
  assert (Hrun : onMessage historyTwoLaps initialState
                 = Ok (stateAfter [historyTwoLaps], []))
    by (vm_compute; reflexivity).
  split; [exact Hh|]. split; [exact Hrun|].
  apply (proj1 (proj2 (proj2 (@handlers_write_only_their_variables
                                 _ _ _ _ _ Hh Hrun)))).
  vm_compute. reflexivity.
Defined.

(** * Further properties of the personal bests *)

Lemma leastOf_fold (cs : list (option Z)) : leastOf (fold_left minOpt cs None) cs.
Proof.
  split.
  - intros m Hm. destruct (minOpt_fold_attained _ _ Hm) as [Hi|Hin];
      [discriminate | exact Hin].
  - intros s Hs. apply minOpt_fold_lower. exact Hs.
Qed.

Lemma bestsStep_markEntry (b : option Z) (acc : Bests) (l : LapEntry.t) :
  bestsStep acc (markEntry b l) = bestsStep acc l.
Proof. reflexivity. Qed.

Lemma scanBests_markEntry (b : option Z) (ls : list LapEntry.t) (acc : Bests) :
  fold_left bestsStep (map (markEntry b) ls) acc = fold_left bestsStep ls acc.
Proof.
  revert acc. induction ls as [|l ls IH]; intros acc; simpl; [reflexivity|].
  rewrite bestsStep_markEntry. apply IH.
Qed.

Lemma markEntry_idempotent (b : option Z) (l : LapEntry.t) :
  markEntry b (markEntry b l) = markEntry b l.
Proof. reflexivity. Qed.

Lemma markEntries_idempotent (b : option Z) (m : JSMap LapEntry.t) :
  markEntries b (markEntries b m) = markEntries b m.
Proof.
  unfold markEntries. rewrite map_map. apply map_ext. intros [k l]. reflexivity.
Qed.

(** X9.  [recomputeFromLaps] is idempotent: a second run changes nothing,
    so the marks it leaves do not feed back into the bests. *)
Theorem recomputeFromLaps_idempotent (st : State) :
  recomputeFromLaps (recomputeFromLaps st) = recomputeFromLaps st.
Proof.
  assert (E : scanBests (map_values (lapsByNumber (recomputeFromLaps st)))
              = scanBests (map_values (lapsByNumber st))).
  { rewrite recomputeFromLaps_lapsByNumber, map_values_markEntries.
    apply scanBests_markEntry. }
  unfold recomputeFromLaps at 1. cbv zeta. rewrite E.
  set (b := scanBests (map_values (lapsByNumber st))).
  unfold recomputeFromLaps, syncLapsArrayFromMap. fold b.
  cbn [lapsByNumber set_lapsByNumber set_lapsState lapsState].
  rewrite markEntries_idempotent.
  set (m := markEntries (b_bestLapTimeMs b) (lapsByNumber st)).
  clearbody m. clear E. clearbody b.
  destruct st as [ls ? ? ? ? ? ? ? ? ? ? ? ? ? ? ? ? ? ? ? ? ? ? ? ? ?]. destruct ls.
  cbv -[js_sort map_values]. reflexivity.
Qed.

(** ** Best sectors and the number of the best lap *)

Lemma bestsStep_sectors (acc : Bests) (l : LapEntry.t) :
  b_bestS1 (bestsStep acc l)
  = minOpt (b_bestS1 acc) (countedField LapEntry.sector1TimeMs l)
  /\ b_bestS2 (bestsStep acc l)
     = minOpt (b_bestS2 acc) (countedField LapEntry.sector2TimeMs l)
  /\ b_bestS3 (bestsStep acc l)
     = minOpt (b_bestS3 acc) (countedField LapEntry.sector3TimeMs l).
Proof.
  unfold bestsStep, countedField. destruct (countedTime l); repeat split.
Qed.

Lemma scanBests_sectors (ls : list LapEntry.t) (acc : Bests) :
  b_bestS1 (fold_left bestsStep ls acc)
  = fold_left minOpt (map (countedField LapEntry.sector1TimeMs) ls) (b_bestS1 acc)
  /\ b_bestS2 (fold_left bestsStep ls acc)
     = fold_left minOpt (map (countedField LapEntry.sector2TimeMs) ls) (b_bestS2 acc)
  /\ b_bestS3 (fold_left bestsStep ls acc)
     = fold_left minOpt (map (countedField LapEntry.sector3TimeMs) ls) (b_bestS3 acc).
Proof.
  revert acc. induction ls as [|l ls IH]; intros acc; simpl; [repeat split|].
  destruct (IH (bestsStep acc l)) as [H1 [H2 H3]].
  destruct (bestsStep_sectors acc l) as [E1 [E2 E3]].
  rewrite H1, H2, H3, E1, E2, E3. repeat split.
Qed.

(** The scan keeps the first of the fastest counted rows. *)
Lemma scanBests_first (ls : list LapEntry.t) :
  match b_bestLapTimeMs (scanBests ls) with
  | None =>
      b_bestLapNumber (scanBests ls) = None
      /\ forall l, In l ls -> countedTime l = None
  | Some m =>
      exists pre l post,
        ls = pre ++ l :: post
        /\ countedTime l = Some m
        /\ b_bestLapNumber (scanBests ls) = Some (LapEntry.lapNumber l)
        /\ (forall l' t, In l' pre -> countedTime l' = Some t -> m < t)
        /\ (forall l' t, In l' post -> countedTime l' = Some t -> m <= t)
  end.
Proof.
  unfold scanBests. induction ls as [|l2 ls IH] using rev_ind.
  - simpl. split; [reflexivity | intros l []].
  - rewrite fold_left_app. simpl.
    set (r := fold_left bestsStep ls (mkBests None None None None None)) in *.
    destruct (countedTime l2) as [t|] eqn:Ec.
    + destruct (b_bestLapTimeMs r) as [m|] eqn:Em.
      * destruct IH as [pre [l [post [Hls [Hl [Hnum [Hpre Hpost]]]]]]].
        destruct (t <? m) eqn:Elt.
        -- assert (Es : b_bestLapTimeMs (bestsStep r l2) = Some t
                        /\ b_bestLapNumber (bestsStep r l2) = Some (LapEntry.lapNumber l2))
             by (unfold bestsStep; rewrite Ec, Em, Elt; split; reflexivity).
           destruct Es as [Es1 Es2]. rewrite Es1, Es2.
           apply Z.ltb_lt in Elt. exists ls, l2, []. split; [reflexivity|].
           split; [exact Ec|]. split; [reflexivity|]. split; [|intros l' t' []].
           intros l' t' Hin Hc. rewrite Hls in Hin. apply in_app_or in Hin.
           destruct Hin as [Hin|[<-|Hin]].
           ++ pose proof (Hpre l' t' Hin Hc). lia.
           ++ rewrite Hl in Hc. injection Hc as <-. exact Elt.
           ++ pose proof (Hpost l' t' Hin Hc). lia.
        -- assert (Es : b_bestLapTimeMs (bestsStep r l2) = Some m
                        /\ b_bestLapNumber (bestsStep r l2) = b_bestLapNumber r)
             by (unfold bestsStep; rewrite Ec, Em, Elt; split; reflexivity).
           destruct Es as [Es1 Es2]. rewrite Es1, Es2.
           apply Z.ltb_ge in Elt. exists pre, l, (post ++ [l2]).
           split; [rewrite Hls, <- app_assoc; reflexivity|].
           split; [exact Hl|]. split; [exact Hnum|]. split; [exact Hpre|].
           intros l' t' Hin Hc. apply in_app_or in Hin. destruct Hin as [Hin|[<-|[]]].
           ++ exact (Hpost l' t' Hin Hc).
           ++ rewrite Ec in Hc. injection Hc as <-. exact Elt.
      * destruct IH as [Hnum Hnone].
        assert (Es : b_bestLapTimeMs (bestsStep r l2) = Some t
                     /\ b_bestLapNumber (bestsStep r l2) = Some (LapEntry.lapNumber l2))
          by (unfold bestsStep; rewrite Ec, Em; split; reflexivity).
        destruct Es as [Es1 Es2]. rewrite Es1, Es2.
        exists ls, l2, []. split; [reflexivity|].
        split; [exact Ec|]. split; [reflexivity|]. split; [|intros l' t' []].
        intros l' t' Hin Hc. rewrite (Hnone l' Hin) in Hc. discriminate.
    + assert (Es : bestsStep r l2 = r) by (unfold bestsStep; rewrite Ec; reflexivity).
      rewrite Es.
      destruct (b_bestLapTimeMs r) as [m|] eqn:Em.
      * destruct IH as [pre [l [post [Hls [Hl [Hnum [Hpre Hpost]]]]]]].
        exists pre, l, (post ++ [l2]).
        split; [rewrite Hls, <- app_assoc; reflexivity|].
        split; [exact Hl|]. split; [exact Hnum|]. split; [exact Hpre|].
        intros l' t' Hin Hc. apply in_app_or in Hin. destruct Hin as [Hin|[<-|[]]].
        -- exact (Hpost l' t' Hin Hc).
        -- rewrite Ec in Hc. discriminate.
      * destruct IH as [Hnum Hnone]. split; [exact Hnum|].
        intros l Hin. apply in_app_or in Hin. destruct Hin as [Hin|[<-|[]]].
        -- exact (Hnone l Hin).
        -- exact Ec.
Qed.

(** X10.  After [recomputeFromLaps] each best sector is the least time of
    that sector over the rows that count (valid, with a positive lap time),
    each sector on its own, and absent when no counted row has the sector.
    The number of the best lap is the lap number of the first row, in the
    order of the table, that has the best lap time; it is absent exactly when
    no row counts. *)
Theorem recompute_best_sectors_and_number (st : State) :
  leastOf (LapsState.bestSector1TimeMs (lapsState (recomputeFromLaps st)))
    (map (countedField LapEntry.sector1TimeMs) (map_values (lapsByNumber st)))
  /\ leastOf (LapsState.bestSector2TimeMs (lapsState (recomputeFromLaps st)))
       (map (countedField LapEntry.sector2TimeMs) (map_values (lapsByNumber st)))
  /\ leastOf (LapsState.bestSector3TimeMs (lapsState (recomputeFromLaps st)))
       (map (countedField LapEntry.sector3TimeMs) (map_values (lapsByNumber st)))
  /\ match LapsState.bestLapTimeMs (lapsState (recomputeFromLaps st)) with
     | None =>
         LapsState.bestLapNumber (lapsState (recomputeFromLaps st)) = None
         /\ forall l, In l (map_values (lapsByNumber st)) -> countedTime l = None
     | Some m =>
         exists pre l post,
           map_values (lapsByNumber st) = pre ++ l :: post
           /\ countedTime l = Some m
           /\ LapsState.bestLapNumber (lapsState (recomputeFromLaps st))
              = Some (LapEntry.lapNumber l)
           /\ (forall l' t, In l' pre -> countedTime l' = Some t -> m < t)
           /\ (forall l' t, In l' post -> countedTime l' = Some t -> m <= t)
     end.
Proof.
  change (LapsState.bestSector1TimeMs (lapsState (recomputeFromLaps st)))
    with (b_bestS1 (scanBests (map_values (lapsByNumber st)))).
  change (LapsState.bestSector2TimeMs (lapsState (recomputeFromLaps st)))
    with (b_bestS2 (scanBests (map_values (lapsByNumber st)))).
  change (LapsState.bestSector3TimeMs (lapsState (recomputeFromLaps st)))
    with (b_bestS3 (scanBests (map_values (lapsByNumber st)))).
  change (LapsState.bestLapTimeMs (lapsState (recomputeFromLaps st)))
    with (b_bestLapTimeMs (scanBests (map_values (lapsByNumber st)))).
  change (LapsState.bestLapNumber (lapsState (recomputeFromLaps st)))
    with (b_bestLapNumber (scanBests (map_values (lapsByNumber st)))).
  generalize (map_values (lapsByNumber st)). intros rows.
  destruct (scanBests_sectors rows (mkBests None None None None None)) as [H1 [H2 H3]].
  unfold scanBests at 1 2 3. rewrite H1, H2, H3. cbn [b_bestS1 b_bestS2 b_bestS3].
  split; [apply leastOf_fold|]. split; [apply leastOf_fold|].
  split; [apply leastOf_fold|]. apply scanBests_first.
Qed.

(** ** The demo feed *)

Lemma demoBestsStep_counted (acc : Bests) (l : LapEntry.t) (t : Z) :
  LapEntry.valid l = true -> LapEntry.lapTimeMs l = Some t -> 0 < t ->
  demoBestsStep acc l = bestsStep acc l.
Proof.
  intros Hv Ht Hpos. unfold demoBestsStep, bestsStep, countedTime.
  rewrite Hv, Ht. replace (t <=? 0) with false by (symmetry; apply Z.leb_gt; exact Hpos).
  reflexivity.
Qed.

Lemma demoMarkEntry_counted (m : Z) (l : LapEntry.t) (t : Z) :
  LapEntry.valid l = true -> LapEntry.lapTimeMs l = Some t -> 0 < t ->
  demoMarkEntry m l = markEntry (Some m) l.
Proof.
  intros Hv Ht Hpos. unfold demoMarkEntry, markEntry. destruct l. cbn in *.
  subst. replace (t >? 0) with true by (symmetry; apply Z.gtb_lt; exact Hpos).
  cbn. destruct (t =? m) eqn:E; [|reflexivity].
  apply Z.eqb_eq in E. subst. rewrite Z.sub_diag. reflexivity.
Qed.

(** X11.  On a table whose rows are all valid with a positive lap time, as
    the demo feed builds it, [computePersonalBest] of the demo feed finds the
    bests [recomputeFromLaps] finds, and the demo's marking loop gives every
    row the [isBest] and [deltaMs] that [recomputeFromLaps] gives it. *)
Theorem demo_bests_agree (laps : list LapEntry.t) :
  (forall l, In l laps ->
     LapEntry.valid l = true /\ exists t, LapEntry.lapTimeMs l = Some t /\ 0 < t) ->
  computePersonalBest laps = scanBests laps
  /\ forall m, b_bestLapTimeMs (scanBests laps) = Some m ->
       map (demoMarkEntry m) laps = map (markEntry (Some m)) laps.
Proof.
  intros Hall. split.
  - unfold computePersonalBest, scanBests.
    generalize (mkBests None None None None None).
    induction laps as [|l laps IH]; intros acc; simpl; [reflexivity|].
    destruct (Hall l (or_introl eq_refl)) as [Hv [t [Ht Hpos]]].
    rewrite (demoBestsStep_counted acc l Hv Ht Hpos).
    apply IH. intros l' Hin. apply Hall. right. exact Hin.
  - intros m _. apply map_ext_in. intros l Hin.
    destruct (Hall l Hin) as [Hv [t [Ht Hpos]]].
    exact (demoMarkEntry_counted m l Hv Ht Hpos).
Qed.

Lemma demo_bests_agree_witness :
  computePersonalBest [sampleLap 1 90000 true; sampleLap 2 85000 true]
  = scanBests [sampleLap 1 90000 true; sampleLap 2 85000 true]
  /\ b_bestLapNumber (computePersonalBest [sampleLap 1 90000 true; sampleLap 2 85000 true])
     = Some 2.
Proof.
  split; [|reflexivity].
  apply (@demo_bests_agree [sampleLap 1 90000 true; sampleLap 2 85000 true]).
  intros l [<-|[<-|[]]]; (split; [reflexivity|]); eexists; (split; [reflexivity|]); lia.
Defined.

(** * Further properties of the leaderboard *)

(** ** The sort *)

Section SortFacts.
Variable A : Type.
Variable cmp : A -> A -> Z.
Hypothesis cmp_total : forall a b, cmp a b <= 0 \/ cmp b a <= 0.

Lemma sort_insert_HdRel (y x : A) (l : list A) :
  cmp y x <= 0 -> HdRel (fun a b => cmp a b <= 0) y l ->
  HdRel (fun a b => cmp a b <= 0) y (sort_insert cmp x l).
Proof.
  intros Hyx Hhd. destruct l as [|z l]; simpl.
  - constructor. exact Hyx.
  - destruct (cmp x z <=? 0); constructor; [exact Hyx|].
    inversion Hhd. assumption.
Qed.

Lemma sort_insert_sorted (x : A) (l : list A) :
  Sorted (fun a b => cmp a b <= 0) l ->
  Sorted (fun a b => cmp a b <= 0) (sort_insert cmp x l).
Proof.
  induction l as [|y l IH]; simpl; intros Hs.
  - constructor; constructor.
  - destruct (cmp x y <=? 0) eqn:E.
    + apply Z.leb_le in E. constructor; [exact Hs|]. constructor. exact E.
    + apply Z.leb_gt in E. inversion Hs as [|? ? Hs' Hhd]; subst.
      constructor; [apply IH; exact Hs'|].
      apply sort_insert_HdRel; [|exact Hhd].
      destruct (cmp_total y x) as [H|H]; [exact H | lia].
Qed.

Lemma js_sort_sorted (l : list A) : Sorted (fun a b => cmp a b <= 0) (js_sort cmp l).
Proof.
  induction l as [|x l IH]; simpl; [constructor|].
  apply sort_insert_sorted. exact IH.
Qed.
End SortFacts.

Lemma sort_insert_perm (A : Type) (cmp : A -> A -> Z) (x : A) (l : list A) :
  Permutation (sort_insert cmp x l) (x :: l).
Proof.
  induction l as [|y l IH]; simpl; [reflexivity|].
  destruct (cmp x y <=? 0); [reflexivity|].
  rewrite IH. apply perm_swap.
Qed.

Lemma js_sort_perm (A : Type) (cmp : A -> A -> Z) (l : list A) :
  Permutation (js_sort cmp l) l.
Proof.
  induction l as [|x l IH]; simpl; [reflexivity|].
  rewrite sort_insert_perm. constructor. exact IH.
Qed.

(** ** The best lap of a row *)

Lemma historyBestStep_counted (acc : Bests) (kv : Z * HistEntry.t) :
  historyBestStep acc kv
  = match countedHistoryTime (snd kv) with
    | None => acc
    | Some t =>
        if match b_bestLapTimeMs acc with
           | None => true
           | Some b => t <? b
           end
        then mkBests (Some t) (Some (fst kv)) (HistEntry.sector1TimeMs (snd kv))
               (HistEntry.sector2TimeMs (snd kv)) (HistEntry.sector3TimeMs (snd kv))
        else acc
    end.
Proof.
  unfold historyBestStep, countedHistoryTime.
  destruct (HistEntry.lapTimeMs (snd kv)) as [t|]; [|reflexivity].
  destruct (t <=? 0); [reflexivity|]. cbn [orb].
  destruct (Z.land (HistEntry.validFlags (snd kv)) 1 =? 0); reflexivity.
Qed.

(** The scan of a history keeps the first of the fastest counted laps, with
    its number and its three sectors. *)
Lemma historyBest_first (h : JSMap HistEntry.t) :
  match b_bestLapTimeMs (fold_left historyBestStep h (mkBests None None None None None)) with
  | None =>
      fold_left historyBestStep h (mkBests None None None None None)
      = mkBests None None None None None
      /\ forall n e, In (n, e) h -> countedHistoryTime e = None
  | Some m =>
      exists pre n e post,
        h = pre ++ (n, e) :: post
        /\ countedHistoryTime e = Some m
        /\ fold_left historyBestStep h (mkBests None None None None None)
           = mkBests (Some m) (Some n) (HistEntry.sector1TimeMs e)
               (HistEntry.sector2TimeMs e) (HistEntry.sector3TimeMs e)
        /\ (forall n' e' t, In (n', e') pre -> countedHistoryTime e' = Some t -> m < t)
        /\ (forall n' e' t, In (n', e') post -> countedHistoryTime e' = Some t -> m <= t)
  end.
Proof.
  induction h as [|[n2 e2] h IH] using rev_ind.
  - simpl. split; [reflexivity | intros n e []].
  - rewrite fold_left_app. simpl.
    set (r := fold_left historyBestStep h (mkBests None None None None None)) in *.
    rewrite historyBestStep_counted. cbn [fst snd].
    destruct (countedHistoryTime e2) as [t|] eqn:Ec.
    + destruct (b_bestLapTimeMs r) as [m|] eqn:Em.
      * destruct IH as [pre [n [e [post [Hh [He [Hr [Hpre Hpost]]]]]]]].
        destruct (t <? m) eqn:Elt; cbn [b_bestLapTimeMs].
        -- apply Z.ltb_lt in Elt. exists h, n2, e2, []. split; [reflexivity|].
           split; [exact Ec|]. split; [reflexivity|]. split; [|intros n' e' t' []].
           intros n' e' t' Hin Hc. rewrite Hh in Hin. apply in_app_or in Hin.
           destruct Hin as [Hin|[[= <- <-]|Hin]].
           ++ pose proof (Hpre n' e' t' Hin Hc). lia.
           ++ rewrite He in Hc. injection Hc as <-. exact Elt.
           ++ pose proof (Hpost n' e' t' Hin Hc). lia.
        -- apply Z.ltb_ge in Elt. rewrite Em. exists pre, n, e, (post ++ [(n2, e2)]).
           split; [rewrite Hh, <- app_assoc; reflexivity|].
           split; [exact He|]. split; [exact Hr|]. split; [exact Hpre|].
           intros n' e' t' Hin Hc. apply in_app_or in Hin.
           destruct Hin as [Hin|[[= <- <-]|[]]].
           ++ exact (Hpost n' e' t' Hin Hc).
           ++ rewrite Ec in Hc. injection Hc as <-. exact Elt.
      * destruct IH as [Hr Hnone]. cbn [b_bestLapTimeMs].
        exists h, n2, e2, []. split; [reflexivity|].
        split; [exact Ec|]. split; [reflexivity|]. split; [|intros n' e' t' []].
        intros n' e' t' Hin Hc. rewrite (Hnone n' e' Hin) in Hc. discriminate.
    + destruct (b_bestLapTimeMs r) as [m|] eqn:Em.
      * destruct IH as [pre [n [e [post [Hh [He [Hr [Hpre Hpost]]]]]]]].
        exists pre, n, e, (post ++ [(n2, e2)]).
        split; [rewrite Hh, <- app_assoc; reflexivity|].
        split; [exact He|]. split; [exact Hr|]. split; [exact Hpre|].
        intros n' e' t' Hin Hc. apply in_app_or in Hin.
        destruct Hin as [Hin|[[= <- <-]|[]]].
        -- exact (Hpost n' e' t' Hin Hc).
        -- rewrite Ec in Hc. discriminate.
      * destruct IH as [Hr Hnone]. split; [exact Hr|].
        intros n e Hin. apply in_app_or in Hin. destruct Hin as [Hin|[[= <- <-]|[]]].
        -- exact (Hnone n e Hin).
        -- exact Ec.
Qed.

Lemma toRaceCar_best (st : State) (carIndex : Z) (lap : LapData.t) :
  RaceCar.bestLapTimeMs (toRaceCar st (carIndex, lap))
  = b_bestLapTimeMs (fold_left historyBestStep (historyOf st carIndex)
                       (mkBests None None None None None))
  /\ RaceCar.bestLapNum (toRaceCar st (carIndex, lap))
     = b_bestLapNumber (fold_left historyBestStep (historyOf st carIndex)
                          (mkBests None None None None None))
  /\ (LapsState.sessionKind (lapsState st) = Some time_attack ->
      RaceCar.lapTimeMs (toRaceCar st (carIndex, lap))
      = b_bestLapTimeMs (fold_left historyBestStep (historyOf st carIndex)
                           (mkBests None None None None None))
      /\ RaceCar.sector1TimeMs (toRaceCar st (carIndex, lap))
         = b_bestS1 (fold_left historyBestStep (historyOf st carIndex)
                       (mkBests None None None None None))
      /\ RaceCar.sector2TimeMs (toRaceCar st (carIndex, lap))
         = b_bestS2 (fold_left historyBestStep (historyOf st carIndex)
                       (mkBests None None None None None))
      /\ RaceCar.sector3TimeMs (toRaceCar st (carIndex, lap))
         = b_bestS3 (fold_left historyBestStep (historyOf st carIndex)
                       (mkBests None None None None None))).
Proof.
  unfold toRaceCar, historyOf. cbn [fst snd RaceCar.bestLapTimeMs RaceCar.bestLapNum
    RaceCar.lapTimeMs RaceCar.sector1TimeMs RaceCar.sector2TimeMs RaceCar.sector3TimeMs].
  destruct (map_get carIndex (sessionHistoryByCarIndex st)) as [h|];
    (split; [reflexivity|]; split; [reflexivity|]; intros Hk; rewrite Hk; cbn;
     repeat split).
Qed.

(** X12.  The best lap of a row of the leaderboard is the fastest lap of the
    car's history among the laps with a positive time and the valid bit set,
    the first of them when several are equally fast; its number is that lap's
    number.  It is absent exactly when the history has no such lap.  In a
    practice or qualifying session the row shows that lap: its time and its
    three sectors. *)
Theorem leaderboard_row_best_lap (st : State) (carIndex : Z) (lap : LapData.t) :
  match RaceCar.bestLapTimeMs (toRaceCar st (carIndex, lap)) with
  | None =>
      RaceCar.bestLapNum (toRaceCar st (carIndex, lap)) = None
      /\ (forall n e, In (n, e) (historyOf st carIndex) -> countedHistoryTime e = None)
      /\ (LapsState.sessionKind (lapsState st) = Some time_attack ->
          RaceCar.lapTimeMs (toRaceCar st (carIndex, lap)) = None)
  | Some m =>
      exists pre n e post,
        historyOf st carIndex = pre ++ (n, e) :: post
        /\ countedHistoryTime e = Some m
        /\ RaceCar.bestLapNum (toRaceCar st (carIndex, lap)) = Some n
        /\ (forall n' e' t, In (n', e') pre -> countedHistoryTime e' = Some t -> m < t)
        /\ (forall n' e' t, In (n', e') post -> countedHistoryTime e' = Some t -> m <= t)
        /\ (LapsState.sessionKind (lapsState st) = Some time_attack ->
            RaceCar.lapTimeMs (toRaceCar st (carIndex, lap)) = Some m
            /\ RaceCar.sector1TimeMs (toRaceCar st (carIndex, lap))
               = HistEntry.sector1TimeMs e
            /\ RaceCar.sector2TimeMs (toRaceCar st (carIndex, lap))
               = HistEntry.sector2TimeMs e
            /\ RaceCar.sector3TimeMs (toRaceCar st (carIndex, lap))
               = HistEntry.sector3TimeMs e)
  end.
Proof.
  destruct (toRaceCar_best st carIndex lap) as [Hb [Hn Hta]].
  pose proof (historyBest_first (historyOf st carIndex)) as Hfirst.
  rewrite Hb, Hn.
  destruct (b_bestLapTimeMs
              (fold_left historyBestStep (historyOf st carIndex)
                 (mkBests None None None None None))) as [m|] eqn:Em.
  - destruct Hfirst as [pre [n [e [post [Hh [He [Hr [Hpre Hpost]]]]]]]].
    exists pre, n, e, post. split; [exact Hh|]. split; [exact He|].
    split; [rewrite Hr; reflexivity|]. split; [exact Hpre|]. split; [exact Hpost|].
    intros Hk. destruct (Hta Hk) as [H0 [H1 [H2 H3]]].
    rewrite H0, H1, H2, H3, Hr. repeat split. 
  - destruct Hfirst as [Hr Hnone]. split; [rewrite Hr; reflexivity|].
    split; [exact Hnone|]. intros Hk. destruct (Hta Hk) as [H0 _]. exact H0.
Qed.

(** ** The pit stint of a car *)

Lemma trackPitStint_in_lane (lap : LapData.t) (p : PitStint.t) :
  LapData.pitLaneTimerActive lap = 1 ->
  PitStint.active p = true ->
  0 <= PitStint.maxTimeMs p -> 0 <= PitStint.statusMax p ->
  trackPitStint lap p
  = PitStint.set_statusMax (Z.max (PitStint.statusMax p) (LapData.pitStatus lap))
      (PitStint.set_maxTimeMs
         (Z.max (PitStint.maxTimeMs p) (LapData.pitLaneTimeInLaneInMS lap)) p).
Proof.
  intros Hflag Hact Hm Hs. unfold trackPitStint. rewrite Hflag, Hact. cbn [Z.eqb negb].
  destruct p as [a s m x lt ls ln]. cbn in *.
  destruct (LapData.pitLaneTimeInLaneInMS lap >? 0) eqn:Et;
    destruct (LapData.pitStatus lap >? 0) eqn:Es; cbn;
    try (rewrite Z.gtb_ltb in Et; apply Z.ltb_ge in Et);
    try (rewrite Z.gtb_ltb in Es; apply Z.ltb_ge in Es);
    unfold PitStint.set_statusMax, PitStint.set_maxTimeMs, PitStint.set_active,
      PitStint.set_startLapNum; cbn;
    f_equal; lia.
Qed.

Lemma trackPitStints_in_lane (laps : list LapData.t) (p : PitStint.t) :
  (forall lap, In lap laps -> LapData.pitLaneTimerActive lap = 1) ->
  PitStint.active p = true ->
  0 <= PitStint.maxTimeMs p -> 0 <= PitStint.statusMax p ->
  trackPitStints laps p
  = PitStint.set_statusMax
      (fold_left (fun m lap => Z.max m (LapData.pitStatus lap)) laps (PitStint.statusMax p))
      (PitStint.set_maxTimeMs
         (fold_left (fun m lap => Z.max m (LapData.pitLaneTimeInLaneInMS lap)) laps
            (PitStint.maxTimeMs p)) p).
Proof.
  revert p. unfold trackPitStints.
  induction laps as [|lap laps IH]; intros p Hall Hact Hm Hs; simpl.
  - destruct p; reflexivity.
  - rewrite (trackPitStint_in_lane lap p (Hall lap (or_introl eq_refl)) Hact Hm Hs).
    rewrite IH.
    + destruct p; reflexivity.
    + intros l Hl. apply Hall. right. exact Hl.
    + destruct p; exact Hact.
    + destruct p; cbn in *; lia.
    + destruct p; cbn in *; lia.
Qed.

(** X13.  The pit stint of a car over a run of lap records.  From an idle
    tracker, a run of records in the pit lane leaves the tracker active, with
    the lap number of the first record as the start lap and the greatest time
    in the lane and the greatest pit status seen so far; the first record out
    of the lane closes the stint: the tracker is idle again and remembers the
    start lap, the greatest time (absent when no time was positive) and the
    greatest status as the last stint. *)
Theorem pit_stint_of_a_run (p0 : PitStint.t) (first : LapData.t)
  (rest : list LapData.t) (out : LapData.t) :
  PitStint.active p0 = false ->
  LapData.pitLaneTimerActive first = 1 ->
  (forall lap, In lap rest -> LapData.pitLaneTimerActive lap = 1) ->
  LapData.pitLaneTimerActive out <> 1 ->
  trackPitStints (first :: rest) p0
  = PitStint.mk true (Some (LapData.currentLapNum first))
      (greatest LapData.pitLaneTimeInLaneInMS (first :: rest))
      (greatest LapData.pitStatus (first :: rest))
      (PitStint.lastTimeMs p0) (PitStint.lastStatusMax p0) (PitStint.lastLapNum p0)
  /\ trackPitStints (first :: rest ++ [out]) p0
     = PitStint.mk false None 0 0
         (if greatest LapData.pitLaneTimeInLaneInMS (first :: rest) >? 0
          then Some (greatest LapData.pitLaneTimeInLaneInMS (first :: rest))
          else None)
         (greatest LapData.pitStatus (first :: rest))
         (Some (LapData.currentLapNum first)).
Proof.
  intros Hidle Hfirst Hrest Hout.
  assert (Hopen : trackPitStint first p0
                  = PitStint.mk true (Some (LapData.currentLapNum first))
                      (Z.max 0 (LapData.pitLaneTimeInLaneInMS first))
                      (Z.max 0 (LapData.pitStatus first))
                      (PitStint.lastTimeMs p0) (PitStint.lastStatusMax p0)
                      (PitStint.lastLapNum p0)).
  { unfold trackPitStint. rewrite Hfirst, Hidle. cbn [Z.eqb negb].
    destruct p0 as [a s m x lt ls ln]. cbn.
    destruct (LapData.pitLaneTimeInLaneInMS first >? 0) eqn:Et;
      destruct (LapData.pitStatus first >? 0) eqn:Es; cbn;
      try (rewrite Z.gtb_ltb in Et; apply Z.ltb_ge in Et);
      try (rewrite Z.gtb_ltb in Es; apply Z.ltb_ge in Es);
      unfold PitStint.set_statusMax, PitStint.set_maxTimeMs, PitStint.set_active,
        PitStint.set_startLapNum; cbn;
      f_equal; lia. }
  assert (Hrun : trackPitStints (first :: rest) p0
                 = PitStint.mk true (Some (LapData.currentLapNum first))
                     (greatest LapData.pitLaneTimeInLaneInMS (first :: rest))
                     (greatest LapData.pitStatus (first :: rest))
                     (PitStint.lastTimeMs p0) (PitStint.lastStatusMax p0)
                     (PitStint.lastLapNum p0)).
  { change (trackPitStints (first :: rest) p0)
      with (trackPitStints rest (trackPitStint first p0)).
    rewrite Hopen, trackPitStints_in_lane; [reflexivity | exact Hrest | reflexivity | |];
      cbn; lia. }
  split; [exact Hrun|].
  change (first :: rest ++ [out]) with ((first :: rest) ++ [out]).
  unfold trackPitStints in *. rewrite fold_left_app, Hrun. cbn [fold_left].
  unfold trackPitStint.
  replace (LapData.pitLaneTimerActive out =? 1) with false
    by (symmetry; apply Z.eqb_neq; exact Hout).
  reflexivity.
Qed.

Lemma pit_stint_of_a_run_witness :
  trackPitStints [recordInLane 5000 1; recordInLane 15000 2; recordInLane 23000 1;
                  recordOnLap 11] defaultPitStint
  = PitStint.mk false None 0 0 (Some 23000) 2 (Some 10).
Proof.
  refine (eq_trans
            (proj2 (@pit_stint_of_a_run defaultPitStint (recordInLane 5000 1)
                      [recordInLane 15000 2; recordInLane 23000 1] (recordOnLap 11)
                      _ _ _ _)) _).
  - reflexivity.
  - reflexivity.
  - intros lap [<-|[<-|[]]]; reflexivity.
  - discriminate.
  - reflexivity.
Defined.

(** * Invariants of the reachable states, continued *)

(** Reads a variable of [st'] in [st0] when the handler's footprint [E] does
    not cover it. *)
Ltac through E mask f :=
  rewrite (@via_mask _ f mask _ _ (fun _ => eq_refl) E).

Lemma keptByLapData_fields (a b : State) :
  keptByLapData a = keptByLapData b ->
  numActiveCars a = numActiveCars b
  /\ participantsNameByIndex a = participantsNameByIndex b
  /\ participantsTeamIdByIndex a = participantsTeamIdByIndex b
  /\ participantsColorByIndex a = participantsColorByIndex b
  /\ carStatusByIndex a = carStatusByIndex b
  /\ carTelemetryByIndex a = carTelemetryByIndex b
  /\ carDamageByIndex a = carDamageByIndex b
  /\ sessionHistoryByCarIndex a = sessionHistoryByCarIndex b
  /\ PlayerState.sessionUID (playerState a) = PlayerState.sessionUID (playerState b)
  /\ LapsState.sessionKind (lapsState a) = LapsState.sessionKind (lapsState b).
Proof.
  unfold keptByLapData, tyreSource.
  generalize (lapsState a), (lapsState b), (currentTyres a), (currentTyres b).
  intros la lb ta tb H. injection H. intros. repeat split; assumption.
Qed.

(** The pattern of the inductions below: the initial state, a reset, and a
    datagram with a header and a handled packet id. *)
Lemma reachable_induction (P : State -> Prop) :
  P initialState ->
  (forall uid st, P (resetSessionState uid st)) ->
  (forall msg st st' out h,
      reachable st -> P st -> P (enterSession h st) ->
      parseHeader msg = Ok (Some h) ->
      onMessage msg st = Ok (st', out) -> P st') ->
  forall st, reachable st -> P st.
Proof.
  intros Hinit Hreset Hstep st Hr. induction Hr as [|st st' msg out Hr IH Hrun].
  - exact Hinit.
  - destruct (parseHeader msg) as [[h|]|] eqn:Hh.
    + apply (Hstep msg st st' out h Hr IH); [|exact Hh | exact Hrun].
      unfold enterSession. destruct (sessionIsNew h st); [apply Hreset | exact IH].
    + unfold onMessage in Hrun. rewrite Hh in Hrun. cbn [bind] in Hrun.
      injection Hrun as <- _. exact IH.
    + unfold onMessage in Hrun. rewrite Hh in Hrun. discriminate.
Qed.

(** ** Participants *)

Lemma isEmptyName_false (n : Name) : isEmptyName n = false -> n <> [].
Proof. destruct n; [discriminate | intros _ H; discriminate]. Qed.

Lemma participantsLoopBody_aligned (buf : Buffer) (base i : Z) (s s' : State) :
  In i carSlots ->
  participantsLoopBody buf base i s = Ok s' ->
  participantsAligned s -> participantsAligned s'.
Proof.
  intros Hi Hb HP. apply carSlots_range in Hi. unfold participantsLoopBody in Hb.
  destruct (isEmptyName _) eqn:En; [injection Hb as <-; exact HP|].
  destruct (parseParticipantMeta buf _) as [m|]; cbn [bind] in Hb; [|discriminate].
  injection Hb as <-. intros j n. cbn. rewrite !map_get_set.
  destruct (i =? j) eqn:E.
  - apply Z.eqb_eq in E. subst j. intros [= <-].
    split; [apply isEmptyName_false; exact En|]. split; [exact Hi|].
    split; discriminate.
  - intros Hn. exact (HP j n Hn).
Qed.

Lemma handleParticipantsPacket_aligned (buf : Buffer) (st st' : State)
  (out : list LapsState.t) (h : Header.t) :
  parseHeader buf = Ok (Some h) ->
  handleParticipantsPacket buf st = Ok (st', out) ->
  participantsAligned (enterSession h st) -> participantsAligned st'.
Proof.
  unfold handleParticipantsPacket. intros Hh. rewrite Hh. cbn [bind]. intros H.
  enter_run h st H. revert H. generalize (enterSession h st). intros st0 H HP.
  destruct (readUInt8 buf HEADER_SIZE) as [n|]; cbn [bind] in H; [|discriminate].
  destruct (buf_length buf <? _) in H; [injection H as <- <-; exact HP|].
  match type of H with
  | context [forEachSlot ?b ?l ?s] => destruct (forEachSlot b l s) as [s1|] eqn:E
  end; cbn [bind] in H; [|discriminate].
  injection H as <- <-.
  apply (forEachSlot_preserves participantsAligned) in E; [exact E| |exact HP].
  intros i s s' Hi Hb. exact (@participantsLoopBody_aligned _ _ _ _ _ Hi Hb).
Qed.

Lemma onMessage_participantsAligned (msg : Buffer) (st st' : State)
  (out : list LapsState.t) (h : Header.t) :
  participantsAligned st -> participantsAligned (enterSession h st) ->
  parseHeader msg = Ok (Some h) ->
  onMessage msg st = Ok (st', out) -> participantsAligned st'.
Proof.
  intros HP HP0 Hh H.
  destruct (@onMessage_cases _ _ _ _ H) as [[-> _]|[H1|[H1|[H1|[H1|[H1|[H1|H1]]]]]]].
  - exact HP.
  - destruct (@handleSessionPacket_writes _ _ _ _ _ Hh H1) as [E _]. unfold participantsAligned.
    through E exceptSession participantsNameByIndex.
    through E exceptSession participantsTeamIdByIndex.
    through E exceptSession participantsColorByIndex. exact HP0.
  - exact (@handleParticipantsPacket_aligned _ _ _ _ _ Hh H1 HP0).
  - destruct (@handleSessionHistoryPacket_writes _ _ _ _ _ Hh H1) as [E _]. unfold participantsAligned.
    through E exceptHistory participantsNameByIndex.
    through E exceptHistory participantsTeamIdByIndex.
    through E exceptHistory participantsColorByIndex. exact HP0.
  - destruct (@handleLapDataPacket_writes _ _ _ _ _ Hh H1) as [E _].
    apply keptByLapData_fields in E. destruct E as [_ [E1 [E2 [E3 _]]]].
    unfold participantsAligned. rewrite E1, E2, E3. exact HP0.
  - destruct (@handleCarTelemetryPacket_writes _ _ _ _ _ Hh H1) as [E _]. unfold participantsAligned.
    through E exceptTelemetry participantsNameByIndex.
    through E exceptTelemetry participantsTeamIdByIndex.
    through E exceptTelemetry participantsColorByIndex. exact HP0.
  - destruct (@handleCarStatusPacket_writes _ _ _ _ _ Hh H1) as [E _]. unfold participantsAligned.
    through E exceptStatus participantsNameByIndex.
    through E exceptStatus participantsTeamIdByIndex.
    through E exceptStatus participantsColorByIndex. exact HP0.
  - destruct (@handleCarDamagePacket_writes _ _ _ _ _ Hh H1) as [E _]. unfold participantsAligned.
    through E exceptDamage participantsNameByIndex.
    through E exceptDamage participantsTeamIdByIndex.
    through E exceptDamage participantsColorByIndex. exact HP0.
Qed.

Lemma reachable_participantsAligned (st : State) : reachable st -> participantsAligned st.
Proof.
  apply reachable_induction.
  - intros i n [=].
  - intros uid s i n [=].
  - intros msg s s' out h _ HP HP0 Hh H.
    exact (@onMessage_participantsAligned _ _ _ _ _ HP HP0 Hh H).
Qed.

(** ** The per-car caches of the lap-data handler *)

Lemma trackPitStint_active (lap : LapData.t) (p : PitStint.t) :
  PitStint.active (trackPitStint lap p) = (LapData.pitLaneTimerActive lap =? 1).
Proof.
  unfold trackPitStint. destruct (LapData.pitLaneTimerActive lap =? 1).
  - destruct (PitStint.active p) eqn:Ea; cbn [negb];
      repeat break_match; cbn; try reflexivity; exact Ea.
  - destruct (PitStint.active p) eqn:Ea; [reflexivity | exact Ea].
Qed.

Lemma perCarLapView_fields (a b : State) :
  perCarLapView a = perCarLapView b ->
  lapDataByIndex a = lapDataByIndex b
  /\ sectorCacheByIndex a = sectorCacheByIndex b
  /\ pitLaneStintByIndex a = pitLaneStintByIndex b.
Proof. unfold perCarLapView. intros [= H1 H2 H3]. auto. Qed.

Lemma lapCachesAligned_view (a b : State) :
  perCarLapView a = perCarLapView b -> lapCachesAligned b -> lapCachesAligned a.
Proof.
  intros Hv. apply perCarLapView_fields in Hv. destruct Hv as [E1 [E2 E3]].
  unfold lapCachesAligned, lapRecordCached. rewrite E1, E2, E3. exact (fun H => H).
Qed.

Lemma orElse_cases (A : Type) (a b : option A) (x : A) :
  orElse a b = Some x -> a = Some x \/ (a = None /\ b = Some x).
Proof. destruct a; simpl; auto. Qed.

Lemma storeLapData_aligned (i : Z) (lap : LapData.t) (buf : Buffer) (o : Z) (s : State) :
  0 <= i < NUM_CARS ->
  parseLapDataForCar buf o = Ok (Some lap) ->
  lapCachesAligned s -> lapCachesAligned (storeLapData i lap s).
Proof.
  intros Hi Hparse [Hlap Hsec].
  destruct (parseLapDataForCar_decoded _ _ Hparse) as [Htimes Hs3].
  assert (Hprev : forall c, match map_get i (sectorCacheByIndex s) with
                            | Some c0 => c0
                            | None => SectorCache.mk None None None
                            end = c ->
                  sectorsNotNegative (SectorCache.sector1TimeMs c)
                    (SectorCache.sector2TimeMs c) (SectorCache.sector3TimeMs c)).
  { intros c <-. destruct (map_get i (sectorCacheByIndex s)) as [c0|] eqn:Ec.
    - exact (Hsec i c0 Ec).
    - intros x [H|[H|H]]; discriminate. }
  assert (Hnext : sectorsNotNegative
                    (orElse (LapData.sector1TimeMs lap)
                       (SectorCache.sector1TimeMs
                          match map_get i (sectorCacheByIndex s) with
                          | Some c0 => c0
                          | None => SectorCache.mk None None None
                          end))
                    (orElse (LapData.sector2TimeMs lap)
                       (SectorCache.sector2TimeMs
                          match map_get i (sectorCacheByIndex s) with
                          | Some c0 => c0
                          | None => SectorCache.mk None None None
                          end))
                    (orElse (LapData.sector3TimeMs lap)
                       (SectorCache.sector3TimeMs
                          match map_get i (sectorCacheByIndex s) with
                          | Some c0 => c0
                          | None => SectorCache.mk None None None
                          end))).
  { specialize (Hprev _ eq_refl).
    generalize dependent (match map_get i (sectorCacheByIndex s) with
                          | Some c0 => c0
                          | None => SectorCache.mk None None None
                          end).
    intros c Hc x [H|[H|H]]; apply orElse_cases in H; destruct H as [H|[_ H]].
    - pose proof (Htimes x (or_introl H)). lia.
    - apply Hc. auto.
    - pose proof (Htimes x (or_intror (or_introl H))). lia.
    - apply Hc. auto.
    - destruct (Hs3 x H) as [Hx _]. exact Hx.
    - apply Hc. auto. }
  unfold storeLapData. cbv zeta. split.
  - intros j l. cbn [lapDataByIndex set_lapDataByIndex]. rewrite map_get_set.
    destruct (i =? j) eqn:E.
    + apply Z.eqb_eq in E. subst j. intros [= <-]. unfold lapRecordCached.
      cbn. rewrite !map_get_set_eq.
      split; [exact Hi|]. split.
      { intros g [Hg|Hg]; [apply (Htimes g) | apply (Htimes g)]; auto. }
      split; [reflexivity|].
      eexists. split; [reflexivity|]. apply trackPitStint_active.
    + intros Hl. apply Z.eqb_neq in E. destruct (Hlap j l Hl) as [Hj [Hg [Hc Hp]]].
      unfold lapRecordCached. cbn. rewrite !map_get_set_neq by exact E.
      split; [exact Hj|]. split; [exact Hg|]. split; [exact Hc | exact Hp].
  - intros j c. cbn. rewrite map_get_set. destruct (i =? j) eqn:E.
    + intros [= <-]. exact Hnext.
    + apply Hsec.
Qed.

Lemma playerSection_perCarLapView (p : Z) (lap : LapData.t) (st : State) :
  perCarLapView (playerSection p lap st) = perCarLapView st.
Proof. player_view perCarLapView p lap. Qed.

Lemma publishLeaderboard_perCarLapView (p : Z) (st : State) :
  perCarLapView (publishLeaderboard p st) = perCarLapView st.
Proof.
  unfold publishLeaderboard. cbv zeta.
  transitivity (perCarLapView (fold_left raceBestsStep (buildRaceCars st p) st));
    [reflexivity|].
  apply (@via_mask _ perCarLapView withoutRaceBests); [reflexivity|].
  apply raceBests_fold_frame.
Qed.

Lemma lapDataLoop_aligned (buf : Buffer) (st st' : State) :
  forEachSlot (lapDataLoopBody buf) carSlots st = Ok st' ->
  lapCachesAligned st -> lapCachesAligned st'.
Proof.
  intros H HP.
  apply (@forEachSlot_preserves lapCachesAligned) in H; [exact H| |exact HP].
  intros i s s' Hi Hb HPs. apply carSlots_range in Hi. unfold lapDataLoopBody in Hb.
  destruct (parseLapDataForCar buf _) as [[lap|]|] eqn:El; cbn [bind] in Hb;
    [| |discriminate]; injection Hb as <-; [|exact HPs].
  exact (@storeLapData_aligned i lap buf _ s Hi El HPs).
Qed.

Lemma handleLapDataPacket_aligned (buf : Buffer) (st st' : State)
  (out : list LapsState.t) (h : Header.t) :
  parseHeader buf = Ok (Some h) ->
  handleLapDataPacket buf st = Ok (st', out) ->
  lapCachesAligned (enterSession h st) -> lapCachesAligned st'.
Proof.
  intros Hh H HP. apply handleLapDataPacket_blocks in H.
  destruct H as [[Hn _]|[h' [st0 [st1 [Hh' [Hst0 [Hloop Hrest]]]]]]]; [congruence|].
  assert (h' = h) by congruence. subst h'.
  assert (HP0 : lapCachesAligned st0).
  { apply (@lapCachesAligned_view st0 (enterSession h st)); [|exact HP].
    rewrite Hst0. reflexivity. }
  pose proof (lapDataLoop_aligned _ Hloop HP0) as HP1.
  destruct Hrest as [[-> _]|[lap [_ [_ [-> _]]]]].
  - apply (@lapCachesAligned_view _ st1); [|exact HP1].
    apply publishLeaderboard_perCarLapView.
  - apply (@lapCachesAligned_view _ st1); [|exact HP1].
    rewrite playerSection_perCarLapView. apply publishLeaderboard_perCarLapView.
Qed.

Lemma onMessage_lapCachesAligned (msg : Buffer) (st st' : State)
  (out : list LapsState.t) (h : Header.t) :
  lapCachesAligned st -> lapCachesAligned (enterSession h st) ->
  parseHeader msg = Ok (Some h) ->
  onMessage msg st = Ok (st', out) -> lapCachesAligned st'.
Proof.
  intros HP HP0 Hh H.
  destruct (@onMessage_cases _ _ _ _ H) as [[-> _]|[H1|[H1|[H1|[H1|[H1|[H1|H1]]]]]]].
  - exact HP.
  - destruct (@handleSessionPacket_writes _ _ _ _ _ Hh H1) as [E _].
    apply (@lapCachesAligned_view _ (enterSession h st)); [|exact HP0].
    exact (@via_mask _ perCarLapView exceptSession _ _ (fun _ => eq_refl) E).
  - destruct (@handleParticipantsPacket_writes _ _ _ _ _ Hh H1) as [E _].
    apply (@lapCachesAligned_view _ (enterSession h st)); [|exact HP0].
    exact (@via_mask _ perCarLapView exceptParticipants _ _ (fun _ => eq_refl) E).
  - destruct (@handleSessionHistoryPacket_writes _ _ _ _ _ Hh H1) as [E _].
    apply (@lapCachesAligned_view _ (enterSession h st)); [|exact HP0].
    exact (@via_mask _ perCarLapView exceptHistory _ _ (fun _ => eq_refl) E).
  - exact (@handleLapDataPacket_aligned _ _ _ _ _ Hh H1 HP0).
  - destruct (@handleCarTelemetryPacket_writes _ _ _ _ _ Hh H1) as [E _].
    apply (@lapCachesAligned_view _ (enterSession h st)); [|exact HP0].
    exact (@via_mask _ perCarLapView exceptTelemetry _ _ (fun _ => eq_refl) E).
  - destruct (@handleCarStatusPacket_writes _ _ _ _ _ Hh H1) as [E _].
    apply (@lapCachesAligned_view _ (enterSession h st)); [|exact HP0].
    exact (@via_mask _ perCarLapView exceptStatus _ _ (fun _ => eq_refl) E).
  - destruct (@handleCarDamagePacket_writes _ _ _ _ _ Hh H1) as [E _].
    apply (@lapCachesAligned_view _ (enterSession h st)); [|exact HP0].
    exact (@via_mask _ perCarLapView exceptDamage _ _ (fun _ => eq_refl) E).
Qed.

Lemma reachable_lapCachesAligned (st : State) : reachable st -> lapCachesAligned st.
Proof.
  apply reachable_induction.
  - split; intros i x [=].
  - intros uid s. split; intros i x [=].
  - intros msg s s' out h _ HP HP0 Hh H.
    exact (@onMessage_lapCachesAligned _ _ _ _ _ HP HP0 Hh H).
Qed.

(** * The session history *)

Lemma map_set_fresh (V : Type) (k : Z) (v : V) (m : JSMap V) :
  ~ In k (map_keys m) -> map_set k v m = m ++ [(k, v)].
Proof.
  induction m as [|[k0 v0] m IH]; simpl; intros Hk; [reflexivity|].
  destruct (k0 =? k) eqn:E.
  - apply Z.eqb_eq in E. exfalso. apply Hk. left. exact E.
  - f_equal. apply IH. intros H. apply Hk. right. exact H.
Qed.

Lemma parseLapHistoryEntry_positive (buf : Buffer) (o : Z) (e : HistEntry.t) (t : Z) :
  parseLapHistoryEntry buf o = Ok e -> HistEntry.lapTimeMs e = Some t -> 0 < t.
Proof.
  unfold parseLapHistoryEntry. intros H. split_run H; injection H as <-; cbn;
    try discriminate; intros [= <-]; apply Z.gtb_lt; assumption.
Qed.

(** The reading loop stores the laps it reads under consecutive numbers,
    after the entries it started with, and stops at the first lap that does
    not fit in the buffer. *)
Lemma readLapHistory_spec (buf : Buffer) (base : Z) (n : nat) (i : Z)
  (acc byLap : JSMap HistEntry.t) :
  0 <= i ->
  (forall k, In k (map_keys acc) -> k <= i) ->
  readLapHistory buf base n i acc = Ok byLap ->
  exists cnt,
    (cnt <= n)%nat
    /\ (cnt = n
        \/ base + (i + Z.of_nat cnt) * LAP_HISTORY_DATA_SIZE + LAP_HISTORY_DATA_SIZE
           > buf_length buf)
    /\ (forall j, (j < cnt)%nat ->
          base + (i + Z.of_nat j) * LAP_HISTORY_DATA_SIZE + LAP_HISTORY_DATA_SIZE
          <= buf_length buf)
    /\ map_keys byLap = map_keys acc ++ map (fun j => i + 1 + Z.of_nat j) (seq 0 cnt)
    /\ forall m e, In (m, e) byLap ->
         In (m, e) acc
         \/ (i < m /\ parseLapHistoryEntry buf (base + (m - 1) * LAP_HISTORY_DATA_SIZE) = Ok e).
Proof.
  revert i acc. induction n as [|n IH]; intros i acc Hi Hacc; simpl.
  - intros [= <-]. exists O. split; [lia|]. split; [left; reflexivity|].
    split; [intros j Hj; lia|]. split; [simpl; rewrite app_nil_r; reflexivity|].
    intros m e Hin. left. exact Hin.
  - destruct (base + i * LAP_HISTORY_DATA_SIZE + LAP_HISTORY_DATA_SIZE >? buf_length buf)
      eqn:E.
    + intros [= <-]. exists O. split; [lia|]. split.
      { right. rewrite Z.gtb_ltb in E. apply Z.ltb_lt in E. simpl. rewrite Z.add_0_r. lia. }
      split; [intros j Hj; lia|]. split; [simpl; rewrite app_nil_r; reflexivity|].
      intros m e Hin. left. exact Hin.
    + rewrite Z.gtb_ltb in E. apply Z.ltb_ge in E.
      destruct (parseLapHistoryEntry buf _) as [e0|] eqn:Ee; cbn [bind]; [|discriminate].
      intros Hrun.
      assert (Hfresh : ~ In (i + 1) (map_keys acc)).
      { intros Hin. apply Hacc in Hin. lia. }
      rewrite (@map_set_fresh _ _ e0 _ Hfresh) in Hrun.
      apply IH in Hrun; [|lia|].
      2: { intros k Hk. unfold map_keys in Hk. rewrite map_app in Hk.
           apply in_app_or in Hk. destruct Hk as [Hk|[<-|[]]]; [|simpl; lia].
           apply Hacc in Hk. lia. }
      destruct Hrun as [cnt [Hle [Hstop [Hfit [Hkeys Hent]]]]].
      exists (S cnt). split; [lia|]. split.
      { destruct Hstop as [->|Hstop]; [left; reflexivity|]. right.
        rewrite Nat2Z.inj_succ. replace (i + Z.succ (Z.of_nat cnt)) with (i + 1 + Z.of_nat cnt) by lia.
        exact Hstop. }
      split.
      { intros j Hj. destruct j as [|j].
        - simpl. rewrite Z.add_0_r. exact E.
        - rewrite Nat2Z.inj_succ.
          replace (i + Z.succ (Z.of_nat j)) with (i + 1 + Z.of_nat j) by lia.
          apply Hfit. lia. }
      split.
      { rewrite Hkeys. unfold map_keys. rewrite map_app, <- app_assoc. f_equal.
        simpl. rewrite Z.add_0_r. f_equal.
        rewrite <- seq_shift, map_map. apply map_ext. intros j.
        rewrite Nat2Z.inj_succ. lia. }
      intros m e Hin. destruct (Hent m e Hin) as [Hin'|[Hm Hp]].
      * apply in_app_or in Hin'. destruct Hin' as [Hin'|[[= <- <-]|[]]].
        -- left. exact Hin'.
        -- right. split; [lia|].
           replace (i + 1 - 1) with i by lia. exact Ee.
      * right. split; [lia | exact Hp].
Qed.

(** What the history handler does to the history tables, for a datagram that
    passes its two length tests. *)
Lemma handleSessionHistoryPacket_table (buf : Buffer) (st st' : State)
  (out : list LapsState.t) (h : Header.t) :
  parseHeader buf = Ok (Some h) ->
  HEADER_SIZE + 7 + LAP_HISTORY_DATA_SIZE <= buf_length buf ->
  handleSessionHistoryPacket buf st = Ok (st', out) ->
  exists byLap,
    sessionHistoryByCarIndex st'
    = map_set (byteAt buf HEADER_SIZE) byLap
        (sessionHistoryByCarIndex (enterSession h st))
    /\ map_keys byLap
       = map Z.of_nat
           (seq 1 (Z.to_nat
                     (Z.min (Z.min (byteAt buf (HEADER_SIZE + 1)) 100)
                        ((buf_length buf - (HEADER_SIZE + 7)) / LAP_HISTORY_DATA_SIZE))))
    /\ forall n e,
         In (n, e) byLap ->
         parseLapHistoryEntry buf (HEADER_SIZE + 7 + (n - 1) * LAP_HISTORY_DATA_SIZE)
         = Ok e.
Proof.
  unfold handleSessionHistoryPacket. intros Hh Hlen. rewrite Hh. cbn [bind]. intros H.
  enter_run h st H. revert H. generalize (enterSession h st). intros st0 H.
  unfold HEADER_SIZE, LAP_HISTORY_DATA_SIZE in *.
  replace (buf_length buf <? 29 + 7) with false in H by (symmetry; apply Z.ltb_ge; lia).
  revert H. reads_ok.
  replace (buf_length buf <? 29 + 7 + 14) with false by (symmetry; apply Z.ltb_ge; lia).
  destruct (readLapHistory buf (29 + 7) _ 0 []) as [byLap|] eqn:Er; cbn [bind];
    [|discriminate].
  intros H. exists byLap. split.
  { destruct (byteAt buf (29 + 0) =? Header.playerCarIndex h);
      injection H as <- _; reflexivity. }
  clear H. apply readLapHistory_spec in Er; [|lia|intros k []].
  destruct Er as [cnt [Hle [Hstop [Hfit [Hkeys Hent]]]]].
  unfold LAP_HISTORY_DATA_SIZE in *.
  pose proof (byteAt_range buf (29 + 1)) as Hb.
  assert (Hcnt : Z.of_nat cnt
                 = Z.min (Z.min (byteAt buf (29 + 1)) 100) ((buf_length buf - (29 + 7)) / 14)).
  { assert (Hlast : cnt = O \/ 29 + 7 + (0 + (Z.of_nat cnt - 1)) * 14 + 14 <= buf_length buf).
    { destruct cnt as [|c]; [left; reflexivity | right].
      specialize (Hfit c ltac:(lia)). rewrite Nat2Z.inj_succ. 
      replace (Z.succ (Z.of_nat c) - 1) with (Z.of_nat c) by lia. exact Hfit. }
    destruct Hstop as [Hstop|Hstop]; Z.div_mod_to_equations; lia. }
  split.
  - rewrite Hkeys, <- Hcnt, Nat2Z.id, <- seq_shift, map_map. cbn [map_keys map app].
    apply map_ext. intros j. lia.
  - intros n e Hin. destruct (Hent n e Hin) as [[]|[_ Hp]]. exact Hp.
Qed.

(** X14.  A session-history datagram that passes the two length tests
    replaces the table of the car it names, and only that table.  The new
    table holds the laps [1 .. k] in order, lap [n] decoded from the 14 bytes
    at offset [36 + 14 (n - 1)], where [k] is the least of the lap count of
    the datagram, 100, and the number of whole lap entries the buffer holds:
    the loop never reads past the buffer. *)
Theorem history_table_shape (buf : Buffer) (st st' : State)
  (out : list LapsState.t) (h : Header.t) :
  parseHeader buf = Ok (Some h) ->
  HEADER_SIZE + 7 + LAP_HISTORY_DATA_SIZE <= buf_length buf ->
  handleSessionHistoryPacket buf st = Ok (st', out) ->
  exists byLap,
    sessionHistoryByCarIndex st'
    = map_set (byteAt buf HEADER_SIZE) byLap
        (sessionHistoryByCarIndex (enterSession h st))
    /\ map_keys byLap
       = map Z.of_nat
           (seq 1 (Z.to_nat
                     (Z.min (Z.min (byteAt buf (HEADER_SIZE + 1)) 100)
                        ((buf_length buf - (HEADER_SIZE + 7)) / LAP_HISTORY_DATA_SIZE))))
    /\ forall n e,
         In (n, e) byLap ->
         parseLapHistoryEntry buf (HEADER_SIZE + 7 + (n - 1) * LAP_HISTORY_DATA_SIZE)
         = Ok e.
Proof. apply handleSessionHistoryPacket_table. Qed.

Lemma history_table_shape_witness :
  exists byLap,
    sessionHistoryByCarIndex (stateAfter [historyTwoLaps]) = [(0, byLap)]
    /\ map_keys byLap = [1; 2].
Proof.
  destruct (@history_table_shape historyTwoLaps initialState
              (stateAfter [historyTwoLaps]) [] historyHeader1)
    as [byLap [H1 [H2 _]]].
  - vm_compute. reflexivity.
  - vm_compute. discriminate.
  - vm_compute. reflexivity.
  - exists byLap. split; [exact H1|]. rewrite H2. vm_compute. reflexivity.
Defined.

(** ** Every stored history lap time is positive *)

Lemma handleSessionHistoryPacket_decoded (buf : Buffer) (st st' : State)
  (out : list LapsState.t) (h : Header.t) :
  parseHeader buf = Ok (Some h) ->
  handleSessionHistoryPacket buf st = Ok (st', out) ->
  historyDecoded (enterSession h st) -> historyDecoded st'.
Proof.
  intros Hh H HP.
  destruct (Z_lt_ge_dec (buf_length buf) (HEADER_SIZE + 7 + LAP_HISTORY_DATA_SIZE))
    as [Hshort|Hlong].
  - assert (E : sessionHistoryByCarIndex st'
                = sessionHistoryByCarIndex (enterSession h st)).
    { unfold handleSessionHistoryPacket in H. rewrite Hh in H. cbn [bind] in H.
      enter_run h st H. revert H. generalize (enterSession h st). intros st0 H.
      destruct (buf_length buf <? HEADER_SIZE + 7); [injection H as <- _; reflexivity|].
      destruct (readUInt8 buf (HEADER_SIZE + 0)); cbn [bind] in H; [|discriminate].
      destruct (readUInt8 buf (HEADER_SIZE + 1)); cbn [bind] in H; [|discriminate].
      replace (buf_length buf <? HEADER_SIZE + 7 + LAP_HISTORY_DATA_SIZE) with true in H
        by (symmetry; apply Z.ltb_lt; exact Hshort).
      injection H as <- _. reflexivity. }
    unfold historyDecoded. rewrite E. exact HP.
  - apply Z.ge_le in Hlong.
    destruct (@handleSessionHistoryPacket_table _ _ _ _ _ Hh Hlong H)
      as [byLap [E [_ Hent]]].
    unfold historyDecoded. rewrite E. intros car t n e x.
    rewrite map_get_set. destruct (byteAt buf HEADER_SIZE =? car).
    + intros [= <-] Hin Ht.
      exact (@parseLapHistoryEntry_positive buf _ e x (Hent n e Hin) Ht).
    + apply HP.
Qed.

Lemma onMessage_historyDecoded (msg : Buffer) (st st' : State)
  (out : list LapsState.t) (h : Header.t) :
  historyDecoded st -> historyDecoded (enterSession h st) ->
  parseHeader msg = Ok (Some h) ->
  onMessage msg st = Ok (st', out) -> historyDecoded st'.
Proof.
  intros HP HP0 Hh H.
  destruct (@onMessage_cases _ _ _ _ H) as [[-> _]|[H1|[H1|[H1|[H1|[H1|[H1|H1]]]]]]].
  - exact HP.
  - destruct (@handleSessionPacket_writes _ _ _ _ _ Hh H1) as [E _].
    unfold historyDecoded. through E exceptSession sessionHistoryByCarIndex. exact HP0.
  - destruct (@handleParticipantsPacket_writes _ _ _ _ _ Hh H1) as [E _].
    unfold historyDecoded. through E exceptParticipants sessionHistoryByCarIndex. exact HP0.
  - exact (@handleSessionHistoryPacket_decoded _ _ _ _ _ Hh H1 HP0).
  - destruct (@handleLapDataPacket_writes _ _ _ _ _ Hh H1) as [E _].
    apply keptByLapData_fields in E. destruct E as [_ [_ [_ [_ [_ [_ [_ [E _]]]]]]]].
    unfold historyDecoded. rewrite E. exact HP0.
  - destruct (@handleCarTelemetryPacket_writes _ _ _ _ _ Hh H1) as [E _].
    unfold historyDecoded. through E exceptTelemetry sessionHistoryByCarIndex. exact HP0.
  - destruct (@handleCarStatusPacket_writes _ _ _ _ _ Hh H1) as [E _].
    unfold historyDecoded. through E exceptStatus sessionHistoryByCarIndex. exact HP0.
  - destruct (@handleCarDamagePacket_writes _ _ _ _ _ Hh H1) as [E _].
    unfold historyDecoded. through E exceptDamage sessionHistoryByCarIndex. exact HP0.
Qed.

Lemma reachable_historyDecoded (st : State) : reachable st -> historyDecoded st.
Proof.
  apply reachable_induction.
  - intros car h n e t [=].
  - intros uid s car h n e t [=].
  - intros msg s s' out h _ HP HP0 Hh H.
    exact (@onMessage_historyDecoded _ _ _ _ _ HP HP0 Hh H).
Qed.

(** * The per-lap tables of the player *)

Lemma NoDup_keys_filter (V : Type) (p : Z -> bool) (m : JSMap V) :
  NoDup (map_keys m) -> NoDup (map_keys (filter (fun kv => p (fst kv)) m)).
Proof.
  unfold map_keys. induction m as [|[k v] m IH]; simpl; intros Hnd; [constructor|].
  inversion Hnd as [|? ? Hnot Hnd']; subst.
  destruct (p k); simpl; [|exact (IH Hnd')].
  constructor; [|exact (IH Hnd')].
  intros Hin. apply Hnot. apply in_map_iff in Hin. destruct Hin as [[k0 v0] [Hk Hin]].
  apply filter_In in Hin. apply in_map_iff. exists (k0, v0). split; [exact Hk | tauto].
Qed.

Lemma NoDup_keys_deleteFrom (V : Type) (c : Z) (m : JSMap V) :
  NoDup (map_keys m) -> NoDup (map_keys (deleteFrom c m)).
Proof.
  intros H. rewrite deleteFrom_filter. apply (NoDup_keys_filter (fun k => k <? c)). exact H.
Qed.

Lemma map_keys_set_present (V : Type) (k : Z) (v v0 : V) (m : JSMap V) :
  map_get k m = Some v0 -> map_keys (map_set k v m) = map_keys m.
Proof. intros H. rewrite map_keys_set. unfold map_has. rewrite H. reflexivity. Qed.

Lemma rowOK_markEntry (b : option Z) (n : Z) (l : LapEntry.t) :
  rowOK n l -> rowOK n (markEntry b l).
Proof. exact (fun H => H). Qed.

Lemma ledgerOK_markEntries (b : option Z) (bl : Z) (m : JSMap LapEntry.t) :
  ledgerOK bl m -> ledgerOK bl (markEntries b m).
Proof.
  intros [Hnd Hrows]. split; [rewrite map_keys_markEntries; exact Hnd|].
  intros n l. rewrite map_get_markEntries.
  destruct (map_get n m) as [l0|] eqn:E; [|discriminate].
  intros [= <-]. destruct (Hrows n l0 E) as [Hrow Hlt].
  split; [apply rowOK_markEntry; exact Hrow | exact Hlt].
Qed.

Lemma ledgerOK_mono (bl bl' : Z) (m : JSMap LapEntry.t) :
  bl <= bl' -> ledgerOK bl m -> ledgerOK bl' m.
Proof.
  intros Hle [Hnd Hrows]. split; [exact Hnd|].
  intros n l Hl. destruct (Hrows n l Hl). split; [assumption | lia].
Qed.

Lemma ledgerOK_deleteFrom (bl c : Z) (m : JSMap LapEntry.t) :
  ledgerOK bl m -> ledgerOK c (deleteFrom c m).
Proof.
  intros [Hnd Hrows]. split; [apply NoDup_keys_deleteFrom; exact Hnd|].
  intros n l. rewrite map_get_deleteFrom. destruct (n <? c) eqn:E; [|discriminate].
  intros Hl. apply Z.ltb_lt in E. split; [exact (proj1 (Hrows n l Hl)) | exact E].
Qed.

Lemma ledgerOK_set (bl n : Z) (l : LapEntry.t) (m : JSMap LapEntry.t) :
  rowOK n l -> n < bl -> ledgerOK bl m -> ledgerOK bl (map_set n l m).
Proof.
  intros Hrow Hlt [Hnd Hrows]. split; [apply map_set_NoDup; exact Hnd|].
  intros k x. rewrite map_get_set. destruct (n =? k) eqn:E.
  - apply Z.eqb_eq in E. subst k. intros [= <-]. split; assumption.
  - apply Hrows.
Qed.

Lemma keysAtMost_mono (V : Type) (b b' : Z) (m : JSMap V) :
  b <= b' -> keysAtMost b m -> keysAtMost b' m.
Proof. intros Hle H n v Hn. specialize (H n v Hn). lia. Qed.

Lemma keysAtMost_deleteFrom (V : Type) (c : Z) (m : JSMap V) :
  keysAtMost c (deleteFrom c m).
Proof.
  intros n v. rewrite map_get_deleteFrom. destruct (n <? c) eqn:E; [|discriminate].
  intros _. apply Z.ltb_lt in E. lia.
Qed.

Lemma keysAtMost_set (V : Type) (b n : Z) (v : V) (m : JSMap V) :
  n <= b -> keysAtMost b m -> keysAtMost b (map_set n v m).
Proof.
  intros Hn H k x. rewrite map_get_set. destruct (n =? k) eqn:E.
  - apply Z.eqb_eq in E. subst k. intros _. exact Hn.
  - apply H.
Qed.

Lemma pitTablesOK_mono (b b' : Z) (tm sm : JSMap Z) :
  b <= b' -> pitTablesOK b tm sm -> pitTablesOK b' tm sm.
Proof.
  intros Hle H n. destruct (H n) as [H1 H2]. split; [|exact H2].
  intros t Ht. destruct (H1 t Ht). split; lia.
Qed.

Lemma pitTablesOK_deleteFrom (b c : Z) (tm sm : JSMap Z) :
  pitTablesOK b tm sm -> pitTablesOK c (deleteFrom c tm) (deleteFrom c sm).
Proof.
  intros H n. destruct (H n) as [H1 H2]. rewrite !map_get_deleteFrom.
  destruct (n <? c) eqn:E.
  - apply Z.ltb_lt in E. split; [|exact H2].
    intros t Ht. destruct (H1 t Ht). split; lia.
  - split; [discriminate | tauto].
Qed.

Lemma pitTablesOK_set (b n t s : Z) (tm sm : JSMap Z) :
  n <= b -> 0 < t -> pitTablesOK b tm sm ->
  pitTablesOK b (map_set n t tm) (map_set n s sm).
Proof.
  intros Hn Ht H k. destruct (H k) as [H1 H2]. rewrite !map_get_set.
  destruct (n =? k) eqn:E.
  - apply Z.eqb_eq in E. subst k. split.
    + intros x [= <-]. split; assumption.
    + split; discriminate.
  - split; assumption.
Qed.

Lemma tablesWithin_mono (bl bl' b b' : Z) (st : State) :
  bl <= bl' -> b <= b' -> tablesWithin bl b st -> tablesWithin bl' b' st.
Proof.
  intros Hl Hb [H1 [H2 [H3 H4]]]. split; [exact (ledgerOK_mono Hl H1)|].
  split; [exact (keysAtMost_mono Hb H2)|]. split; [exact (pitTablesOK_mono Hb H3)|].
  intros Ha. destruct (H4 Ha) as [s [Hs Hle]]. exists s. split; [exact Hs | lia].
Qed.

Lemma perLapView_fields (a b : State) :
  perLapView a = perLapView b ->
  lapsByNumber a = lapsByNumber b
  /\ tyreByLapStart a = tyreByLapStart b
  /\ pitLaneTimeByLap a = pitLaneTimeByLap b
  /\ pitLaneStatusByLap a = pitLaneStatusByLap b
  /\ PlayerState.pitLaneActive (playerState a) = PlayerState.pitLaneActive (playerState b)
  /\ PlayerState.pitLaneStartLapNum (playerState a)
     = PlayerState.pitLaneStartLapNum (playerState b).
Proof.
  unfold perLapView. generalize (playerState a), (playerState b). intros pa pb H.
  injection H. intros. repeat split; assumption.
Qed.

Lemma tablesWithin_view (bl b : Z) (s s' : State) :
  perLapView s' = perLapView s -> tablesWithin bl b s -> tablesWithin bl b s'.
Proof.
  intros Hv. apply perLapView_fields in Hv. destruct Hv as [E1 [E2 [E3 [E4 [E5 E6]]]]].
  unfold tablesWithin, stintOK. rewrite E1, E2, E3, E4, E5, E6. exact (fun H => H).
Qed.

Lemma tablesWithin_recompute (bl b : Z) (s : State) :
  tablesWithin bl b s -> tablesWithin bl b (recomputeFromLaps s).
Proof.
  intros [H1 [H2 [H3 H4]]]. split; [|split; [exact H2 | split; [exact H3 | exact H4]]].
  rewrite recomputeFromLaps_lapsByNumber. apply ledgerOK_markEntries. exact H1.
Qed.

(** ** The blocks of the player's section *)

Lemma truncateOnFlashback_tables (lap : LapData.t) (st : State) :
  perLapTablesBounded st ->
  tablesWithin
    match PlayerState.currentLapNum (playerState st) with
    | Some p => Z.min p (LapData.currentLapNum lap)
    | None => LapData.currentLapNum lap
    end
    (LapData.currentLapNum lap) (truncateOnFlashback lap st)
  /\ PlayerState.currentLapNum (playerState (truncateOnFlashback lap st))
     = PlayerState.currentLapNum (playerState st).
Proof.
  unfold perLapTablesBounded, truncateOnFlashback.
  destruct (PlayerState.currentLapNum (playerState st)) as [p|] eqn:Ep.
  - destruct (LapData.currentLapNum lap <? p) eqn:E; intros [H1 [H2 [H3 H4]]].
    + apply Z.ltb_lt in E. split; [|exact Ep].
      rewrite Z.min_r by lia. apply tablesWithin_recompute. split; [|split; [|split]]; cbn.
      * exact (ledgerOK_deleteFrom _ H1).
      * apply keysAtMost_deleteFrom.
      * exact (pitTablesOK_deleteFrom _ H3).
      * intros [=].
    + apply Z.ltb_ge in E. split; [|exact Ep].
      rewrite Z.min_l by lia.
      apply (@tablesWithin_mono p p p (LapData.currentLapNum lap)); [lia | exact E|].
      split; [exact H1 | split; [exact H2 | split; [exact H3 | exact H4]]].
  - intros H. split; [apply H | exact Ep].
Qed.

Lemma snapshotTyresAtLapStart_tables (bl : Z) (lap : LapData.t) (st : State) :
  tablesWithin bl (LapData.currentLapNum lap) st ->
  tablesWithin bl (LapData.currentLapNum lap) (snapshotTyresAtLapStart lap st).
Proof.
  intros [H1 [H2 [H3 H4]]]. unfold snapshotTyresAtLapStart.
  destruct (negb (map_has _ _)); [|split; [exact H1 | split; [exact H2 | split; assumption]]].
  split; [exact H1|]. split; [|split; [exact H3 | exact H4]].
  cbn. apply keysAtMost_set; [lia | exact H2].
Qed.

Lemma rowOK_pit (n : Z) (t : option Z) (s : Z) (l : LapEntry.t) :
  rowOK n l -> rowOK n (LapEntry.set_pitStatus s (LapEntry.set_pitLaneTimeMs t l)).
Proof. exact (fun H => H). Qed.

Lemma trackPlayerPitLane_tables (bl : Z) (lap : LapData.t) (st : State) :
  tablesWithin bl (LapData.currentLapNum lap) st ->
  tablesWithin bl (LapData.currentLapNum lap) (trackPlayerPitLane lap st).
Proof.
  intros [H1 [H2 [H3 H4]]]. unfold trackPlayerPitLane.
  destruct (LapData.pitLaneTimerActive lap =? 1).
  - split; [exact H1|]. split; [exact H2|]. split; [exact H3|].
    cbn [playerState set_playerState]. unfold stintOK in *.
    destruct (PlayerState.pitLaneActive (playerState st)) eqn:Ea; cbn [negb].
    + destruct (H4 eq_refl) as [s [Hs Hle]].
      repeat break_match; cbn; intros _; exists s; (split; [exact Hs | exact Hle]).
    + repeat break_match; cbn; intros _; eexists; (split; [reflexivity | lia]).
  - destruct (PlayerState.pitLaneActive (playerState st)) eqn:Ea.
    2: { split; [exact H1 | split; [exact H2 | split; [exact H3 | exact H4]]]. }
    destruct (H4 Ea) as [s [Hs Hle]]. rewrite Hs.
    destruct (PlayerState.pitLaneMaxTimeMs (playerState st) >? 0) eqn:Et.
    2: { split; [exact H1 | split; [exact H2 | split; [exact H3|]]]. intros [=]. }
    apply Z.gtb_lt in Et. cbn [lapsByNumber set_pitLaneStatusByLap set_pitLaneTimeByLap
      set_playerState].
    destruct (map_get s (lapsByNumber st)) as [entry|] eqn:Ee.
    + apply tablesWithin_recompute. split; [|split; [|split]]; cbn.
      * destruct H1 as [Hnd Hrows]. destruct (Hrows s entry Ee) as [Hrow Hlt].
        apply ledgerOK_set; [apply rowOK_pit; exact Hrow | exact Hlt | split; assumption].
      * exact H2.
      * apply pitTablesOK_set; assumption.
      * intros [=].
    + split; [exact H1|]. split; [exact H2|]. split; [|intros [=]]. cbn.
      apply pitTablesOK_set; assumption.
Qed.

Lemma liveSectorBests_tablesWithin (bl b : Z) (r : bool) (lap : LapData.t) (st : State) :
  tablesWithin bl b st -> tablesWithin bl b (liveSectorBests r lap st).
Proof.
  intros H. unfold liveSectorBests.
  destruct (lapIsValid r (LapData.currentLapInvalid lap));
    [|apply tablesWithin_recompute; exact H].
  refine (tablesWithin_view _ H). repeat break_match; reflexivity.
Qed.

Lemma finalizeLap_tables (r : bool) (pidx : Z) (lap : LapData.t) (st : State) (bl : Z) :
  historyDecoded st ->
  bl = match PlayerState.currentLapNum (playerState st) with
       | Some p => Z.min p (LapData.currentLapNum lap)
       | None => LapData.currentLapNum lap
       end ->
  tablesWithin bl (LapData.currentLapNum lap) st ->
  tablesWithin (LapData.currentLapNum lap) (LapData.currentLapNum lap)
    (finalizeLap r pidx lap st).
Proof.
  intros Hhist Hbl H. unfold finalizeLap.
  destruct (PlayerState.currentLapNum (playerState st)) as [p|] eqn:Ep.
  2: { subst bl. exact H. }
  destruct ((LapData.currentLapNum lap >? p) && (LapData.lastLapTimeInMS lap >? 0)) eqn:E.
  2: { refine (tablesWithin_mono _ _ H); lia. }
  apply andb_prop in E. destruct E as [Egt Elast].
  apply Z.gtb_lt in Egt. apply Z.gtb_lt in Elast.
  rewrite Z.min_l in Hbl by lia. subst bl. cbv zeta.
  match goal with
  | |- tablesWithin _ _ (set_playerState ?ps (recomputeFromLaps ?s)) =>
      apply (@tablesWithin_view _ _ (recomputeFromLaps s)); [reflexivity|];
      apply tablesWithin_recompute
  end.
  destruct H as [H1 [H2 [H3 H4]]]. split; [|split; [exact H2 | split; [exact H3 | exact H4]]].
  cbn [lapsByNumber set_lapsByNumber].
  apply ledgerOK_set; [| exact Egt | exact (ledgerOK_mono (Z.lt_le_incl _ _ Egt) H1)].
  split; [reflexivity|]. cbn [LapEntry.lapTimeMs].
  destruct (map_get pidx (sessionHistoryByCarIndex st)) as [h|] eqn:Eh.
  - destruct (map_get p h) as [e|] eqn:Ee.
    + destruct (HistEntry.lapTimeMs e) as [t|] eqn:Et.
      * exists t. split; [reflexivity|].
        exact (Hhist pidx h p e t Eh (map_get_In _ _ Ee) Et).
      * eexists. split; [reflexivity | exact Elast].
    + eexists. split; [reflexivity | exact Elast].
  - eexists. split; [reflexivity | exact Elast].
Qed.

(** The blocks before [finalizeLap] leave [view] alone: the facts, one per
    block, are left in the context. *)
Ltac early_blocks view lap :=
  assert (Hb1 : forall s, view (setCurrentPenalties lap s) = view s) by reflexivity;
  assert (Hb2 : forall s, view (truncateOnFlashback lap s) = view s)
    by (intros s; unfold truncateOnFlashback; phase_frame);
  assert (Hb3 : forall s, view (snapshotTyresAtLapStart lap s) = view s)
    by (intros s; unfold snapshotTyresAtLapStart; phase_frame);
  assert (Hb4 : forall s, view (trackPlayerPitLane lap s) = view s)
    by (intros s; unfold trackPlayerPitLane; phase_frame);
  assert (Hb5 : forall s, view (cachePlayerSectors lap s) = view s)
    by (intros s; unfold cachePlayerSectors; phase_frame);
  assert (Hb6 : forall s, view (setLiveLapTime lap s) = view s) by reflexivity;
  assert (Hb7 : forall r s, view (liveSectorBests r lap s) = view s)
    by (intros r s; unfold liveSectorBests; phase_frame);
  assert (Hb8 : forall r t s, view (setCurrentLap r t lap s) = view s) by reflexivity.

Lemma rememberLap_bounded (lap : LapData.t) (s : State) :
  tablesWithin (LapData.currentLapNum lap) (LapData.currentLapNum lap) s ->
  perLapTablesBounded (updateLiveDelta (rememberLap lap s)).
Proof.
  intros H. unfold perLapTablesBounded. cbn [updateLiveDelta rememberLap playerState
    set_playerState set_lapsState PlayerState.currentLapNum
    PlayerState.set_currentLapNum PlayerState.set_currentLapInvalid].
  refine (tablesWithin_view _ H). reflexivity.
Qed.

Lemma historyDecoded_inputs (a b : State) :
  finalizeInputs a = finalizeInputs b -> historyDecoded b -> historyDecoded a.
Proof.
  unfold finalizeInputs. intros [= _ E]. unfold historyDecoded. rewrite E.
  exact (fun H => H).
Qed.

Lemma playerSection_tables (p : Z) (lap : LapData.t) (st : State) :
  historyDecoded st -> perLapTablesBounded st ->
  perLapTablesBounded (playerSection p lap st).
Proof.
  intros Hhist HP. unfold playerSection. cbv zeta.
  early_blocks finalizeInputs lap.
  apply rememberLap_bounded.
  match goal with
  | |- tablesWithin _ _ (finalizeLap ?r p lap ?s8) =>
      assert (Hin : finalizeInputs s8 = finalizeInputs st)
        by (rewrite Hb8, Hb7, Hb6, Hb5, Hb4, Hb3, Hb2, Hb1; reflexivity);
      apply (@finalizeLap_tables r p lap s8
               match PlayerState.currentLapNum (playerState st) with
               | Some q => Z.min q (LapData.currentLapNum lap)
               | None => LapData.currentLapNum lap
               end)
  end.
  - exact (historyDecoded_inputs Hin Hhist).
  - change (PlayerState.currentLapNum (playerState st)) with (fst (finalizeInputs st)).
    rewrite <- Hin. reflexivity.
  - clear Hin.
    match goal with |- tablesWithin _ _ (setCurrentLap ?r ?t lap ?s) =>
      apply (@tablesWithin_view _ _ s); [reflexivity|] end.
    apply liveSectorBests_tablesWithin.
    match goal with |- tablesWithin _ _ (setLiveLapTime lap ?s) =>
      apply (@tablesWithin_view _ _ s); [reflexivity|] end.
    match goal with |- tablesWithin _ _ (cachePlayerSectors lap ?s) =>
      apply (@tablesWithin_view _ _ s);
        [unfold cachePlayerSectors; repeat break_match; reflexivity|] end.
    apply trackPlayerPitLane_tables. apply snapshotTyresAtLapStart_tables.
    exact (proj1 (@truncateOnFlashback_tables lap (setCurrentPenalties lap st) HP)).
Qed.

(** ** The handlers *)

Lemma perLapTablesBounded_view (a b : State) :
  perLapView a = perLapView b ->
  PlayerState.currentLapNum (playerState a) = PlayerState.currentLapNum (playerState b) ->
  perLapTablesBounded b -> perLapTablesBounded a.
Proof.
  intros Hv Hc. unfold perLapTablesBounded. rewrite Hc.
  destruct (PlayerState.currentLapNum (playerState b)).
  - apply tablesWithin_view. exact Hv.
  - intros H b0. exact (@tablesWithin_view _ _ _ _ Hv (H b0)).
Qed.

Lemma tablesWithin_empty (bl b : Z) (st : State) :
  lapsByNumber st = [] -> tyreByLapStart st = [] ->
  pitLaneTimeByLap st = [] -> pitLaneStatusByLap st = [] ->
  PlayerState.pitLaneActive (playerState st) = false ->
  tablesWithin bl b st.
Proof.
  intros H1 H2 H3 H4 H5. unfold tablesWithin. rewrite H1, H2, H3, H4.
  split; [|split; [|split]].
  - split; [constructor | intros n l [=]].
  - intros n v [=].
  - intros n. split; [intros t [=] | split; reflexivity].
  - intros H. congruence.
Qed.

Lemma perLapTablesBounded_fresh (st : State) :
  PlayerState.currentLapNum (playerState st) = None ->
  lapsByNumber st = [] -> tyreByLapStart st = [] ->
  pitLaneTimeByLap st = [] -> pitLaneStatusByLap st = [] ->
  PlayerState.pitLaneActive (playerState st) = false ->
  perLapTablesBounded st.
Proof.
  intros H0 H1 H2 H3 H4 H5. unfold perLapTablesBounded. rewrite H0.
  intros b. apply tablesWithin_empty; assumption.
Qed.

Unset Implicit Arguments.

Lemma perLapTablesBounded_reset (uid : Z) (st : State) :
  perLapTablesBounded (resetSessionState uid st).
Proof. apply perLapTablesBounded_fresh; reflexivity. Qed.

Set Implicit Arguments.

Lemma publishLeaderboard_perLapView (p : Z) (st : State) :
  perLapView (publishLeaderboard p st) = perLapView st
  /\ finalizeInputs (publishLeaderboard p st) = finalizeInputs st.
Proof.
  unfold publishLeaderboard. cbv zeta. split.
  - transitivity (perLapView (fold_left raceBestsStep (buildRaceCars st p) st));
      [reflexivity|].
    apply (@via_mask _ perLapView withoutRaceBests); [reflexivity|].
    apply raceBests_fold_frame.
  - transitivity (finalizeInputs (fold_left raceBestsStep (buildRaceCars st p) st));
      [reflexivity|].
    apply (@via_mask _ finalizeInputs withoutRaceBests); [reflexivity|].
    apply raceBests_fold_frame.
Qed.

Lemma lapDataLoop_perLapView (buf : Buffer) (st st' : State) :
  forEachSlot (lapDataLoopBody buf) carSlots st = Ok st' ->
  perLapView st' = perLapView st /\ finalizeInputs st' = finalizeInputs st.
Proof.
  intros H.
  apply (@forEachSlot_preserves
           (fun s => perLapView s = perLapView st
                     /\ finalizeInputs s = finalizeInputs st)) in H;
    [exact H| |split; reflexivity].
  intros i s s' _ Hb [H1 H2]. rewrite <- H1, <- H2. revert Hb. unfold lapDataLoopBody.
  destruct (parseLapDataForCar buf _) as [[t|]|]; cbn [bind]; [| |discriminate];
    intros [= <-]; split; reflexivity.
Qed.

Lemma handleLapDataPacket_tables (buf : Buffer) (st st' : State)
  (out : list LapsState.t) (h : Header.t) :
  parseHeader buf = Ok (Some h) ->
  handleLapDataPacket buf st = Ok (st', out) ->
  historyDecoded (enterSession h st) ->
  perLapTablesBounded (enterSession h st) -> perLapTablesBounded st'.
Proof.
  intros Hh H Hhist HP. apply handleLapDataPacket_blocks in H.
  destruct H as [[Hn _]|[h' [st0 [st1 [Hh' [Hst0 [Hloop Hrest]]]]]]]; [congruence|].
  assert (h' = h) by congruence. subst h'.
  fold (enterSession h st) in Hst0.
  destruct (@lapDataLoop_perLapView _ _ _ Hloop) as [L1 L2].
  destruct (publishLeaderboard_perLapView (Header.playerCarIndex h) st1) as [P1 P2].
  assert (V : perLapView (publishLeaderboard (Header.playerCarIndex h) st1)
              = perLapView (enterSession h st)
              /\ finalizeInputs (publishLeaderboard (Header.playerCarIndex h) st1)
                 = finalizeInputs (enterSession h st)).
  { rewrite P1, P2, L1, L2, Hst0. split; reflexivity. }
  destruct V as [V1 V2].
  assert (HP2 : perLapTablesBounded (publishLeaderboard (Header.playerCarIndex h) st1)).
  { apply (@perLapTablesBounded_view _ _ V1); [|exact HP].
    exact (f_equal fst V2). }
  destruct Hrest as [[-> _]|[lap [_ [_ [-> _]]]]]; [exact HP2|].
  apply playerSection_tables; [|exact HP2].
  exact (@historyDecoded_inputs _ _ V2 Hhist).
Qed.

Lemma backfillTyreSnapshot_tables (st : State) :
  perLapTablesBounded st -> perLapTablesBounded (backfillTyreSnapshot st).
Proof.
  unfold perLapTablesBounded, backfillTyreSnapshot.
  destruct (PlayerState.currentLapNum (playerState st)) as [cur|] eqn:Ec;
    [|rewrite Ec; exact (fun H => H)].
  match goal with |- context [if ?c then _ else _] => destruct c end;
    [|rewrite Ec; exact (fun H => H)].
  cbn [playerState set_tyreByLapStart]. rewrite Ec.
  intros [H1 [H2 [H3 H4]]]. split; [exact H1|]. split; [|split; [exact H3 | exact H4]].
  cbn. apply keysAtMost_set; [lia | exact H2].
Qed.

Lemma handleCarStatusPacket_tables (buf : Buffer) (st st' : State)
  (out : list LapsState.t) (h : Header.t) :
  parseHeader buf = Ok (Some h) ->
  handleCarStatusPacket buf st = Ok (st', out) ->
  perLapTablesBounded (enterSession h st) -> perLapTablesBounded st'.
Proof.
  unfold handleCarStatusPacket. intros Hh. rewrite Hh. cbn [bind]. intros H.
  enter_run h st H. revert H. generalize (enterSession h st). intros st0 H HP.
  match type of H with
  | context [forEachSlot ?b ?l ?s] => destruct (forEachSlot b l s) as [s1|] eqn:E
  end; cbn [bind] in H; [|discriminate].
  assert (E1 : perLapView s1 = perLapView st0
               /\ PlayerState.currentLapNum (playerState s1)
                  = PlayerState.currentLapNum (playerState st0)).
  { apply (@forEachSlot_preserves
             (fun s => perLapView s = perLapView st0
                       /\ PlayerState.currentLapNum (playerState s)
                          = PlayerState.currentLapNum (playerState st0))) in E;
      [exact E| |split; reflexivity].
    intros i s s' _ Hb [V1 V2]. rewrite <- V1, <- V2. revert Hb. unfold carStatusLoopBody.
    destruct (parseCarStatusForCar buf _) as [[t|]|]; cbn [bind]; [| |discriminate];
      intros [= <-]; split; reflexivity. }
  destruct E1 as [V1 V2].
  injection H as <- _. apply backfillTyreSnapshot_tables.
  refine (@perLapTablesBounded_view _ st0 _ _ HP).
  - rewrite <- V1. repeat break_match; reflexivity.
  - rewrite <- V2. repeat break_match; reflexivity.
Qed.

Lemma overrideLapFromHistory_ledgerOK (bl : Z) (m : JSMap LapEntry.t)
  (kv : Z * HistEntry.t) :
  (forall t, HistEntry.lapTimeMs (snd kv) = Some t -> 0 < t) ->
  ledgerOK bl m -> ledgerOK bl (overrideLapFromHistory m kv).
Proof.
  intros Hpos H. unfold overrideLapFromHistory.
  destruct (map_get (fst kv) m) as [l|] eqn:El; [|exact H].
  destruct (HistEntry.lapTimeMs (snd kv)) as [t|] eqn:Et; [|exact H].
  destruct (proj2 H _ _ El) as [[Hnum _] Hlt].
  apply ledgerOK_set; [|exact Hlt | exact H].
  split; [exact Hnum|]. exists t. split; [reflexivity | apply Hpos; reflexivity].
Qed.

Lemma overrideLaps_ledgerOK (bl : Z) (byLap : JSMap HistEntry.t) (m : JSMap LapEntry.t) :
  (forall n e t, In (n, e) byLap -> HistEntry.lapTimeMs e = Some t -> 0 < t) ->
  ledgerOK bl m -> ledgerOK bl (fold_left overrideLapFromHistory byLap m).
Proof.
  revert m. induction byLap as [|[n e] byLap IH]; intros m Hpos H; simpl; [exact H|].
  apply IH.
  - intros n' e' t Hin. apply (Hpos n' e' t). right. exact Hin.
  - apply overrideLapFromHistory_ledgerOK; [|exact H].
    intros t Ht. exact (Hpos n e t (or_introl eq_refl) Ht).
Qed.

Lemma readLapHistory_positive (buf : Buffer) (base : Z) (n : nat)
  (byLap : JSMap HistEntry.t) :
  readLapHistory buf base n 0 [] = Ok byLap ->
  forall k e t, In (k, e) byLap -> HistEntry.lapTimeMs e = Some t -> 0 < t.
Proof.
  intros H k e t Hin Ht. apply readLapHistory_spec in H; [|lia|intros x []].
  destruct H as [cnt [_ [_ [_ [_ Hent]]]]].
  destruct (Hent k e Hin) as [[]|[_ Hp]].
  exact (@parseLapHistoryEntry_positive buf _ e t Hp Ht).
Qed.

Lemma handleSessionHistoryPacket_tables (buf : Buffer) (st st' : State)
  (out : list LapsState.t) (h : Header.t) :
  parseHeader buf = Ok (Some h) ->
  handleSessionHistoryPacket buf st = Ok (st', out) ->
  perLapTablesBounded (enterSession h st) -> perLapTablesBounded st'.
Proof.
  unfold handleSessionHistoryPacket. intros Hh. rewrite Hh. cbn [bind]. intros H.
  enter_run h st H. revert H. generalize (enterSession h st). intros st0 H HP.
  destruct (buf_length buf <? HEADER_SIZE + 7); [injection H as <- _; exact HP|].
  destruct (readUInt8 buf (HEADER_SIZE + 0)) as [carIdx|]; cbn [bind] in H; [|discriminate].
  destruct (readUInt8 buf (HEADER_SIZE + 1)) as [numLaps|]; cbn [bind] in H;
    [|discriminate].
  destruct (buf_length buf <? HEADER_SIZE + 7 + LAP_HISTORY_DATA_SIZE);
    [injection H as <- _; exact HP|].
  destruct (readLapHistory buf _ _ 0 []) as [byLap|] eqn:Er; cbn [bind] in H;
    [|discriminate].
  pose proof (@readLapHistory_positive _ _ _ _ Er) as Hpos.
  destruct (carIdx =? Header.playerCarIndex h); injection H as <- _.
  2: { refine (@perLapTablesBounded_view _ st0 _ _ HP); reflexivity. }
  revert HP. unfold perLapTablesBounded.
  cbn [playerState recomputeFromLaps syncLapsArrayFromMap set_lapsState
    set_lapsByNumber set_sessionHistoryByCarIndex].
  assert (Hstep : forall bl b, tablesWithin bl b st0 ->
            tablesWithin bl b
              (recomputeFromLaps
                 (set_lapsByNumber
                    (fold_left overrideLapFromHistory byLap
                       (lapsByNumber
                          (set_sessionHistoryByCarIndex
                             (map_set carIdx byLap (sessionHistoryByCarIndex st0)) st0)))
                    (set_sessionHistoryByCarIndex
                       (map_set carIdx byLap (sessionHistoryByCarIndex st0)) st0)))).
  { intros bl b [H1 [H2 [H3 H4]]]. apply tablesWithin_recompute.
    split; [|split; [exact H2 | split; [exact H3 | exact H4]]].
    cbn. apply overrideLaps_ledgerOK; [exact Hpos | exact H1]. }
  destruct (PlayerState.currentLapNum (playerState st0)).
  - apply Hstep.
  - intros HP b. apply Hstep. apply HP.
Qed.

Lemma onMessage_perLapTablesBounded (msg : Buffer) (st st' : State)
  (out : list LapsState.t) (h : Header.t) :
  historyDecoded (enterSession h st) ->
  perLapTablesBounded st -> perLapTablesBounded (enterSession h st) ->
  parseHeader msg = Ok (Some h) ->
  onMessage msg st = Ok (st', out) -> perLapTablesBounded st'.
Proof.
  intros Hhist HP HP0 Hh H.
  destruct (@onMessage_cases _ _ _ _ H) as [[-> _]|[H1|[H1|[H1|[H1|[H1|[H1|H1]]]]]]].
  - exact HP.
  - destruct (@handleSessionPacket_writes _ _ _ _ _ Hh H1) as [E _].
    refine (@perLapTablesBounded_view _ (enterSession h st) _ _ HP0).
    + exact (@via_mask _ perLapView exceptSession _ _ (fun _ => eq_refl) E).
    + exact (@via_mask _ (fun s => PlayerState.currentLapNum (playerState s))
               exceptSession _ _ (fun _ => eq_refl) E).
  - destruct (@handleParticipantsPacket_writes _ _ _ _ _ Hh H1) as [E _].
    refine (@perLapTablesBounded_view _ (enterSession h st) _ _ HP0).
    + exact (@via_mask _ perLapView exceptParticipants _ _ (fun _ => eq_refl) E).
    + exact (@via_mask _ (fun s => PlayerState.currentLapNum (playerState s))
               exceptParticipants _ _ (fun _ => eq_refl) E).
  - exact (@handleSessionHistoryPacket_tables _ _ _ _ _ Hh H1 HP0).
  - exact (@handleLapDataPacket_tables _ _ _ _ _ Hh H1 Hhist HP0).
  - destruct (@handleCarTelemetryPacket_writes _ _ _ _ _ Hh H1) as [E _].
    refine (@perLapTablesBounded_view _ (enterSession h st) _ _ HP0).
    + exact (@via_mask _ perLapView exceptTelemetry _ _ (fun _ => eq_refl) E).
    + exact (@via_mask _ (fun s => PlayerState.currentLapNum (playerState s))
               exceptTelemetry _ _ (fun _ => eq_refl) E).
  - exact (@handleCarStatusPacket_tables _ _ _ _ _ Hh H1 HP0).
  - destruct (@handleCarDamagePacket_writes _ _ _ _ _ Hh H1) as [E _].
    refine (@perLapTablesBounded_view _ (enterSession h st) _ _ HP0).
    + exact (@via_mask _ perLapView exceptDamage _ _ (fun _ => eq_refl) E).
    + exact (@via_mask _ (fun s => PlayerState.currentLapNum (playerState s))
               exceptDamage _ _ (fun _ => eq_refl) E).
Qed.

Lemma historyDecoded_enter (h : Header.t) (st : State) :
  historyDecoded st -> historyDecoded (enterSession h st).
Proof.
  intros H. unfold enterSession. destruct (sessionIsNew h st); [|exact H].
  intros car t n e x [=].
Qed.

Lemma reachable_perLapTablesBounded (st : State) :
  reachable st -> perLapTablesBounded st.
Proof.
  apply reachable_induction.
  - apply perLapTablesBounded_fresh; reflexivity.
  - apply perLapTablesBounded_reset.
  - intros msg s s' out h Hr HP HP0 Hh H.
    refine (@onMessage_perLapTablesBounded _ _ _ _ _ _ HP HP0 Hh H).
    apply historyDecoded_enter. apply reachable_historyDecoded. exact Hr.
Qed.
(** * The tables of a reachable state *)

(** ** The lap list is the lap table in order *)

Lemma reachable_laps_sorted_copy (st : State) :
  reachable st ->
  LapsState.laps (lapsState st)
  = js_sort (fun a b => LapEntry.lapNumber a - LapEntry.lapNumber b)
      (map_values (lapsByNumber st)).
Proof.
  intros Hr. destruct (reachable_invariants Hr) as [_ [_ [s Hs]]].
  unfold ledgerView in Hs. injection Hs as E1 _ E3. rewrite E3, E1. reflexivity.
Qed.

Lemma StronglySorted_strict (A : Type) (f : A -> Z) (l : list A) :
  StronglySorted (fun a b => f a - f b <= 0) l -> NoDup (map f l) ->
  StronglySorted (fun a b => f a < f b) l.
Proof.
  induction 1 as [|a l Hs IH Hall]; intros Hnd; [constructor|].
  simpl in Hnd. inversion Hnd as [|? ? Hnotin Hnd']; subst.
  constructor; [apply IH; exact Hnd'|].
  rewrite Forall_forall in *. intros b Hb. specialize (Hall b Hb).
  assert (f a <> f b); [|lia].
  intros E. apply Hnotin. rewrite E. apply in_map. exact Hb.
Qed.

Lemma ledgerOK_numbers (bl : Z) (m : JSMap LapEntry.t) :
  ledgerOK bl m -> map LapEntry.lapNumber (map_values m) = map_keys m.
Proof.
  intros [Hnd Hrows]. unfold map_values, map_keys. rewrite map_map.
  apply map_ext_in. intros [n l] Hin. simpl.
  exact (proj1 (proj1 (Hrows n l (@In_map_get _ _ _ _ Hnd Hin)))).
Qed.

Lemma ledger_of_reachable (st : State) :
  reachable st ->
  exists bl, ledgerOK bl (lapsByNumber st)
             /\ (lapsByNumber st <> [] ->
                 PlayerState.currentLapNum (playerState st) = Some bl).
Proof.
  intros Hr. pose proof (@reachable_perLapTablesBounded _ Hr) as HP.
  unfold perLapTablesBounded in HP.
  destruct (PlayerState.currentLapNum (playerState st)) as [cur|].
  - exists cur. split; [exact (proj1 HP) | reflexivity].
  - exists 0. split; [exact (proj1 (HP 0))|]. intros Hne. exfalso.
    destruct (lapsByNumber st) as [|[n l] m] eqn:E; [apply Hne; reflexivity|].
    destruct (proj1 (HP n)) as [Hnd Hrows].
    assert (Hin : In (n, l) (lapsByNumber st)) by (rewrite E; left; reflexivity).
    assert (n < n); [|lia].
    exact (proj2 (Hrows n l (@In_map_get _ _ _ _ Hnd Hin))).
Qed.

(** X18.  In every state the server reaches by handling datagrams, the lap
    list sent to the viewers holds exactly the rows of the lap table, in
    strictly increasing order of lap number, so no lap number occurs twice;
    every row has a positive lap time and a lap number below the lap the
    player is on. *)
Theorem lap_list_sorted_and_finished (st : State) :
  reachable st ->
  Permutation (LapsState.laps (lapsState st)) (map_values (lapsByNumber st))
  /\ StronglySorted (fun a b => LapEntry.lapNumber a < LapEntry.lapNumber b)
       (LapsState.laps (lapsState st))
  /\ forall l, In l (LapsState.laps (lapsState st)) ->
       (exists t, LapEntry.lapTimeMs l = Some t /\ 0 < t)
       /\ exists cur, PlayerState.currentLapNum (playerState st) = Some cur
                      /\ LapEntry.lapNumber l < cur.
Proof.
  intros Hr. rewrite (@reachable_laps_sorted_copy _ Hr).
  destruct (@ledger_of_reachable _ Hr) as [bl [Hled Hcur]].
  pose proof (js_sort_perm (fun a b => LapEntry.lapNumber a - LapEntry.lapNumber b)
                (map_values (lapsByNumber st))) as Hperm.
  split; [exact Hperm|]. split.
  - apply StronglySorted_strict.
    + apply Sorted_StronglySorted; [intros a b c; simpl; lia|].
      apply js_sort_sorted. intros a b. lia.
    + apply (Permutation_NoDup
               (l := map LapEntry.lapNumber (map_values (lapsByNumber st)))).
      * apply Permutation_map. symmetry. exact Hperm.
      * rewrite (@ledgerOK_numbers _ _ Hled). exact (proj1 Hled).
  - intros l Hin. apply (Permutation_in _ Hperm) in Hin.
    unfold map_values in Hin. apply in_map_iff in Hin.
    destruct Hin as [[n l'] [El Hin]]. simpl in El. subst l'.
    destruct (proj2 Hled n l (@In_map_get _ _ _ _ (proj1 Hled) Hin)) as [[Hnum Ht] Hlt].
    split; [exact Ht|]. exists bl. split; [|lia].
    apply Hcur. intros E. rewrite E in Hin. exact Hin.
Qed.

(** The theorem after laps 1 to 6: the list has the six laps in order, and the
    player is on lap 7. *)
Lemma lap_list_sorted_and_finished_witness :
  reachable (stateAfter sevenLaps)
  /\ map LapEntry.lapNumber (LapsState.laps (lapsState (stateAfter sevenLaps)))
     = [1; 2; 3; 4; 5; 6]
  /\ StronglySorted (fun a b => LapEntry.lapNumber a < LapEntry.lapNumber b)
       (LapsState.laps (lapsState (stateAfter sevenLaps))).
Proof.
  assert (Hreach : reachable (stateAfter sevenLaps)).
  { apply (@reachable_feed sevenLaps initialState);
      [apply reachable_initial | vm_compute; reflexivity]. }
  split; [exact Hreach|]. split; [vm_compute; reflexivity|].
  exact (proj1 (proj2 (@lap_list_sorted_and_finished (stateAfter sevenLaps) Hreach))).
Defined.

(** ** The per-lap records of the player *)

(** X19.  In every state the server reaches by handling datagrams, no per-lap
    record of the player is ahead of the lap the player is on: a lap with a
    tyre snapshot or a pit record is not above the current lap, and a pit
    stint under way started on such a lap. The two pit tables have the same
    lap numbers, and every time in the pit lane that is recorded is positive. *)
Theorem per_lap_records_not_ahead (st : State) :
  reachable st ->
  (forall n,
      (map_get n (pitLaneTimeByLap st) = None <-> map_get n (pitLaneStatusByLap st) = None)
      /\ (forall t, map_get n (pitLaneTimeByLap st) = Some t -> 0 < t)
      /\ (map_get n (tyreByLapStart st) <> None \/ map_get n (pitLaneTimeByLap st) <> None ->
          exists cur, PlayerState.currentLapNum (playerState st) = Some cur /\ n <= cur))
  /\ (PlayerState.pitLaneActive (playerState st) = true ->
      exists s cur,
        PlayerState.pitLaneStartLapNum (playerState st) = Some s
        /\ PlayerState.currentLapNum (playerState st) = Some cur /\ s <= cur).
Proof.
  intros Hr. pose proof (@reachable_perLapTablesBounded _ Hr) as HP.
  unfold perLapTablesBounded in HP.
  destruct (PlayerState.currentLapNum (playerState st)) as [cur|].
  - destruct HP as [_ [Hty [Hpit Hstint]]]. split.
    + intros n. destruct (Hpit n) as [Hpos Hiff]. split; [exact Hiff|]. split.
      * intros t Ht. exact (proj2 (Hpos t Ht)).
      * intros Hn. exists cur. split; [reflexivity|].
        destruct Hn as [Hn|Hn].
        -- destruct (map_get n (tyreByLapStart st)) as [v|] eqn:E; [|contradiction].
           exact (Hty n v E).
        -- destruct (map_get n (pitLaneTimeByLap st)) as [t|] eqn:E; [|contradiction].
           exact (proj1 (Hpos t eq_refl)).
    + intros Ha. destruct (Hstint Ha) as [s [Hs Hle]]. exists s, cur. auto.
  - split.
    + intros n. destruct (HP n) as [_ [Hty [Hpit _]]].
      destruct (Hpit n) as [Hpos Hiff]. split; [exact Hiff|]. split.
      * intros t Ht. exact (proj2 (Hpos t Ht)).
      * intros Hn. exfalso. destruct (HP (n - 1)) as [_ [Hty' [Hpit' _]]].
        destruct Hn as [Hn|Hn].
        -- destruct (map_get n (tyreByLapStart st)) as [v|] eqn:E; [|contradiction].
           pose proof (Hty' n v E). lia.
        -- destruct (map_get n (pitLaneTimeByLap st)) as [t|] eqn:E; [|contradiction].
           pose proof (proj1 (proj1 (Hpit' n) t E)). lia.
    + intros Ha. exfalso. destruct (HP 0) as [_ [_ [_ Hstint]]].
      destruct (Hstint Ha) as [s [Hs Hle]].
      destruct (HP (s - 1)) as [_ [_ [_ Hstint']]].
      destruct (Hstint' Ha) as [s' [Hs' Hle']]. rewrite Hs in Hs'.
      injection Hs' as <-. lia.
Qed.

(** The theorem after the pit visit that began on lap 10 and ended on lap 11:
    the visit of 23000 ms is recorded for lap 10. *)
Lemma per_lap_records_not_ahead_witness :
  reachable (stateAfter pitVisit)
  /\ map_get 10 (pitLaneTimeByLap (stateAfter pitVisit)) = Some 23000
  /\ exists cur,
       PlayerState.currentLapNum (playerState (stateAfter pitVisit)) = Some cur
       /\ 10 <= cur.
Proof.
  assert (Hreach : reachable (stateAfter pitVisit)).
  { apply (@reachable_feed pitVisit initialState);
      [apply reachable_initial | vm_compute; reflexivity]. }
  assert (Hrec : map_get 10 (pitLaneTimeByLap (stateAfter pitVisit)) = Some 23000)
    by (vm_compute; reflexivity).
  split; [exact Hreach|]. split; [exact Hrec|].
  apply (proj1 (@per_lap_records_not_ahead (stateAfter pitVisit) Hreach) 10).
  right. rewrite Hrec. discriminate.
Defined.

(** ** The participants and the per-car caches *)

(** X15.  In every state the server reaches by handling datagrams, a slot with
    a participant name is one of the 22 car slots, its name is not empty, and
    it has a team and a colour: the three participant tables are filled
    together. *)
Theorem participants_tables_aligned (st : State) :
  reachable st ->
  forall i name,
    map_get i (participantsNameByIndex st) = Some name ->
    name <> [] /\ 0 <= i < NUM_CARS
    /\ map_get i (participantsTeamIdByIndex st) <> None
    /\ map_get i (participantsColorByIndex st) <> None.
Proof. exact (@reachable_participantsAligned st). Qed.

(** The theorem after the sample participants datagram, at slot 2. *)
Lemma participants_tables_aligned_witness :
  reachable (stateAfter [participantsDatagram])
  /\ exists name,
       map_get 2 (participantsNameByIndex (stateAfter [participantsDatagram])) = Some name
       /\ name <> []
       /\ map_get 2 (participantsTeamIdByIndex (stateAfter [participantsDatagram])) <> None.
Proof.
  assert (Hreach : reachable (stateAfter [participantsDatagram])).
  { apply (@reachable_feed [participantsDatagram] initialState);
      [apply reachable_initial | vm_compute; reflexivity]. }
  split; [exact Hreach|].
  destruct (map_get 2 (participantsNameByIndex (stateAfter [participantsDatagram])))
    as [name|] eqn:E; [|vm_compute in E; discriminate E].
  exists name. split; [reflexivity|].
  destruct (@participants_tables_aligned _ Hreach 2 name E) as [H1 [_ [H2 _]]].
  split; [exact H1 | exact H2].
Defined.

(** X16.  In every state the server reaches by handling datagrams, a cached
    lap record belongs to one of the 22 car slots; its two gaps, when present,
    are positive; its three sector times are those of the sector cache of the
    slot, which are not negative when present; and the pit tracker of the slot
    exists and is active exactly when the record has the pit lane timer
    running. *)
Theorem per_car_caches_aligned (st : State) :
  reachable st ->
  forall i lap,
    map_get i (lapDataByIndex st) = Some lap ->
    0 <= i < NUM_CARS
    /\ (forall g, LapData.deltaToCarInFrontMs lap = Some g
                  \/ LapData.deltaToRaceLeaderMs lap = Some g -> 0 < g)
    /\ map_get i (sectorCacheByIndex st)
       = Some (SectorCache.mk (LapData.sector1TimeMs lap) (LapData.sector2TimeMs lap)
                 (LapData.sector3TimeMs lap))
    /\ (forall s, LapData.sector1TimeMs lap = Some s \/ LapData.sector2TimeMs lap = Some s
                  \/ LapData.sector3TimeMs lap = Some s -> 0 <= s)
    /\ exists p, map_get i (pitLaneStintByIndex st) = Some p
                 /\ PitStint.active p = (LapData.pitLaneTimerActive lap =? 1).
Proof.
  intros Hr i lap Hget. destruct (@reachable_lapCachesAligned _ Hr) as [H1 H2].
  destruct (H1 i lap Hget) as [Hi [Hg [Hc Hp]]].
  split; [exact Hi|]. split; [exact Hg|]. split; [exact Hc|]. split; [|exact Hp].
  exact (H2 i _ Hc).
Qed.

(** The theorem after the complete lap-data datagram, at slot 5. *)
Lemma per_car_caches_aligned_witness :
  reachable (stateAfter [fullLapDatagram])
  /\ exists lap p,
       map_get 5 (lapDataByIndex (stateAfter [fullLapDatagram])) = Some lap
       /\ map_get 5 (pitLaneStintByIndex (stateAfter [fullLapDatagram])) = Some p
       /\ PitStint.active p = (LapData.pitLaneTimerActive lap =? 1).
Proof.
  assert (Hreach : reachable (stateAfter [fullLapDatagram])).
  { apply (@reachable_feed [fullLapDatagram] initialState);
      [apply reachable_initial | vm_compute; reflexivity]. }
  split; [exact Hreach|].
  destruct (map_get 5 (lapDataByIndex (stateAfter [fullLapDatagram])))
    as [lap|] eqn:E; [|vm_compute in E; discriminate E].
  destruct (@per_car_caches_aligned _ Hreach 5 lap E) as [_ [_ [_ [_ [p [Hp Ha]]]]]].
  exists lap, p. split; [reflexivity|]. split; [exact Hp | exact Ha].
Defined.

(** X17.  In every state the server reaches by handling datagrams, every lap
    time of every stored history table is positive: a lap time of 0 in a
    datagram is stored as absent. *)
Theorem history_lap_times_positive (st : State) :
  reachable st ->
  forall car h n e t,
    map_get car (sessionHistoryByCarIndex st) = Some h ->
    In (n, e) h -> HistEntry.lapTimeMs e = Some t -> 0 < t.
Proof. exact (@reachable_historyDecoded st). Qed.

(** The theorem after the sample history datagram: lap 1 has 80000 ms, and the
    lap time 0 of lap 2 is absent. *)
Lemma history_lap_times_positive_witness :
  reachable (stateAfter [historyTwoLaps])
  /\ exists h e1 e2,
       map_get 0 (sessionHistoryByCarIndex (stateAfter [historyTwoLaps])) = Some h
       /\ h = [(1, e1); (2, e2)]
       /\ HistEntry.lapTimeMs e1 = Some 80000 /\ 0 < 80000
       /\ HistEntry.lapTimeMs e2 = None.
Proof.
  assert (Hreach : reachable (stateAfter [historyTwoLaps])).
  { apply (@reachable_feed [historyTwoLaps] initialState);
      [apply reachable_initial | vm_compute; reflexivity]. }
  split; [exact Hreach|].
  destruct (map_get 0 (sessionHistoryByCarIndex (stateAfter [historyTwoLaps])))
    as [h|] eqn:E; [|vm_compute in E; discriminate E].
  assert (Eh : exists e1 e2, h = [(1, e1); (2, e2)]
                             /\ HistEntry.lapTimeMs e1 = Some 80000
                             /\ HistEntry.lapTimeMs e2 = None).
  { vm_compute in E. injection E as <-. eexists. eexists.
    split; [reflexivity|]. split; reflexivity. }
  destruct Eh as [e1 [e2 [Eh [T1 T2]]]]. exists h, e1, e2.
  split; [reflexivity|]. split; [exact Eh|]. split; [exact T1|]. split; [|exact T2].
  apply (@history_lap_times_positive _ Hreach 0 h 1 e1 80000 E);
    [rewrite Eh; left; reflexivity | exact T1].
Defined.
(** * The published leaderboard *)

(** ** The gaps to the car ahead *)

Lemma cmpByLapTime_total (a b : RaceCar.t) :
  cmpByLapTime a b <= 0 \/ cmpByLapTime b a <= 0.
Proof.
  unfold cmpByLapTime.
  destruct (RaceCar.lapTimeMs a) as [x|], (RaceCar.lapTimeMs b) as [y|]; try lia.
  destruct (x =? y) eqn:E.
  - apply Z.eqb_eq in E. subst y. rewrite Z.eqb_refl. cbn. lia.
  - rewrite (Z.eqb_sym y x), E. cbn. lia.
Qed.

Lemma cmpByLapTime_times (a b : RaceCar.t) (x y : Z) :
  cmpByLapTime a b <= 0 ->
  RaceCar.lapTimeMs a = Some x -> RaceCar.lapTimeMs b = Some y -> x <= y.
Proof.
  unfold cmpByLapTime. intros H Ha Hb. rewrite Ha, Hb in H.
  destruct (x =? y) eqn:E; cbn in H; [apply Z.eqb_eq in E|]; lia.
Qed.

Lemma gapsByLapTime_cons (prev : option RaceCar.t) (cur : RaceCar.t)
  (rest : list RaceCar.t) :
  exists cur',
    gapsByLapTime prev (cur :: rest) = cur' :: gapsByLapTime (Some cur') rest
    /\ RaceCar.lapTimeMs cur' = RaceCar.lapTimeMs cur
    /\ forall g, RaceCar.gapToCarAheadMs cur' = Some g ->
         exists p x y, prev = Some p /\ RaceCar.lapTimeMs cur = Some x
                       /\ RaceCar.lapTimeMs p = Some y /\ g = x - y.
Proof.
  simpl. eexists. split; [reflexivity|].
  destruct prev as [p|]; [|split; [reflexivity | intros g [=]]].
  destruct (RaceCar.lapTimeMs cur) as [x|] eqn:Ex;
    [|split; [exact Ex | intros g [=]]].
  destruct (RaceCar.lapTimeMs p) as [y|] eqn:Ey;
    [|split; [exact Ex | intros g [=]]].
  split; [exact Ex|]. intros g [= <-]. exists p, x, y. auto.
Qed.

Lemma gapsByLapTime_gaps (l : list RaceCar.t) (prev : option RaceCar.t) :
  Sorted (fun a b => cmpByLapTime a b <= 0) l ->
  (forall p c x y, prev = Some p -> In c (firstn 1 l) ->
     RaceCar.lapTimeMs p = Some x -> RaceCar.lapTimeMs c = Some y -> x <= y) ->
  gapsNotNegative (gapsByLapTime prev l).
Proof.
  revert prev. induction l as [|cur rest IH]; intros prev Hs Hprev.
  - intros c g [].
  - destruct (gapsByLapTime_cons prev cur rest) as [cur' [-> [Ht Hg]]].
    inversion Hs as [|? ? Hs' Hhd]; subst.
    intros c g [<-|Hin] Hgap.
    + destruct (Hg g Hgap) as [p [x [y [Hp [Hx [Hy ->]]]]]].
      pose proof (Hprev p cur y x Hp (or_introl eq_refl) Hy Hx). lia.
    + refine (IH (Some cur') Hs' _ c g Hin Hgap).
      intros p c0 x y [= <-] Hc0 Hx Hy. rewrite Ht in Hx.
      destruct rest as [|z rest]; [destruct Hc0|].
      destruct Hc0 as [<-|[]]. inversion Hhd; subst.
      exact (@cmpByLapTime_times cur z x y ltac:(assumption) Hx Hy).
Qed.

Lemma gapsByPosition_gaps (l : list RaceCar.t) (prev : option RaceCar.t) :
  gapsNotNegative l -> gapsNotNegative (gapsByPosition prev l).
Proof.
  revert prev. induction l as [|cur rest IH]; intros prev Hl; [intros c g []|].
  simpl. intros c g [<-|Hin] Hgap.
  - destruct (RaceCar.position cur =? 1); [discriminate Hgap|].
    destruct (RaceCar.gapToCarAheadMs cur) as [g0|] eqn:Eg.
    { rewrite Eg in Hgap. injection Hgap as <-.
      exact (Hl cur g0 (or_introl eq_refl) Eg). }
    destruct (RaceCar.gapToLeaderMs cur) as [cl|];
      [|rewrite Eg in Hgap; discriminate Hgap].
    destruct (match prev with Some p => RaceCar.gapToLeaderMs p | None => None end)
      as [pl|]; [|rewrite Eg in Hgap; discriminate Hgap].
    cbn in Hgap. destruct (cl - pl >=? 0) eqn:Ed; [|discriminate Hgap].
    injection Hgap as <-. lia.
  - refine (IH _ _ c g Hin Hgap).
    intros c0 g0 Hc0. apply Hl. right. exact Hc0.
Qed.

Lemma map_of_pairs_fold_In (V : Type) (l : list (Z * V)) (m : JSMap V) (k : Z) (v : V) :
  In (k, v) (fold_left (fun m kv => map_set (fst kv) (snd kv) m) l m) ->
  In (k, v) l \/ In (k, v) m.
Proof.
  revert m. induction l as [|[k0 v0] l IH]; intros m; simpl; [auto|].
  intros H. destruct (IH _ H) as [H1|H1]; [left; right; exact H1|].
  apply In_map_set in H1. destruct H1 as [H1|H1]; [|right; exact H1].
  left. left. symmetry. exact H1.
Qed.

Lemma reorderLike_In (raw sorted : list RaceCar.t) (c : RaceCar.t) :
  In c (reorderLike raw sorted) -> In c sorted \/ In c raw.
Proof.
  unfold reorderLike. intros H. apply in_map_iff in H. destruct H as [c0 [Hc Hin]].
  destruct (map_get (RaceCar.carIndex c0) _) as [c'|] eqn:E;
    [|right; subst c; exact Hin].
  subst c'. left. apply map_get_In in E. unfold map_of_pairs in E.
  apply map_of_pairs_fold_In in E. destruct E as [E|[]].
  apply in_map_iff in E. destruct E as [c1 [[= _ <-] Hc1]]. exact Hc1.
Qed.

Lemma buildRaceCars_gaps (st : State) (p : Z) :
  (forall i lap g, In (i, lap) (lapDataByIndex st) ->
     LapData.deltaToCarInFrontMs lap = Some g -> 0 < g) ->
  gapsNotNegative (buildRaceCars st p).
Proof.
  intros Hpos. unfold buildRaceCars. cbv zeta.
  set (raw := map (toRaceCar st) (filter (onLeaderboard st p) (lapDataByIndex st))).
  assert (Hraw : gapsNotNegative raw).
  { intros c g Hin Hg. apply in_map_iff in Hin. destruct Hin as [[i lap] [<- Hin]].
    apply filter_In in Hin. destruct Hin as [Hin _].
    pose proof (Hpos i lap g Hin Hg). lia. }
  assert (Hrace : gapsNotNegative
                    (reorderLike raw (gapsByPosition None (js_sort cmpByPosition raw)))).
  { intros c g Hin. apply reorderLike_In in Hin. destruct Hin as [Hin|Hin];
      [|exact (Hraw c g Hin)].
    refine (@gapsByPosition_gaps _ None _ c g Hin).
    intros c0 g0 Hc0. apply Hraw. exact (proj1 (js_sort_In _ _ _) Hc0). }
  destruct (LapsState.sessionKind (lapsState st)) as [[| |]|]; try exact Hrace.
  intros c g Hin. apply reorderLike_In in Hin. destruct Hin as [Hin|Hin];
    [|exact (Hraw c g Hin)].
  refine (@gapsByLapTime_gaps _ None _ _ c g Hin).
  - apply js_sort_sorted. exact cmpByLapTime_total.
  - intros p0 c0 x y [=].
Qed.

(** ** The session-wide bests *)

Lemma raceBestsStep_tracked (st : State) (c : RaceCar.t) :
  trackedBests (raceBestsStep st c)
  = (minOpt (raceBestLapTimeMs st) (countedRowTime c),
     minOpt (raceBestSector1TimeMs st) (RaceCar.sector1TimeMs c),
     minOpt (raceBestSector2TimeMs st) (RaceCar.sector2TimeMs c),
     minOpt (raceBestSector3TimeMs st) (RaceCar.sector3TimeMs c)).
Proof.
  destruct st. unfold raceBestsStep, trackedBests, countedRowTime, minOpt.
  destruct (RaceCar.lapTimeMs c) as [t|], (RaceCar.sector1TimeMs c) as [s1|],
    (RaceCar.sector2TimeMs c) as [s2|], (RaceCar.sector3TimeMs c) as [s3|];
    cbn -[Z.ltb Z.gtb];
    repeat match goal with
      | |- context [match ?x with Some _ => _ | None => _ end] =>
          is_var x; destruct x; cbn -[Z.ltb Z.gtb]
      | |- context [?x >? 0] => is_var x; destruct (x >? 0); cbn -[Z.ltb Z.gtb]
      | |- context [?x <? ?y] =>
          is_var x; is_var y; destruct (x <? y); cbn -[Z.ltb Z.gtb]
      end;
    reflexivity.
Qed.

Lemma raceBests_fold_tracked (cars : list RaceCar.t) (st : State) :
  trackedBests (fold_left raceBestsStep cars st)
  = (fold_left minOpt (map countedRowTime cars) (raceBestLapTimeMs st),
     fold_left minOpt (map RaceCar.sector1TimeMs cars) (raceBestSector1TimeMs st),
     fold_left minOpt (map RaceCar.sector2TimeMs cars) (raceBestSector2TimeMs st),
     fold_left minOpt (map RaceCar.sector3TimeMs cars) (raceBestSector3TimeMs st)).
Proof.
  revert st. induction cars as [|c cars IH]; intros st; [reflexivity|].
  cbn [fold_left map]. rewrite IH.
  pose proof (raceBestsStep_tracked st c) as E. unfold trackedBests in E.
  injection E as -> -> -> ->. reflexivity.
Qed.

Lemma publishLeaderboard_tracked (p : Z) (st : State) :
  trackedBests (publishLeaderboard p st)
  = trackedBests (fold_left raceBestsStep (buildRaceCars st p) st)
  /\ publishedBests (publishLeaderboard p st)
     = trackedBests (fold_left raceBestsStep (buildRaceCars st p) st).
Proof. split; reflexivity. Qed.

Lemma notAbove_fold (cs : list (option Z)) (init cand : option Z) :
  In cand cs -> notAbove (fold_left minOpt cs init) cand.
Proof. intros Hin s ->. apply minOpt_fold_lower. exact Hin. Qed.

Lemma notWorse_fold (cs : list (option Z)) (init : option Z) :
  notWorse init (fold_left minOpt cs init).
Proof. intros b ->. apply minOpt_fold_init. Qed.

Lemma publishedBests_fields (st : State) (a b c d : option Z) :
  publishedBests st = (a, b, c, d) ->
  LapsState.raceBestLapTimeMs (lapsState st) = a
  /\ LapsState.raceBestSector1TimeMs (lapsState st) = b
  /\ LapsState.raceBestSector2TimeMs (lapsState st) = c
  /\ LapsState.raceBestSector3TimeMs (lapsState st) = d.
Proof. unfold publishedBests. intros [= H0 H1 H2 H3]. auto. Qed.

Lemma boardAndBests_fields (a b : State) :
  boardAndBests a = boardAndBests b ->
  LapsState.raceCars (lapsState a) = LapsState.raceCars (lapsState b)
  /\ trackedBests a = trackedBests b /\ publishedBests a = publishedBests b.
Proof.
  intros E. split; [exact (f_equal (fun q => fst (fst q)) E)|].
  split; [exact (f_equal (fun q => snd (fst q)) E) | exact (f_equal snd E)].
Qed.

Lemma publishLeaderboard_boardOK (p : Z) (st : State) :
  (forall i lap g, In (i, lap) (lapDataByIndex st) ->
     LapData.deltaToCarInFrontMs lap = Some g -> 0 < g) ->
  boardOK (publishLeaderboard p st).
Proof.
  intros Hpos. destruct (publishLeaderboard_tracked p st) as [Et Ep].
  split; [rewrite Et, Ep; reflexivity|]. split.
  - rewrite publishLeaderboard_raceCars. apply buildRaceCars_gaps. exact Hpos.
  - unfold rowsWithinBests. rewrite publishLeaderboard_raceCars.
    rewrite raceBests_fold_tracked in Ep.
    destruct (@publishedBests_fields _ _ _ _ _ Ep) as [-> [-> [-> ->]]].
    intros c Hc. repeat split; apply notAbove_fold; apply in_map; exact Hc.
Qed.

Lemma boardOK_view (a b : State) :
  boardAndBests a = boardAndBests b -> boardOK b -> boardOK a.
Proof.
  intros E. destruct (@boardAndBests_fields _ _ E) as [E1 [E2 E3]].
  unfold boardOK, rowsWithinBests. rewrite E1, E2, E3.
  destruct (@publishedBests_fields a _ _ _ _ E3) as [-> [-> [-> ->]]].
  exact (fun H => H).
Qed.

Lemma playerSection_boardAndBests (p : Z) (lap : LapData.t) (st : State) :
  boardAndBests (playerSection p lap st) = boardAndBests st.
Proof. player_view boardAndBests p lap. Qed.

Lemma lapDataLoop_tracked (buf : Buffer) (st st' : State) :
  forEachSlot (lapDataLoopBody buf) carSlots st = Ok st' ->
  trackedBests st' = trackedBests st.
Proof.
  intros H.
  apply (@forEachSlot_preserves (fun s => trackedBests s = trackedBests st)) in H;
    [exact H| |reflexivity].
  intros i s s' _ Hb Hs. rewrite <- Hs. revert Hb. unfold lapDataLoopBody.
  destruct (parseLapDataForCar buf _) as [[t|]|]; cbn [bind]; [| |discriminate];
    intros [= <-]; reflexivity.
Qed.

(** What a datagram does to the leaderboard and the session-wide bests: it
    leaves them as the session test left them, or it is a lap-data datagram
    and publishes them anew from the lap records it leaves. *)
Lemma onMessage_board (msg : Buffer) (st st' : State) (out : list LapsState.t)
  (h : Header.t) :
  parseHeader msg = Ok (Some h) ->
  onMessage msg st = Ok (st', out) ->
  st' = st
  \/ boardAndBests st' = boardAndBests (enterSession h st)
  \/ exists st1,
       boardAndBests st'
       = boardAndBests (publishLeaderboard (Header.playerCarIndex h) st1)
       /\ lapDataByIndex st1 = lapDataByIndex st'
       /\ trackedBests st1 = trackedBests (enterSession h st).
Proof.
  intros Hh H.
  destruct (@onMessage_cases _ _ _ _ H) as [[-> _]|[H1|[H1|[H1|[H1|[H1|[H1|H1]]]]]]].
  - left. reflexivity.
  - right. left. destruct (@handleSessionPacket_writes _ _ _ _ _ Hh H1) as [E _].
    exact (@via_mask _ boardAndBests exceptSession _ _ (fun _ => eq_refl) E).
  - right. left. destruct (@handleParticipantsPacket_writes _ _ _ _ _ Hh H1) as [E _].
    exact (@via_mask _ boardAndBests exceptParticipants _ _ (fun _ => eq_refl) E).
  - right. left. destruct (@handleSessionHistoryPacket_writes _ _ _ _ _ Hh H1) as [E _].
    exact (@via_mask _ boardAndBests exceptHistory _ _ (fun _ => eq_refl) E).
  - right. right. apply handleLapDataPacket_blocks in H1.
    destruct H1 as [[Hn _]|[h' [st0 [st1 [Hh' [Hst0 [Hloop Hrest]]]]]]]; [congruence|].
    assert (h' = h) by congruence. subst h'.
    fold (enterSession h st) in Hst0.
    exists st1. split; [|split].
    + destruct Hrest as [[-> _]|[lap [_ [_ [-> _]]]]];
        [reflexivity | apply playerSection_boardAndBests].
    + assert (Hv : perCarLapView st'
                   = perCarLapView (publishLeaderboard (Header.playerCarIndex h) st1)).
      { destruct Hrest as [[-> _]|[lap [_ [_ [-> _]]]]];
          [reflexivity | apply playerSection_perCarLapView]. }
      rewrite publishLeaderboard_perCarLapView in Hv.
      apply perCarLapView_fields in Hv. symmetry. exact (proj1 Hv).
    + rewrite (@lapDataLoop_tracked _ _ _ Hloop), Hst0. reflexivity.
  - right. left. destruct (@handleCarTelemetryPacket_writes _ _ _ _ _ Hh H1) as [E _].
    exact (@via_mask _ boardAndBests exceptTelemetry _ _ (fun _ => eq_refl) E).
  - right. left. destruct (@handleCarStatusPacket_writes _ _ _ _ _ Hh H1) as [E _].
    exact (@via_mask _ boardAndBests exceptStatus _ _ (fun _ => eq_refl) E).
  - right. left. destruct (@handleCarDamagePacket_writes _ _ _ _ _ Hh H1) as [E _].
    exact (@via_mask _ boardAndBests exceptDamage _ _ (fun _ => eq_refl) E).
Qed.

Lemma reachable_gaps_positive (st : State) :
  reachable st ->
  forall i lap g, In (i, lap) (lapDataByIndex st) ->
    LapData.deltaToCarInFrontMs lap = Some g -> 0 < g.
Proof.
  intros Hr i lap g Hin Hg.
  destruct (reachable_invariants Hr) as [_ [Hnd _]].
  destruct (@reachable_lapCachesAligned _ Hr) as [H1 _].
  destruct (H1 i lap (@In_map_get _ _ _ _ Hnd Hin)) as [_ [Hpos _]].
  apply Hpos. left. exact Hg.
Qed.

Lemma boardOK_fresh (st : State) :
  boardAndBests st = ([], (None, None, None, None), (None, None, None, None)) ->
  boardOK st.
Proof.
  intros E.
  assert (E1 : LapsState.raceCars (lapsState st) = [])
    by exact (f_equal (fun q => fst (fst q)) E).
  assert (E2 : trackedBests st = (None, None, None, None))
    by exact (f_equal (fun q => snd (fst q)) E).
  assert (E3 : publishedBests st = (None, None, None, None))
    by exact (f_equal snd E).
  unfold boardOK, rowsWithinBests. rewrite E1, E2, E3.
  split; [reflexivity|]. split; [intros c g []|intros c []].
Qed.

Lemma reachable_boardOK (st : State) : reachable st -> boardOK st.
Proof.
  induction 1 as [|st st' msg out Hr IH Hrun].
  - apply boardOK_fresh. reflexivity.
  - pose proof (@reachable_message _ _ _ _ Hr Hrun) as Hr'.
    destruct (parseHeader msg) as [[h|]|] eqn:Hh.
    + assert (He : boardOK (enterSession h st)).
      { unfold enterSession. destruct (sessionIsNew h st); [|exact IH].
        apply boardOK_fresh. reflexivity. }
      destruct (@onMessage_board _ _ _ _ _ Hh Hrun) as [->|[E|[st1 [E [El _]]]]].
      * exact IH.
      * exact (@boardOK_view _ _ E He).
      * apply (@boardOK_view _ _ E). apply publishLeaderboard_boardOK.
        rewrite El. exact (@reachable_gaps_positive _ Hr').
    + unfold onMessage in Hrun. rewrite Hh in Hrun. cbn [bind] in Hrun.
      injection Hrun as <- _. exact IH.
    + unfold onMessage in Hrun. rewrite Hh in Hrun. discriminate Hrun.
Qed.

(** X21.  In every state the server reaches by handling datagrams, no row of
    the published leaderboard beats a published session-wide best: a positive
    displayed lap time is not below the best lap time, and a displayed sector
    time is not below the best time of that sector; the best is present
    whenever a row has such a time. The published bests are the ones the
    server tracks. *)
Theorem leaderboard_rows_within_bests (st : State) :
  reachable st ->
  publishedBests st = trackedBests st
  /\ forall c, In c (LapsState.raceCars (lapsState st)) ->
       (forall t, RaceCar.lapTimeMs c = Some t -> 0 < t ->
          exists b, LapsState.raceBestLapTimeMs (lapsState st) = Some b /\ b <= t)
       /\ (forall s, RaceCar.sector1TimeMs c = Some s ->
             exists b, LapsState.raceBestSector1TimeMs (lapsState st) = Some b /\ b <= s)
       /\ (forall s, RaceCar.sector2TimeMs c = Some s ->
             exists b, LapsState.raceBestSector2TimeMs (lapsState st) = Some b /\ b <= s)
       /\ (forall s, RaceCar.sector3TimeMs c = Some s ->
             exists b, LapsState.raceBestSector3TimeMs (lapsState st) = Some b /\ b <= s).
Proof.
  intros Hr. destruct (@reachable_boardOK st Hr) as [E [_ Hrows]].
  split; [symmetry; exact E|]. intros c Hc.
  destruct (Hrows c Hc) as [H0 [H1 [H2 H3]]].
  split; [|split; [exact H1 | split; [exact H2 | exact H3]]].
  intros t Ht Hpos. apply H0. unfold countedRowTime. rewrite Ht.
  replace (t >? 0) with true by (symmetry; apply Z.gtb_lt; lia). reflexivity.
Qed.

Lemma sessionIsNew_false_enter (h : Header.t) (st : State) :
  sessionIsNew h st = false -> enterSession h st = st.
Proof. unfold enterSession. intros ->. reflexivity. Qed.

(** X22.  Within a session the published session-wide bests only improve: a
    datagram of the session the server is in leaves each of the best lap time
    and the three best sector times present when it was present, and not
    above what it was. *)
Theorem session_bests_only_improve (msg : Buffer) (st st' : State) (out : list LapsState.t)
  (h : Header.t) :
  reachable st ->
  parseHeader msg = Ok (Some h) -> sessionIsNew h st = false ->
  onMessage msg st = Ok (st', out) ->
  notWorse (LapsState.raceBestLapTimeMs (lapsState st))
    (LapsState.raceBestLapTimeMs (lapsState st'))
  /\ notWorse (LapsState.raceBestSector1TimeMs (lapsState st))
       (LapsState.raceBestSector1TimeMs (lapsState st'))
  /\ notWorse (LapsState.raceBestSector2TimeMs (lapsState st))
       (LapsState.raceBestSector2TimeMs (lapsState st'))
  /\ notWorse (LapsState.raceBestSector3TimeMs (lapsState st))
       (LapsState.raceBestSector3TimeMs (lapsState st')).
Proof.
  intros Hr Hh Hold Hrun.
  assert (Hsame : forall a b : option Z, a = b -> notWorse b a).
  { intros a b -> x ->. exists x. split; [reflexivity | lia]. }
  destruct (@onMessage_board _ _ _ _ _ Hh Hrun) as [->|[E|[st1 [E [_ Et]]]]];
    rewrite ?(@sessionIsNew_false_enter _ _ Hold) in *.
  - repeat split; apply Hsame; reflexivity.
  - destruct (@boardAndBests_fields _ _ E) as [_ [_ E3]].
    destruct (@publishedBests_fields st' _ _ _ _ E3) as [E0 [E1 [E2 E4]]].
    repeat split; apply Hsame; assumption.
  - destruct (@reachable_boardOK st Hr) as [Ep _]. rewrite <- Et in Ep.
    destruct (@boardAndBests_fields _ _ E) as [_ [_ E3]].
    destruct (publishLeaderboard_tracked (Header.playerCarIndex h) st1) as [_ Ef].
    rewrite Ef, raceBests_fold_tracked in E3. clear Ef.
    destruct (@publishedBests_fields st' _ _ _ _ E3) as [-> [-> [-> ->]]].
    symmetry in Ep.
    destruct (@publishedBests_fields st _ _ _ _ Ep) as [-> [-> [-> ->]]].
    repeat split; apply notWorse_fold.
Qed.

(** The theorems on the leaderboard after the participants and the lap
    record of the player: one row, with a lap of 90000 ms and a first sector
    of 28000 ms. *)
Lemma leaderboard_rows_within_bests_witness :
  reachable (stateAfter namedThenLap)
  /\ exists c,
       LapsState.raceCars (lapsState (stateAfter namedThenLap)) = [c]
       /\ RaceCar.lapTimeMs c = Some 90000
       /\ exists b,
            LapsState.raceBestLapTimeMs (lapsState (stateAfter namedThenLap)) = Some b
            /\ b <= 90000.
Proof.
  assert (Hreach : reachable (stateAfter namedThenLap)).
  { apply (@reachable_feed namedThenLap initialState);
      [apply reachable_initial | vm_compute; reflexivity]. }
  split; [exact Hreach|].
  assert (Hrow : exists c,
             LapsState.raceCars (lapsState (stateAfter namedThenLap)) = [c]
             /\ RaceCar.lapTimeMs c = Some 90000).
  { vm_compute. eexists. split; reflexivity. }
  destruct Hrow as [c [Hc Ht]]. exists c. split; [exact Hc|]. split; [exact Ht|].
  destruct (@leaderboard_rows_within_bests _ Hreach) as [_ Hrows].
  refine (proj1 (Hrows c _) 90000 Ht _); [|lia].
  rewrite Hc. left. reflexivity.
Defined.

(** The theorem on the faster lap that follows: the best lap of 90000 ms is
    not above that afterwards. *)
Lemma session_bests_only_improve_witness :
  reachable (stateAfter namedThenLap)
  /\ sessionIsNew lapHeader1 (stateAfter namedThenLap) = false
  /\ LapsState.raceBestLapTimeMs (lapsState (stateAfter namedThenLap)) = Some 90000
  /\ exists b',
       LapsState.raceBestLapTimeMs
         (lapsState (stateAfter (namedThenLap ++ [fasterLap]))) = Some b'
       /\ b' <= 90000.
Proof.
  assert (Hreach : reachable (stateAfter namedThenLap)).
  { apply (@reachable_feed namedThenLap initialState);
      [apply reachable_initial | vm_compute; reflexivity]. }
  assert (Hold : sessionIsNew lapHeader1 (stateAfter namedThenLap) = false)
    by (vm_compute; reflexivity).
  assert (Hb : LapsState.raceBestLapTimeMs (lapsState (stateAfter namedThenLap))
               = Some 90000) by (vm_compute; reflexivity).
  split; [exact Hreach|]. split; [exact Hold|]. split; [exact Hb|].
  refine (proj1 (@session_bests_only_improve fasterLap (stateAfter namedThenLap)
                   (stateAfter (namedThenLap ++ [fasterLap]))
                   [lapsState (stateAfter (namedThenLap ++ [fasterLap]))]
                   lapHeader1 Hreach _ Hold _) 90000 Hb);
    vm_compute; reflexivity.
Defined.
(** * The kind of the session *)

Lemma readUInt8_value (buf : Buffer) (o v : Z) :
  readUInt8 buf o = Ok v -> 0 <= v <= 255.
Proof.
  unfold readUInt8. destruct (inBounds buf o 1); [|discriminate].
  intros [= <-]. pose proof (byteAt_range buf o). lia.
Qed.

Lemma sessionKindClassified_view (a b : State) :
  sessionKindView a = sessionKindView b ->
  sessionKindClassified b -> sessionKindClassified a.
Proof.
  unfold sessionKindView. intros [= E1 E2 E3]. unfold sessionKindClassified.
  rewrite E1, E2, E3. exact (fun H => H).
Qed.

Lemma keptByLapData_session (a b : State) :
  keptByLapData a = keptByLapData b -> sessionKindView a = sessionKindView b.
Proof.
  unfold keptByLapData, tyreSource, sessionKindView.
  generalize (lapsState a), (lapsState b), (currentTyres a), (currentTyres b).
  intros la lb ta tb H. injection H. intros. congruence.
Qed.

Lemma handleSessionPacket_classified (buf : Buffer) (st st' : State)
  (out : list LapsState.t) (h : Header.t) :
  parseHeader buf = Ok (Some h) ->
  handleSessionPacket buf st = Ok (st', out) ->
  sessionKindClassified (enterSession h st) -> sessionKindClassified st'.
Proof.
  unfold handleSessionPacket. intros Hh. rewrite Hh. cbn [bind]. intros H.
  enter_run h st H. revert H. generalize (enterSession h st). intros st0 H HP.
  destruct (buf_length buf <? HEADER_SIZE + 14); [injection H as <- _; exact HP|].
  destruct (readUInt8 buf (HEADER_SIZE + 3)) as [totalLaps|] eqn:Etl;
    cbn [bind] in H; [|discriminate].
  destruct (readUInt8 buf (HEADER_SIZE + 6)) as [sessionType|] eqn:Ety;
    cbn [bind] in H; [|discriminate].
  repeat match type of H with
    | context [bind ?r _] => destruct r; cbn [bind] in H; [|discriminate]
    end.
  injection H as <- _. unfold sessionKindClassified. cbn.
  split; [exact (readUInt8_value _ _ Ety)|].
  split; [exact (readUInt8_value _ _ Etl) | reflexivity].
Qed.

Lemma onMessage_sessionKindClassified (msg : Buffer) (st st' : State)
  (out : list LapsState.t) (h : Header.t) :
  sessionKindClassified st -> sessionKindClassified (enterSession h st) ->
  parseHeader msg = Ok (Some h) ->
  onMessage msg st = Ok (st', out) -> sessionKindClassified st'.
Proof.
  intros HP HP0 Hh H.
  destruct (@onMessage_cases _ _ _ _ H) as [[-> _]|[H1|[H1|[H1|[H1|[H1|[H1|H1]]]]]]].
  - exact HP.
  - exact (@handleSessionPacket_classified _ _ _ _ _ Hh H1 HP0).
  - destruct (@handleParticipantsPacket_writes _ _ _ _ _ Hh H1) as [E _].
    refine (@sessionKindClassified_view _ _ _ HP0).
    exact (@via_mask _ sessionKindView exceptParticipants _ _ (fun _ => eq_refl) E).
  - destruct (@handleSessionHistoryPacket_writes _ _ _ _ _ Hh H1) as [E _].
    refine (@sessionKindClassified_view _ _ _ HP0).
    exact (@via_mask _ sessionKindView exceptHistory _ _ (fun _ => eq_refl) E).
  - destruct (@handleLapDataPacket_writes _ _ _ _ _ Hh H1) as [E _].
    exact (@sessionKindClassified_view _ _ (@keptByLapData_session _ _ E) HP0).
  - destruct (@handleCarTelemetryPacket_writes _ _ _ _ _ Hh H1) as [E _].
    refine (@sessionKindClassified_view _ _ _ HP0).
    exact (@via_mask _ sessionKindView exceptTelemetry _ _ (fun _ => eq_refl) E).
  - destruct (@handleCarStatusPacket_writes _ _ _ _ _ Hh H1) as [E _].
    refine (@sessionKindClassified_view _ _ _ HP0).
    exact (@via_mask _ sessionKindView exceptStatus _ _ (fun _ => eq_refl) E).
  - destruct (@handleCarDamagePacket_writes _ _ _ _ _ Hh H1) as [E _].
    refine (@sessionKindClassified_view _ _ _ HP0).
    exact (@via_mask _ sessionKindView exceptDamage _ _ (fun _ => eq_refl) E).
Qed.

Lemma sessionKindClassified_fresh (st : State) :
  sessionKindView st = (None, None, None) -> sessionKindClassified st.
Proof.
  unfold sessionKindView. intros [= E1 E2 E3]. unfold sessionKindClassified.
  rewrite E1, E2, E3. reflexivity.
Qed.

Lemma reachable_sessionKindClassified (st : State) :
  reachable st -> sessionKindClassified st.
Proof.
  apply reachable_induction.
  - apply sessionKindClassified_fresh. reflexivity.
  - intros uid s. apply sessionKindClassified_fresh. reflexivity.
  - intros msg s s' out h _ HP HP0 Hh H.
    exact (@onMessage_sessionKindClassified _ _ _ _ _ HP HP0 Hh H).
Qed.

Lemma classifySession_table (ty tl : Z) :
  0 <= ty <= 255 -> 0 <= tl <= 255 ->
  (classifySession ty tl = time_trial <-> ty = 12)
  /\ (classifySession ty tl = race
      <-> (ty = 10 \/ ty = 11 \/ 13 <= ty <= 15) \/ ((ty = 0 \/ 16 <= ty) /\ 0 < tl))
  /\ (classifySession ty tl = time_attack
      <-> 1 <= ty <= 9 \/ ((ty = 0 \/ 16 <= ty) /\ tl = 0)).
Proof.
  intros Hty Htl. unfold classifySession. cbv zeta.
  destruct (ty =? 12) eqn:E12;
    [apply Z.eqb_eq in E12; repeat split; intros; try discriminate; lia|].
  apply Z.eqb_neq in E12.
  destruct (ty =? 10) eqn:E10; destruct (ty =? 11) eqn:E11;
    destruct (ty =? 13) eqn:E13; destruct (ty =? 14) eqn:E14;
    destruct (ty =? 15) eqn:E15; cbn [orb];
    rewrite ?Z.eqb_eq, ?Z.eqb_neq in *;
    try (repeat split; intros; try discriminate; lia).
  destruct (ty >=? 1) eqn:G1; destruct (ty <=? 4) eqn:L4;
    destruct (ty >=? 5) eqn:G5; destruct (ty <=? 9) eqn:L9;
    destruct (tl >? 0) eqn:T0; cbn [andb orb];
    rewrite ?Z.geb_le, ?Z.leb_le, ?Z.leb_gt, ?Z.gtb_lt in *;
    try (apply Z.geb_leb in G1); try (apply Z.geb_leb in G5);
    try (apply Z.gtb_ltb in T0);
    repeat split; intros; try discriminate; try reflexivity; lia.
Qed.

(** X23.  In every state the server reaches by handling datagrams, the kind of
    the session is known exactly when the session type and the number of laps
    are, and it is decided by them: a time trial for type 12; a race for the
    types 10, 11 and 13 to 15, and for a type outside 1 to 15 with a positive
    number of laps; practice or qualifying for the types 1 to 9, and for a
    type outside 1 to 15 with no laps. *)
Theorem session_kind_follows_type (st : State) :
  reachable st ->
  match LapsState.sessionType (lapsState st), LapsState.totalLaps (lapsState st) with
  | Some ty, Some tl =>
      0 <= ty <= 255 /\ 0 <= tl <= 255
      /\ exists k,
           LapsState.sessionKind (lapsState st) = Some k
           /\ (k = time_trial <-> ty = 12)
           /\ (k = race
               <-> (ty = 10 \/ ty = 11 \/ 13 <= ty <= 15)
                   \/ ((ty = 0 \/ 16 <= ty) /\ 0 < tl))
           /\ (k = time_attack <-> 1 <= ty <= 9 \/ ((ty = 0 \/ 16 <= ty) /\ tl = 0))
  | None, None => LapsState.sessionKind (lapsState st) = None
  | _, _ => False
  end.
Proof.
  intros Hr. pose proof (@reachable_sessionKindClassified st Hr) as H.
  unfold sessionKindClassified in H.
  destruct (LapsState.sessionType (lapsState st)) as [ty|],
    (LapsState.totalLaps (lapsState st)) as [tl|]; try exact H.
  destruct H as [Hty [Htl Hk]]. split; [exact Hty|]. split; [exact Htl|].
  exists (classifySession ty tl). split; [exact Hk|].
  apply classifySession_table; assumption.
Qed.

(** The theorem after the session datagram of a race of 50 laps. *)
Lemma session_kind_follows_type_witness :
  reachable (stateAfter [sessionDatagram2])
  /\ LapsState.sessionType (lapsState (stateAfter [sessionDatagram2])) = Some 10
  /\ LapsState.sessionKind (lapsState (stateAfter [sessionDatagram2])) = Some race.
Proof.
  assert (Hreach : reachable (stateAfter [sessionDatagram2])).
  { apply (@reachable_feed [sessionDatagram2] initialState);
      [apply reachable_initial | vm_compute; reflexivity]. }
  assert (Hty : LapsState.sessionType (lapsState (stateAfter [sessionDatagram2]))
                = Some 10) by (vm_compute; reflexivity).
  split; [exact Hreach|]. split; [exact Hty|].
  pose proof (@session_kind_follows_type _ Hreach) as H. rewrite Hty in H.
  destruct (LapsState.totalLaps (lapsState (stateAfter [sessionDatagram2])));
    [|destruct H].
  destruct H as [_ [_ [k [Hk [_ [Hrace _]]]]]]. rewrite Hk. f_equal.
  apply Hrace. left. left. reflexivity.
Defined.
(** * A finished lap enters the lap table *)

Lemma truncateOnFlashback_forward (lap : LapData.t) (s : State) (q : Z) :
  PlayerState.currentLapNum (playerState s) = Some q ->
  q <= LapData.currentLapNum lap ->
  truncateOnFlashback lap s = s.
Proof.
  intros Hq Hle. unfold truncateOnFlashback. rewrite Hq.
  replace (LapData.currentLapNum lap <? q) with false; [reflexivity|].
  symmetry. apply Z.ltb_ge. exact Hle.
Qed.

Lemma trackPlayerPitLane_keys (lap : LapData.t) (s : State) :
  map_keys (lapsByNumber (trackPlayerPitLane lap s)) = map_keys (lapsByNumber s).
Proof.
  unfold trackPlayerPitLane.
  destruct (LapData.pitLaneTimerActive lap =? 1); [reflexivity|].
  destruct (PlayerState.pitLaneActive (playerState s)); [|reflexivity].
  destruct (PlayerState.pitLaneStartLapNum (playerState s)) as [n|]; [|reflexivity].
  destruct (PlayerState.pitLaneMaxTimeMs (playerState s) >? 0); [|reflexivity].
  cbn [lapsByNumber set_pitLaneStatusByLap set_pitLaneTimeByLap set_playerState].
  destruct (map_get n (lapsByNumber s)) as [entry|] eqn:Ee; [|reflexivity].
  rewrite recomputeFromLaps_lapsByNumber, map_keys_markEntries.
  cbn [lapsByNumber set_lapsByNumber].
  exact (@map_keys_set_present _ n _ entry _ Ee).
Qed.

Lemma liveSectorBests_keys (r : bool) (lap : LapData.t) (s : State) :
  map_keys (lapsByNumber (liveSectorBests r lap s)) = map_keys (lapsByNumber s).
Proof.
  unfold liveSectorBests.
  destruct (lapIsValid r (LapData.currentLapInvalid lap)).
  - repeat break_match; reflexivity.
  - rewrite recomputeFromLaps_lapsByNumber. apply map_keys_markEntries.
Qed.

Lemma markEntry_fields (b : option Z) (l : LapEntry.t) :
  LapEntry.lapNumber (markEntry b l) = LapEntry.lapNumber l
  /\ LapEntry.lapTimeMs (markEntry b l) = LapEntry.lapTimeMs l
  /\ LapEntry.valid (markEntry b l) = LapEntry.valid l
  /\ LapEntry.numPitStops (markEntry b l) = LapEntry.numPitStops l
  /\ LapEntry.sector1TimeMs (markEntry b l) = LapEntry.sector1TimeMs l
  /\ LapEntry.sector2TimeMs (markEntry b l) = LapEntry.sector2TimeMs l
  /\ LapEntry.sector3TimeMs (markEntry b l) = LapEntry.sector3TimeMs l.
Proof. repeat split; reflexivity. Qed.

Lemma finalizeLap_finishes (r : bool) (p : Z) (lap : LapData.t) (s : State) (q : Z) :
  PlayerState.currentLapNum (playerState s) = Some q ->
  q < LapData.currentLapNum lap -> 0 < LapData.lastLapTimeInMS lap ->
  exists row b,
    lapsByNumber (finalizeLap r p lap s)
    = markEntries b (map_set q row (lapsByNumber s))
    /\ LapEntry.lapNumber row = q
    /\ LapEntry.lapTimeMs row
       = Some match match map_get q (historyOf s p) with
                    | Some e => HistEntry.lapTimeMs e
                    | None => None
                    end with
              | Some t => t
              | None => LapData.lastLapTimeInMS lap
              end
    /\ LapEntry.valid row = lapIsValid r (PlayerState.currentLapInvalid (playerState s))
    /\ LapEntry.numPitStops row = LapData.numPitStops lap
    /\ (match map_get q (historyOf s p) with
        | Some e => HistEntry.sector3TimeMs e
        | None => None
        end = None ->
        forall c, LapEntry.sector3TimeMs row = Some c ->
          exists a b0 t,
            LapEntry.sector1TimeMs row = Some a /\ LapEntry.sector2TimeMs row = Some b0
            /\ LapEntry.lapTimeMs row = Some t /\ a + b0 + c = t /\ 0 <= c).
Proof.
  intros Hq Hlt Hlast. unfold finalizeLap. rewrite Hq.
  replace (LapData.currentLapNum lap >? q) with true by (symmetry; apply Z.gtb_lt; lia).
  replace (LapData.lastLapTimeInMS lap >? 0) with true by (symmetry; apply Z.gtb_lt; lia).
  cbv zeta. cbn [andb].
  match goal with
  | |- context [recomputeFromLaps (set_lapsByNumber (map_set q ?e _) s)] =>
      exists e;
      exists (b_bestLapTimeMs (scanBests (map_values (map_set q e (lapsByNumber s)))))
  end.
  split; [reflexivity|]. split; [reflexivity|].
  unfold historyOf.
  destruct (map_get p (sessionHistoryByCarIndex s)) as [h|]; cbn [map_get].
  2: { split; [reflexivity|]. split; [reflexivity|]. split; [reflexivity|].
       intros _ c. cbn. repeat break_match; try discriminate.
       intros [= <-]. do 3 eexists. repeat split; try reflexivity; lia. }
  destruct (map_get q h) as [[t0 s1 s2 s3 vf]|].
  2: { split; [reflexivity|]. split; [reflexivity|]. split; [reflexivity|].
       intros _ c. cbn. repeat break_match; try discriminate.
       intros [= <-]. do 3 eexists. repeat split; try reflexivity; lia. }
  split; [reflexivity|]. split; [reflexivity|]. split; [reflexivity|].
  cbn. intros ->. intros c. repeat break_match; try discriminate;
    intros [= <-]; do 3 eexists; repeat split; try reflexivity; lia.
Qed.

Lemma playerSection_finishes (p : Z) (lap : LapData.t) (s : State) (q : Z) :
  PlayerState.currentLapNum (playerState s) = Some q ->
  q < LapData.currentLapNum lap -> 0 < LapData.lastLapTimeInMS lap ->
  map_get q (lapsByNumber s) = None ->
  exists row,
    map_get q (lapsByNumber (playerSection p lap s)) = Some row
    /\ map_keys (lapsByNumber (playerSection p lap s)) = map_keys (lapsByNumber s) ++ [q]
    /\ PlayerState.currentLapNum (playerState (playerSection p lap s))
       = Some (LapData.currentLapNum lap)
    /\ LapEntry.lapNumber row = q
    /\ LapEntry.lapTimeMs row
       = Some match match map_get q (historyOf s p) with
                    | Some e => HistEntry.lapTimeMs e
                    | None => None
                    end with
              | Some t => t
              | None => LapData.lastLapTimeInMS lap
              end
    /\ LapEntry.valid row
       = lapIsValid match LapsState.sessionKind (lapsState s) with
                    | Some race => true
                    | _ => false
                    end (PlayerState.currentLapInvalid (playerState s))
    /\ LapEntry.numPitStops row = LapData.numPitStops lap
    /\ (match map_get q (historyOf s p) with
        | Some e => HistEntry.sector3TimeMs e
        | None => None
        end = None ->
        forall c, LapEntry.sector3TimeMs row = Some c ->
          exists a b0 t,
            LapEntry.sector1TimeMs row = Some a /\ LapEntry.sector2TimeMs row = Some b0
            /\ LapEntry.lapTimeMs row = Some t /\ a + b0 + c = t /\ 0 <= c).
Proof.
  intros Hq Hlt Hlast Hnone. unfold playerSection. cbv zeta.
  rewrite (@truncateOnFlashback_forward lap (setCurrentPenalties lap s) q Hq
             (Z.lt_le_incl _ _ Hlt)).
  set (view := fun x : State =>
                 (finalizeInputs x, PlayerState.currentLapInvalid (playerState x))).
  assert (Hb1 : forall x, view (setCurrentPenalties lap x) = view x) by reflexivity.
  assert (Hb3 : forall x, view (snapshotTyresAtLapStart lap x) = view x)
    by (intros x; unfold snapshotTyresAtLapStart; phase_frame).
  assert (Hb4 : forall x, view (trackPlayerPitLane lap x) = view x)
    by (intros x; unfold trackPlayerPitLane; phase_frame).
  assert (Hb5 : forall x, view (cachePlayerSectors lap x) = view x)
    by (intros x; unfold cachePlayerSectors; phase_frame).
  assert (Hb6 : forall x, view (setLiveLapTime lap x) = view x) by reflexivity.
  assert (Hb7 : forall r x, view (liveSectorBests r lap x) = view x)
    by (intros r x; unfold liveSectorBests; phase_frame).
  assert (Hb8 : forall r t x, view (setCurrentLap r t lap x) = view x) by reflexivity.
  assert (Hk1 : forall x, map_keys (lapsByNumber (setCurrentPenalties lap x))
                          = map_keys (lapsByNumber x)) by reflexivity.
  assert (Hk3 : forall x, map_keys (lapsByNumber (snapshotTyresAtLapStart lap x))
                          = map_keys (lapsByNumber x))
    by (intros x; unfold snapshotTyresAtLapStart; phase_frame).
  assert (Hk5 : forall x, map_keys (lapsByNumber (cachePlayerSectors lap x))
                          = map_keys (lapsByNumber x)) by reflexivity.
  assert (Hk6 : forall x, map_keys (lapsByNumber (setLiveLapTime lap x))
                          = map_keys (lapsByNumber x)) by reflexivity.
  assert (Hk8 : forall r t x, map_keys (lapsByNumber (setCurrentLap r t lap x))
                              = map_keys (lapsByNumber x)) by reflexivity.
  match goal with
  | |- context [finalizeLap ?r p lap ?s8] =>
      assert (Hv : view s8 = view s)
        by (rewrite Hb8, Hb7, Hb6, Hb5, Hb4, Hb3, Hb1; reflexivity);
      assert (Hk : map_keys (lapsByNumber s8) = map_keys (lapsByNumber s))
        by (rewrite Hk8, liveSectorBests_keys, Hk6, Hk5, trackPlayerPitLane_keys, Hk3, Hk1;
            reflexivity);
      set (x8 := s8) in *; clearbody x8
  end.
  clear Hb1 Hb3 Hb4 Hb5 Hb6 Hb7 Hb8 Hk1 Hk3 Hk5 Hk6 Hk8.
  assert (Hq8 : PlayerState.currentLapNum (playerState x8) = Some q)
    by (rewrite <- Hq; exact (f_equal (fun v => fst (fst v)) Hv)).
  assert (Hh8 : sessionHistoryByCarIndex x8 = sessionHistoryByCarIndex s)
    by exact (f_equal (fun v => snd (fst v)) Hv).
  assert (Hi8 : PlayerState.currentLapInvalid (playerState x8)
                = PlayerState.currentLapInvalid (playerState s))
    by exact (f_equal snd Hv).
  match goal with
  | |- context [finalizeLap ?r p lap x8] =>
      change (lapsByNumber (updateLiveDelta (rememberLap lap (finalizeLap r p lap x8))))
        with (lapsByNumber (finalizeLap r p lap x8));
      change (PlayerState.currentLapNum
                (playerState (updateLiveDelta (rememberLap lap (finalizeLap r p lap x8)))))
        with (Some (LapData.currentLapNum lap));
      destruct (@finalizeLap_finishes r p lap x8 q Hq8 Hlt Hlast)
        as [row [b [Hl [Hnum [Htime [Hvalid [Hstops Hsum]]]]]]]
  end.
  assert (Hhist : historyOf x8 p = historyOf s p)
    by (unfold historyOf; rewrite Hh8; reflexivity).
  rewrite Hhist, Hi8 in *. clear Hhist.
  destruct (markEntry_fields b row) as [M1 [M2 [M3 [M4 [M5 [M6 M7]]]]]].
  exists (markEntry b row). rewrite Hl, map_get_markEntries, map_get_set_eq.
  split; [reflexivity|]. split.
  { rewrite map_keys_markEntries, map_keys_set, Hk. unfold map_has.
    assert (Hn8 : map_get q (lapsByNumber x8) = None).
    { apply map_get_None_keys. rewrite Hk. apply map_get_None_keys. exact Hnone. }
    rewrite Hn8. reflexivity. }
  split; [reflexivity|].
  rewrite M1, M2, M3, M4, M5, M6, M7.
  split; [exact Hnum|]. split; [exact Htime|]. split; [exact Hvalid|].
  split; [exact Hstops | exact Hsum].
Qed.

Lemma bestsConsistent_laps (st : State) :
  bestsConsistent st ->
  LapsState.laps (lapsState st)
  = js_sort (fun a b => LapEntry.lapNumber a - LapEntry.lapNumber b)
      (map_values (lapsByNumber st)).
Proof.
  intros [s Hs]. unfold ledgerView in Hs. injection Hs as E1 _ E3.
  rewrite E3, E1. reflexivity.
Qed.

Lemma lapData_before_player (buf : Buffer) (st st' : State) (out : list LapsState.t)
  (h : Header.t) (lap : LapData.t) :
  parseHeader buf = Ok (Some h) ->
  handleLapDataPacket buf st = Ok (st', out) ->
  Header.playerCarIndex h < NUM_CARS ->
  map_get (Header.playerCarIndex h) (lapDataByIndex st') = Some lap ->
  exists s,
    st' = playerSection (Header.playerCarIndex h) lap s
    /\ playerState s = playerState (enterSession h st)
    /\ LapsState.sessionKind (lapsState s)
       = LapsState.sessionKind (lapsState (enterSession h st))
    /\ lapsByNumber s = lapsByNumber (enterSession h st)
    /\ sessionHistoryByCarIndex s = sessionHistoryByCarIndex (enterSession h st).
Proof.
  intros Hh H Hp Hlap. apply handleLapDataPacket_blocks in H.
  destruct H as [[Hn _]|[h' [st0 [st1 [Hh' [Hst0 [Hloop Hrest]]]]]]]; [congruence|].
  assert (h' = h) by congruence. subst h'.
  fold (enterSession h st) in Hst0.
  set (view := fun x : State =>
                 (playerState x, LapsState.sessionKind (lapsState x), lapsByNumber x,
                  sessionHistoryByCarIndex x)).
  assert (Hloop' : view st1 = view st0).
  { apply (@forEachSlot_preserves (fun x => view x = view st0)) in Hloop;
      [exact Hloop| |reflexivity].
    intros i x x' _ Hb Hx. rewrite <- Hx. revert Hb. unfold lapDataLoopBody.
    destruct (parseLapDataForCar buf _) as [[t|]|]; cbn [bind]; [| |discriminate];
      intros [= <-]; reflexivity. }
  assert (Hpub : view (publishLeaderboard (Header.playerCarIndex h) st1) = view st1).
  { unfold publishLeaderboard. cbv zeta.
    transitivity (view (fold_left raceBestsStep
                          (buildRaceCars st1 (Header.playerCarIndex h)) st1));
      [reflexivity|].
    apply (@via_mask _ view withoutRaceBests); [reflexivity|].
    apply raceBests_fold_frame. }
  assert (Hv : view (publishLeaderboard (Header.playerCarIndex h) st1)
               = view (enterSession h st)).
  { rewrite Hpub, Hloop', Hst0. reflexivity. }
  assert (Hcache : lapDataByIndex st' = lapDataByIndex st1).
  { assert (Hc : perCarLapView st'
                 = perCarLapView (publishLeaderboard (Header.playerCarIndex h) st1)).
    { destruct Hrest as [[-> _]|[lap' [_ [_ [-> _]]]]];
        [reflexivity | apply playerSection_perCarLapView]. }
    rewrite publishLeaderboard_perCarLapView in Hc.
    apply perCarLapView_fields in Hc. exact (proj1 Hc). }
  rewrite Hcache in Hlap.
  destruct Hrest as [[_ [_ [Hge|Hnone]]]|[lap' [_ [Hlap' [-> _]]]]].
  - lia.
  - congruence.
  - assert (lap' = lap) by congruence. subst lap'.
    exists (publishLeaderboard (Header.playerCarIndex h) st1).
    split; [reflexivity|].
    split; [exact (f_equal (fun v => fst (fst (fst v))) Hv)|].
    split; [exact (f_equal (fun v => snd (fst (fst v))) Hv)|].
    split; [exact (f_equal (fun v => snd (fst v)) Hv) | exact (f_equal snd Hv)].
Qed.

(** X24.  A finished lap.  When a lap-data datagram of the session the server
    is in shows the player on a lap above the one the server remembers, with a
    positive last lap time, the lap table gets exactly one new row, numbered
    with the remembered lap, whatever the jump of the counter; the row is in
    the lap list sent to the viewers.  Its lap time is the one of the player's
    history for that lap when the history has one, and the last lap time of
    the record otherwise; it is valid in a race, and elsewhere when the flag
    of the record before was clear; and when the history gives no third
    sector, a third sector in the row is the rest of the lap time after the
    two others. *)
Theorem finished_lap_enters_table (buf : Buffer) (st st' : State) (out : list LapsState.t)
  (h : Header.t) (lap : LapData.t) (q : Z) :
  reachable st ->
  parseHeader buf = Ok (Some h) -> sessionIsNew h st = false ->
  handleLapDataPacket buf st = Ok (st', out) ->
  Header.playerCarIndex h < NUM_CARS ->
  map_get (Header.playerCarIndex h) (lapDataByIndex st') = Some lap ->
  PlayerState.currentLapNum (playerState st) = Some q ->
  q < LapData.currentLapNum lap -> 0 < LapData.lastLapTimeInMS lap ->
  exists row,
    map_get q (lapsByNumber st') = Some row
    /\ In row (LapsState.laps (lapsState st'))
    /\ map_keys (lapsByNumber st') = map_keys (lapsByNumber st) ++ [q]
    /\ PlayerState.currentLapNum (playerState st') = Some (LapData.currentLapNum lap)
    /\ LapEntry.lapNumber row = q
    /\ LapEntry.lapTimeMs row
       = Some match match map_get q (historyOf st (Header.playerCarIndex h)) with
                    | Some e => HistEntry.lapTimeMs e
                    | None => None
                    end with
              | Some t => t
              | None => LapData.lastLapTimeInMS lap
              end
    /\ LapEntry.valid row
       = lapIsValid match LapsState.sessionKind (lapsState st) with
                    | Some race => true
                    | _ => false
                    end (PlayerState.currentLapInvalid (playerState st))
    /\ LapEntry.numPitStops row = LapData.numPitStops lap
    /\ (match map_get q (historyOf st (Header.playerCarIndex h)) with
        | Some e => HistEntry.sector3TimeMs e
        | None => None
        end = None ->
        forall c, LapEntry.sector3TimeMs row = Some c ->
          exists a b0 t,
            LapEntry.sector1TimeMs row = Some a /\ LapEntry.sector2TimeMs row = Some b0
            /\ LapEntry.lapTimeMs row = Some t /\ a + b0 + c = t /\ 0 <= c).
Proof.
  intros Hr Hh Hold Hrun Hp Hlap Hq Hlt Hlast.
  destruct (@handleLapDataPacket_invariants buf st st' out Hrun
              (reachable_invariants Hr)) as [_ [_ Hcons]].
  destruct (@lapData_before_player _ _ _ _ _ _ Hh Hrun Hp Hlap)
    as [s [-> [Eps [Ekind [Eled Ehist]]]]].
  rewrite (@sessionIsNew_false_enter _ _ Hold) in *.
  assert (Hnone : map_get q (lapsByNumber s) = None).
  { rewrite Eled. pose proof (@reachable_perLapTablesBounded _ Hr) as HP.
    unfold perLapTablesBounded in HP. rewrite Hq in HP.
    destruct HP as [[_ Hrows] _].
    destruct (map_get q (lapsByNumber st)) as [l|] eqn:E; [|reflexivity].
    pose proof (proj2 (Hrows q l E)). lia. }
  assert (Hq' : PlayerState.currentLapNum (playerState s) = Some q)
    by (rewrite Eps; exact Hq).
  destruct (@playerSection_finishes (Header.playerCarIndex h) lap s q Hq' Hlt Hlast Hnone)
    as [row [Hget [Hkeys [Hcur Hrow]]]].
  assert (Hhist : historyOf s (Header.playerCarIndex h)
                  = historyOf st (Header.playerCarIndex h))
    by (unfold historyOf; rewrite Ehist; reflexivity).
  rewrite Hhist, Ekind, Eps, Eled in *.
  exists row. split; [exact Hget|]. split.
  { rewrite (@bestsConsistent_laps _ Hcons). apply js_sort_In.
    unfold map_values. apply in_map_iff. exists (q, row).
    split; [reflexivity | apply map_get_In; exact Hget]. }
  split; [exact Hkeys|]. split; [exact Hcur | exact Hrow].
Qed.

(** The theorem on the second datagram of the sample run: the player was on
    lap 1 and is on lap 2, with a last lap of 90000 ms and no history. *)
Lemma finished_lap_enters_table_witness :
  reachable (stateAfter (firstn 1 twoLaps))
  /\ PlayerState.currentLapNum (playerState (stateAfter (firstn 1 twoLaps))) = Some 1
  /\ exists row,
       map_get 1 (lapsByNumber (stateAfter (firstn 2 twoLaps))) = Some row
       /\ map_keys (lapsByNumber (stateAfter (firstn 2 twoLaps))) = [1]
       /\ LapEntry.lapTimeMs row = Some 90000.
Proof.
  assert (Hreach : reachable (stateAfter (firstn 1 twoLaps))).
  { apply (@reachable_feed (firstn 1 twoLaps) initialState);
      [apply reachable_initial | vm_compute; reflexivity]. }
  assert (Hq : PlayerState.currentLapNum (playerState (stateAfter (firstn 1 twoLaps)))
               = Some 1) by (vm_compute; reflexivity).
  split; [exact Hreach|]. split; [exact Hq|].
  assert (Hlap : exists lap,
             map_get (Header.playerCarIndex lapHeader1)
               (lapDataByIndex (stateAfter (firstn 2 twoLaps))) = Some lap
             /\ LapData.currentLapNum lap = 2 /\ LapData.lastLapTimeInMS lap = 90000).
  { vm_compute. eexists. repeat split; reflexivity. }
  destruct Hlap as [lap [Hlap [Hcur Hlast]]].
  destruct (@finished_lap_enters_table (nth 1 twoLaps []) (stateAfter (firstn 1 twoLaps))
              (stateAfter (firstn 2 twoLaps))
              [lapsState (stateAfter (firstn 2 twoLaps))] lapHeader1 lap 1 Hreach)
    as [row [Hget [_ [Hkeys [_ [_ [Htime _]]]]]]];
    try (vm_compute; reflexivity); try exact Hlap; try exact Hq; try lia.
  exists row. split; [exact Hget|]. split; [rewrite Hkeys; vm_compute; reflexivity|].
  rewrite Htime, Hlast. vm_compute. reflexivity.
Defined.
(** * The per-car caches of the telemetry and car-status handlers *)

Lemma carSlots_In (i : Z) : 0 <= i < NUM_CARS -> In i carSlots.
Proof.
  intros Hi. unfold carSlots. apply in_map_iff. exists (Z.to_nat i).
  split; [lia|]. apply in_seq. unfold NUM_CARS in *. simpl. lia.
Qed.

(** A loop whose turn [i] stores what it parsed under [i], when it parsed
    something: what the cache holds afterwards. *)
Lemma forEachSlot_stores (V : Type) (cache : State -> JSMap V) (parsed : Z -> option V)
  (body : Z -> State -> result State) (slots : list Z) (st st' : State) :
  (forall i s s', body i s = Ok s' ->
     cache s' = match parsed i with
                | Some v => map_set i v (cache s)
                | None => cache s
                end) ->
  forEachSlot body slots st = Ok st' ->
  forall i,
    (In i slots -> forall v, parsed i = Some v -> map_get i (cache st') = Some v)
    /\ (~ In i slots \/ parsed i = None -> map_get i (cache st') = map_get i (cache st)).
Proof.
  intros Hbody. revert st. induction slots as [|j slots IH]; intros st; simpl.
  - intros [= <-] i. split; [intros [] | reflexivity].
  - destruct (body j st) as [s1|] eqn:E; cbn [bind]; [|discriminate].
    intros Hrun i. destruct (IH s1 Hrun i) as [IH1 IH2].
    pose proof (Hbody j st s1 E) as Hc.
    assert (Hkeep : j <> i \/ parsed i = None ->
                    map_get i (cache s1) = map_get i (cache st)).
    { intros Hor. rewrite Hc. destruct (parsed j) as [v|] eqn:Ej; [|reflexivity].
      destruct Hor as [Hne|Hn]; [apply map_get_set_neq; exact Hne|].
      destruct (Z.eq_dec j i) as [->|Hne]; [congruence|].
      apply map_get_set_neq. exact Hne. }
    split.
    + intros Hin v Hv. destruct (in_dec Z.eq_dec i slots) as [Hi|Hi];
        [exact (IH1 Hi v Hv)|].
      destruct Hin as [->|Hin]; [|contradiction].
      rewrite (IH2 (or_introl Hi)), Hc, Hv. apply map_get_set_eq.
    + intros Hor. destruct Hor as [Hnot|Hn].
      * rewrite (IH2 (or_introl (fun H => Hnot (or_intror H)))).
        apply Hkeep. left. intros ->. apply Hnot. left. reflexivity.
      * rewrite (IH2 (or_intror Hn)). apply Hkeep. right. exact Hn.
Qed.

Lemma parseCarTelemetryForCar_guard (buf : Buffer) (o : Z) :
  0 <= o ->
  (buf_length buf < o + CAR_TELEMETRY_DATA_SIZE -> parseCarTelemetryForCar buf o = Ok None)
  /\ (o + CAR_TELEMETRY_DATA_SIZE <= buf_length buf ->
      exists tel, parseCarTelemetryForCar buf o = Ok (Some tel)).
Proof.
  intros Ho. unfold parseCarTelemetryForCar, CAR_TELEMETRY_DATA_SIZE, read4.
  destruct (buf_length buf <? o + 60) eqn:E;
    [apply Z.ltb_lt in E | apply Z.ltb_ge in E]; (split; intros H; [|]); try lia;
    try reflexivity.
  cbn zeta. reads_ok. eexists; reflexivity.
Qed.

Lemma parseCarStatusForCar_guard (buf : Buffer) (o : Z) :
  0 <= o ->
  (buf_length buf < o + CAR_STATUS_DATA_SIZE -> parseCarStatusForCar buf o = Ok None)
  /\ (o + CAR_STATUS_DATA_SIZE <= buf_length buf ->
      exists status, parseCarStatusForCar buf o = Ok (Some status)).
Proof.
  intros Ho. unfold parseCarStatusForCar, CAR_STATUS_DATA_SIZE.
  destruct (buf_length buf <? o + 55) eqn:E;
    [apply Z.ltb_lt in E | apply Z.ltb_ge in E]; (split; intros H; [|]); try lia;
    try reflexivity.
  cbn zeta. reads_ok. eexists; reflexivity.
Qed.

Lemma handleCarTelemetryPacket_cache (buf : Buffer) (st st' : State)
  (out : list LapsState.t) (h : Header.t) :
  parseHeader buf = Ok (Some h) ->
  handleCarTelemetryPacket buf st = Ok (st', out) ->
  forall i,
    (0 <= i < NUM_CARS ->
     HEADER_SIZE + (i + 1) * CAR_TELEMETRY_DATA_SIZE <= buf_length buf ->
     exists tel,
       parseCarTelemetryForCar buf (HEADER_SIZE + i * CAR_TELEMETRY_DATA_SIZE)
       = Ok (Some tel)
       /\ map_get i (carTelemetryByIndex st') = Some tel)
    /\ (~ 0 <= i < NUM_CARS
        \/ buf_length buf < HEADER_SIZE + (i + 1) * CAR_TELEMETRY_DATA_SIZE ->
        map_get i (carTelemetryByIndex st')
        = map_get i (carTelemetryByIndex (enterSession h st))).
Proof.
  unfold handleCarTelemetryPacket. intros Hh. rewrite Hh. cbn [bind]. intros H.
  enter_run h st H. revert H. generalize (enterSession h st). intros st0 H.
  match type of H with
  | context [forEachSlot ?b ?l ?s] => destruct (forEachSlot b l s) as [s1|] eqn:E
  end; cbn [bind] in H; [|discriminate].
  assert (Hc : carTelemetryByIndex st' = carTelemetryByIndex s1).
  { injection H as <- _. repeat break_match; reflexivity. }
  rewrite Hc. clear H Hc. intros i.
  destruct (@forEachSlot_stores _ carTelemetryByIndex
              (fun j => match parseCarTelemetryForCar buf
                                (HEADER_SIZE + j * CAR_TELEMETRY_DATA_SIZE) with
                        | Ok r => r
                        | RangeError => None
                        end)
              (carTelemetryLoopBody buf) carSlots st0 s1) with (i := i) as [H1 H2];
    [|exact E|].
  { intros j s s'. unfold carTelemetryLoopBody.
    destruct (parseCarTelemetryForCar buf _) as [[t|]|]; cbn [bind];
      [| |discriminate]; intros [= <-]; reflexivity. }
  split.
  - intros Hi Hfit.
    destruct (@parseCarTelemetryForCar_guard buf
                (HEADER_SIZE + i * CAR_TELEMETRY_DATA_SIZE)) as [_ Hsome];
      [unfold HEADER_SIZE, CAR_TELEMETRY_DATA_SIZE; lia|].
    destruct Hsome as [tel Htel]; [lia|]. exists tel. split; [exact Htel|].
    apply (H1 (carSlots_In Hi)). rewrite Htel. reflexivity.
  - intros Hor. apply H2. destruct Hor as [Hout|Hshort].
    + left. intros Hin. apply Hout. apply carSlots_range. exact Hin.
    + destruct (Z_lt_ge_dec i 0) as [Hneg|Hpos].
      * left. intros Hin. apply carSlots_range in Hin. lia.
      * right.
        destruct (@parseCarTelemetryForCar_guard buf
                    (HEADER_SIZE + i * CAR_TELEMETRY_DATA_SIZE)) as [Hnone _];
          [unfold HEADER_SIZE, CAR_TELEMETRY_DATA_SIZE; lia|].
        rewrite Hnone; [reflexivity | lia].
Qed.

Lemma handleCarStatusPacket_cache (buf : Buffer) (st st' : State)
  (out : list LapsState.t) (h : Header.t) :
  parseHeader buf = Ok (Some h) ->
  handleCarStatusPacket buf st = Ok (st', out) ->
  forall i,
    (0 <= i < NUM_CARS ->
     HEADER_SIZE + (i + 1) * CAR_STATUS_DATA_SIZE <= buf_length buf ->
     exists status,
       parseCarStatusForCar buf (HEADER_SIZE + i * CAR_STATUS_DATA_SIZE)
       = Ok (Some status)
       /\ map_get i (carStatusByIndex st') = Some status)
    /\ (~ 0 <= i < NUM_CARS
        \/ buf_length buf < HEADER_SIZE + (i + 1) * CAR_STATUS_DATA_SIZE ->
        map_get i (carStatusByIndex st')
        = map_get i (carStatusByIndex (enterSession h st))).
Proof.
  unfold handleCarStatusPacket. intros Hh. rewrite Hh. cbn [bind]. intros H.
  enter_run h st H. revert H. generalize (enterSession h st). intros st0 H.
  match type of H with
  | context [forEachSlot ?b ?l ?s] => destruct (forEachSlot b l s) as [s1|] eqn:E
  end; cbn [bind] in H; [|discriminate].
  assert (Hc : carStatusByIndex st' = carStatusByIndex s1).
  { injection H as <- _. unfold backfillTyreSnapshot. repeat break_match; reflexivity. }
  rewrite Hc. clear H Hc. intros i.
  destruct (@forEachSlot_stores _ carStatusByIndex
              (fun j => match parseCarStatusForCar buf
                                (HEADER_SIZE + j * CAR_STATUS_DATA_SIZE) with
                        | Ok r => r
                        | RangeError => None
                        end)
              (carStatusLoopBody buf) carSlots st0 s1) with (i := i) as [H1 H2];
    [|exact E|].
  { intros j s s'. unfold carStatusLoopBody.
    destruct (parseCarStatusForCar buf _) as [[t|]|]; cbn [bind];
      [| |discriminate]; intros [= <-]; reflexivity. }
  split.
  - intros Hi Hfit.
    destruct (@parseCarStatusForCar_guard buf
                (HEADER_SIZE + i * CAR_STATUS_DATA_SIZE)) as [_ Hsome];
      [unfold HEADER_SIZE, CAR_STATUS_DATA_SIZE; lia|].
    destruct Hsome as [status Hs]; [lia|]. exists status. split; [exact Hs|].
    apply (H1 (carSlots_In Hi)). rewrite Hs. reflexivity.
  - intros Hor. apply H2. destruct Hor as [Hout|Hshort].
    + left. intros Hin. apply Hout. apply carSlots_range. exact Hin.
    + destruct (Z_lt_ge_dec i 0) as [Hneg|Hpos].
      * left. intros Hin. apply carSlots_range in Hin. lia.
      * right.
        destruct (@parseCarStatusForCar_guard buf
                    (HEADER_SIZE + i * CAR_STATUS_DATA_SIZE)) as [Hnone _];
          [unfold HEADER_SIZE, CAR_STATUS_DATA_SIZE; lia|].
        rewrite Hnone; [reflexivity | lia].
Qed.

(** X25.  A telemetry or car-status datagram that is cut short updates
    exactly the cars whose record is complete.  After the handler, the cache
    of a slot below 22 whose record fits in the buffer holds that record as
    decoded; the cache of every other slot is as the session test left it. *)
Theorem cut_datagram_updates_whole_records (buf : Buffer) (st st' : State)
  (out : list LapsState.t) (h : Header.t) :
  parseHeader buf = Ok (Some h) ->
  (handleCarTelemetryPacket buf st = Ok (st', out) ->
   forall i,
     (0 <= i < NUM_CARS ->
      HEADER_SIZE + (i + 1) * CAR_TELEMETRY_DATA_SIZE <= buf_length buf ->
      exists tel,
        parseCarTelemetryForCar buf (HEADER_SIZE + i * CAR_TELEMETRY_DATA_SIZE)
        = Ok (Some tel)
        /\ map_get i (carTelemetryByIndex st') = Some tel)
     /\ (~ 0 <= i < NUM_CARS
         \/ buf_length buf < HEADER_SIZE + (i + 1) * CAR_TELEMETRY_DATA_SIZE ->
         map_get i (carTelemetryByIndex st')
         = map_get i (carTelemetryByIndex (enterSession h st))))
  /\ (handleCarStatusPacket buf st = Ok (st', out) ->
      forall i,
        (0 <= i < NUM_CARS ->
         HEADER_SIZE + (i + 1) * CAR_STATUS_DATA_SIZE <= buf_length buf ->
         exists status,
           parseCarStatusForCar buf (HEADER_SIZE + i * CAR_STATUS_DATA_SIZE)
           = Ok (Some status)
           /\ map_get i (carStatusByIndex st') = Some status)
        /\ (~ 0 <= i < NUM_CARS
            \/ buf_length buf < HEADER_SIZE + (i + 1) * CAR_STATUS_DATA_SIZE ->
            map_get i (carStatusByIndex st')
            = map_get i (carStatusByIndex (enterSession h st)))).
Proof.
  intros Hh. split; intros H.
  - exact (@handleCarTelemetryPacket_cache _ _ _ _ _ Hh H).
  - exact (@handleCarStatusPacket_cache _ _ _ _ _ Hh H).
Qed.

(** The theorem on the car-status datagram that carries the record of slot 0
    only: slot 0 is cached, slot 1 is not. *)
Lemma cut_datagram_updates_whole_records_witness :
  (exists status,
      map_get 0 (carStatusByIndex (stateAfter [carStatusDatagram 16 16 5])) = Some status)
  /\ map_get 1 (carStatusByIndex (stateAfter [carStatusDatagram 16 16 5])) = None.
Proof.
  assert (Hh : parseHeader (carStatusDatagram 16 16 5)
               = Ok (Some (Header.mk 2025 25 1 0 1 7 1 0 0 0 0 255)))
    by (vm_compute; reflexivity).
  assert (Hrun : handleCarStatusPacket (carStatusDatagram 16 16 5) initialState
                 = Ok (stateAfter [carStatusDatagram 16 16 5], []))
    by (vm_compute; reflexivity).
  pose proof (proj2 (@cut_datagram_updates_whole_records _ _ _ _ _ Hh) Hrun) as H.
  split.
  - destruct (proj1 (H 0)) as [status [_ Hs]];
      [unfold NUM_CARS; lia | vm_compute; discriminate|].
    exists status. exact Hs.
  - rewrite (proj2 (H 1)); [vm_compute; reflexivity|].
    right. vm_compute. reflexivity.
Defined.

(** * The session the server is in *)

Lemma enterSession_uid (h : Header.t) (st : State) :
  PlayerState.sessionUID (playerState (enterSession h st)) = Some (Header.sessionUID h).
Proof.
  unfold enterSession, sessionIsNew.
  destruct (PlayerState.sessionUID (playerState st)) as [u|] eqn:E; [|reflexivity].
  destruct (u =? Header.sessionUID h) eqn:Eu; cbn [negb]; [|reflexivity].
  apply Z.eqb_eq in Eu. rewrite E, Eu. reflexivity.
Qed.

Lemma onMessage_handled (msg : Buffer) (st st' : State) (out : list LapsState.t)
  (h : Header.t) :
  parseHeader msg = Ok (Some h) ->
  In (Header.packetId h) handledIds ->
  onMessage msg st = Ok (st', out) ->
  PlayerState.sessionUID (playerState st') = Some (Header.sessionUID h).
Proof.
  intros Hh Hid H. pose proof H as Hrun.
  unfold onMessage in H. rewrite Hh in H. cbn [bind] in H. cbv zeta in H.
  rewrite <- (enterSession_uid h st).
  destruct (Header.packetId h =? PACKET_ID_SESSION) eqn:E1.
  { destruct (@handleSessionPacket_writes _ _ _ _ _ Hh H) as [E _].
    exact (@via_mask _ (fun s => PlayerState.sessionUID (playerState s))
             exceptSession _ _ (fun _ => eq_refl) E). }
  destruct (Header.packetId h =? PACKET_ID_PARTICIPANTS) eqn:E2.
  { destruct (@handleParticipantsPacket_writes _ _ _ _ _ Hh H) as [E _].
    exact (@via_mask _ (fun s => PlayerState.sessionUID (playerState s))
             exceptParticipants _ _ (fun _ => eq_refl) E). }
  destruct (Header.packetId h =? PACKET_ID_SESSION_HISTORY) eqn:E3.
  { destruct (@handleSessionHistoryPacket_writes _ _ _ _ _ Hh H) as [E _].
    exact (@via_mask _ (fun s => PlayerState.sessionUID (playerState s))
             exceptHistory _ _ (fun _ => eq_refl) E). }
  destruct (Header.packetId h =? PACKET_ID_LAP_DATA) eqn:E4.
  { destruct (@handleLapDataPacket_writes _ _ _ _ _ Hh H) as [E _].
    apply keptByLapData_fields in E. tauto. }
  destruct (Header.packetId h =? PACKET_ID_CAR_TELEMETRY) eqn:E5.
  { destruct (@handleCarTelemetryPacket_writes _ _ _ _ _ Hh H) as [E _].
    exact (@via_mask _ (fun s => PlayerState.sessionUID (playerState s))
             exceptTelemetry _ _ (fun _ => eq_refl) E). }
  destruct (Header.packetId h =? PACKET_ID_CAR_STATUS) eqn:E6.
  { destruct (@handleCarStatusPacket_writes _ _ _ _ _ Hh H) as [E _].
    exact (@via_mask _ (fun s => PlayerState.sessionUID (playerState s))
             exceptStatus _ _ (fun _ => eq_refl) E). }
  destruct (Header.packetId h =? PACKET_ID_CAR_DAMAGE) eqn:E7.
  { destruct (@handleCarDamagePacket_writes _ _ _ _ _ Hh H) as [E _].
    exact (@via_mask _ (fun s => PlayerState.sessionUID (playerState s))
             exceptDamage _ _ (fun _ => eq_refl) E). }
  exfalso. apply Z.eqb_neq in E1, E2, E3, E4, E5, E6, E7.
  unfold handledIds in Hid. simpl in Hid.
  destruct Hid as [Hid|[Hid|[Hid|[Hid|[Hid|[Hid|[Hid|[]]]]]]]]; congruence.
Qed.

(** X26.  After a datagram with one of the seven handled packet ids the
    server is in the session of that datagram, whatever the handler did with
    the payload: the next datagram of the same session finds the state as it
    is, without a reset.  A datagram with any other id leaves the state as it
    was, also when it comes from another session. *)
Theorem handled_datagram_sets_session (msg : Buffer) (st st' : State)
  (out : list LapsState.t) (h : Header.t) :
  parseHeader msg = Ok (Some h) ->
  onMessage msg st = Ok (st', out) ->
  (In (Header.packetId h) handledIds ->
   PlayerState.sessionUID (playerState st') = Some (Header.sessionUID h)
   /\ forall h', Header.sessionUID h' = Header.sessionUID h ->
                 enterSession h' st' = st')
  /\ (~ In (Header.packetId h) handledIds -> st' = st).
Proof.
  intros Hh H. split.
  - intros Hid. pose proof (@onMessage_handled _ _ _ _ _ Hh Hid H) as Hu.
    split; [exact Hu|]. intros h' Hsame. unfold enterSession, sessionIsNew.
    rewrite Hu, Hsame, Z.eqb_refl. reflexivity.
  - intros Hid. unfold onMessage in H. rewrite Hh in H. cbn [bind] in H. cbv zeta in H.
    unfold handledIds in Hid. simpl in Hid.
    repeat match type of H with
      | context [if ?x =? ?y then _ else _] =>
          let E := fresh "E" in
          destruct (x =? y) eqn:E;
            [apply Z.eqb_eq in E; exfalso; apply Hid; rewrite E; auto 10|]
      end.
    injection H as <- _. reflexivity.
Qed.

(** The theorem on the sample history datagram of session 1, received
    first. *)
Lemma handled_datagram_sets_session_witness :
  PlayerState.sessionUID (playerState (stateAfter [historyTwoLaps])) = Some 1.
Proof.
  assert (Hh : parseHeader historyTwoLaps = Ok (Some historyHeader1))
    by (vm_compute; reflexivity).
  assert (Hrun : onMessage historyTwoLaps initialState
                 = Ok (stateAfter [historyTwoLaps], []))
    by (vm_compute; reflexivity).
  refine (proj1 (proj1 (@handled_datagram_sets_session _ _ _ _ _ Hh Hrun) _)).
  vm_compute. tauto.
Defined.
(** * The lap records, slot by slot *)

Lemma carSlots_NoDup : NoDup carSlots.
Proof.
  unfold carSlots. apply NoDup_nth with (d := Z.of_nat 0).
  intros a b Ha Hb E. rewrite length_map, length_seq in Ha, Hb.
  rewrite !map_nth, !seq_nth in E by assumption. lia.
Qed.

Lemma storeLapData_slot (i : Z) (lap : LapData.t) (s : State) :
  slotView i (storeLapData i lap s)
  = (Some (LapData.set_sector3TimeMs
             (orElse (LapData.sector3TimeMs lap)
                (SectorCache.sector3TimeMs (cachedSectors i s)))
             (LapData.set_sector2TimeMs
                (orElse (LapData.sector2TimeMs lap)
                   (SectorCache.sector2TimeMs (cachedSectors i s)))
                (LapData.set_sector1TimeMs
                   (orElse (LapData.sector1TimeMs lap)
                      (SectorCache.sector1TimeMs (cachedSectors i s))) lap))),
     Some (mergeSectors lap (cachedSectors i s)),
     Some (trackPitStint lap (pitTracker i s))).
Proof.
  unfold slotView, storeLapData, cachedSectors, pitTracker. cbv zeta.
  cbn [lapDataByIndex sectorCacheByIndex pitLaneStintByIndex set_lapDataByIndex
       set_sectorCacheByIndex set_pitLaneStintByIndex].
  rewrite !map_get_set_eq. reflexivity.
Qed.

Lemma storeLapData_other (i j : Z) (lap : LapData.t) (s : State) :
  j <> i -> slotView i (storeLapData j lap s) = slotView i s.
Proof.
  intros Hne. unfold slotView, storeLapData. cbv zeta.
  cbn [lapDataByIndex sectorCacheByIndex pitLaneStintByIndex set_lapDataByIndex
       set_sectorCacheByIndex set_pitLaneStintByIndex].
  rewrite !map_get_set_neq by exact Hne. reflexivity.
Qed.

Lemma slotView_inputs (i : Z) (a b : State) :
  slotView i a = slotView i b ->
  cachedSectors i a = cachedSectors i b /\ pitTracker i a = pitTracker i b.
Proof.
  unfold slotView, cachedSectors, pitTracker. intros [= _ E2 E3].
  rewrite E2, E3. split; reflexivity.
Qed.

Lemma lapDataLoop_slot (buf : Buffer) (slots : list Z) (st st' : State) (i : Z) :
  NoDup slots ->
  forEachSlot (lapDataLoopBody buf) slots st = Ok st' ->
  (forall lap, In i slots ->
     parseLapDataForCar buf (HEADER_SIZE + i * LAP_DATA_SIZE) = Ok (Some lap) ->
     slotView i st' = slotView i (storeLapData i lap st))
  /\ (~ In i slots
      \/ parseLapDataForCar buf (HEADER_SIZE + i * LAP_DATA_SIZE) = Ok None ->
      slotView i st' = slotView i st).
Proof.
  intros Hnd. revert st. induction Hnd as [|j slots Hj Hnd IH]; intros st;
    cbn [forEachSlot In].
  - intros [= <-]. split; [intros lap [] | reflexivity].
  - unfold lapDataLoopBody at 1.
    destruct (parseLapDataForCar buf (HEADER_SIZE + j * LAP_DATA_SIZE))
      as [[lapj|]|] eqn:Ej; cbn [bind]; [| |discriminate]; intros Hrun;
      destruct (IH _ Hrun) as [IH1 IH2]; (split; [intros lap Hin Hlap | intros Hor]).
    + destruct (Z.eq_dec j i) as [->|Hne].
      * rewrite (IH2 (or_introl Hj)). congruence.
      * destruct Hin as [->|Hin]; [contradiction|].
        rewrite (IH1 lap Hin Hlap), !storeLapData_slot.
        destruct (@slotView_inputs i _ _ (@storeLapData_other i j lapj st Hne))
          as [-> ->].
        reflexivity.
    + destruct Hor as [Hnot|Hnone].
      * rewrite (IH2 (or_introl (fun H => Hnot (or_intror H)))).
        apply storeLapData_other. intros ->. apply Hnot. left. reflexivity.
      * rewrite (IH2 (or_intror Hnone)).
        apply storeLapData_other. intros ->. congruence.
    + destruct Hin as [->|Hin]; [congruence|]. exact (IH1 lap Hin Hlap).
    + apply IH2. destruct Hor as [Hnot|Hnone]; [left | right; exact Hnone].
      intros H. apply Hnot. right. exact H.
Qed.

Lemma parseLapDataForCar_none (buf : Buffer) (o : Z) :
  buf_length buf < o + LAP_DATA_SIZE -> parseLapDataForCar buf o = Ok None.
Proof.
  intros H. unfold parseLapDataForCar.
  replace (buf_length buf <? o + LAP_DATA_SIZE) with true; [reflexivity|].
  symmetry. apply Z.ltb_lt. exact H.
Qed.

Lemma slotView_of_caches (i : Z) (a b : State) :
  perCarLapView a = perCarLapView b -> slotView i a = slotView i b.
Proof.
  intros H. apply perCarLapView_fields in H. destruct H as [E1 [E2 E3]].
  unfold slotView. rewrite E1, E2, E3. reflexivity.
Qed.

(** X27.  The lap-data handler, slot by slot.  For a slot below 22 whose
    57-byte record fits in the buffer, the cached lap record is the decoded
    record with each sector that the record lacks taken from the sectors
    cached for the slot before, the sector cache holds those three sectors,
    and the pit tracker of the slot has taken one step on the record.  For
    every other slot the three caches are as the session test left them: a
    datagram that is cut short updates exactly the cars whose record is
    complete. *)
Theorem lap_records_keep_last_sectors (buf : Buffer) (st st' : State)
  (out : list LapsState.t) (h : Header.t) (i : Z) :
  parseHeader buf = Ok (Some h) ->
  handleLapDataPacket buf st = Ok (st', out) ->
  (0 <= i < NUM_CARS -> HEADER_SIZE + (i + 1) * LAP_DATA_SIZE <= buf_length buf ->
   exists lap cached,
     parseLapDataForCar buf (HEADER_SIZE + i * LAP_DATA_SIZE) = Ok (Some lap)
     /\ map_get i (lapDataByIndex st') = Some cached
     /\ LapData.sector1TimeMs cached
        = orElse (LapData.sector1TimeMs lap)
            (SectorCache.sector1TimeMs (cachedSectors i (enterSession h st)))
     /\ LapData.sector2TimeMs cached
        = orElse (LapData.sector2TimeMs lap)
            (SectorCache.sector2TimeMs (cachedSectors i (enterSession h st)))
     /\ LapData.sector3TimeMs cached
        = orElse (LapData.sector3TimeMs lap)
            (SectorCache.sector3TimeMs (cachedSectors i (enterSession h st)))
     /\ LapData.set_sector3TimeMs None
          (LapData.set_sector2TimeMs None (LapData.set_sector1TimeMs None cached))
        = LapData.set_sector3TimeMs None
            (LapData.set_sector2TimeMs None (LapData.set_sector1TimeMs None lap))
     /\ map_get i (sectorCacheByIndex st')
        = Some (SectorCache.mk (LapData.sector1TimeMs cached)
                  (LapData.sector2TimeMs cached) (LapData.sector3TimeMs cached))
     /\ map_get i (pitLaneStintByIndex st')
        = Some (trackPitStint lap (pitTracker i (enterSession h st))))
  /\ (~ 0 <= i < NUM_CARS \/ buf_length buf < HEADER_SIZE + (i + 1) * LAP_DATA_SIZE ->
      slotView i st' = slotView i (enterSession h st)).
Proof.
  intros Hh H. apply handleLapDataPacket_blocks in H.
  destruct H as [[Hn _]|[h' [st0 [st1 [Hh' [Hst0 [Hloop Hrest]]]]]]]; [congruence|].
  assert (h' = h) by congruence. subst h'.
  fold (enterSession h st) in Hst0.
  assert (Hv : slotView i st' = slotView i st1).
  { apply slotView_of_caches.
    transitivity (perCarLapView (publishLeaderboard (Header.playerCarIndex h) st1));
      [|apply publishLeaderboard_perCarLapView].
    destruct Hrest as [[-> _]|[lap' [_ [_ [-> _]]]]];
      [reflexivity | apply playerSection_perCarLapView]. }
  assert (H0 : slotView i st0 = slotView i (enterSession h st))
    by (rewrite Hst0; reflexivity).
  destruct (@lapDataLoop_slot buf carSlots st0 st1 i carSlots_NoDup Hloop) as [H1 H2].
  split.
  - intros Hi Hfit.
    destruct (@parseLapDataForCar_some buf (HEADER_SIZE + i * LAP_DATA_SIZE))
      as [lap Hlap]; [unfold HEADER_SIZE, LAP_DATA_SIZE; lia | lia |].
    rewrite (H1 lap (carSlots_In Hi) Hlap), storeLapData_slot in Hv.
    destruct (@slotView_inputs i _ _ H0) as [Ec Ep]. rewrite Ec, Ep in Hv.
    unfold slotView in Hv. injection Hv as E1 E2 E3.
    exists lap. eexists. split; [exact Hlap|]. split; [exact E1|].
    split; [reflexivity|]. split; [reflexivity|]. split; [reflexivity|].
    split; [reflexivity|]. split; [exact E2 | exact E3].
  - intros Hor. rewrite Hv, <- H0. apply H2. destruct Hor as [Hout|Hshort].
    + left. intros Hin. apply Hout. apply carSlots_range. exact Hin.
    + destruct (Z_lt_ge_dec i 0) as [Hneg|Hpos].
      * left. intros Hin. apply carSlots_range in Hin. lia.
      * right. apply parseLapDataForCar_none. unfold HEADER_SIZE, LAP_DATA_SIZE in *. lia.
Qed.

(** The theorem on the sample record of slot 0, received first: the cached
    record has the sectors of the record, and slot 1 has no record. *)
Lemma lap_records_keep_last_sectors_witness :
  (exists cached,
      map_get 0 (lapDataByIndex (stateAfter [sectorLapDatagram])) = Some cached
      /\ LapData.sector1TimeMs cached = Some 28000)
  /\ slotView 1 (stateAfter [sectorLapDatagram]) = (None, None, None).
Proof.
  assert (Hh : parseHeader sectorLapDatagram = Ok (Some lapHeader1))
    by (vm_compute; reflexivity).
  assert (Hrun : handleLapDataPacket sectorLapDatagram initialState
                 = Ok (stateAfter [sectorLapDatagram],
                       [lapsState (stateAfter [sectorLapDatagram])]))
    by (vm_compute; reflexivity).
  split.
  - destruct (proj1 (@lap_records_keep_last_sectors _ _ _ _ _ 0 Hh Hrun))
      as [lap [cached [Hlap [Hc [Hs1 _]]]]];
      [unfold NUM_CARS; lia | vm_compute; discriminate|].
    exists cached. split; [exact Hc|]. rewrite Hs1.
    vm_compute in Hlap. injection Hlap as <-. reflexivity.
  - rewrite (proj2 (@lap_records_keep_last_sectors _ _ _ _ _ 1 Hh Hrun));
      [vm_compute; reflexivity|].
    right. vm_compute. reflexivity.
Defined.
(** * The rows of the leaderboard *)

Lemma set_gap_same (c : RaceCar.t) :
  c = RaceCar.set_gapToCarAheadMs (RaceCar.gapToCarAheadMs c) c.
Proof. destruct c. reflexivity. Qed.

Lemma gapsByLapTime_rows (l : list RaceCar.t) (prev : option RaceCar.t) :
  Forall2 (fun c' c => exists g, c' = RaceCar.set_gapToCarAheadMs g c)
    (gapsByLapTime prev l) l.
Proof.
  revert prev. induction l as [|cur rest IH]; intros prev; simpl; constructor.
  - destruct prev as [p|]; [|eexists; reflexivity].
    destruct (RaceCar.lapTimeMs cur), (RaceCar.lapTimeMs p); eexists; reflexivity.
  - apply IH.
Qed.

Lemma gapsByPosition_rows (l : list RaceCar.t) (prev : option RaceCar.t) :
  Forall2 (fun c' c => exists g, c' = RaceCar.set_gapToCarAheadMs g c)
    (gapsByPosition prev l) l.
Proof.
  revert prev. induction l as [|cur rest IH]; intros prev; simpl; constructor.
  - destruct (RaceCar.position cur =? 1); [eexists; reflexivity|].
    repeat break_match; first [eexists; reflexivity | exists (RaceCar.gapToCarAheadMs cur);
                                                      apply set_gap_same].
  - apply IH.
Qed.

Lemma Forall2_In_left (A B : Type) (R : A -> B -> Prop) (l : list A) (l' : list B)
  (a : A) :
  Forall2 R l l' -> In a l -> exists b, In b l' /\ R a b.
Proof.
  induction 1 as [|x y l l' Hxy _ IH]; intros Hin; [destruct Hin|].
  destruct Hin as [<-|Hin]; [exists y; split; [left; reflexivity | exact Hxy]|].
  destruct (IH Hin) as [b [Hb HR]]. exists b. split; [right; exact Hb | exact HR].
Qed.

Lemma Forall2_map_In (A B : Type) (R : B -> A -> Prop) (f : A -> B) (l : list A) :
  (forall x, In x l -> R (f x) x) -> Forall2 R (map f l) l.
Proof.
  induction l as [|x l IH]; intros H; simpl; constructor.
  - apply H. left. reflexivity.
  - apply IH. intros y Hy. apply H. right. exact Hy.
Qed.

Lemma Forall2_map_right (A B C : Type) (R : A -> B -> Prop) (f : C -> B)
  (built : list A) (l : list C) :
  Forall2 R built (map f l) -> Forall2 (fun a c => R a (f c)) built l.
Proof.
  revert built. induction l as [|x l IH]; intros built H; simpl in H;
    inversion H; subst; constructor; [assumption | apply IH; assumption].
Qed.

Lemma NoDup_map_same (A : Type) (f : A -> Z) (l : list A) (a b : A) :
  NoDup (map f l) -> In a l -> In b l -> f a = f b -> a = b.
Proof.
  induction l as [|x l IH]; simpl; intros Hnd Ha Hb E; [destruct Ha|].
  inversion Hnd as [|? ? Hnot Hnd']; subst.
  destruct Ha as [<-|Ha], Hb as [<-|Hb].
  - reflexivity.
  - exfalso. apply Hnot. rewrite E. apply in_map. exact Hb.
  - exfalso. apply Hnot. rewrite <- E. apply in_map. exact Ha.
  - exact (IH Hnd' Ha Hb E).
Qed.

Lemma NoDup_map_filter (A : Type) (g : A -> Z) (f : A -> bool) (l : list A) :
  NoDup (map g l) -> NoDup (map g (filter f l)).
Proof.
  induction l as [|x l IH]; simpl; intros H; [constructor|].
  inversion H as [|? ? Hnot Hnd]; subst.
  destruct (f x); simpl; [constructor|]; [|apply IH; exact Hnd | apply IH; exact Hnd].
  intros Hin. apply Hnot. apply in_map_iff in Hin. destruct Hin as [y [Ey Hy]].
  apply filter_In in Hy. rewrite <- Ey. apply in_map. exact (proj1 Hy).
Qed.

Lemma reorderLike_rows (raw sorted processed : list RaceCar.t) :
  NoDup (map RaceCar.carIndex raw) ->
  (forall c, In c sorted -> In c raw) ->
  Forall2 (fun c' c => exists g, c' = RaceCar.set_gapToCarAheadMs g c) processed sorted ->
  Forall2 (fun c' c => exists g, c' = RaceCar.set_gapToCarAheadMs g c)
    (reorderLike raw processed) raw.
Proof.
  intros Hnd Hsub Hrows. unfold reorderLike. apply Forall2_map_In. intros c Hc.
  match goal with |- context [map_get ?k ?m] => destruct (map_get k m) as [c'|] eqn:E end.
  2: { exists (RaceCar.gapToCarAheadMs c). apply set_gap_same. }
  apply map_of_pairs_get in E. apply in_map_iff in E.
  destruct E as [c0 [[= Hk ->] Hin]].
  destruct (@Forall2_In_left _ _ _ _ _ _ Hrows Hin) as [r [Hr [g Hg]]].
  exists g. rewrite Hg. f_equal.
  apply (@NoDup_map_same _ RaceCar.carIndex raw r c Hnd (Hsub r Hr) Hc).
  rewrite <- Hk, Hg. reflexivity.
Qed.

Lemma buildRaceCars_rows (st : State) (p : Z) :
  NoDup (map_keys (lapDataByIndex st)) ->
  Forall2 (fun c kv => exists g, c = RaceCar.set_gapToCarAheadMs g (toRaceCar st kv))
    (buildRaceCars st p) (filter (onLeaderboard st p) (lapDataByIndex st)).
Proof.
  intros Hnd. unfold buildRaceCars. cbv zeta.
  set (rows := filter (onLeaderboard st p) (lapDataByIndex st)).
  assert (Hraw : NoDup (map RaceCar.carIndex (map (toRaceCar st) rows))).
  { rewrite map_map. exact (@NoDup_map_filter _ fst _ _ Hnd). }
  destruct (LapsState.sessionKind (lapsState st)) as [[| |]|];
    apply (@Forall2_map_right _ _ _
             (fun c' c => exists g, c' = RaceCar.set_gapToCarAheadMs g c) (toRaceCar st));
    first [ refine (@reorderLike_rows _ (js_sort cmpByLapTime _) _ Hraw _
                      (gapsByLapTime_rows _ _))
          | refine (@reorderLike_rows _ (js_sort cmpByPosition _) _ Hraw _
                      (gapsByPosition_rows _ _)) ];
    intros c Hc; exact (proj1 (js_sort_In _ _ _) Hc).
Qed.

Lemma toRaceCar_inputs (a b : State) (kv : Z * LapData.t) :
  keptByLapData a = keptByLapData b -> perCarLapView a = perCarLapView b ->
  toRaceCar a kv = toRaceCar b kv /\ forall p, onLeaderboard a p kv = onLeaderboard b p kv.
Proof.
  intros Hk Hc. apply keptByLapData_fields in Hk.
  destruct Hk as [E0 [E1 [E2 [E3 [E4 [_ [_ [E7 [_ E9]]]]]]]]].
  apply perCarLapView_fields in Hc. destruct Hc as [_ [_ Ep]].
  unfold toRaceCar, onLeaderboard. rewrite E0, E1, E2, E3, E4, E7, E9, Ep.
  split; [reflexivity | intros p; reflexivity].
Qed.

Lemma Forall2_ext_In (A B : Type) (R R' : A -> B -> Prop) (l : list A) (l' : list B) :
  (forall a b, In b l' -> R a b -> R' a b) -> Forall2 R l l' -> Forall2 R' l l'.
Proof.
  intros H F. induction F as [|x y l l' Hxy _ IH]; constructor.
  - apply H; [left; reflexivity | exact Hxy].
  - apply IH. intros a b Hb. apply H. right. exact Hb.
Qed.

(** X28.  The leaderboard a lap-data datagram publishes has one row for each
    cached lap record that passes the leaderboard rule, in the order of the
    cache, so no car is listed twice; every row is the row built from the
    car's cached record and the other tables, with at most the gap to the car
    ahead computed anew. *)
Theorem leaderboard_rows_from_cache (buf : Buffer) (st st' : State)
  (out : list LapsState.t) (h : Header.t) :
  reachable st ->
  parseHeader buf = Ok (Some h) ->
  handleLapDataPacket buf st = Ok (st', out) ->
  Forall2 (fun c kv => exists g, c = RaceCar.set_gapToCarAheadMs g (toRaceCar st' kv))
    (LapsState.raceCars (lapsState st'))
    (filter (onLeaderboard st' (Header.playerCarIndex h)) (lapDataByIndex st'))
  /\ NoDup (map RaceCar.carIndex (LapsState.raceCars (lapsState st'))).
Proof.
  intros Hr Hh Hrun.
  destruct (@handleLapDataPacket_invariants buf st st' out Hrun
              (reachable_invariants Hr)) as [_ [Hnd _]].
  unfold lapDataKeysUnique in Hnd.
  apply handleLapDataPacket_blocks in Hrun.
  destruct Hrun as [[Hn _]|[h' [st0 [st1 [Hh' [_ [_ Hrest]]]]]]]; [congruence|].
  assert (h' = h) by congruence. subst h'.
  set (p := Header.playerCarIndex h) in *.
  assert (Hb : boardView st' = boardView (publishLeaderboard p st1)).
  { destruct Hrest as [[-> _]|[lap [_ [_ [-> _]]]]];
      [reflexivity | apply playerSection_boardView]. }
  assert (Hk : keptByLapData st' = keptByLapData st1).
  { rewrite <- (publishLeaderboard_keptByLapData p st1).
    destruct Hrest as [[-> _]|[lap [_ [_ [-> _]]]]];
      [reflexivity | apply playerSection_keptByLapData]. }
  assert (Hc : perCarLapView st' = perCarLapView st1).
  { rewrite <- (publishLeaderboard_perCarLapView p st1).
    destruct Hrest as [[-> _]|[lap [_ [_ [-> _]]]]];
      [reflexivity | apply playerSection_perCarLapView]. }
  apply boardView_fields in Hb. destruct Hb as [Hcars _].
  rewrite publishLeaderboard_raceCars in Hcars.
  assert (Hl : lapDataByIndex st' = lapDataByIndex st1)
    by exact (proj1 (@perCarLapView_fields _ _ Hc)).
  rewrite Hl in Hnd. pose proof (@buildRaceCars_rows st1 p Hnd) as Hrows.
  split.
  - rewrite Hcars, Hl.
    replace (filter (onLeaderboard st' p) (lapDataByIndex st1))
      with (filter (onLeaderboard st1 p) (lapDataByIndex st1)).
    + refine (@Forall2_ext_In _ _ _ _ _ _ _ Hrows). intros c kv _ [g Hg]. exists g.
      rewrite (proj1 (@toRaceCar_inputs st' st1 kv Hk Hc)). exact Hg.
    + apply filter_ext. intros kv.
      symmetry. exact (proj2 (@toRaceCar_inputs st' st1 kv Hk Hc) p).
  - rewrite Hcars, buildRaceCars_carIndex.
    exact (@NoDup_map_filter _ fst _ _ Hnd).
Qed.

(** The theorem on the lap record of the player after the participants: the
    leaderboard has the one row of slot 0. *)
Lemma leaderboard_rows_from_cache_witness :
  reachable (stateAfter [participantsDatagram])
  /\ map RaceCar.carIndex (LapsState.raceCars (lapsState (stateAfter namedThenLap))) = [0]
  /\ NoDup (map RaceCar.carIndex (LapsState.raceCars (lapsState (stateAfter namedThenLap)))).
Proof.
  assert (Hreach : reachable (stateAfter [participantsDatagram])).
  { apply (@reachable_feed [participantsDatagram] initialState);
      [apply reachable_initial | vm_compute; reflexivity]. }
  split; [exact Hreach|]. split; [vm_compute; reflexivity|].
  refine (proj2 (@leaderboard_rows_from_cache sectorLapDatagram
                   (stateAfter [participantsDatagram]) (stateAfter namedThenLap)
                   [lapsState (stateAfter namedThenLap)] lapHeader1 Hreach _ _));
    vm_compute; reflexivity.
Defined.
(** * The live delta in the published documents *)

Lemma liveTimes_fields (a b : LapsState.t) :
  liveTimes a = liveTimes b ->
  LapsState.bestLapTimeMs a = LapsState.bestLapTimeMs b
  /\ LapsState.liveLapTimeMs a = LapsState.liveLapTimeMs b
  /\ LapsState.liveDeltaToBestMs a = LapsState.liveDeltaToBestMs b.
Proof. unfold liveTimes. intros [= H1 H2 H3]. auto. Qed.

(** What a datagram with a header does to the live lap time and the live
    delta, and what it publishes, by packet id. *)
Lemma onMessage_live (msg : Buffer) (st st' : State) (out : list LapsState.t)
  (h : Header.t) :
  parseHeader msg = Ok (Some h) ->
  onMessage msg st = Ok (st', out) ->
  (Header.packetId h = PACKET_ID_LAP_DATA /\ handleLapDataPacket msg st = Ok (st', out))
  \/ (Header.packetId h = PACKET_ID_CAR_DAMAGE
      /\ out = [lapsState st']
      /\ liveTimes (lapsState st') = liveTimes (lapsState (enterSession h st)))
  \/ (Header.packetId h <> PACKET_ID_LAP_DATA
      /\ Header.packetId h <> PACKET_ID_CAR_DAMAGE
      /\ out = []
      /\ exists st0,
           (st0 = st \/ st0 = enterSession h st)
           /\ LapsState.liveLapTimeMs (lapsState st')
              = LapsState.liveLapTimeMs (lapsState st0)
           /\ LapsState.liveDeltaToBestMs (lapsState st')
              = LapsState.liveDeltaToBestMs (lapsState st0)).
Proof.
  intros Hh H. unfold onMessage in H. rewrite Hh in H. cbn [bind] in H.
  set (live := fun s : State =>
                 (LapsState.liveLapTimeMs (lapsState s),
                  LapsState.liveDeltaToBestMs (lapsState s))).
  assert (Hlive : forall a b, live a = live b ->
            LapsState.liveLapTimeMs (lapsState a) = LapsState.liveLapTimeMs (lapsState b)
            /\ LapsState.liveDeltaToBestMs (lapsState a)
               = LapsState.liveDeltaToBestMs (lapsState b)).
  { intros a b E. split; [exact (f_equal fst E) | exact (f_equal snd E)]. }
  assert (Hother : forall mask : State -> State,
            (forall s, live (mask s) = live s) ->
            mask st' = mask (enterSession h st) ->
            exists st0,
              (st0 = st \/ st0 = enterSession h st)
              /\ LapsState.liveLapTimeMs (lapsState st')
                 = LapsState.liveLapTimeMs (lapsState st0)
              /\ LapsState.liveDeltaToBestMs (lapsState st')
                 = LapsState.liveDeltaToBestMs (lapsState st0)).
  { intros mask Hm E. exists (enterSession h st). split; [right; reflexivity|].
    apply Hlive. exact (via_mask live mask _ _ Hm E). }
  destruct (Header.packetId h =? PACKET_ID_SESSION) eqn:E1.
  { apply Z.eqb_eq in E1.
    destruct (@handleSessionPacket_writes _ _ _ _ _ Hh H) as [Hw ->].
    right. right. rewrite E1. repeat split; try discriminate.
    exact (Hother exceptSession (fun s => eq_refl) Hw). }
  destruct (Header.packetId h =? PACKET_ID_PARTICIPANTS) eqn:E2.
  { apply Z.eqb_eq in E2.
    destruct (@handleParticipantsPacket_writes _ _ _ _ _ Hh H) as [Hw ->].
    right. right. rewrite E2. repeat split; try discriminate.
    exact (Hother exceptParticipants (fun s => eq_refl) Hw). }
  destruct (Header.packetId h =? PACKET_ID_SESSION_HISTORY) eqn:E3.
  { apply Z.eqb_eq in E3.
    destruct (@handleSessionHistoryPacket_writes _ _ _ _ _ Hh H) as [Hw ->].
    right. right. rewrite E3. repeat split; try discriminate.
    exact (Hother exceptHistory (fun s => eq_refl) Hw). }
  destruct (Header.packetId h =? PACKET_ID_LAP_DATA) eqn:E4.
  { apply Z.eqb_eq in E4. left. split; assumption. }
  destruct (Header.packetId h =? PACKET_ID_CAR_TELEMETRY) eqn:E5.
  { apply Z.eqb_eq in E5.
    destruct (@handleCarTelemetryPacket_writes _ _ _ _ _ Hh H) as [Hw ->].
    right. right. rewrite E5. repeat split; try discriminate.
    exact (Hother exceptTelemetry (fun s => eq_refl) Hw). }
  destruct (Header.packetId h =? PACKET_ID_CAR_STATUS) eqn:E6.
  { apply Z.eqb_eq in E6.
    destruct (@handleCarStatusPacket_writes _ _ _ _ _ Hh H) as [Hw ->].
    right. right. rewrite E6. repeat split; try discriminate.
    exact (Hother exceptStatus (fun s => eq_refl) Hw). }
  destruct (Header.packetId h =? PACKET_ID_CAR_DAMAGE) eqn:E7.
  { apply Z.eqb_eq in E7.
    destruct (@handleCarDamagePacket_writes _ _ _ _ _ Hh H) as [Hw ->].
    right. left. split; [exact E7|]. split; [reflexivity|].
    exact (via_mask (fun s => liveTimes (lapsState s)) exceptDamage _ _
             (fun s => eq_refl) Hw). }
  injection H as <- <-. apply Z.eqb_neq in E4, E7.
  right. right. repeat split; try assumption.
  exists st. repeat split. left. reflexivity.
Qed.

(** C10.  Of the handlers of datagrams, the lap-data handler and the
    car-damage handler publish a document, and no other does.
    - A document of the lap-data handler is the [lapsState] it leaves; its
      live delta is the best lap time minus the live lap time when a best lap
      exists and the live time is positive, and absent otherwise.
    - A document of the car-damage handler is the [lapsState] it leaves, with
      the best lap time, the live lap time and the live delta of the state
      after the session test: the delta is the one the last lap-data update
      computed, or absent in a new session.
    - A datagram that is not a lap-data one leaves the live lap time and the
      live delta as they were, before or after the session test; the history
      handler, which derives the best lap time again, is one of them.
    - A finished lap is measured the other way round: the row of a valid lap
      with a positive time gets its time minus the best. *)
Theorem live_delta_counts_down_to_best :
  (forall (buf : Buffer) (st st' : State) (out : list LapsState.t) (doc : LapsState.t),
      handleLapDataPacket buf st = Ok (st', out) ->
      In doc out ->
      doc = lapsState st'
      /\ LapsState.liveDeltaToBestMs doc
         = match LapsState.bestLapTimeMs doc with
           | Some best =>
               if LapsState.liveLapTimeMs doc >? 0
               then Some (best - LapsState.liveLapTimeMs doc) else None
           | None => None
           end)
  /\ (forall (msg : Buffer) (st st' : State) (out : list LapsState.t) (doc : LapsState.t),
        onMessage msg st = Ok (st', out) ->
        In doc out ->
        exists h,
          parseHeader msg = Ok (Some h)
          /\ out = [doc]
          /\ doc = lapsState st'
          /\ ((Header.packetId h = PACKET_ID_LAP_DATA
               /\ LapsState.liveDeltaToBestMs doc
                  = match LapsState.bestLapTimeMs doc with
                    | Some best =>
                        if LapsState.liveLapTimeMs doc >? 0
                        then Some (best - LapsState.liveLapTimeMs doc) else None
                    | None => None
                    end)
              \/ (Header.packetId h = PACKET_ID_CAR_DAMAGE
                  /\ liveTimes doc = liveTimes (lapsState (enterSession h st)))))
  /\ (forall (msg : Buffer) (st st' : State) (out : list LapsState.t) (h : Header.t),
        onMessage msg st = Ok (st', out) ->
        parseHeader msg = Ok (Some h) ->
        Header.packetId h <> PACKET_ID_LAP_DATA ->
        exists st0,
          (st0 = st \/ st0 = enterSession h st)
          /\ LapsState.liveLapTimeMs (lapsState st')
             = LapsState.liveLapTimeMs (lapsState st0)
          /\ LapsState.liveDeltaToBestMs (lapsState st')
             = LapsState.liveDeltaToBestMs (lapsState st0))
  /\ (forall (best : Z) (l : LapEntry.t) (t : Z),
        LapEntry.valid l = true -> LapEntry.lapTimeMs l = Some t -> t > 0 ->
        LapEntry.deltaMs (markEntry (Some best) l) = Some (t - best)).
Proof.
  split; [exact handleLapDataPacket_delta|]. split; [|split].
  - intros msg st st' out doc H Hin.
    destruct (parseHeader msg) as [[h|]|] eqn:Hh.
    + exists h. split; [reflexivity|].
      destruct (@onMessage_live _ _ _ _ _ Hh H)
        as [[Hid Hrun]|[[Hid [-> Hl]]|[_ [_ [-> _]]]]]; [| |destruct Hin].
      * destruct (@handleLapDataPacket_delta _ _ _ _ _ Hrun Hin) as [Hdoc Hd].
        destruct (@handleLapDataPacket_writes _ _ _ _ _ Hh Hrun) as [_ [->| ->]];
          [destruct Hin|].
        split; [rewrite Hdoc; reflexivity|]. split; [exact Hdoc|].
        left. split; assumption.
      * destruct Hin as [<-|[]]. split; [reflexivity|]. split; [reflexivity|].
        right. split; assumption.
    + unfold onMessage in H. rewrite Hh in H. cbn [bind] in H.
      injection H as _ <-. destruct Hin.
    + unfold onMessage in H. rewrite Hh in H. discriminate.
  - intros msg st st' out h H Hh Hid.
    destruct (@onMessage_live _ _ _ _ _ Hh H)
      as [[Hid' _]|[[_ [_ Hl]]|[_ [_ [_ Hrest]]]]]; [contradiction| |exact Hrest].
    exists (enterSession h st). split; [right; reflexivity|].
    apply liveTimes_fields in Hl. tauto.
  - intros best l t Hv Ht Hpos. unfold markEntry. cbn. rewrite Ht, Hv. cbn.
    replace (t >? 0) with true by (symmetry; apply Z.gtb_lt; lia). reflexivity.
Qed.

(** The theorem on a lap-data datagram with 30000 ms on the clock, in a session
    whose best lap is 80000 ms, and on a car-damage datagram after laps of
    90000 and 85000 ms, 1000 ms into lap 3: its document has the best lap, the
    live time and the delta of the state before. *)
Lemma live_delta_counts_down_to_best_witness :
  (exists st' doc,
      handleLapDataPacket (lapDatagram 80000 30000 4 0 0 0) busyState = Ok (st', [doc])
      /\ LapsState.bestLapTimeMs doc = Some 80000
      /\ LapsState.liveLapTimeMs doc = 30000
      /\ LapsState.liveDeltaToBestMs doc = Some 50000)
  /\ (exists st' doc,
         onMessage (carDamageDatagram 0) (stateAfter twoLaps) = Ok (st', [doc])
         /\ liveTimes (lapsState (stateAfter twoLaps)) = (Some 85000, 1000, Some 84000)
         /\ liveTimes doc = (Some 85000, 1000, Some 84000)).
Proof.
  destruct live_delta_counts_down_to_best as [Hlap [Hdoc _]].
  split.
  - destruct (handleLapDataPacket (lapDatagram 80000 30000 4 0 0 0) busyState)
      as [[st' out]|] eqn:E; [|vm_compute in E; discriminate].
    assert (Hout : out = [lapsState st']).
    { vm_compute in E. injection E as <- <-. reflexivity. }
    subst out. exists st', (lapsState st').
    destruct (Hlap _ _ _ _ (lapsState st') E (or_introl eq_refl)) as [_ Hd].
    assert (Hb : LapsState.bestLapTimeMs (lapsState st') = Some 80000)
      by (vm_compute in E; injection E as <-; reflexivity).
    assert (Hl : LapsState.liveLapTimeMs (lapsState st') = 30000)
      by (vm_compute in E; injection E as <-; reflexivity).
    split; [reflexivity|]. split; [exact Hb|]. split; [exact Hl|].
    rewrite Hd, Hb, Hl. reflexivity.
  - destruct (onMessage (carDamageDatagram 0) (stateAfter twoLaps))
      as [[st' out]|] eqn:E; [|vm_compute in E; discriminate].
    assert (Hout : out = [lapsState st']).
    { vm_compute in E. injection E as <- <-. reflexivity. }
    subst out. exists st', (lapsState st').
    assert (Hbefore : liveTimes (lapsState (stateAfter twoLaps))
                      = (Some 85000, 1000, Some 84000)) by (vm_compute; reflexivity).
    split; [reflexivity|]. split; [exact Hbefore|].
    destruct (Hdoc _ _ _ _ (lapsState st') E (or_introl eq_refl))
      as [h [Hh [_ [_ [[Hid _]|[_ Hl]]]]]].
    + exfalso. vm_compute in Hh. injection Hh as <-. discriminate Hid.
    + rewrite Hl. vm_compute in Hh. injection Hh as <-. vm_compute. reflexivity.
Defined.

(** The published delta can lag behind the best lap time.  After laps of
    90000 and 85000 ms the player is 1000 ms into lap 3 and the delta is
    84000 ms; a history datagram then puts lap 1 at 80000 ms, which becomes the
    best lap; the document the next car-damage datagram publishes has the best
    lap of 80000 ms, the live time of 1000 ms and the delta of 84000 ms, not
    79000 ms. *)
Lemma live_delta_stale_after_history :
  exists st' doc,
    onMessage (carDamageDatagram 0) (stateAfter (twoLaps ++ [historyTwoLaps]))
    = Ok (st', [doc])
    /\ LapsState.bestLapTimeMs (lapsState (stateAfter twoLaps)) = Some 85000
    /\ LapsState.liveDeltaToBestMs (lapsState (stateAfter twoLaps)) = Some 84000
    /\ LapsState.bestLapTimeMs doc = Some 80000
    /\ LapsState.liveLapTimeMs doc = 1000
    /\ LapsState.liveDeltaToBestMs doc = Some 84000
    /\ LapsState.liveDeltaToBestMs doc
       <> match LapsState.bestLapTimeMs doc with
          | Some best =>
              if LapsState.liveLapTimeMs doc >? 0
              then Some (best - LapsState.liveLapTimeMs doc) else None
          | None => None
          end.
Proof.
  destruct (onMessage (carDamageDatagram 0) (stateAfter (twoLaps ++ [historyTwoLaps])))
    as [[st' out]|] eqn:E; [|vm_compute in E; discriminate].
  assert (Hout : out = [lapsState st']).
  { vm_compute in E. injection E as <- <-. reflexivity. }
  subst out. exists st', (lapsState st').
  assert (Hb : LapsState.bestLapTimeMs (lapsState st') = Some 80000)
    by (vm_compute in E; injection E as <-; reflexivity).
  assert (Hl : LapsState.liveLapTimeMs (lapsState st') = 1000)
    by (vm_compute in E; injection E as <-; reflexivity).
  assert (Hd : LapsState.liveDeltaToBestMs (lapsState st') = Some 84000)
    by (vm_compute in E; injection E as <-; reflexivity).
  split; [reflexivity|].
  split; [vm_compute; reflexivity|]. split; [vm_compute; reflexivity|].
  split; [exact Hb|]. split; [exact Hl|]. split; [exact Hd|].
  rewrite Hd, Hb, Hl. cbn. discriminate.
Qed.
(** * A named player without a lap record *)

(** The leaderboard lists cached lap records, so a car without one is not on
    it, the local player included.  After the participants datagram that names
    slots 0 to 3, a lap-data datagram from a game whose player is in slot 1
    ends after the record of slot 0: slot 1 is the local player and has a
    name, and the leaderboard of the state, which the next car-damage datagram
    publishes, lists slot 0 only. *)
Lemma named_player_without_record_not_listed :
  exists st1 st2 doc,
    onMessage lapDatagramOfPlayer1 (stateAfter [participantsDatagram]) = Ok (st1, [])
    /\ onMessage (carDamageDatagram 1) st1 = Ok (st2, [doc])
    /\ reachable st1
    /\ LapsState.playerCarIndex (lapsState st1) = Some 1
    /\ LapsState.playerCarIndex doc = Some 1
    /\ map_get 1 (participantsNameByIndex st1) = Some (bytes [66])
    /\ bytes [66] <> []
    /\ map_get 1 (lapDataByIndex st1) = None
    /\ map RaceCar.carIndex (LapsState.raceCars (lapsState st1)) = [0]
    /\ map RaceCar.carIndex (LapsState.raceCars doc) = [0]
    /\ ~ In 1 (map RaceCar.carIndex (LapsState.raceCars doc)).
Proof.
  destruct (onMessage lapDatagramOfPlayer1 (stateAfter [participantsDatagram]))
    as [[st1 out1]|] eqn:E1; [|vm_compute in E1; discriminate].
  assert (Hout1 : out1 = []) by (vm_compute in E1; injection E1 as _ <-; reflexivity).
  subst out1.
  assert (Hreach : reachable st1).
  { refine (@reachable_message _ st1 _ _ _ E1).
    apply (@reachable_feed [participantsDatagram] initialState);
      [apply reachable_initial | vm_compute; reflexivity]. }
  assert (Hst1 : st1 = stateAfter [participantsDatagram; lapDatagramOfPlayer1]).
  { vm_compute in E1. injection E1 as <-. vm_compute. reflexivity. }
  destruct (onMessage (carDamageDatagram 1) st1) as [[st2 out2]|] eqn:E2;
    [|rewrite Hst1 in E2; vm_compute in E2; discriminate].
  assert (Hout2 : out2 = [lapsState st2]).
  { rewrite Hst1 in E2. vm_compute in E2. injection E2 as <- <-. reflexivity. }
  subst out2.
  assert (Hcars : map RaceCar.carIndex (LapsState.raceCars (lapsState st2)) = [0]).
  { rewrite Hst1 in E2. vm_compute in E2. injection E2 as <-. vm_compute. reflexivity. }
  assert (Hp : LapsState.playerCarIndex (lapsState st2) = Some 1).
  { rewrite Hst1 in E2. vm_compute in E2. injection E2 as <-. vm_compute. reflexivity. }
  exists st1, st2, (lapsState st2).
  split; [reflexivity|]. split; [exact E2|]. split; [exact Hreach|].
  split; [rewrite Hst1; vm_compute; reflexivity|]. split; [exact Hp|].
  split; [rewrite Hst1; vm_compute; reflexivity|]. split; [discriminate|].
  split; [rewrite Hst1; vm_compute; reflexivity|].
  split; [rewrite Hst1; vm_compute; reflexivity|]. split; [exact Hcars|].
  rewrite Hcars. intros [H|[]]. discriminate.
Qed.
(** * The player's pit stint over a whole update *)

Lemma stintView_fields (a b : State) :
  stintView a = stintView b ->
  PlayerState.pitLaneActive (playerState a) = PlayerState.pitLaneActive (playerState b)
  /\ PlayerState.pitLaneStartLapNum (playerState a)
     = PlayerState.pitLaneStartLapNum (playerState b)
  /\ PlayerState.pitLaneMaxTimeMs (playerState a)
     = PlayerState.pitLaneMaxTimeMs (playerState b)
  /\ PlayerState.pitLanePitStatusMax (playerState a)
     = PlayerState.pitLanePitStatusMax (playerState b).
Proof. unfold stintView. intros [= H1 H2 H3 H4]. auto. Qed.

Lemma pitLedger_fields (a b : State) :
  pitLedger a = pitLedger b ->
  stintView a = stintView b
  /\ pitLaneTimeByLap a = pitLaneTimeByLap b
  /\ pitLaneStatusByLap a = pitLaneStatusByLap b.
Proof.
  intros E. split; [exact (f_equal (fun v => fst (fst v)) E)|].
  split; [exact (f_equal (fun v => snd (fst v)) E) | exact (f_equal snd E)].
Qed.

Lemma recordedFields_pit (a b : LapEntry.t) :
  recordedFields a = recordedFields b ->
  LapEntry.pitLaneTimeMs a = LapEntry.pitLaneTimeMs b
  /\ LapEntry.pitStatus a = LapEntry.pitStatus b.
Proof.
  intros H.
  split; [exact (f_equal LapEntry.pitLaneTimeMs H) | exact (f_equal LapEntry.pitStatus H)].
Qed.

Lemma bestsConsistent_marks (st : State) :
  bestsConsistent st ->
  rowsMarkedAgainstBest st
  /\ forall l, In l (LapsState.laps (lapsState st)) <-> In l (map_values (lapsByNumber st)).
Proof.
  intros [s Hs]. apply ledgerView_fields in Hs. destruct Hs as [H1 [H2 H3]]. split.
  - unfold rowsMarkedAgainstBest. rewrite H1, H2. apply recompute_marks_rows.
  - intros l. rewrite H1, H3. apply recomputeFromLaps_laps.
Qed.

Lemma Some_inj (A : Type) (a b : A) : Some a = Some b -> a = b.
Proof. intros [= H]. exact H. Qed.

Lemma map_get_value (V : Type) (k : Z) (v : V) (m : JSMap V) :
  map_get k m = Some v -> In v (map_values m).
Proof.
  intros H. apply map_get_In in H. unfold map_values.
  apply in_map_iff. exists (k, v). split; [reflexivity | exact H].
Qed.

(** The row [finalizeLap] writes takes its pit fields from the pit tables. *)
Lemma finalizeLap_rows (r : bool) (p : Z) (lap : LapData.t) (s : State) :
  pitLedger (finalizeLap r p lap s) = pitLedger s
  /\ (lapsByNumber (finalizeLap r p lap s) = lapsByNumber s
      \/ exists q row b,
           PlayerState.currentLapNum (playerState s) = Some q
           /\ lapsByNumber (finalizeLap r p lap s)
              = markEntries b (map_set q row (lapsByNumber s))
           /\ LapEntry.pitLaneTimeMs row = map_get q (pitLaneTimeByLap s)
           /\ LapEntry.pitStatus row
              = match map_get q (pitLaneStatusByLap s) with
                | Some x => x
                | None => 0
                end).
Proof.
  unfold finalizeLap.
  destruct (PlayerState.currentLapNum (playerState s)) as [q|];
    [|split; [reflexivity | left; reflexivity]].
  match goal with |- context [if ?c then _ else _] => destruct c end;
    [|split; [reflexivity | left; reflexivity]].
  cbv zeta. split; [reflexivity|]. right.
  match goal with
  | |- context [recomputeFromLaps (set_lapsByNumber (map_set q ?e _) s)] =>
      exists q, e,
        (b_bestLapTimeMs (scanBests (map_values (map_set q e (lapsByNumber s)))))
  end.
  repeat split.
Qed.

(** The player's section is the pit-lane block, the three blocks before it and
    the seven after it. *)
Lemma playerSection_around_pit (p : Z) (lap : LapData.t) (st : State) :
  exists r t,
    playerSection p lap st
    = updateLiveDelta
        (rememberLap lap
           (finalizeLap r p lap
              (setCurrentLap r t lap
                 (liveSectorBests r lap
                    (setLiveLapTime lap
                       (cachePlayerSectors lap
                          (trackPlayerPitLane lap
                             (snapshotTyresAtLapStart lap
                                (truncateOnFlashback lap
                                   (setCurrentPenalties lap st)))))))))).
Proof. unfold playerSection. do 2 eexists. reflexivity. Qed.

(** The blocks after the pit-lane block leave the tracker and the pit tables
    alone and keep a recomputed lap table recomputed; a row of the lap table
    at the end is a row from before with the same recorded fields, or the row
    of the lap just finished, whose pit fields come from the pit tables. *)
Lemma afterPitBlock (r : bool) (t : TyreSnap.t) (p : Z) (lap : LapData.t) (m : State) :
  let f :=
    updateLiveDelta
      (rememberLap lap
         (finalizeLap r p lap
            (setCurrentLap r t lap
               (liveSectorBests r lap (setLiveLapTime lap (cachePlayerSectors lap m)))))) in
  pitLedger f = pitLedger m
  /\ (bestsConsistent m -> bestsConsistent f)
  /\ (forall n e',
        map_get n (lapsByNumber f) = Some e' ->
        (exists e, map_get n (lapsByNumber m) = Some e
                   /\ recordedFields e' = recordedFields e)
        \/ (PlayerState.currentLapNum (playerState m) = Some n
            /\ LapEntry.pitLaneTimeMs e' = map_get n (pitLaneTimeByLap m)
            /\ LapEntry.pitStatus e'
               = match map_get n (pitLaneStatusByLap m) with
                 | Some x => x
                 | None => 0
                 end))
  /\ (forall n e,
        map_get n (lapsByNumber m) = Some e ->
        exists e',
          map_get n (lapsByNumber f) = Some e'
          /\ (PlayerState.currentLapNum (playerState m) <> Some n ->
              recordedFields e' = recordedFields e)).
Proof.
  cbv zeta.
  set (x5 := cachePlayerSectors lap m).
  set (x6 := setLiveLapTime lap x5).
  set (x7 := liveSectorBests r lap x6).
  set (x8 := setCurrentLap r t lap x7).
  set (x9 := finalizeLap r p lap x8).
  assert (L5 : pitLedger x5 = pitLedger m
               /\ PlayerState.currentLapNum (playerState x5)
                  = PlayerState.currentLapNum (playerState m)
               /\ ledgerView x5 = ledgerView m).
  { subst x5. unfold cachePlayerSectors. repeat break_match; repeat split. }
  destruct L5 as [L5 [C5 V5]].
  assert (L7 : pitLedger x7 = pitLedger x6
               /\ PlayerState.currentLapNum (playerState x7)
                  = PlayerState.currentLapNum (playerState x6)).
  { subst x7. unfold liveSectorBests. split; phase_frame. }
  destruct L7 as [L7 C7].
  destruct (liveSectorBests_tables r lap x6) as [_ R7]. fold x7 in R7.
  assert (L8 : pitLedger x8 = pitLedger m).
  { change (pitLedger x8) with (pitLedger x7). rewrite L7.
    change (pitLedger x6) with (pitLedger x5). exact L5. }
  assert (C8 : PlayerState.currentLapNum (playerState x8)
               = PlayerState.currentLapNum (playerState m)).
  { change (playerState x8) with (playerState x7). rewrite C7.
    change (playerState x6) with (playerState x5). exact C5. }
  assert (R8 : sameRecorded x8 m).
  { apply (@sameRecorded_trans x8 x7); [apply sameRecorded_eq; reflexivity|].
    apply (sameRecorded_trans R7). apply sameRecorded_eq.
    change (lapsByNumber x6) with (lapsByNumber x5).
    exact (proj1 (ledgerView_fields V5)). }
  assert (B8 : bestsConsistent m -> bestsConsistent x8).
  { intros H.
    apply (@bestsConsistent_same x8 x7); [reflexivity|].
    apply liveSectorBests_consistent.
    apply (@bestsConsistent_same x6 x5); [reflexivity|].
    exact (bestsConsistent_same V5 H). }
  destruct (finalizeLap_rows r p lap x8) as [L9 Hrows]. fold x9 in L9, Hrows.
  change (lapsByNumber (updateLiveDelta (rememberLap lap x9))) with (lapsByNumber x9).
  destruct (pitLedger_fields L8) as [_ [T8 S8]].
  split; [|split; [|split]].
  - transitivity (pitLedger x9); [reflexivity|]. rewrite L9. exact L8.
  - intros H.
    apply (@bestsConsistent_same _ x9); [reflexivity|].
    apply finalizeLap_consistent. exact (B8 H).
  - intros n e' He'.
    destruct Hrows as [Hsame|[q [row [b [Hq [Hl [Ht Hs]]]]]]].
    + rewrite Hsame in He'. specialize (R8 n). rewrite He' in R8.
      destruct (map_get n (lapsByNumber m)) as [e|]; [|discriminate].
      left. exists e. split; [reflexivity|].
      exact (@Some_inj _ (recordedFields e') (recordedFields e) R8).
    + rewrite Hl, map_get_markEntries, map_get_set in He'.
      destruct (q =? n) eqn:Eq.
      * apply Z.eqb_eq in Eq. subst q. injection He' as <-.
        right. split; [rewrite <- C8; exact Hq|].
        rewrite <- T8, <- S8. split; [exact Ht | exact Hs].
      * specialize (R8 n).
        destruct (map_get n (lapsByNumber x8)) as [e0|]; [|discriminate].
        injection He' as <-.
        destruct (map_get n (lapsByNumber m)) as [e|]; [|discriminate].
        left. exists e. split; [reflexivity|].
        rewrite recordedFields_markEntry.
        exact (@Some_inj _ (recordedFields e0) (recordedFields e) R8).
  - intros n e He. specialize (R8 n). rewrite He in R8.
    destruct (map_get n (lapsByNumber x8)) as [e0|] eqn:E0; [|discriminate].
    apply (@Some_inj _ (recordedFields e0) (recordedFields e)) in R8.
    destruct Hrows as [Hsame|[q [row [b [Hq [Hl _]]]]]].
    + exists e0. rewrite Hsame. split; [exact E0 | intros _; exact R8].
    + rewrite Hl. destruct (q =? n) eqn:Eq.
      * apply Z.eqb_eq in Eq. subst q. exists (markEntry b row).
        rewrite map_get_markEntries, map_get_set_eq. split; [reflexivity|].
        intros Hne. exfalso. apply Hne. rewrite <- C8. exact Hq.
      * apply Z.eqb_neq in Eq. exists (markEntry b e0).
        rewrite map_get_markEntries, map_get_set_neq, E0 by exact Eq.
        split; [reflexivity|]. intros _. rewrite recordedFields_markEntry. exact R8.
Qed.

(** The blocks before the pit-lane block, when the lap counter did not go
    back. *)
Lemma beforePitBlock_forward (lap : LapData.t) (st : State) :
  isFlashback lap st = false ->
  let s2 :=
    snapshotTyresAtLapStart lap (truncateOnFlashback lap (setCurrentPenalties lap st)) in
  playerState s2 = playerState st
  /\ pitLaneTimeByLap s2 = pitLaneTimeByLap st
  /\ pitLaneStatusByLap s2 = pitLaneStatusByLap st
  /\ lapsByNumber s2 = lapsByNumber st.
Proof.
  intros H. cbv zeta. unfold isFlashback in H.
  assert (E : truncateOnFlashback lap (setCurrentPenalties lap st)
              = setCurrentPenalties lap st).
  { unfold truncateOnFlashback.
    change (playerState (setCurrentPenalties lap st)) with (playerState st).
    destruct (PlayerState.currentLapNum (playerState st)); [rewrite H|]; reflexivity. }
  rewrite E. unfold snapshotTyresAtLapStart. repeat break_match; repeat split.
Qed.

(** The same blocks in a flashback: the stint is dropped and the pit tables
    are cut at the new lap number. *)
Lemma beforePitBlock_flashback (lap : LapData.t) (st : State) :
  isFlashback lap st = true ->
  let s2 :=
    snapshotTyresAtLapStart lap (truncateOnFlashback lap (setCurrentPenalties lap st)) in
  stintView s2 = (false, None, 0, 0)
  /\ pitLaneTimeByLap s2 = deleteFrom (LapData.currentLapNum lap) (pitLaneTimeByLap st)
  /\ pitLaneStatusByLap s2
     = deleteFrom (LapData.currentLapNum lap) (pitLaneStatusByLap st).
Proof.
  intros H. cbv zeta. unfold isFlashback in H.
  destruct (PlayerState.currentLapNum (playerState st)) as [prev|] eqn:Eprev;
    [|discriminate].
  set (s1 := truncateOnFlashback lap (setCurrentPenalties lap st)).
  assert (A : stintView s1 = (false, None, 0, 0)
              /\ pitLaneTimeByLap s1
                 = deleteFrom (LapData.currentLapNum lap) (pitLaneTimeByLap st)
              /\ pitLaneStatusByLap s1
                 = deleteFrom (LapData.currentLapNum lap) (pitLaneStatusByLap st)).
  { subst s1. unfold truncateOnFlashback, setCurrentPenalties. cbn.
    rewrite Eprev, H. repeat split. }
  destruct A as [A1 [A2 A3]]. rewrite <- A1, <- A2, <- A3.
  unfold snapshotTyresAtLapStart. repeat break_match; repeat split.
Qed.

Lemma trackPlayerPitLane_currentLapNum (lap : LapData.t) (s : State) :
  PlayerState.currentLapNum (playerState (trackPlayerPitLane lap s))
  = PlayerState.currentLapNum (playerState s).
Proof. unfold trackPlayerPitLane. phase_frame. Qed.

(** The player's section does to the pit stint what [pitStintUpdate] says. *)
Lemma playerSection_pitStint (p : Z) (lap : LapData.t) (st : State) :
  pitStintUpdate lap st (playerSection p lap st).
Proof.
  unfold pitStintUpdate. cbv zeta.
  destruct (playerSection_around_pit p lap st) as [r [t Hsec]]. rewrite Hsec. clear Hsec.
  set (s2 := snapshotTyresAtLapStart lap
               (truncateOnFlashback lap (setCurrentPenalties lap st))).
  set (m := trackPlayerPitLane lap s2).
  destruct (afterPitBlock r t p lap m) as [Hled [Hcons [Hrow1 Hrow2]]].
  match type of Hled with pitLedger ?x = _ => set (f := x) in * end.
  destruct (pitLedger_fields Hled) as [Hsv [Htm Hsm]].
  destruct (stintView_fields Hsv) as [Fa [Fs [Fm Fx]]].
  pose proof (trackPlayerPitLane_cases lap s2) as Hblock. cbv zeta in Hblock.
  fold m in Hblock.
  destruct Hblock as [Bopen [Bacc [Bkeep [Bclose Bidle]]]].
  pose proof (beforePitBlock_forward lap st) as Hfwd. cbv zeta in Hfwd. fold s2 in Hfwd.
  pose proof (beforePitBlock_flashback lap st) as Hback. cbv zeta in Hback.
  fold s2 in Hback.
  assert (Hidle : isFlashback lap st = true ->
                  PlayerState.pitLaneActive (playerState s2) = false).
  { intros Hfb. destruct (Hback Hfb) as [Hv _].
    exact (f_equal (fun v => fst (fst (fst v))) Hv). }
  split; [|split; [|split; [|split; [|split]]]].
  - intros Hflag Hor.
    assert (Hact : PlayerState.pitLaneActive (playerState s2) = false).
    { destruct (isFlashback lap st) eqn:Efb; [exact (Hidle eq_refl)|].
      destruct Hor as [Hor|Hor]; [|discriminate].
      destruct (Hfwd eq_refl) as [-> _]. exact Hor. }
    destruct (Bopen Hflag Hact) as [O1 [O2 [O3 O4]]].
    unfold stintView. rewrite Fa, Fs, Fm, Fx, O1, O2, O3, O4. reflexivity.
  - intros Hflag Hact Hfb.
    destruct (Hfwd Hfb) as [Hps _]. rewrite Hps in Bacc.
    destruct (Bacc Hflag Hact) as [A1 [A2 [A3 [A4 [A5 A6]]]]].
    split; [|split].
    + unfold stintView. rewrite Fa, Fs, Fm, Fx, A1, A2, A3, A5. reflexivity.
    + rewrite Fm. exact A4.
    + rewrite Fx. exact A6.
  - intros Hflag Hfb.
    destruct (Hfwd Hfb) as [_ [Ht [Hs _]]].
    destruct (Bkeep Hflag) as [K1 [K2 _]].
    rewrite Htm, Hsm, K1, K2. split; assumption.
  - intros Hflag Hact Hfb n Hstart.
    destruct (Hfwd Hfb) as [Hps [Ht [Hs Hl]]].
    rewrite Hps in Bclose.
    destruct (Bclose Hflag Hact n Hstart) as [C1 [C2 [C3 [C4 [Cpos Czero]]]]].
    split; [unfold stintView; rewrite Fa, Fs, Fm, Fx, C1, C2, C3, C4; reflexivity|].
    rewrite Htm, Hsm. split.
    + intros Hpos. destruct (Cpos Hpos) as [P1 [P2 [P3 [P4 P5]]]].
      split; [exact P1|]. split; [exact P2|]. split.
      { intros k Hk. rewrite <- Ht, <- Hs. exact (P3 k Hk). }
      assert (Hm : forall em, map_get n (lapsByNumber m) = Some em ->
                   exists e b,
                     map_get n (lapsByNumber st) = Some e
                     /\ bestsConsistent m
                     /\ em = markEntry b
                               (LapEntry.set_pitStatus
                                  (PlayerState.pitLanePitStatusMax (playerState st))
                                  (LapEntry.set_pitLaneTimeMs
                                     (Some (PlayerState.pitLaneMaxTimeMs (playerState st)))
                                     e))).
      { intros em Hem.
        destruct (map_get n (lapsByNumber s2)) as [e|] eqn:Ee.
        - destruct (P4 e eq_refl) as [st0 [Hm0 [Hrow _]]].
          rewrite Hm0, recomputeFromLaps_lapsByNumber, map_get_markEntries, Hrow in Hem.
          injection Hem as <-. rewrite <- Hl, Ee. do 2 eexists.
          split; [reflexivity|]. split; [|reflexivity].
          rewrite Hm0. apply bestsConsistent_recompute.
        - destruct (P5 eq_refl) as [Hsame _]. rewrite Hsame, Ee in Hem. discriminate. }
      split.
      * intros e' He'.
        destruct (Hrow1 n e' He') as [[em [Hem Hrec]]|[_ [Hpt Hpst]]].
        -- destruct (Hm em Hem) as [e [b [_ [_ ->]]]].
           apply recordedFields_pit in Hrec. exact Hrec.
        -- rewrite Hpt, Hpst, P1, P2. split; reflexivity.
      * intros e He. rewrite <- Hl in He.
        destruct (P4 e He) as [st0 [Hm0 [Hrow _]]].
        assert (Hem : map_get n (lapsByNumber m)
                      = Some (markEntry
                                (b_bestLapTimeMs (scanBests (map_values (lapsByNumber st0))))
                                (LapEntry.set_pitStatus
                                   (PlayerState.pitLanePitStatusMax (playerState st))
                                   (LapEntry.set_pitLaneTimeMs
                                      (Some (PlayerState.pitLaneMaxTimeMs (playerState st)))
                                      e)))).
        { rewrite Hm0, recomputeFromLaps_lapsByNumber, map_get_markEntries, Hrow.
          reflexivity. }
        assert (Hbc : bestsConsistent f).
        { apply Hcons. rewrite Hm0. apply bestsConsistent_recompute. }
        destruct (bestsConsistent_marks Hbc) as [Hmarks Hlaps].
        destruct (Hrow2 n _ Hem) as [e' [He' Hrec]].
        split; [|split; assumption].
        exists e'. split; [exact He'|]. split.
        -- apply Hlaps. exact (map_get_value _ _ He').
        -- intros Hne. rewrite Hrec; [apply recordedFields_markEntry|].
           unfold m. rewrite trackPlayerPitLane_currentLapNum, Hps. exact Hne.
    + intros Hle. destruct (Czero Hle) as [Z1 [Z2 _]].
      rewrite Z1, Z2. split; assumption.
  - intros Hflag Hact Hfb.
    destruct (Hfwd Hfb) as [Hps [Ht [Hs _]]].
    rewrite Hps in Bidle. rewrite Hled, (Bidle Hflag Hact).
    unfold pitLedger, stintView. rewrite Hps, Ht, Hs. reflexivity.
  - intros Hfb. destruct (Hback Hfb) as [Hv [Ht Hs]].
    pose proof (Hidle Hfb) as Hact. split.
    + intros Hflag. rewrite Hsv, (Bidle Hflag Hact). exact Hv.
    + intros k.
      destruct (@trackPlayerPitLane_idle lap s2 Hact) as [Hpv _]. fold m in Hpv.
      apply pitView_fields in Hpv. destruct Hpv as [Pt [Ps _]].
      rewrite Htm, Hsm, Pt, Ps, Ht, Hs, !map_get_deleteFrom. split; reflexivity.
Qed.
(** The predicate reads the state the update starts with through the
    player's state, the pit tables and the lap table. *)
Lemma pitStintUpdate_inputs (lap : LapData.t) (a b st' : State) :
  playerState a = playerState b ->
  pitLaneTimeByLap a = pitLaneTimeByLap b ->
  pitLaneStatusByLap a = pitLaneStatusByLap b ->
  lapsByNumber a = lapsByNumber b ->
  pitStintUpdate lap a st' -> pitStintUpdate lap b st'.
Proof.
  intros E1 E2 E3 E4 H. unfold pitStintUpdate, isFlashback, pitLedger, stintView in *.
  rewrite <- E1, <- E2, <- E3, <- E4. exact H.
Qed.

(** The blocks of the lap-data handler before the player's section leave the
    player's state, the pit tables and the lap table as the session test left
    them. *)
Lemma lapData_before_pit (buf : Buffer) (st st' : State) (out : list LapsState.t)
  (h : Header.t) :
  parseHeader buf = Ok (Some h) ->
  handleLapDataPacket buf st = Ok (st', out) ->
  exists s,
    playerState s = playerState (enterSession h st)
    /\ pitLaneTimeByLap s = pitLaneTimeByLap (enterSession h st)
    /\ pitLaneStatusByLap s = pitLaneStatusByLap (enterSession h st)
    /\ lapsByNumber s = lapsByNumber (enterSession h st)
    /\ ((st' = s /\ out = [])
        \/ (Header.playerCarIndex h < NUM_CARS
            /\ out = [lapsState st']
            /\ forall lap,
                 map_get (Header.playerCarIndex h) (lapDataByIndex st') = Some lap ->
                 st' = playerSection (Header.playerCarIndex h) lap s)).
Proof.
  intros Hh H. apply handleLapDataPacket_blocks in H.
  destruct H as [[Hn _]|[h' [st0 [st1 [Hh' [Hst0 [Hloop Hrest]]]]]]]; [congruence|].
  assert (h' = h) by congruence. subst h'.
  fold (enterSession h st) in Hst0.
  set (view := fun x : State =>
                 (playerState x, pitLaneTimeByLap x, pitLaneStatusByLap x,
                  lapsByNumber x)).
  assert (Hloop' : view st1 = view st0).
  { apply (@forEachSlot_preserves (fun x => view x = view st0)) in Hloop;
      [exact Hloop| |reflexivity].
    intros i x x' _ Hb Hx. rewrite <- Hx. revert Hb. unfold lapDataLoopBody.
    destruct (parseLapDataForCar buf _) as [[t|]|]; cbn [bind]; [| |discriminate];
      intros [= <-]; reflexivity. }
  assert (Hpub : view (publishLeaderboard (Header.playerCarIndex h) st1) = view st1).
  { unfold publishLeaderboard. cbv zeta.
    transitivity (view (fold_left raceBestsStep
                          (buildRaceCars st1 (Header.playerCarIndex h)) st1));
      [reflexivity|].
    apply (@via_mask _ view withoutRaceBests); [reflexivity|].
    apply raceBests_fold_frame. }
  assert (Hv : view (publishLeaderboard (Header.playerCarIndex h) st1)
               = view (enterSession h st)).
  { rewrite Hpub, Hloop', Hst0. reflexivity. }
  assert (Hcache : lapDataByIndex st' = lapDataByIndex st1).
  { assert (Hc : perCarLapView st'
                 = perCarLapView (publishLeaderboard (Header.playerCarIndex h) st1)).
    { destruct Hrest as [[-> _]|[lap' [_ [_ [-> _]]]]];
        [reflexivity | apply playerSection_perCarLapView]. }
    rewrite publishLeaderboard_perCarLapView in Hc.
    apply perCarLapView_fields in Hc. exact (proj1 Hc). }
  exists (publishLeaderboard (Header.playerCarIndex h) st1).
  split; [exact (f_equal (fun v => fst (fst (fst v))) Hv)|].
  split; [exact (f_equal (fun v => snd (fst (fst v))) Hv)|].
  split; [exact (f_equal (fun v => snd (fst v)) Hv)|].
  split; [exact (f_equal snd Hv)|].
  destruct Hrest as [[-> [-> _]]|[lap' [Hp [Hlap' [Hst' ->]]]]].
  - left. split; reflexivity.
  - right. split; [exact Hp|]. split; [reflexivity|].
    intros lap Hlap. rewrite Hcache, Hlap' in Hlap. injection Hlap as <-. exact Hst'.
Qed.

(** C6.  The pit stint of the player over one update.
    - The player's section takes the tracker, the pit tables and the lap
      table from the state it starts with to the state it ends with as
      [pitStintUpdate] says: a stint opens when the flag is 1 and none is
      open; while it is open and the flag is 1 the accumulated time and status
      are the maxima of the positive values seen and do not decrease; when
      the flag is no longer 1 the stint closes and, if the accumulated time is
      positive, time and status are stored under the start lap and no other,
      a row of that lap in the lap table has them as its pit fields when the
      update is over, and a row that existed is patched, the bests are
      recomputed and the published list has the rows of the table; in a
      flashback an open stint is dropped and nothing is attributed, and with
      the flag at 1 a stint opens on the new lap number.
    - A lap-data datagram that carries the player's record does so from the
      state after the session test to the state the handler leaves, and
      publishes that state.
    - A lap-data datagram without the player's record leaves the tracker and
      the pit tables as the session test left them.
    - The session test of a datagram of a new session drops an open stint and
      empties the pit tables. *)
Theorem player_pit_stint :
  (forall (p : Z) (lap : LapData.t) (st : State),
      pitStintUpdate lap st (playerSection p lap st))
  /\ (forall (buf : Buffer) (st st' : State) (out : list LapsState.t) (h : Header.t)
             (lap : LapData.t),
        parseHeader buf = Ok (Some h) ->
        handleLapDataPacket buf st = Ok (st', out) ->
        Header.playerCarIndex h < NUM_CARS ->
        map_get (Header.playerCarIndex h) (lapDataByIndex st') = Some lap ->
        pitStintUpdate lap (enterSession h st) st' /\ out = [lapsState st'])
  /\ (forall (buf : Buffer) (st st' : State) (h : Header.t),
        parseHeader buf = Ok (Some h) ->
        handleLapDataPacket buf st = Ok (st', []) ->
        pitLedger st' = pitLedger (enterSession h st))
  /\ (forall (h : Header.t) (st : State),
        sessionIsNew h st = true ->
        pitLedger (enterSession h st) = ((false, None, 0, 0), [], [])).
Proof.
  split; [exact playerSection_pitStint|]. split; [|split].
  - intros buf st st' out h lap Hh Hrun Hp Hlap.
    destruct (@lapData_before_pit _ _ _ _ _ Hh Hrun)
      as [s [E1 [E2 [E3 [E4 [[-> ->]|[_ [-> Hsec]]]]]]]].
    + exfalso.
      pose proof Hrun as Hb. apply handleLapDataPacket_blocks in Hb.
      destruct Hb as [[Hn _]|[h' [st0 [st1 [Hh' [_ [_ Hrest]]]]]]]; [congruence|].
      assert (h' = h) by congruence. subst h'.
      destruct Hrest as [[Hs [_ [Hge|Hnone]]]|[lap' [_ [_ [_ Hout]]]]];
        [lia | | discriminate Hout].
      rewrite Hs in Hlap.
      rewrite (proj1 (publishLeaderboard_frame (Header.playerCarIndex h) st1)) in Hlap.
      congruence.
    + split; [|reflexivity]. rewrite (Hsec lap Hlap).
      exact (@pitStintUpdate_inputs lap s _ _ E1 E2 E3 E4
               (playerSection_pitStint (Header.playerCarIndex h) lap s)).
  - intros buf st st' h Hh Hrun.
    destruct (@lapData_before_pit _ _ _ _ _ Hh Hrun)
      as [s [E1 [E2 [E3 [_ [[-> _]|[_ [Hout _]]]]]]]]; [|discriminate Hout].
    unfold pitLedger, stintView. rewrite E1, E2, E3. reflexivity.
  - intros h st Hnew. unfold enterSession. rewrite Hnew. reflexivity.
Qed.

(** The theorem on the last datagram of the pit visit.  The player has been in
    the pit lane since lap 10 and is on lap 11; the record has the flag back
    at 0.  The stint closes: 23000 ms and status 2 are stored under lap 10,
    and the row of lap 10, which had no time in the pit lane, has them when
    the update is over and is in the published list of laps. *)
Lemma player_pit_stint_witness :
  parseHeader (lapDatagram 88000 1500 11 0 0 0) = Ok (Some lapHeader1)
  /\ Header.playerCarIndex lapHeader1 < NUM_CARS
  /\ enterSession lapHeader1 inPitOnLap11 = inPitOnLap11
  /\ stintView inPitOnLap11 = (true, Some 10, 23000, 2)
  /\ isFlashback (recordOnLap 11) inPitOnLap11 = false
  /\ option_map LapEntry.pitLaneTimeMs (map_get 10 (lapsByNumber inPitOnLap11))
     = Some None
  /\ exists st',
       handleLapDataPacket (lapDatagram 88000 1500 11 0 0 0) inPitOnLap11
       = Ok (st', [lapsState st'])
       /\ map_get 0 (lapDataByIndex st') = Some (recordOnLap 11)
       /\ stintView st' = (false, None, 0, 0)
       /\ map_get 10 (pitLaneTimeByLap st') = Some 23000
       /\ map_get 10 (pitLaneStatusByLap st') = Some 2
       /\ (exists e',
              map_get 10 (lapsByNumber st') = Some e'
              /\ In e' (LapsState.laps (lapsState st'))
              /\ LapEntry.pitLaneTimeMs e' = Some 23000
              /\ LapEntry.pitStatus e' = 2)
       /\ rowsMarkedAgainstBest st'.
Proof.
  assert (Hh : parseHeader (lapDatagram 88000 1500 11 0 0 0) = Ok (Some lapHeader1))
    by (vm_compute; reflexivity).
  assert (Hp : Header.playerCarIndex lapHeader1 < NUM_CARS) by (vm_compute; reflexivity).
  assert (Hsame : enterSession lapHeader1 inPitOnLap11 = inPitOnLap11)
    by (vm_compute; reflexivity).
  assert (Hview : stintView inPitOnLap11 = (true, Some 10, 23000, 2))
    by (vm_compute; reflexivity).
  assert (Hfb : isFlashback (recordOnLap 11) inPitOnLap11 = false)
    by (vm_compute; reflexivity).
  assert (Hflag : LapData.pitLaneTimerActive (recordOnLap 11) <> 1) by (cbn; lia).
  assert (Hact : PlayerState.pitLaneActive (playerState inPitOnLap11) = true)
    by (vm_compute; reflexivity).
  assert (Hstart : PlayerState.pitLaneStartLapNum (playerState inPitOnLap11) = Some 10)
    by (vm_compute; reflexivity).
  assert (Htime : PlayerState.pitLaneMaxTimeMs (playerState inPitOnLap11) = 23000)
    by (vm_compute; reflexivity).
  assert (Hstatus : PlayerState.pitLanePitStatusMax (playerState inPitOnLap11) = 2)
    by (vm_compute; reflexivity).
  destruct (map_get 10 (lapsByNumber inPitOnLap11)) as [e|] eqn:Erow;
    [|vm_compute in Erow; discriminate].
  assert (Hnone : LapEntry.pitLaneTimeMs e = None)
    by (vm_compute in Erow; injection Erow as <-; reflexivity).
  split; [exact Hh|]. split; [exact Hp|]. split; [exact Hsame|].
  split; [exact Hview|]. split; [exact Hfb|].
  split; [cbn [option_map]; rewrite Hnone; reflexivity|].
  destruct (handleLapDataPacket (lapDatagram 88000 1500 11 0 0 0) inPitOnLap11)
    as [[st' out]|] eqn:Hrun; [|vm_compute in Hrun; discriminate].
  assert (Hlap : map_get (Header.playerCarIndex lapHeader1) (lapDataByIndex st')
                 = Some (recordOnLap 11))
    by (vm_compute in Hrun; injection Hrun as <- _; reflexivity).
  destruct (proj1 (proj2 player_pit_stint) _ _ _ _ _ _ Hh Hrun Hp Hlap) as [Hup ->].
  rewrite Hsame in Hup. unfold pitStintUpdate in Hup. cbv zeta in Hup.
  destruct Hup as [_ [_ [_ [Hclose _]]]].
  destruct (Hclose Hflag Hact Hfb 10 Hstart) as [Hidle [Hpos _]].
  rewrite Htime, Hstatus in Hpos.
  destruct Hpos as [Ht [Hs [_ [Hfields Hrow]]]]; [lia|].
  destruct (Hrow e Erow) as [[e' [He' [Hin _]]] [Hmarks _]].
  destruct (Hfields e' He') as [F1 F2].
  exists st'. split; [reflexivity|]. split; [exact Hlap|]. split; [exact Hidle|].
  split; [exact Ht|]. split; [exact Hs|]. split; [|exact Hmarks].
  exists e'. split; [exact He'|]. split; [exact Hin|].
  split; [exact F1 | exact F2].
Defined.

(** A flashback in the pit lane opens the stint again.  After four records of
    the pit visit the stint that opened on lap 10 has 23000 ms and status 2;
    the flag is 1 in the cached record.  The next record is on lap 9 with the
    flag still 1, 5000 ms in the lane and status 1: the stint now starts on
    lap 9 with 5000 ms and status 1, the accumulated time has gone down, and
    nothing has been stored in the pit tables. *)
Lemma flashback_reopens_pit_stint :
  stintView (stateAfter (firstn 4 pitVisit)) = (true, Some 10, 23000, 2)
  /\ option_map LapData.pitLaneTimerActive
       (map_get 0 (lapDataByIndex (stateAfter (firstn 4 pitVisit)))) = Some 1
  /\ option_map LapData.pitLaneTimerActive
       (map_get 0 (lapDataByIndex (stateAfter (firstn 4 pitVisit ++ [backToLap9InLane]))))
     = Some 1
  /\ stintView (stateAfter (firstn 4 pitVisit ++ [backToLap9InLane]))
     = (true, Some 9, 5000, 1)
  /\ PlayerState.pitLaneMaxTimeMs
       (playerState (stateAfter (firstn 4 pitVisit ++ [backToLap9InLane])))
     < PlayerState.pitLaneMaxTimeMs (playerState (stateAfter (firstn 4 pitVisit)))
  /\ pitLaneTimeByLap (stateAfter (firstn 4 pitVisit ++ [backToLap9InLane])) = []
  /\ pitLaneStatusByLap (stateAfter (firstn 4 pitVisit ++ [backToLap9InLane])) = [].
Proof. vm_compute. repeat split. Qed.
(** * The gaps of the leaderboard *)

Lemma cmpByLapTime_set_gap (ga gb : option Z) (a b : RaceCar.t) :
  cmpByLapTime (RaceCar.set_gapToCarAheadMs ga a) (RaceCar.set_gapToCarAheadMs gb b)
  = cmpByLapTime a b.
Proof. reflexivity. Qed.

Lemma cmpByPosition_set_gap (ga gb : option Z) (a b : RaceCar.t) :
  cmpByPosition (RaceCar.set_gapToCarAheadMs ga a) (RaceCar.set_gapToCarAheadMs gb b)
  = cmpByPosition a b.
Proof. reflexivity. Qed.

Lemma cmpByPosition_total (a b : RaceCar.t) :
  cmpByPosition a b <= 0 \/ cmpByPosition b a <= 0.
Proof. unfold cmpByPosition. lia. Qed.

(** Rows that differ from sorted rows in the gap only are sorted. *)
Lemma Sorted_rows (cmp : RaceCar.t -> RaceCar.t -> Z) (out l : list RaceCar.t) :
  (forall ga gb a b,
     cmp (RaceCar.set_gapToCarAheadMs ga a) (RaceCar.set_gapToCarAheadMs gb b) = cmp a b) ->
  Forall2 (fun c' c => exists g, c' = RaceCar.set_gapToCarAheadMs g c) out l ->
  Sorted (fun a b => cmp a b <= 0) l ->
  Sorted (fun a b => cmp a b <= 0) out.
Proof.
  intros Hcmp F. induction F as [|x y out l [g ->] F IH]; intros Hs; [constructor|].
  inversion Hs as [|? ? Hs' Hhd]; subst. constructor; [exact (IH Hs')|].
  destruct F as [|x' y' out l [g' ->] _]; constructor.
  inversion Hhd; subst. rewrite Hcmp. assumption.
Qed.

(** The gap loop of practice and qualifying, row by row. *)
Lemma gapsByLapTime_nth (l : list RaceCar.t) (prev : option RaceCar.t) (i : nat)
  (c : RaceCar.t) :
  nth_error (gapsByLapTime prev l) i = Some c ->
  RaceCar.gapToCarAheadMs c
  = lapTimeGap match i with
               | O => prev
               | S j => nth_error (gapsByLapTime prev l) j
               end c.
Proof.
  revert prev i. induction l as [|cur rest IH]; intros prev i.
  - destruct i; discriminate.
  - cbn [gapsByLapTime]. cbv zeta.
    match goal with |- context [?x :: gapsByLapTime (Some ?x) rest] => set (cur' := x) end.
    destruct i as [|j]; cbn [nth_error].
    + intros [= <-]. subst cur'. unfold lapTimeGap.
      destruct prev as [p|]; [|reflexivity].
      destruct (RaceCar.lapTimeMs cur) as [x|] eqn:Ex;
        destruct (RaceCar.lapTimeMs p) as [y|] eqn:Ey; cbn; rewrite ?Ex; reflexivity.
    + intros H. rewrite (IH (Some cur') j H).
      destruct j; reflexivity.
Qed.

(** The gap loop of the race, row by row: the row keeps its car, and its gap
    follows from the gap it came with. *)
Lemma gapsByPosition_nth (l : list RaceCar.t) (prev : option RaceCar.t) (i : nat)
  (c : RaceCar.t) :
  nth_error (gapsByPosition prev l) i = Some c ->
  exists c0,
    nth_error l i = Some c0
    /\ RaceCar.carIndex c = RaceCar.carIndex c0
    /\ RaceCar.gapToCarAheadMs c
       = raceGap (RaceCar.gapToCarAheadMs c0)
           match i with
           | O => prev
           | S j => nth_error (gapsByPosition prev l) j
           end c.
Proof.
  revert prev i. induction l as [|cur rest IH]; intros prev i.
  - destruct i; discriminate.
  - cbn [gapsByPosition]. cbv zeta.
    match goal with |- context [?x :: gapsByPosition (Some ?x) rest] => set (cur' := x) end.
    destruct i as [|j]; cbn [nth_error].
    + intros [= <-]. exists cur. split; [reflexivity|]. subst cur'. unfold raceGap.
      destruct (RaceCar.position cur =? 1) eqn:Ep.
      { cbn. rewrite Ep. split; reflexivity. }
      destruct (RaceCar.gapToCarAheadMs cur) as [g|] eqn:Eg.
      { rewrite Ep, Eg. split; reflexivity. }
      destruct (RaceCar.gapToLeaderMs cur) as [cl|] eqn:Ecl.
      2: { rewrite Ep, Eg, Ecl. split; reflexivity. }
      destruct prev as [p|].
      2: { rewrite Ep, Eg, Ecl. split; reflexivity. }
      destruct (RaceCar.gapToLeaderMs p) as [pl|] eqn:Epl.
      2: { rewrite Ep, Eg, Ecl. split; reflexivity. }
      cbn. rewrite Ep, Ecl. split; reflexivity.
    + intros H. destruct (IH (Some cur') j H) as [c0 [H0 [Hi Hg]]].
      exists c0. split; [exact H0|]. split; [exact Hi|]. rewrite Hg.
      destruct j; reflexivity.
Qed.

Lemma map_of_pairs_fold_has (V : Type) (l : list (Z * V)) (acc : JSMap V) (k : Z) :
  In k (map fst l) \/ map_get k acc <> None ->
  map_get k (fold_left (fun m kv => map_set (fst kv) (snd kv) m) l acc) <> None.
Proof.
  revert acc. induction l as [|[k0 v0] l IH]; intros acc; simpl.
  - intros [[]|H]. exact H.
  - intros H. apply IH.
    destruct H as [[H|H]|H]; [right | left; exact H | right].
    + subst k0. rewrite map_get_set_eq. discriminate.
    + rewrite map_get_set. destruct (k0 =? k); [discriminate | exact H].
Qed.

Lemma Forall2_map_eq (A B : Type) (R : A -> B -> Prop) (f : B -> A)
  (l : list A) (l' : list B) :
  Forall2 R l l' -> (forall a b, In a l -> R a b -> f b = a) -> l = map f l'.
Proof.
  induction 1 as [|x y l l' Hxy _ IH]; intros H; [reflexivity|].
  simpl. rewrite (H x y (or_introl eq_refl) Hxy). f_equal.
  apply IH. intros a b Ha. apply H. right. exact Ha.
Qed.

Lemma Forall2_carIndex (out l : list RaceCar.t) :
  Forall2 (fun c' c => exists g, c' = RaceCar.set_gapToCarAheadMs g c) out l ->
  map RaceCar.carIndex out = map RaceCar.carIndex l.
Proof.
  induction 1 as [|x y out l [g ->] _ IH]; [reflexivity|].
  simpl. rewrite IH. reflexivity.
Qed.

(** Putting the processed rows back in the order of the raw rows permutes
    them. *)
Lemma reorderLike_perm (raw sorted processed : list RaceCar.t) :
  NoDup (map RaceCar.carIndex raw) ->
  Permutation sorted raw ->
  Forall2 (fun c' c => exists g, c' = RaceCar.set_gapToCarAheadMs g c) processed sorted ->
  Permutation processed (reorderLike raw processed).
Proof.
  intros Hnd Hperm Hrows.
  assert (Hndp : NoDup (map RaceCar.carIndex processed)).
  { rewrite (@Forall2_carIndex _ _ Hrows).
    refine (Permutation_NoDup _ Hnd). symmetry. apply Permutation_map. exact Hperm. }
  set (u := fun c : RaceCar.t =>
              match map_get (RaceCar.carIndex c)
                      (map_of_pairs (map (fun c => (RaceCar.carIndex c, c)) processed)) with
              | Some c' => c'
              | None => c
              end).
  change (reorderLike raw processed) with (map u raw).
  assert (E : processed = map u sorted).
  { apply (@Forall2_map_eq _ _ _ u _ _ Hrows). intros c' c Hin [g Hg]. subst u. cbv beta.
    assert (Hk : RaceCar.carIndex c = RaceCar.carIndex c') by (rewrite Hg; reflexivity).
    rewrite Hk.
    match goal with |- context [map_get ?k ?m] => destruct (map_get k m) as [c''|] eqn:E end.
    - apply map_of_pairs_get in E. apply in_map_iff in E.
      destruct E as [c1 [[= Hk1 ->] Hin1]].
      exact (@NoDup_map_same _ RaceCar.carIndex processed _ _ Hndp Hin1 Hin Hk1).
    - exfalso. revert E. unfold map_of_pairs. apply map_of_pairs_fold_has. left.
      rewrite map_map. cbn [fst]. apply in_map. exact Hin. }
  rewrite E at 1. apply Permutation_map. exact Hperm.
Qed.

(** The leaderboard in the order in which its gaps are computed. *)
Lemma buildRaceCars_gapRule (st : State) (p : Z) :
  NoDup (map_keys (lapDataByIndex st)) ->
  exists order,
    Permutation order (buildRaceCars st p)
    /\ (LapsState.sessionKind (lapsState st) = Some time_attack ->
        Sorted (fun a b => cmpByLapTime a b <= 0) order
        /\ forall i c, nth_error order i = Some c ->
             RaceCar.gapToCarAheadMs c = lapTimeGap (rowAhead order i) c)
    /\ (LapsState.sessionKind (lapsState st) <> Some time_attack ->
        Sorted (fun a b => cmpByPosition a b <= 0) order
        /\ forall i c lap, nth_error order i = Some c ->
             map_get (RaceCar.carIndex c) (lapDataByIndex st) = Some lap ->
             RaceCar.gapToCarAheadMs c
             = raceGap (LapData.deltaToCarInFrontMs lap) (rowAhead order i) c).
Proof.
  intros Hnd. unfold buildRaceCars. cbv zeta.
  set (rows := filter (onLeaderboard st p) (lapDataByIndex st)).
  set (raw := map (toRaceCar st) rows).
  assert (Hraw : NoDup (map RaceCar.carIndex raw)).
  { subst raw. rewrite map_map. exact (@NoDup_map_filter _ fst _ _ Hnd). }
  assert (Hrace :
    exists order,
      Permutation order (reorderLike raw (gapsByPosition None (js_sort cmpByPosition raw)))
      /\ Sorted (fun a b => cmpByPosition a b <= 0) order
      /\ forall i c lap, nth_error order i = Some c ->
           map_get (RaceCar.carIndex c) (lapDataByIndex st) = Some lap ->
           RaceCar.gapToCarAheadMs c
           = raceGap (LapData.deltaToCarInFrontMs lap) (rowAhead order i) c).
  { exists (gapsByPosition None (js_sort cmpByPosition raw)). split; [|split].
    - exact (@reorderLike_perm raw _ _ Hraw (js_sort_perm _ _) (gapsByPosition_rows _ _)).
    - refine (@Sorted_rows cmpByPosition _ _ cmpByPosition_set_gap (gapsByPosition_rows _ _) _).
      apply js_sort_sorted. exact cmpByPosition_total.
    - intros i c lap Hi Hlap.
      destruct (@gapsByPosition_nth _ _ _ _ Hi) as [c0 [H0 [Hk Hg]]].
      assert (Hin : In c0 raw).
      { apply (Permutation_in _ (js_sort_perm cmpByPosition raw)).
        exact (nth_error_In _ _ H0). }
      subst raw. apply in_map_iff in Hin. destruct Hin as [[k lap0] [<- Hin]].
      apply filter_In in Hin. destruct Hin as [Hin _].
      apply (@In_map_get _ _ _ _ Hnd) in Hin.
      rewrite Hk in Hlap. cbn in Hlap. rewrite Hin in Hlap. injection Hlap as <-.
      exact Hg. }
  destruct (LapsState.sessionKind (lapsState st)) as [[| |]|] eqn:Ekind.
  3: { exists (gapsByLapTime None (js_sort cmpByLapTime raw)). split; [|split].
       - exact (@reorderLike_perm raw _ _ Hraw (js_sort_perm _ _) (gapsByLapTime_rows _ _)).
       - intros _. split.
         + refine (@Sorted_rows cmpByLapTime _ _ cmpByLapTime_set_gap (gapsByLapTime_rows _ _) _).
           apply js_sort_sorted. exact cmpByLapTime_total.
         + intros i c Hi. exact (@gapsByLapTime_nth _ _ _ _ Hi).
       - intros H. contradiction. }
  all: destruct Hrace as [order [H1 [H2 H3]]]; exists order;
    (split; [exact H1|]); (split; [discriminate|]); intros _; split; assumption.
Qed.

(** X20.  The gaps to the car ahead on the leaderboard.
    - In every state the server reaches by handling datagrams no row shows a
      negative gap.
    - The leaderboard a lap-data datagram leaves is, in some order, a list
      sorted as the gaps are computed.  In practice and qualifying the list
      is in the order of displayed lap time, rows without a time last and
      equal times by position, and the gap of a row is its lap time minus
      that of the row ahead in the list, absent for the first row and when
      one of the two has no time.  In any other session the list is in the
      order of position, and the gap of a row is none for position 1, else
      the gap to the car in front of its cached lap record when the record
      has one, else its gap to the leader minus that of the row ahead when
      both are known and the difference is not negative, else none. *)
Theorem leaderboard_gaps_not_negative :
  (forall st : State,
      reachable st ->
      forall c g,
        In c (LapsState.raceCars (lapsState st)) ->
        RaceCar.gapToCarAheadMs c = Some g -> 0 <= g)
  /\ (forall (buf : Buffer) (st st' : State) (out : list LapsState.t) (h : Header.t),
        reachable st ->
        parseHeader buf = Ok (Some h) ->
        handleLapDataPacket buf st = Ok (st', out) ->
        exists order,
          Permutation order (LapsState.raceCars (lapsState st'))
          /\ (LapsState.sessionKind (lapsState st') = Some time_attack ->
              Sorted (fun a b => cmpByLapTime a b <= 0) order
              /\ forall i c, nth_error order i = Some c ->
                   RaceCar.gapToCarAheadMs c = lapTimeGap (rowAhead order i) c)
          /\ (LapsState.sessionKind (lapsState st') <> Some time_attack ->
              Sorted (fun a b => cmpByPosition a b <= 0) order
              /\ forall i c lap, nth_error order i = Some c ->
                   map_get (RaceCar.carIndex c) (lapDataByIndex st') = Some lap ->
                   RaceCar.gapToCarAheadMs c
                   = raceGap (LapData.deltaToCarInFrontMs lap) (rowAhead order i) c)).
Proof.
  split.
  { intros st Hr. exact (proj1 (proj2 (@reachable_boardOK st Hr))). }
  intros buf st st' out h Hr Hh Hrun.
  destruct (@handleLapDataPacket_invariants buf st st' out Hrun
              (reachable_invariants Hr)) as [_ [Hnd _]].
  unfold lapDataKeysUnique in Hnd.
  apply handleLapDataPacket_blocks in Hrun.
  destruct Hrun as [[Hn _]|[h' [st0 [st1 [Hh' [_ [_ Hrest]]]]]]]; [congruence|].
  assert (h' = h) by congruence. subst h'.
  set (p := Header.playerCarIndex h) in *.
  assert (Hb : boardView st' = boardView (publishLeaderboard p st1)).
  { destruct Hrest as [[-> _]|[lap [_ [_ [-> _]]]]];
      [reflexivity | apply playerSection_boardView]. }
  assert (Hk : keptByLapData st' = keptByLapData st1).
  { rewrite <- (publishLeaderboard_keptByLapData p st1).
    destruct Hrest as [[-> _]|[lap [_ [_ [-> _]]]]];
      [reflexivity | apply playerSection_keptByLapData]. }
  apply boardView_fields in Hb. destruct Hb as [Hcars [Hl _]].
  rewrite publishLeaderboard_raceCars in Hcars.
  rewrite (proj1 (publishLeaderboard_frame p st1)) in Hl.
  apply keptByLapData_fields in Hk.
  destruct Hk as [_ [_ [_ [_ [_ [_ [_ [_ [_ Hkind]]]]]]]]].
  rewrite Hcars, Hl, Hkind. rewrite Hl in Hnd.
  exact (@buildRaceCars_gapRule st1 p Hnd).
Qed.

(** The theorem in qualifying and in a session of no known kind.
    - In qualifying the player in slot 0 has a best lap of 80000 ms and the
      car in slot 2 one of 78000 ms; after a complete lap-data datagram the
      leaderboard lists slot 0 with a gap of 2000 ms and slot 2 with none, and
      in the order of lap time slot 2 is first and slot 0 second.
    - Before any session datagram, the lap record of the player in position 3
      reports 1500 ms to the car in front, and the row has that gap. *)
Lemma leaderboard_gaps_not_negative_witness :
  reachable (stateAfter qualifyingSoFar)
  /\ reachable (stateAfter [participantsDatagram])
  /\ parseHeader fullLapDatagram = Ok (Some lapHeader1)
  /\ parseHeader sectorLapDatagram = Ok (Some lapHeader1)
  /\ (exists st' out,
         handleLapDataPacket fullLapDatagram (stateAfter qualifyingSoFar) = Ok (st', out)
         /\ LapsState.sessionKind (lapsState st') = Some time_attack
         /\ map (fun c => (RaceCar.carIndex c, RaceCar.lapTimeMs c,
                           RaceCar.gapToCarAheadMs c))
              (LapsState.raceCars (lapsState st'))
            = [(0, Some 80000, Some 2000); (2, Some 78000, None)]
         /\ (forall c g, In c (LapsState.raceCars (lapsState st')) ->
               RaceCar.gapToCarAheadMs c = Some g -> 0 <= g)
         /\ exists order,
              Permutation order (LapsState.raceCars (lapsState st'))
              /\ Sorted (fun a b => cmpByLapTime a b <= 0) order
              /\ forall i c, nth_error order i = Some c ->
                   RaceCar.gapToCarAheadMs c = lapTimeGap (rowAhead order i) c)
  /\ (exists st' out,
         handleLapDataPacket sectorLapDatagram (stateAfter [participantsDatagram])
         = Ok (st', out)
         /\ LapsState.sessionKind (lapsState st') <> Some time_attack
         /\ map (fun c => (RaceCar.carIndex c, RaceCar.position c,
                           RaceCar.gapToCarAheadMs c))
              (LapsState.raceCars (lapsState st'))
            = [(0, 3, Some 1500)]
         /\ exists order,
              Permutation order (LapsState.raceCars (lapsState st'))
              /\ Sorted (fun a b => cmpByPosition a b <= 0) order
              /\ forall i c lap, nth_error order i = Some c ->
                   map_get (RaceCar.carIndex c) (lapDataByIndex st') = Some lap ->
                   RaceCar.gapToCarAheadMs c
                   = raceGap (LapData.deltaToCarInFrontMs lap) (rowAhead order i) c).
Proof.
  assert (Hreach : reachable (stateAfter qualifyingSoFar)).
  { apply (@reachable_feed qualifyingSoFar initialState);
      [apply reachable_initial | vm_compute; reflexivity]. }
  assert (Hreach2 : reachable (stateAfter [participantsDatagram])).
  { apply (@reachable_feed [participantsDatagram] initialState);
      [apply reachable_initial | vm_compute; reflexivity]. }
  assert (Hh : parseHeader fullLapDatagram = Ok (Some lapHeader1))
    by (vm_compute; reflexivity).
  assert (Hh2 : parseHeader sectorLapDatagram = Ok (Some lapHeader1))
    by (vm_compute; reflexivity).
  split; [exact Hreach|]. split; [exact Hreach2|].
  split; [exact Hh|]. split; [exact Hh2|].
  destruct leaderboard_gaps_not_negative as [Hpos Hrule].
  split.
  - destruct (handleLapDataPacket fullLapDatagram (stateAfter qualifyingSoFar))
      as [[st' out]|] eqn:Hrun; [|vm_compute in Hrun; discriminate].
    assert (Hkind : LapsState.sessionKind (lapsState st') = Some time_attack)
      by (vm_compute in Hrun; injection Hrun as <- _; reflexivity).
    assert (Hrows : map (fun c => (RaceCar.carIndex c, RaceCar.lapTimeMs c,
                                   RaceCar.gapToCarAheadMs c))
                      (LapsState.raceCars (lapsState st'))
                    = [(0, Some 80000, Some 2000); (2, Some 78000, None)])
      by (vm_compute in Hrun; injection Hrun as <- _; reflexivity).
    assert (Hreach' : reachable st').
    { refine (@reachable_message _ st' fullLapDatagram out Hreach _).
      unfold onMessage. rewrite Hh. cbn [bind]. exact Hrun. }
    destruct (Hrule fullLapDatagram _ st' out lapHeader1 Hreach Hh Hrun)
      as [order [Hperm [Hq _]]].
    exists st', out. split; [reflexivity|]. split; [exact Hkind|].
    split; [exact Hrows|]. split; [exact (Hpos st' Hreach')|].
    exists order. split; [exact Hperm|]. exact (Hq Hkind).
  - destruct (handleLapDataPacket sectorLapDatagram (stateAfter [participantsDatagram]))
      as [[st' out]|] eqn:Hrun; [|vm_compute in Hrun; discriminate].
    assert (Hkind : LapsState.sessionKind (lapsState st') <> Some time_attack)
      by (vm_compute in Hrun; injection Hrun as <- _; discriminate).
    assert (Hrows : map (fun c => (RaceCar.carIndex c, RaceCar.position c,
                                   RaceCar.gapToCarAheadMs c))
                      (LapsState.raceCars (lapsState st'))
                    = [(0, 3, Some 1500)])
      by (vm_compute in Hrun; injection Hrun as <- _; reflexivity).
    destruct (Hrule sectorLapDatagram _ st' out lapHeader1 Hreach2 Hh2 Hrun)
      as [order [Hperm [_ Hr]]].
    exists st', out. split; [reflexivity|]. split; [exact Hkind|].
    split; [exact Hrows|].
    exists order. split; [exact Hperm|]. exact (Hr Hkind).
Defined.
